(** * node.gl: GPU context dispatcher and OpenGL backend

    A shallow embedding of [libnodegl/src/api.c] (the public [ngl_*] entry
    points, the backend-agnostic [ngli_ctx_*] layer, the command mailbox and
    backend probing) and of [libnodegl/src/backends/gl/gpu_ctx_gl.c] together
    with [rendertarget_gl.c] (the OpenGL GPU context and its default render
    targets).

    Conventions.
    - A C [int] result is a [Z]; negative values are errors.
    - An [int] used only as a truth value ([offscreen], [hud], [configured],
      [external], [wrapped]) is a [bool].
    - A pointer that may be [NULL] is an [option]; dereferencing [NULL] or a
      failing [ngli_assert] is the [None] outcome of the monad [M].
    - Driver and allocator behaviour is not decided by the code; it is read
      from a [driver] record of oracles, so every statement quantifies over
      all drivers. *)

From Stdlib Require Import ZArith List String Bool Lia QArith.
Import ListNotations.
Close Scope Q_scope.
Open Scope Z_scope.

(* ================================================================== *)
(** * Return codes, logging *)
(* ================================================================== *)

Inductive ngl_error :=
| E_GENERIC | E_INVALID_ARG | E_INVALID_USAGE | E_UNSUPPORTED | E_MEMORY
| E_GRAPHICS_UNSUPPORTED | E_EXTERNAL.

(** Modelled from the spec: the [NGL_ERROR_*] macros live in [nodegl.h],
    which is not part of the sources at hand.  The spec fixes only that error
    codes are negative integers, one per error kind; the encoding below is
    the simplest one with that property and nothing in this development
    depends on more than negativity and distinctness. *)
Definition error_code (e : ngl_error) : Z :=
  match e with
  | E_GENERIC => -1
  | E_INVALID_ARG => -2
  | E_INVALID_USAGE => -3
  | E_UNSUPPORTED => -4
  | E_MEMORY => -5
  | E_GRAPHICS_UNSUPPORTED => -6
  | E_EXTERNAL => -7
  end.

Definition NGL_ERROR_INVALID_ARG := error_code E_INVALID_ARG.
Definition NGL_ERROR_INVALID_USAGE := error_code E_INVALID_USAGE.
Definition NGL_ERROR_UNSUPPORTED := error_code E_UNSUPPORTED.
Definition NGL_ERROR_MEMORY := error_code E_MEMORY.
Definition NGL_ERROR_GRAPHICS_UNSUPPORTED := error_code E_GRAPHICS_UNSUPPORTED.
Definition NGL_ERROR_EXTERNAL := error_code E_EXTERNAL.

Inductive log_level := DEBUG | INFO | WARNING | ERROR.

(** One [LOG(level, fmt, ...)] call; the format string identifies it. *)
Definition log_entry : Type := log_level * string.

(* ================================================================== *)
(** * Public configuration ([struct ngl_config], [struct ngl_config_gl]) *)
(* ================================================================== *)

(** Addresses of caller-owned objects (capture buffers, windows). *)
Definition ptr := Z.

(** Modelled from the spec: backend ids are declared in [nodegl.h]
    ([AUTO | OPENGL | OPENGLES | VULKAN]); [api_map] is indexed by them and
    has [NGL_NB_BACKEND] slots. *)
Definition NGL_BACKEND_AUTO : Z := 0.
Definition NGL_BACKEND_OPENGL : Z := 1.
Definition NGL_BACKEND_OPENGLES : Z := 2.
Definition NGL_BACKEND_VULKAN : Z := 3.
Definition NGL_NB_BACKEND : Z := 4.

(** Modelled from the spec: [NGL_PLATFORM_AUTO] is the zero value of the
    platform field; the concrete platform ids are never inspected here. *)
Definition NGL_PLATFORM_AUTO : Z := 0.

(** [config->capture_buffer_type] is an [int]; values other than the two
    known ones are kept as [CAPTURE_BUFFER_TYPE_OTHER]. *)
Inductive capture_buffer_type_t :=
| NGL_CAPTURE_BUFFER_TYPE_CPU
| NGL_CAPTURE_BUFFER_TYPE_COREVIDEO
| CAPTURE_BUFFER_TYPE_OTHER (v : Z).

Record ngl_config_gl := {
  external : bool;
  external_framebuffer : Z
}.

(** C [float] values.  The modelled functions only copy float constants
    around (all arithmetic is in [ngli_mat4_mul], which is a parameter), so
    any type containing the literals does; rationals contain every finite
    float. *)
Definition float := Q.

Record ngl_config := {
  platform : Z;
  backend : Z;
  backend_config : option ngl_config_gl;
  display : ptr;
  window : ptr;
  swap_interval : Z;
  offscreen : bool;
  width : Z;
  height : Z;
  viewport : list Z;
  samples : Z;
  set_surface_pts : bool;
  clear_color : list float;
  capture_buffer : option ptr;
  capture_buffer_type : capture_buffer_type_t;
  hud : bool
}.

Definition set_width_height (w h : Z) (c : ngl_config) : ngl_config :=
  {| platform := platform c; backend := backend c;
     backend_config := backend_config c; display := display c;
     window := window c; swap_interval := swap_interval c;
     offscreen := offscreen c; width := w; height := h;
     viewport := viewport c; samples := samples c;
     set_surface_pts := set_surface_pts c; clear_color := clear_color c;
     capture_buffer := capture_buffer c;
     capture_buffer_type := capture_buffer_type c; hud := hud c |}.

Definition set_samples (n : Z) (c : ngl_config) : ngl_config :=
  {| platform := platform c; backend := backend c;
     backend_config := backend_config c; display := display c;
     window := window c; swap_interval := swap_interval c;
     offscreen := offscreen c; width := width c; height := height c;
     viewport := viewport c; samples := n;
     set_surface_pts := set_surface_pts c; clear_color := clear_color c;
     capture_buffer := capture_buffer c;
     capture_buffer_type := capture_buffer_type c; hud := hud c |}.

Definition set_capture_buffer (p : option ptr) (c : ngl_config) : ngl_config :=
  {| platform := platform c; backend := backend c;
     backend_config := backend_config c; display := display c;
     window := window c; swap_interval := swap_interval c;
     offscreen := offscreen c; width := width c; height := height c;
     viewport := viewport c; samples := samples c;
     set_surface_pts := set_surface_pts c; clear_color := clear_color c;
     capture_buffer := p;
     capture_buffer_type := capture_buffer_type c; hud := hud c |}.

Definition set_backend_config (g : option ngl_config_gl) (c : ngl_config) : ngl_config :=
  {| platform := platform c; backend := backend c;
     backend_config := g; display := display c;
     window := window c; swap_interval := swap_interval c;
     offscreen := offscreen c; width := width c; height := height c;
     viewport := viewport c; samples := samples c;
     set_surface_pts := set_surface_pts c; clear_color := clear_color c;
     capture_buffer := capture_buffer c;
     capture_buffer_type := capture_buffer_type c; hud := hud c |}.

Definition set_backend_platform (b p : Z) (c : ngl_config) : ngl_config :=
  {| platform := p; backend := b;
     backend_config := backend_config c; display := display c;
     window := window c; swap_interval := swap_interval c;
     offscreen := offscreen c; width := width c; height := height c;
     viewport := viewport c; samples := samples c;
     set_surface_pts := set_surface_pts c; clear_color := clear_color c;
     capture_buffer := capture_buffer c;
     capture_buffer_type := capture_buffer_type c; hud := hud c |}.

(** [config_gl ? config_gl->external : 0] *)
Definition is_external (c : ngl_config) : bool :=
  match backend_config c with
  | Some g => external g
  | None => false
  end.

(* ================================================================== *)
(** * A state monad with a crash outcome *)
(* ================================================================== *)

(** [None] is undefined behaviour of the C program (a [NULL] dereference or
    a failed [ngli_assert]); [Some (a, s)] is a normal return. *)
Definition M (S A : Type) : Type := S -> option (A * S).

Definition ret {S A} (a : A) : M S A := fun s => Some (a, s).

Definition bind {S A B} (m : M S A) (k : A -> M S B) : M S B :=
  fun s => match m s with
           | Some (a, s') => k a s'
           | None => None
           end.

Definition get {S} : M S S := fun s => Some (s, s).
Definition gets {S A} (f : S -> A) : M S A := fun s => Some (f s, s).
Definition modify {S} (f : S -> S) : M S unit := fun s => Some (tt, f s).
Definition crash {S A} : M S A := fun _ => None.

(** Dereference of a pointer held in the state. *)
Definition deref {S A} (f : S -> option A) : M S A :=
  fun s => match f s with
           | Some a => Some (a, s)
           | None => None
           end.

Declare Scope monad_scope.
Delimit Scope monad_scope with monad.
Notation "x <- m ;; k" := (bind m (fun x => k))
  (at level 61, m at next level, right associativity) : monad_scope.
Notation "m ;; k" := (bind m (fun _ => k))
  (at level 61, right associativity) : monad_scope.
(** [ret = f(...); if (ret < 0) return ret;] *)
Notation "'try!' m ;; k" :=
  (bind m (fun r => if r <? 0 then ret r else k))
  (at level 61, m at next level, right associativity) : monad_scope.
Open Scope monad_scope.

(* ================================================================== *)
(** * Build configuration *)
(* ================================================================== *)

(** The [TARGET_*] macro selected by the build ([config.h]). *)
Inductive target_os :=
| TARGET_LINUX | TARGET_IPHONE | TARGET_DARWIN | TARGET_ANDROID
| TARGET_WINDOWS | TARGET_OTHER.

(** The preprocessor switches read by the two source files. *)
Record build := {
  BACKEND_GL : bool;
  BACKEND_GLES : bool;
  BACKEND_VK : bool;
  target : target_os
}.

(** [#if defined(TARGET_IPHONE) || defined(TARGET_DARWIN)] *)
Definition target_apple (b : build) : bool :=
  match target b with
  | TARGET_IPHONE | TARGET_DARWIN => true
  | _ => false
  end.

(** [DEFAULT_BACKEND] *)
Definition DEFAULT_BACKEND (b : build) : Z :=
  match target b with
  | TARGET_IPHONE | TARGET_ANDROID => NGL_BACKEND_OPENGLES
  | _ => NGL_BACKEND_OPENGL
  end.

(** Modelled from the spec: the platform ids of [nodegl.h], numbered in the
    order the spec lists them ([AUTO | XLIB | IOS | MACOS | ANDROID |
    WINDOWS]); only their being non-negative is used. *)
Definition NGL_PLATFORM_XLIB : Z := 1.
Definition NGL_PLATFORM_IOS : Z := 2.
Definition NGL_PLATFORM_MACOS : Z := 3.
Definition NGL_PLATFORM_ANDROID : Z := 4.
Definition NGL_PLATFORM_WINDOWS : Z := 5.

Definition get_default_platform (b : build) : Z :=
  match target b with
  | TARGET_LINUX => NGL_PLATFORM_XLIB
  | TARGET_IPHONE => NGL_PLATFORM_IOS
  | TARGET_DARWIN => NGL_PLATFORM_MACOS
  | TARGET_ANDROID => NGL_PLATFORM_ANDROID
  | TARGET_WINDOWS => NGL_PLATFORM_WINDOWS
  | TARGET_OTHER => NGL_ERROR_UNSUPPORTED
  end.

(* ================================================================== *)
(** * OpenGL backend: data ([gpu_ctx_gl.h], [rendertarget.h], [glcontext.h]) *)
(* ================================================================== *)

(** The bits of [gl->features] named by the two files
    ([NGLI_FEATURE_GL_COMPUTE_SHADER_ALL] is a mask of several bits; having
    it means having all of them). *)
Inductive gl_feature :=
| NGLI_FEATURE_GL_FRAMEBUFFER_OBJECT
| NGLI_FEATURE_GL_INVALIDATE_SUBDATA
| NGLI_FEATURE_GL_CLEAR_BUFFER
| NGLI_FEATURE_GL_DRAW_BUFFERS
| NGLI_FEATURE_GL_TIMER_QUERY
| NGLI_FEATURE_GL_EXT_DISJOINT_TIMER_QUERY
| NGLI_FEATURE_GL_COMPUTE_SHADER_ALL
| NGLI_FEATURE_GL_DRAW_INSTANCED
| NGLI_FEATURE_GL_INSTANCED_ARRAY
| NGLI_FEATURE_GL_SHADER_TEXTURE_LOD
| NGLI_FEATURE_GL_SOFTWARE
| NGLI_FEATURE_GL_TEXTURE_3D
| NGLI_FEATURE_GL_TEXTURE_CUBE_MAP
| NGLI_FEATURE_GL_TEXTURE_NPOT
| NGLI_FEATURE_GL_UINT_UNIFORMS
| NGLI_FEATURE_GL_UNIFORM_BUFFER_OBJECT
| NGLI_FEATURE_GL_SHADER_STORAGE_BUFFER_OBJECT
| NGLI_FEATURE_GL_COLOR_BUFFER_FLOAT
| NGLI_FEATURE_GL_COLOR_BUFFER_HALF_FLOAT.

Definition gl_feature_eq_dec (a b : gl_feature) : {a = b} + {a <> b}.
Proof. decide equality. Defined.

Definition gl_feature_eqb (a b : gl_feature) : bool :=
  if gl_feature_eq_dec a b then true else false.

(** The engine-level feature flags ([gpu_ctx->features]). *)
Inductive feature :=
| NGLI_FEATURE_COMPUTE | NGLI_FEATURE_INSTANCED_DRAW
| NGLI_FEATURE_COLOR_RESOLVE | NGLI_FEATURE_SHADER_TEXTURE_LOD
| NGLI_FEATURE_SOFTWARE | NGLI_FEATURE_TEXTURE_3D
| NGLI_FEATURE_TEXTURE_CUBE_MAP | NGLI_FEATURE_TEXTURE_NPOT
| NGLI_FEATURE_UINT_UNIFORMS | NGLI_FEATURE_UNIFORM_BUFFER
| NGLI_FEATURE_STORAGE_BUFFER | NGLI_FEATURE_DEPTH_STENCIL_RESOLVE
| NGLI_FEATURE_TEXTURE_FLOAT_RENDERABLE
| NGLI_FEATURE_TEXTURE_HALF_FLOAT_RENDERABLE.

Definition feature_eq_dec (a b : feature) : {a = b} + {a <> b}.
Proof. decide equality. Defined.

Definition feature_eqb (a b : feature) : bool :=
  if feature_eq_dec a b then true else false.

(** [struct gpu_limits], the fields read by the modelled code. *)
Record gpu_limits := {
  max_color_attachments : Z;
  max_draw_buffers : Z;
  max_compute_work_group_count : Z * Z * Z;
  max_compute_work_group_invocations : Z;
  max_compute_work_group_size : Z * Z * Z;
  max_compute_shared_memory_size : Z;
  max_samples : Z;
  max_texture_dimension_1d : Z;
  max_texture_dimension_2d : Z;
  max_texture_dimension_3d : Z;
  max_texture_dimension_cube : Z
}.

(** The fields of [struct glcontext] read here.  The feature bit mask is
    the set of its bits; [gl_default_framebuffer] is what
    [ngli_glcontext_get_default_framebuffer] returns. *)
Record glcontext := {
  gl_features : list gl_feature;
  gl_offscreen : bool;
  gl_width : Z;
  gl_height : Z;
  gl_samples : Z;
  gl_limits : gpu_limits;
  gl_default_framebuffer : Z
}.

Definition gl_max_color_attachments (gl : glcontext) : Z :=
  max_color_attachments (gl_limits gl).

Definition gl_max_draw_buffers (gl : glcontext) : Z :=
  max_draw_buffers (gl_limits gl).

(** [gl->features & f] *)
Definition has_feature (gl : glcontext) (f : gl_feature) : bool :=
  existsb (gl_feature_eqb f) (gl_features gl).

Record glcontext_params := {
  gp_platform : Z;
  gp_backend : Z;
  gp_external : bool;
  gp_display : ptr;
  gp_window : ptr;
  gp_swap_interval : Z;
  gp_offscreen : bool;
  gp_width : Z;
  gp_height : Z;
  gp_samples : Z
}.

Inductive texture_format :=
| NGLI_FORMAT_R8G8B8A8_UNORM
| NGLI_FORMAT_B8G8R8A8_UNORM
| NGLI_FORMAT_D16_UNORM
| NGLI_FORMAT_D24_UNORM_S8_UINT.

Inductive texture_type := NGLI_TEXTURE_TYPE_2D | NGLI_TEXTURE_TYPE_RECTANGLE.

Record texture_params := {
  tp_type : texture_type;
  tp_format : texture_format;
  tp_width : Z;
  tp_height : Z;
  tp_samples : Z
}.

(** A texture object; [tex_id] is the identity of the allocation, so two
    [option texture] values are the same pointer iff they are equal. *)
Record texture := {
  tex_id : nat;
  tex_params : texture_params
}.

Inductive load_op_t :=
| NGLI_LOAD_OP_LOAD | NGLI_LOAD_OP_CLEAR | NGLI_LOAD_OP_DONT_CARE.

Inductive store_op_t := NGLI_STORE_OP_STORE | NGLI_STORE_OP_DONT_CARE.

(** [struct attachment] *)
Record attachment := {
  att_attachment : option texture;
  att_resolve_target : option texture;
  att_load_op : load_op_t;
  att_clear_value : list float;
  att_store_op : store_op_t
}.

(** [struct rendertarget_params] *)
Record rendertarget_params := {
  rp_width : Z;
  rp_height : Z;
  rp_nb_colors : nat;
  rp_colors : list attachment;
  rp_depth_stencil : attachment
}.

(** The strategies stored as function pointers in [struct rendertarget_gl]. *)
Inductive invalidate_func := invalidate | invalidate_noop.
Inductive clear_func := clear_buffers | clear_buffer.
Inductive resolve_func := resolve_no_draw_buffers | resolve_draw_buffers.

(** The attachment names used by the two files. *)
Inductive GLenum :=
| GL_COLOR_ATTACHMENT0_plus (i : nat)
| GL_DEPTH_ATTACHMENT | GL_STENCIL_ATTACHMENT
| GL_COLOR | GL_DEPTH | GL_STENCIL
| GL_BACK | GL_FRONT_LEFT.

Definition GL_COLOR_BUFFER_BIT : Z := 0x4000.
Definition GL_DEPTH_BUFFER_BIT : Z := 0x100.
Definition GL_STENCIL_BUFFER_BIT : Z := 0x400.

(** [struct rendertarget] followed by the fields of [struct rendertarget_gl]. *)
Record rendertarget := {
  rt_params : option rendertarget_params;
  rt_width : Z;
  rt_height : Z;
  rt_wrapped : bool;
  rt_id : Z;
  rt_resolve_id : Z;
  rt_draw_buffers : list GLenum;
  rt_clear_flags : Z;
  rt_invalidate_attachments : list GLenum;
  rt_invalidate : option invalidate_func;
  rt_clear : option clear_func;
  rt_resolve : option resolve_func
}.

(** [ngli_calloc(1, sizeof(struct rendertarget_gl))] *)
Definition rendertarget_zero : rendertarget :=
  {| rt_params := None; rt_width := 0; rt_height := 0; rt_wrapped := false;
     rt_id := 0; rt_resolve_id := 0; rt_draw_buffers := [];
     rt_clear_flags := 0; rt_invalidate_attachments := [];
     rt_invalidate := None; rt_clear := None; rt_resolve := None |}.

Definition rt_set_size (w h : Z) (r : rendertarget) : rendertarget :=
  {| rt_params := rt_params r; rt_width := w; rt_height := h;
     rt_wrapped := rt_wrapped r; rt_id := rt_id r;
     rt_resolve_id := rt_resolve_id r; rt_draw_buffers := rt_draw_buffers r;
     rt_clear_flags := rt_clear_flags r;
     rt_invalidate_attachments := rt_invalidate_attachments r;
     rt_invalidate := rt_invalidate r; rt_clear := rt_clear r;
     rt_resolve := rt_resolve r |}.

Definition rt_set_id (id : Z) (r : rendertarget) : rendertarget :=
  {| rt_params := rt_params r; rt_width := rt_width r; rt_height := rt_height r;
     rt_wrapped := rt_wrapped r; rt_id := id;
     rt_resolve_id := rt_resolve_id r; rt_draw_buffers := rt_draw_buffers r;
     rt_clear_flags := rt_clear_flags r;
     rt_invalidate_attachments := rt_invalidate_attachments r;
     rt_invalidate := rt_invalidate r; rt_clear := rt_clear r;
     rt_resolve := rt_resolve r |}.

(** [struct rendertarget_desc], as filled by [gl_init]. *)
Record rendertarget_desc := {
  desc_samples : Z;
  desc_nb_colors : nat;
  desc_color0_format : option texture_format;
  desc_color0_resolve : bool;
  desc_depth_stencil_format : option texture_format;
  desc_depth_stencil_resolve : bool
}.

Definition rendertarget_desc_zero : rendertarget_desc :=
  {| desc_samples := 0; desc_nb_colors := 0; desc_color0_format := None;
     desc_color0_resolve := false; desc_depth_stencil_format := None;
     desc_depth_stencil_resolve := false |}.

Inductive capture_func_type := capture_cpu | capture_corevideo.

(** The three tiers of timer entry points selected by [timer_init]. *)
Inductive timer_funcs := timer_core | timer_ext | timer_noop.

(** [struct gpu_ctx] ([config]) followed by the fields of
    [struct gpu_ctx_gl] the modelled functions touch. *)
Record gpu_ctx_gl := {
  config : ngl_config;
  glctx : option glcontext;
  default_rt : option rendertarget;
  default_rt_load : option rendertarget;
  default_rt_desc : rendertarget_desc;
  color : option texture;
  ms_color : option texture;
  depth_stencil : option texture;
  capture_func : option capture_func_type;
  capture_cvbuffer : option ptr;
  capture_cvtexture : option ptr;
  timer : option timer_funcs;
  gpu_viewport : list Z;
  gpu_scissor : list Z
}.

(** [ngli_calloc(1, sizeof(struct gpu_ctx_gl))] in [gl_create], with the
    configuration copied in by [ngli_gpu_ctx_create]. *)
Definition gpu_ctx_gl_zero (c : ngl_config) : gpu_ctx_gl :=
  {| config := c; glctx := None; default_rt := None; default_rt_load := None;
     default_rt_desc := rendertarget_desc_zero; color := None;
     ms_color := None; depth_stencil := None; capture_func := None;
     capture_cvbuffer := None; capture_cvtexture := None; timer := None;
     gpu_viewport := [0; 0; 0; 0]; gpu_scissor := [0; 0; 0; 0] |}.

Definition with_config (f : ngl_config -> ngl_config) (s : gpu_ctx_gl) :=
  {| config := f (config s); glctx := glctx s; default_rt := default_rt s;
     default_rt_load := default_rt_load s;
     default_rt_desc := default_rt_desc s; color := color s;
     ms_color := ms_color s; depth_stencil := depth_stencil s;
     capture_func := capture_func s; capture_cvbuffer := capture_cvbuffer s;
     capture_cvtexture := capture_cvtexture s; timer := timer s;
     gpu_viewport := gpu_viewport s; gpu_scissor := gpu_scissor s |}.

Definition set_glctx (g : option glcontext) (s : gpu_ctx_gl) :=
  {| config := config s; glctx := g; default_rt := default_rt s;
     default_rt_load := default_rt_load s;
     default_rt_desc := default_rt_desc s; color := color s;
     ms_color := ms_color s; depth_stencil := depth_stencil s;
     capture_func := capture_func s; capture_cvbuffer := capture_cvbuffer s;
     capture_cvtexture := capture_cvtexture s; timer := timer s;
     gpu_viewport := gpu_viewport s; gpu_scissor := gpu_scissor s |}.

Definition set_default_rt (r : option rendertarget) (s : gpu_ctx_gl) :=
  {| config := config s; glctx := glctx s; default_rt := r;
     default_rt_load := default_rt_load s;
     default_rt_desc := default_rt_desc s; color := color s;
     ms_color := ms_color s; depth_stencil := depth_stencil s;
     capture_func := capture_func s; capture_cvbuffer := capture_cvbuffer s;
     capture_cvtexture := capture_cvtexture s; timer := timer s;
     gpu_viewport := gpu_viewport s; gpu_scissor := gpu_scissor s |}.

Definition set_default_rt_load (r : option rendertarget) (s : gpu_ctx_gl) :=
  {| config := config s; glctx := glctx s; default_rt := default_rt s;
     default_rt_load := r;
     default_rt_desc := default_rt_desc s; color := color s;
     ms_color := ms_color s; depth_stencil := depth_stencil s;
     capture_func := capture_func s; capture_cvbuffer := capture_cvbuffer s;
     capture_cvtexture := capture_cvtexture s; timer := timer s;
     gpu_viewport := gpu_viewport s; gpu_scissor := gpu_scissor s |}.

Definition set_default_rt_desc (d : rendertarget_desc) (s : gpu_ctx_gl) :=
  {| config := config s; glctx := glctx s; default_rt := default_rt s;
     default_rt_load := default_rt_load s;
     default_rt_desc := d; color := color s;
     ms_color := ms_color s; depth_stencil := depth_stencil s;
     capture_func := capture_func s; capture_cvbuffer := capture_cvbuffer s;
     capture_cvtexture := capture_cvtexture s; timer := timer s;
     gpu_viewport := gpu_viewport s; gpu_scissor := gpu_scissor s |}.

Definition set_color (t : option texture) (s : gpu_ctx_gl) :=
  {| config := config s; glctx := glctx s; default_rt := default_rt s;
     default_rt_load := default_rt_load s;
     default_rt_desc := default_rt_desc s; color := t;
     ms_color := ms_color s; depth_stencil := depth_stencil s;
     capture_func := capture_func s; capture_cvbuffer := capture_cvbuffer s;
     capture_cvtexture := capture_cvtexture s; timer := timer s;
     gpu_viewport := gpu_viewport s; gpu_scissor := gpu_scissor s |}.

Definition set_ms_color (t : option texture) (s : gpu_ctx_gl) :=
  {| config := config s; glctx := glctx s; default_rt := default_rt s;
     default_rt_load := default_rt_load s;
     default_rt_desc := default_rt_desc s; color := color s;
     ms_color := t; depth_stencil := depth_stencil s;
     capture_func := capture_func s; capture_cvbuffer := capture_cvbuffer s;
     capture_cvtexture := capture_cvtexture s; timer := timer s;
     gpu_viewport := gpu_viewport s; gpu_scissor := gpu_scissor s |}.

Definition set_depth_stencil (t : option texture) (s : gpu_ctx_gl) :=
  {| config := config s; glctx := glctx s; default_rt := default_rt s;
     default_rt_load := default_rt_load s;
     default_rt_desc := default_rt_desc s; color := color s;
     ms_color := ms_color s; depth_stencil := t;
     capture_func := capture_func s; capture_cvbuffer := capture_cvbuffer s;
     capture_cvtexture := capture_cvtexture s; timer := timer s;
     gpu_viewport := gpu_viewport s; gpu_scissor := gpu_scissor s |}.

Definition set_capture_func (f : option capture_func_type) (s : gpu_ctx_gl) :=
  {| config := config s; glctx := glctx s; default_rt := default_rt s;
     default_rt_load := default_rt_load s;
     default_rt_desc := default_rt_desc s; color := color s;
     ms_color := ms_color s; depth_stencil := depth_stencil s;
     capture_func := f; capture_cvbuffer := capture_cvbuffer s;
     capture_cvtexture := capture_cvtexture s; timer := timer s;
     gpu_viewport := gpu_viewport s; gpu_scissor := gpu_scissor s |}.

Definition set_capture_cvbuffer (p : option ptr) (s : gpu_ctx_gl) :=
  {| config := config s; glctx := glctx s; default_rt := default_rt s;
     default_rt_load := default_rt_load s;
     default_rt_desc := default_rt_desc s; color := color s;
     ms_color := ms_color s; depth_stencil := depth_stencil s;
     capture_func := capture_func s; capture_cvbuffer := p;
     capture_cvtexture := capture_cvtexture s; timer := timer s;
     gpu_viewport := gpu_viewport s; gpu_scissor := gpu_scissor s |}.

Definition set_capture_cvtexture (p : option ptr) (s : gpu_ctx_gl) :=
  {| config := config s; glctx := glctx s; default_rt := default_rt s;
     default_rt_load := default_rt_load s;
     default_rt_desc := default_rt_desc s; color := color s;
     ms_color := ms_color s; depth_stencil := depth_stencil s;
     capture_func := capture_func s; capture_cvbuffer := capture_cvbuffer s;
     capture_cvtexture := p; timer := timer s;
     gpu_viewport := gpu_viewport s; gpu_scissor := gpu_scissor s |}.

Definition set_timer (t : option timer_funcs) (s : gpu_ctx_gl) :=
  {| config := config s; glctx := glctx s; default_rt := default_rt s;
     default_rt_load := default_rt_load s;
     default_rt_desc := default_rt_desc s; color := color s;
     ms_color := ms_color s; depth_stencil := depth_stencil s;
     capture_func := capture_func s; capture_cvbuffer := capture_cvbuffer s;
     capture_cvtexture := capture_cvtexture s; timer := t;
     gpu_viewport := gpu_viewport s; gpu_scissor := gpu_scissor s |}.

Definition set_gpu_viewport (v : list Z) (s : gpu_ctx_gl) :=
  {| config := config s; glctx := glctx s; default_rt := default_rt s;
     default_rt_load := default_rt_load s;
     default_rt_desc := default_rt_desc s; color := color s;
     ms_color := ms_color s; depth_stencil := depth_stencil s;
     capture_func := capture_func s; capture_cvbuffer := capture_cvbuffer s;
     capture_cvtexture := capture_cvtexture s; timer := timer s;
     gpu_viewport := v; gpu_scissor := gpu_scissor s |}.

Definition set_gpu_scissor (v : list Z) (s : gpu_ctx_gl) :=
  {| config := config s; glctx := glctx s; default_rt := default_rt s;
     default_rt_load := default_rt_load s;
     default_rt_desc := default_rt_desc s; color := color s;
     ms_color := ms_color s; depth_stencil := depth_stencil s;
     capture_func := capture_func s; capture_cvbuffer := capture_cvbuffer s;
     capture_cvtexture := capture_cvtexture s; timer := timer s;
     gpu_viewport := gpu_viewport s; gpu_scissor := v |}.

(* ================================================================== *)
(** * The world outside the context: log, driver calls, allocator *)
(* ================================================================== *)

(** Calls into the platform and the driver that create, resize or destroy
    native resources, in program order. *)
Inductive native_call :=
| CallGlcontextNew (p : glcontext_params)
| CallGlcontextResize (w h : Z)
| CallTextureInit (id : nat) (p : texture_params)
| CallTextureWrap (id : nat) (p : texture_params)
| CallTextureFree (id : nat)
| CallGenFramebuffer (id : Z)
| CallDeleteFramebuffer (id : Z)
| CallCvCreateTexture (buffer : ptr)
| CallCvRelease (p : ptr)
| CallGenQueries (t : timer_funcs)
| CallDeleteQueries (t : timer_funcs)
| CallGlcontextFree
| CallFinish.

Record world := {
  w_log : list log_entry;
  w_calls : list native_call;
  w_next : nat
}.

Definition world_log (e : log_entry) (w : world) : world :=
  {| w_log := w_log w ++ [e]; w_calls := w_calls w; w_next := w_next w |}.

Definition world_call (c : native_call) (w : world) : world :=
  {| w_log := w_log w; w_calls := w_calls w ++ [c]; w_next := w_next w |}.

Definition world_bump (w : world) : world :=
  {| w_log := w_log w; w_calls := w_calls w; w_next := S (w_next w) |}.

(** What the code cannot decide: the allocator, the platform context, the
    driver and CoreVideo.  Each oracle is a function of what the call is
    given, so a run is determined by the driver and the initial state. *)
Record driver := {
  (** does the [n]-th object allocation ([ngli_calloc]) succeed *)
  drv_alloc : nat -> bool;
  (** [ngli_glcontext_new] *)
  drv_glcontext_new : glcontext_params -> option glcontext;
  (** [ngli_glcontext_resize]: result and the context afterwards *)
  drv_glcontext_resize : glcontext -> Z -> Z -> Z * glcontext;
  (** [ngli_texture_init], [ngli_texture_gl_wrap] *)
  drv_texture_init : texture_params -> Z;
  drv_texture_wrap : texture_params -> Z;
  (** [glCheckFramebufferStatus(...) == GL_FRAMEBUFFER_COMPLETE] for the
      framebuffer built from these parameters (resolve side or not) *)
  drv_framebuffer_complete : rendertarget_params -> bool -> bool;
  (** [glGetFramebufferAttachmentParameteriv]: object type and component
      size of an attachment of framebuffer [fbo] *)
  drv_attachment_type : Z -> GLenum -> Z;
  drv_attachment_size : Z -> GLenum -> nat -> Z;
  (** [CVOpenGL(ES)TextureCacheCreateTextureFromImage]: the texture name,
      or [None] when CoreVideo reports an error; and the buffer's size *)
  drv_cv_create_texture : ptr -> option ptr;
  drv_cv_size : ptr -> Z * Z
}.

(** The state threaded through the OpenGL backend. *)
Record glst := {
  gs : gpu_ctx_gl;
  gw : world
}.

Definition on_gs (f : gpu_ctx_gl -> gpu_ctx_gl) : M glst unit :=
  modify (fun st => {| gs := f (gs st); gw := gw st |}).

Definition on_gw (f : world -> world) : M glst unit :=
  modify (fun st => {| gs := gs st; gw := f (gw st) |}).

(** [LOG(level, msg)] *)
Definition LOG (l : log_level) (msg : string) : M glst unit :=
  on_gw (world_log (l, msg)).

Definition call (c : native_call) : M glst unit := on_gw (world_call c).

(** A heap allocation: the fresh object identity, or [None] for [NULL]. *)
Definition alloc (d : driver) : M glst (option nat) :=
  n <- gets (fun st => w_next (gw st)) ;;
  on_gw world_bump ;;
  ret (if drv_alloc d n then Some n else None).

(** [s_priv->glcontext], dereferenced. *)
Definition the_gl : M glst glcontext := deref (fun st => glctx (gs st)).

(* ================================================================== *)
(** * OpenGL render targets ([rendertarget_gl.c]) *)
(* ================================================================== *)

Definition is_some {A} (o : option A) : bool :=
  match o with Some _ => true | None => false end.

(** The attachments the loops visit: [params->colors[0 .. nb_colors-1]]. *)
Definition visited_colors (p : rendertarget_params) : list attachment :=
  firstn (rp_nb_colors p) (rp_colors p).

Definition require_resolve_fbo (p : rendertarget_params) : bool :=
  existsb (fun a => is_some (att_resolve_target a)) (visited_colors p).

(** The color loop of [create_fbo]: [None] when an attachment would exceed
    [limits->max_color_attachments], else the number attached. *)
Fixpoint attach_colors (max : Z) (resolve : bool) (cs : list attachment)
    (nb_color_attachments : Z) : option Z :=
  match cs with
  | [] => Some nb_color_attachments
  | a :: cs' =>
      match (if resolve then att_resolve_target a else att_attachment a) with
      | None => attach_colors max resolve cs' nb_color_attachments
      | Some _ =>
          if nb_color_attachments >=? max then None
          else attach_colors max resolve cs' (nb_color_attachments + 1)
      end
  end.

(** [GL_COLOR_ATTACHMENT0 + i] for [i < n], as stored in [draw_buffers]. *)
Definition color_attachments (n : nat) : list GLenum :=
  map GL_COLOR_ATTACHMENT0_plus (seq 0 n).

(** The per-color loop that accumulates [clear_flags]. *)
Definition colors_clear_flags (cs : list attachment) (flags : Z) : Z :=
  fold_left (fun f a =>
    match att_load_op a with
    | NGLI_LOAD_OP_DONT_CARE | NGLI_LOAD_OP_CLEAR => Z.lor f GL_COLOR_BUFFER_BIT
    | NGLI_LOAD_OP_LOAD => f
    end) cs flags.

(** The per-color loop that appends to [invalidate_attachments]. *)
Fixpoint colors_invalidate (cs : list attachment) (i : nat) : list GLenum :=
  match cs with
  | [] => []
  | a :: cs' =>
      match att_store_op a with
      | NGLI_STORE_OP_DONT_CARE =>
          GL_COLOR_ATTACHMENT0_plus i :: colors_invalidate cs' (S i)
      | NGLI_STORE_OP_STORE => colors_invalidate cs' (S i)
      end
  end.

Definition clears (l : load_op_t) : bool :=
  match l with
  | NGLI_LOAD_OP_DONT_CARE | NGLI_LOAD_OP_CLEAR => true
  | NGLI_LOAD_OP_LOAD => false
  end.

Definition discards (o : store_op_t) : bool :=
  match o with
  | NGLI_STORE_OP_DONT_CARE => true
  | NGLI_STORE_OP_STORE => false
  end.

Section RenderTargetGL.

Variable d : driver.

(** A fresh object name from [glGenFramebuffers] (never zero). *)
Definition gen_framebuffer : M glst Z :=
  n <- gets (fun st => w_next (gw st)) ;;
  on_gw world_bump ;;
  call (CallGenFramebuffer (Z.of_nat (S n))) ;;
  ret (Z.of_nat (S n)).

(** [create_fbo]: result and the value stored through [idp] (unchanged
    [old] on failure).  The attachment calls themselves go to the driver;
    their outcome is the completeness status. *)
Definition create_fbo (p : rendertarget_params) (resolve : bool) (old : Z)
    : M glst (Z * Z) :=
  gl <- the_gl ;;
  id <- gen_framebuffer ;;
  match attach_colors (gl_max_color_attachments gl) resolve
          (visited_colors p) 0 with
  | None =>
      LOG ERROR "could not attach color buffer %d (maximum %d)" ;;
      call (CallDeleteFramebuffer id) ;;
      ret (-1, old)
  | Some _ =>
      if drv_framebuffer_complete d p resolve then ret (0, id)
      else
        LOG ERROR "framebuffer %u is not complete" ;;
        call (CallDeleteFramebuffer id) ;;
        ret (-1, old)
  end.

(** [ngli_rendertarget_gl_create] *)
Definition ngli_rendertarget_gl_create : M glst (option rendertarget) :=
  o <- alloc d ;;
  ret (match o with Some _ => Some rendertarget_zero | None => None end).

(** The part of [ngli_rendertarget_gl_init] after both framebuffers
    exist. *)
Definition rendertarget_gl_init_strategies (gl : glcontext)
    (p : rendertarget_params) (s : rendertarget) (resolve_id id : Z)
    : M glst (Z * rendertarget) :=
  let inv := if has_feature gl NGLI_FEATURE_GL_INVALIDATE_SUBDATA
             then invalidate else invalidate_noop in
  let clr := if has_feature gl NGLI_FEATURE_GL_CLEAR_BUFFER
             then clear_buffers else clear_buffer in
  let mk draw res flags invs :=
    {| rt_params := Some p; rt_width := rp_width p; rt_height := rp_height p;
       rt_wrapped := false; rt_id := id; rt_resolve_id := resolve_id;
       rt_draw_buffers := draw; rt_clear_flags := flags;
       rt_invalidate_attachments := invs;
       rt_invalidate := Some inv; rt_clear := Some clr;
       rt_resolve := Some res |} in
  if has_feature gl NGLI_FEATURE_GL_DRAW_BUFFERS
     && (Z.of_nat (rp_nb_colors p) >? gl_max_draw_buffers gl) then
    LOG ERROR "draw buffer count (%d) exceeds driver limit (%d)" ;;
    ret (NGL_ERROR_GRAPHICS_UNSUPPORTED,
         mk (rt_draw_buffers s) resolve_no_draw_buffers (rt_clear_flags s)
            (rt_invalidate_attachments s))
  else
    let multi := has_feature gl NGLI_FEATURE_GL_DRAW_BUFFERS
                 && (1 <? rp_nb_colors p)%nat in
    let draw := if multi then color_attachments (rp_nb_colors p)
                else rt_draw_buffers s in
    let res := if multi then resolve_draw_buffers
               else resolve_no_draw_buffers in
    let ds := rp_depth_stencil p in
    let flags := colors_clear_flags (visited_colors p) (rt_clear_flags s) in
    let flags := if is_some (att_attachment ds) && clears (att_load_op ds)
                 then Z.lor flags (Z.lor GL_DEPTH_BUFFER_BIT GL_STENCIL_BUFFER_BIT)
                 else flags in
    let invs := rt_invalidate_attachments s
                ++ colors_invalidate (visited_colors p) 0 in
    let invs := if is_some (att_attachment ds) && discards (att_store_op ds)
                then invs ++ [GL_DEPTH_ATTACHMENT; GL_STENCIL_ATTACHMENT]
                else invs in
    ret (0, mk draw res flags invs).

(** [ngli_rendertarget_gl_init]: the result and the object afterwards.
    [create_fbo] stores the framebuffer it created through its pointer
    argument, so the resolve framebuffer is already recorded in the object
    when the creation of the main one fails. *)
Definition ngli_rendertarget_gl_init (s : rendertarget)
    (p : rendertarget_params) : M glst (Z * rendertarget) :=
  gl <- the_gl ;;
  let s0 resolve_id :=
    {| rt_params := Some p; rt_width := rp_width p; rt_height := rp_height p;
       rt_wrapped := false; rt_id := rt_id s;
       rt_resolve_id := resolve_id;
       rt_draw_buffers := rt_draw_buffers s;
       rt_clear_flags := rt_clear_flags s;
       rt_invalidate_attachments := rt_invalidate_attachments s;
       rt_invalidate := rt_invalidate s; rt_clear := rt_clear s;
       rt_resolve := rt_resolve s |} in
  if require_resolve_fbo p
     && negb (has_feature gl NGLI_FEATURE_GL_FRAMEBUFFER_OBJECT) then
    LOG ERROR "context does not support the framebuffer object feature, resolving MSAA attachments is not supported" ;;
    ret (NGL_ERROR_GRAPHICS_UNSUPPORTED, s0 (rt_resolve_id s))
  else
    r1 <- (if require_resolve_fbo p then create_fbo p true (rt_resolve_id s)
           else ret (0, rt_resolve_id s)) ;;
    if fst r1 <? 0 then ret (fst r1, s0 (snd r1))
    else
      r2 <- create_fbo p false (rt_id s) ;;
      if fst r2 <? 0 then ret (fst r2, s0 (snd r1))
      else rendertarget_gl_init_strategies gl p s (snd r1) (snd r2).

(** [ngli_rendertarget_gl_wrap] *)
Definition ngli_rendertarget_gl_wrap (s : rendertarget)
    (p : rendertarget_params) (id : Z) : M glst (Z * rendertarget) :=
  gl <- the_gl ;;
  match rp_nb_colors p, rp_colors p with
  | 1%nat, c0 :: _ =>
      let ds := rp_depth_stencil p in
      if is_some (att_attachment c0) || is_some (att_resolve_target c0)
         || is_some (att_attachment ds) || is_some (att_resolve_target ds)
      then crash
      else
        let flags := rt_clear_flags s in
        let flags := if clears (att_load_op c0)
                     then Z.lor flags GL_COLOR_BUFFER_BIT else flags in
        let flags := if clears (att_load_op ds)
                     then Z.lor flags (Z.lor GL_DEPTH_BUFFER_BIT GL_STENCIL_BUFFER_BIT)
                     else flags in
        let invs := rt_invalidate_attachments s in
        let invs := if discards (att_store_op c0)
                    then invs ++ [if id =? 0 then GL_COLOR
                                  else GL_COLOR_ATTACHMENT0_plus 0]
                    else invs in
        let invs := if discards (att_store_op ds)
                    then invs ++ (if id =? 0 then [GL_DEPTH; GL_STENCIL]
                                  else [GL_DEPTH_ATTACHMENT; GL_STENCIL_ATTACHMENT])
                    else invs in
        ret (0,
             {| rt_params := Some p; rt_width := rp_width p;
                rt_height := rp_height p; rt_wrapped := true; rt_id := id;
                rt_resolve_id := rt_resolve_id s;
                rt_draw_buffers := rt_draw_buffers s;
                rt_clear_flags := flags;
                rt_invalidate_attachments := invs;
                rt_invalidate :=
                  Some (if has_feature gl NGLI_FEATURE_GL_INVALIDATE_SUBDATA
                        then invalidate else invalidate_noop);
                rt_clear :=
                  Some (if has_feature gl NGLI_FEATURE_GL_CLEAR_BUFFER
                        then clear_buffers else clear_buffer);
                rt_resolve := Some resolve_no_draw_buffers |})
  | _, _ => crash
  end.

(** [ngli_rendertarget_gl_freep] applied to the object itself. *)
Definition rendertarget_gl_free (r : rendertarget) : M glst unit :=
  if rt_wrapped r then ret tt
  else
    call (CallDeleteFramebuffer (rt_id r)) ;;
    call (CallDeleteFramebuffer (rt_resolve_id r)).

End RenderTargetGL.

(* ================================================================== *)
(** * OpenGL GPU context ([gpu_ctx_gl.c]) *)
(* ================================================================== *)

Section GpuCtxGL.

Variable b : build.
Variable d : driver.

(** [ngli_texture_freep(&field)] *)
Definition texture_freep (field : gpu_ctx_gl -> option texture)
    (set : option texture -> gpu_ctx_gl -> gpu_ctx_gl) : M glst unit :=
  t <- gets (fun st => field (gs st)) ;;
  match t with
  | None => ret tt
  | Some t => call (CallTextureFree (tex_id t)) ;; on_gs (set None)
  end.

(** [ngli_rendertarget_freep(&field)] *)
Definition rendertarget_freep (field : gpu_ctx_gl -> option rendertarget)
    (set : option rendertarget -> gpu_ctx_gl -> gpu_ctx_gl) : M glst unit :=
  r <- gets (fun st => field (gs st)) ;;
  match r with
  | None => ret tt
  | Some r => rendertarget_gl_free r ;; on_gs (set None)
  end.

(** [create_texture]; [texturep] is the field written on success. *)
Definition create_texture (format : texture_format) (nsamples : Z)
    (texturep : option texture -> gpu_ctx_gl -> gpu_ctx_gl) : M glst Z :=
  cfg <- gets (fun st => config (gs st)) ;;
  o <- alloc d ;;
  match o with
  | None => ret NGL_ERROR_MEMORY
  | Some id =>
      let params := {| tp_type := NGLI_TEXTURE_TYPE_2D; tp_format := format;
                       tp_width := width cfg; tp_height := height cfg;
                       tp_samples := nsamples |} in
      call (CallTextureInit id params) ;;
      if drv_texture_init d params <? 0 then
        call (CallTextureFree id) ;;
        ret (drv_texture_init d params)
      else
        on_gs (texturep (Some {| tex_id := id; tex_params := params |})) ;;
        ret 0
  end.

(** The [rendertarget_params] literal of [create_rendertarget]. *)
Definition default_rendertarget_params (cfg : ngl_config)
    (color resolve_color depth_stencil : option texture) (load_op : load_op_t)
    : rendertarget_params :=
  {| rp_width := width cfg;
     rp_height := height cfg;
     rp_nb_colors := 1;
     rp_colors := [ {| att_attachment := color;
                       att_resolve_target := resolve_color;
                       att_load_op := load_op;
                       att_clear_value := clear_color cfg;
                       att_store_op := NGLI_STORE_OP_STORE |} ];
     rp_depth_stencil := {| att_attachment := depth_stencil;
                            att_resolve_target := None;
                            att_load_op := load_op;
                            att_clear_value := [];
                            att_store_op := NGLI_STORE_OP_STORE |} |}.

(** [create_rendertarget]; [rendertargetp] is the field written on
    success. *)
Definition create_rendertarget
    (color resolve_color depth_stencil : option texture) (load_op : load_op_t)
    (rendertargetp : option rendertarget -> gpu_ctx_gl -> gpu_ctx_gl)
    : M glst Z :=
  cfg <- gets (fun st => config (gs st)) ;;
  o <- ngli_rendertarget_gl_create d ;;
  match o with
  | None => ret NGL_ERROR_MEMORY
  | Some rt =>
      let params := default_rendertarget_params cfg color resolve_color
                      depth_stencil load_op in
      r <- (if is_some color then ngli_rendertarget_gl_init d rt params
            else
              gl <- the_gl ;;
              let fbo_id :=
                match backend_config cfg with
                | Some g => if external g then external_framebuffer g
                            else gl_default_framebuffer gl
                | None => gl_default_framebuffer gl
                end in
              ngli_rendertarget_gl_wrap rt params fbo_id) ;;
      if fst r <? 0 then
        rendertarget_gl_free (snd r) ;;
        ret (fst r)
      else
        on_gs (rendertargetp (Some (snd r))) ;;
        ret 0
  end.

(** [wrap_capture_cvpixelbuffer] (both Apple variants; they differ in the
    texture type). *)
Definition wrap_capture_cvpixelbuffer (buffer : ptr) : M glst Z :=
  call (CallCvCreateTexture buffer) ;;
  match drv_cv_create_texture d buffer with
  | None =>
      LOG ERROR "could not create CoreVideo texture from CVPixelBuffer: %d" ;;
      ret NGL_ERROR_EXTERNAL
  | Some cv_texture =>
      o <- alloc d ;;
      match o with
      | None => call (CallCvRelease cv_texture) ;; ret NGL_ERROR_MEMORY
      | Some id =>
          let params :=
            {| tp_type := match target b with
                          | TARGET_IPHONE => NGLI_TEXTURE_TYPE_2D
                          | _ => NGLI_TEXTURE_TYPE_RECTANGLE
                          end;
               tp_format := NGLI_FORMAT_B8G8R8A8_UNORM;
               tp_width := fst (drv_cv_size d buffer);
               tp_height := snd (drv_cv_size d buffer);
               tp_samples := 0 |} in
          call (CallTextureWrap id params) ;;
          if drv_texture_wrap d params <? 0 then
            call (CallCvRelease cv_texture) ;;
            call (CallTextureFree id) ;;
            ret (drv_texture_wrap d params)
          else
            on_gs (set_color (Some {| tex_id := id; tex_params := params |})) ;;
            on_gs (set_capture_cvtexture (Some cv_texture)) ;;
            ret 0
      end
  end.

(** [NGLI_CFRELEASE(field)] *)
Definition cf_release (field : gpu_ctx_gl -> option ptr)
    (set : option ptr -> gpu_ctx_gl -> gpu_ctx_gl) : M glst unit :=
  p <- gets (fun st => field (gs st)) ;;
  match p with
  | None => ret tt
  | Some p => call (CallCvRelease p) ;; on_gs (set None)
  end.

Definition reset_capture_cvpixelbuffer : M glst unit :=
  cf_release capture_cvbuffer set_capture_cvbuffer ;;
  cf_release capture_cvtexture set_capture_cvtexture.

(** The color texture of an offscreen CoreVideo context: the wrapped
    capture buffer, or a plain texture when there is none. *)
Definition corevideo_color (buffer : option ptr) : M glst Z :=
  match buffer with
  | Some buf =>
      on_gs (set_capture_cvbuffer (Some buf)) ;;
      wrap_capture_cvpixelbuffer buf
  | None => create_texture NGLI_FORMAT_R8G8B8A8_UNORM 0 set_color
  end.

(** The two [create_rendertarget] calls shared by the offscreen paths. *)
Definition create_default_rendertargets
    (color resolve_color depth_stencil : option texture) : M glst Z :=
  try! create_rendertarget color resolve_color depth_stencil
         NGLI_LOAD_OP_CLEAR set_default_rt ;;
  try! create_rendertarget color resolve_color depth_stencil
         NGLI_LOAD_OP_LOAD set_default_rt_load ;;
  ret 0.

Definition offscreen_rendertarget_init : M glst Z :=
  gl <- the_gl ;;
  cfg <- gets (fun st => config (gs st)) ;;
  (if negb (has_feature gl NGLI_FEATURE_GL_FRAMEBUFFER_OBJECT)
      && (samples cfg >? 0) then
     LOG WARNING "context does not support the framebuffer object feature, multisample anti-aliasing will be disabled" ;;
     on_gs (with_config (set_samples 0))
   else ret tt) ;;
  cfg <- gets (fun st => config (gs st)) ;;
  try! (match capture_buffer_type cfg with
        | NGL_CAPTURE_BUFFER_TYPE_COREVIDEO =>
            if target_apple b then corevideo_color (capture_buffer cfg)
            else
              LOG ERROR "CoreVideo capture is only supported on iOS and macOS" ;;
              ret NGL_ERROR_UNSUPPORTED
        | NGL_CAPTURE_BUFFER_TYPE_CPU =>
            create_texture NGLI_FORMAT_R8G8B8A8_UNORM 0 set_color
        | CAPTURE_BUFFER_TYPE_OTHER _ =>
            LOG ERROR "unsupported capture buffer type: %d" ;;
            ret NGL_ERROR_UNSUPPORTED
        end) ;;
  try! (if samples cfg =? 0 then ret 0
        else create_texture NGLI_FORMAT_R8G8B8A8_UNORM (samples cfg)
               set_ms_color) ;;
  try! create_texture NGLI_FORMAT_D24_UNORM_S8_UINT (samples cfg)
         set_depth_stencil ;;
  s <- gets gs ;;
  try! create_default_rendertargets
         (if is_some (ms_color s) then ms_color s else color s)
         (if is_some (ms_color s) then color s else None)
         (depth_stencil s) ;;
  on_gs (set_capture_func
           (match capture_buffer_type cfg with
            | NGL_CAPTURE_BUFFER_TYPE_CPU => Some capture_cpu
            | NGL_CAPTURE_BUFFER_TYPE_COREVIDEO => Some capture_corevideo
            | CAPTURE_BUFFER_TYPE_OTHER _ => None
            end)) ;;
  ret 0.

Definition onscreen_rendertarget_init : M glst Z :=
  create_default_rendertargets None None None.

Definition rendertarget_reset : M glst unit :=
  rendertarget_freep default_rt set_default_rt ;;
  rendertarget_freep default_rt_load set_default_rt_load ;;
  texture_freep color set_color ;;
  texture_freep ms_color set_ms_color ;;
  texture_freep depth_stencil set_depth_stencil ;;
  (if target_apple b then reset_capture_cvpixelbuffer else ret tt) ;;
  on_gs (set_capture_func None).

Definition timer_init : M glst Z :=
  gl <- the_gl ;;
  let t := if has_feature gl NGLI_FEATURE_GL_TIMER_QUERY then timer_core
           else if has_feature gl NGLI_FEATURE_GL_EXT_DISJOINT_TIMER_QUERY
                then timer_ext
                else timer_noop in
  on_gs (set_timer (Some t)) ;;
  call (CallGenQueries t) ;;
  ret 0.

(** [gl_create], with the configuration stored by the caller
    ([ngli_gpu_ctx_create]) as [s->config]. *)
Definition gl_create (cfg : ngl_config) (w : world) : option gpu_ctx_gl * world :=
  (if drv_alloc d (w_next w) then Some (gpu_ctx_gl_zero cfg) else None,
   world_bump w).

(** [gl_set_viewport], [gl_set_scissor] *)
Definition gl_set_viewport (v : list Z) : M glst unit :=
  on_gs (set_gpu_viewport v).

Definition gl_set_scissor (v : list Z) : M glst unit :=
  on_gs (set_gpu_scissor v).

(** [viewport[2] > 0 && viewport[3] > 0] *)
Definition viewport_valid (v : list Z) : bool :=
  (nth 2 v 0 >? 0) && (nth 3 v 0 >? 0).

(** The six components checked by [ngli_gpu_ctx_gl_wrap_framebuffer]:
    buffer name, component name, attachment, index of the size property. *)
Definition fb_components (es : bool) (fbo : Z)
    : list (string * string * GLenum * nat) :=
  let color_attachment :=
    if fbo =? 0 then (if es then GL_BACK else GL_FRONT_LEFT)
    else GL_COLOR_ATTACHMENT0_plus 0 in
  let depth_attachment := if fbo =? 0 then GL_DEPTH else GL_DEPTH_ATTACHMENT in
  let stencil_attachment :=
    if fbo =? 0 then GL_STENCIL else GL_STENCIL_ATTACHMENT in
  [ ("color"%string,   "red"%string,     color_attachment,   0%nat);
    ("color"%string,   "green"%string,   color_attachment,   1%nat);
    ("color"%string,   "blue"%string,    color_attachment,   2%nat);
    ("color"%string,   "alpha"%string,   color_attachment,   3%nat);
    ("depth"%string,   "depth"%string,   depth_attachment,   4%nat);
    ("stencil"%string, "stencil"%string, stencil_attachment, 5%nat) ].

(** The checking loop: [0] when every component is attached and sized. *)
Fixpoint check_components (fbo : Z)
    (cs : list (string * string * GLenum * nat)) : M glst Z :=
  match cs with
  | [] => ret 0
  | (_, _, att, prop) :: cs' =>
      if drv_attachment_type d fbo att =? 0 then
        LOG ERROR "external framebuffer have no %s buffer attached to it" ;;
        ret NGL_ERROR_GRAPHICS_UNSUPPORTED
      else if drv_attachment_size d fbo att prop =? 0 then
        LOG ERROR "external framebuffer have no %s component" ;;
        ret NGL_ERROR_GRAPHICS_UNSUPPORTED
      else check_components fbo cs'
  end.

Definition ngli_gpu_ctx_gl_wrap_framebuffer (fbo : Z) : M glst Z :=
  cfg <- gets (fun st => config (gs st)) ;;
  if negb (is_external cfg) then
    LOG ERROR "wrapping external OpenGL framebuffers is not supported by context" ;;
    ret NGL_ERROR_UNSUPPORTED
  else
    gl <- the_gl ;;
    try! (if has_feature gl NGLI_FEATURE_GL_FRAMEBUFFER_OBJECT then
            check_components fbo
              (fb_components (backend cfg =? NGL_BACKEND_OPENGLES) fbo)
          else ret 0) ;;
    rendertarget_freep default_rt set_default_rt ;;
    rendertarget_freep default_rt_load set_default_rt_load ;;
    try! create_default_rendertargets None None None ;;
    on_gs (with_config (fun c =>
      set_backend_config
        (match backend_config c with
         | Some g => Some {| external := external g;
                             external_framebuffer := fbo |}
         | None => None
         end) c)) ;;
    ret 0.

(** The mode preconditions at the start of [gl_init]. *)
Definition gl_init_check (cfg : ngl_config) : M glst Z :=
  if is_external cfg then
    if (width cfg <=? 0) || (height cfg <=? 0) then
      LOG ERROR "could not create external context with invalid dimensions (%dx%d)" ;;
      ret NGL_ERROR_INVALID_ARG
    else if is_some (capture_buffer cfg) then
      LOG ERROR "capture_buffer is not supported by external context" ;;
      ret NGL_ERROR_INVALID_ARG
    else ret 0
  else if offscreen cfg then
    if (width cfg <=? 0) || (height cfg <=? 0) then
      LOG ERROR "could not create offscreen context with invalid dimensions (%dx%d)" ;;
      ret NGL_ERROR_INVALID_ARG
    else ret 0
  else
    if is_some (capture_buffer cfg) then
      LOG ERROR "capture_buffer is not supported by onscreen context" ;;
      ret NGL_ERROR_INVALID_ARG
    else ret 0.

(** [gl_init].  The [DEBUG_GL] and [DEBUG_GPU_CAPTURE] blocks are compiled
    out; [gpu_ctx_info_init] and [ngli_glstate_reset] write fields no
    modelled function reads. *)
Definition gl_init : M glst Z :=
  cfg <- gets (fun st => config (gs st)) ;;
  try! gl_init_check cfg ;;
  let params :=
    {| gp_platform := platform cfg; gp_backend := backend cfg;
       gp_external := is_external cfg; gp_display := display cfg;
       gp_window := window cfg; gp_swap_interval := swap_interval cfg;
       gp_offscreen := offscreen cfg; gp_width := width cfg;
       gp_height := height cfg; gp_samples := samples cfg |} in
  call (CallGlcontextNew params) ;;
  on_gs (set_glctx (drv_glcontext_new d params)) ;;
  match drv_glcontext_new d params with
  | None => ret NGL_ERROR_MEMORY
  | Some gl =>
      try! (if is_external cfg then
              ngli_gpu_ctx_gl_wrap_framebuffer
                (match backend_config cfg with
                 | Some g => external_framebuffer g
                 | None => 0
                 end)
            else if gl_offscreen gl then offscreen_rendertarget_init
            else
              on_gs (with_config
                       (set_width_height (gl_width gl) (gl_height gl))) ;;
              onscreen_rendertarget_init) ;;
      try! timer_init ;;
      on_gs (set_default_rt_desc
        {| desc_samples := gl_samples gl;
           desc_nb_colors := 1;
           desc_color0_format := Some NGLI_FORMAT_R8G8B8A8_UNORM;
           desc_color0_resolve := gl_samples gl >? 1;
           desc_depth_stencil_format := Some NGLI_FORMAT_D24_UNORM_S8_UINT;
           desc_depth_stencil_resolve := gl_samples gl >? 1 |}) ;;
      cfg <- gets (fun st => config (gs st)) ;;
      (if viewport_valid (viewport cfg) then gl_set_viewport (viewport cfg)
       else gl_set_viewport [0; 0; width cfg; height cfg]) ;;
      gl_set_scissor [0; 0; width cfg; height cfg] ;;
      ret 0
  end.

Definition gl_resize (w h : Z) (vp : option (list Z)) : M glst Z :=
  cfg <- gets (fun st => config (gs st)) ;;
  let ext := is_external cfg in
  try! (if ext then
          on_gs (with_config (set_width_height w h)) ;;
          ret 0
        else if negb (offscreen cfg) then
          gl <- the_gl ;;
          call (CallGlcontextResize w h) ;;
          on_gs (set_glctx (Some (snd (drv_glcontext_resize d gl w h)))) ;;
          if fst (drv_glcontext_resize d gl w h) <? 0 then
            ret (fst (drv_glcontext_resize d gl w h))
          else
            on_gs (with_config
                     (set_width_height
                        (gl_width (snd (drv_glcontext_resize d gl w h)))
                        (gl_height (snd (drv_glcontext_resize d gl w h))))) ;;
            ret 0
        else
          LOG ERROR "resize operation is not supported by offscreen context" ;;
          ret NGL_ERROR_UNSUPPORTED) ;;
  cfg <- gets (fun st => config (gs st)) ;;
  rt <- deref (fun st => default_rt (gs st)) ;;
  on_gs (set_default_rt (Some (rt_set_size (width cfg) (height cfg) rt))) ;;
  rt_load <- deref (fun st => default_rt_load (gs st)) ;;
  on_gs (set_default_rt_load
           (Some (rt_set_size (width cfg) (height cfg) rt_load))) ;;
  (if negb ext then
     gl <- the_gl ;;
     rt <- deref (fun st => default_rt (gs st)) ;;
     rt_load <- deref (fun st => default_rt_load (gs st)) ;;
     on_gs (set_default_rt_load
              (Some (rt_set_id (gl_default_framebuffer gl) rt_load))) ;;
     on_gs (set_default_rt
              (Some (rt_set_id (gl_default_framebuffer gl) rt)))
   else ret tt) ;;
  (match vp with
   | Some v =>
       if viewport_valid v then gl_set_viewport v
       else gl_set_viewport [0; 0; width cfg; height cfg]
   | None => gl_set_viewport [0; 0; width cfg; height cfg]
   end) ;;
  gl_set_scissor [0; 0; width cfg; height cfg] ;;
  ret 0.

(** [update_capture_cvpixelbuffer] (Apple targets only). *)
Definition update_capture_cvpixelbuffer (buffer : option ptr) : M glst Z :=
  rendertarget_freep default_rt set_default_rt ;;
  rendertarget_freep default_rt_load set_default_rt_load ;;
  texture_freep color set_color ;;
  reset_capture_cvpixelbuffer ;;
  try! corevideo_color buffer ;;
  s <- gets gs ;;
  try! create_default_rendertargets
         (if is_some (ms_color s) then ms_color s else color s)
         (if is_some (ms_color s) then color s else None)
         (depth_stencil s) ;;
  texture_freep color set_color ;;
  ret 0.

Definition gl_set_capture_buffer (buffer : option ptr) : M glst Z :=
  cfg <- gets (fun st => config (gs st)) ;;
  if is_external cfg then
    LOG ERROR "capture_buffer is not supported by external context" ;;
    ret NGL_ERROR_UNSUPPORTED
  else if negb (offscreen cfg) then
    LOG ERROR "capture_buffer is not supported by onscreen context" ;;
    ret NGL_ERROR_UNSUPPORTED
  else
    try! (match capture_buffer_type cfg with
          | NGL_CAPTURE_BUFFER_TYPE_COREVIDEO =>
              if target_apple b then update_capture_cvpixelbuffer buffer
              else ret NGL_ERROR_UNSUPPORTED
          | _ => ret 0
          end) ;;
    on_gs (with_config (set_capture_buffer buffer)) ;;
    ret 0.

Definition gl_wait_idle : M glst unit :=
  gl <- the_gl ;;
  call CallFinish.

Definition timer_reset : M glst unit :=
  t <- gets (fun st => timer (gs st)) ;;
  match t with
  | Some t => call (CallDeleteQueries t)
  | None => ret tt
  end.

Definition gl_destroy : M glst unit :=
  timer_reset ;;
  rendertarget_reset ;;
  g <- gets (fun st => glctx (gs st)) ;;
  match g with
  | Some _ => call CallGlcontextFree ;; on_gs (set_glctx None)
  | None => ret tt
  end.

Definition gl_get_default_rendertarget (s : gpu_ctx_gl) (load_op : load_op_t)
    : option rendertarget :=
  match load_op with
  | NGLI_LOAD_OP_DONT_CARE | NGLI_LOAD_OP_CLEAR => default_rt s
  | NGLI_LOAD_OP_LOAD => default_rt_load s
  end.

Definition gl_get_default_rendertarget_desc (s : gpu_ctx_gl)
    : rendertarget_desc :=
  default_rt_desc s.

End GpuCtxGL.

(** ** Coordinate-system transforms *)

Inductive cull_mode :=
| NGLI_CULL_MODE_NONE | NGLI_CULL_MODE_FRONT_BIT | NGLI_CULL_MODE_BACK_BIT.

(** A 4x4 [float] matrix, sixteen values in column-major order. *)
Definition mat4 := list float.

Definition cull_mode_map (m : cull_mode) : cull_mode :=
  match m with
  | NGLI_CULL_MODE_NONE => NGLI_CULL_MODE_NONE
  | NGLI_CULL_MODE_FRONT_BIT => NGLI_CULL_MODE_BACK_BIT
  | NGLI_CULL_MODE_BACK_BIT => NGLI_CULL_MODE_FRONT_BIT
  end.

Definition gl_transform_cull_mode (s : gpu_ctx_gl) (m : cull_mode) : cull_mode :=
  if negb (offscreen (config s)) then m else cull_mode_map m.

(** The constant of [gl_transform_projection_matrix]. *)
Definition projection_flip_matrix : mat4 :=
  [ 1#1; 0#1; 0#1; 0#1;
    0#1; -1#1; 0#1; 0#1;
    0#1; 0#1; 1#1; 0#1;
    0#1; 0#1; 0#1; 1#1 ]%Q.

(** The constant of [gl_get_rendertarget_uvcoord_matrix]. *)
Definition uvcoord_flip_matrix : mat4 :=
  [ 1#1; 0#1; 0#1; 0#1;
    0#1; -1#1; 0#1; 0#1;
    0#1; 0#1; 1#1; 0#1;
    0#1; 1#1; 0#1; 1#1 ]%Q.

Section Transforms.

(** [ngli_mat4_mul(dst, a, b)] of [math_utils.c] stores the product
    [a * b]; it is a parameter here. *)
Variable ngli_mat4_mul : mat4 -> mat4 -> mat4.

(** The value of [dst] after [gl_transform_projection_matrix(s, dst)]. *)
Definition gl_transform_projection_matrix (s : gpu_ctx_gl) (dst : mat4) : mat4 :=
  if negb (offscreen (config s)) then dst
  else ngli_mat4_mul projection_flip_matrix dst.

End Transforms.

(** The value of [dst] after [gl_get_rendertarget_uvcoord_matrix(s, dst)]. *)
Definition gl_get_rendertarget_uvcoord_matrix (s : gpu_ctx_gl) (dst : mat4) : mat4 :=
  if offscreen (config s) then dst else uvcoord_flip_matrix.

(** The image of the column vector [v] under the column-major matrix [m];
    used to say what the two constants do to a point. *)
Definition mat4_entry (m : mat4) (row col : nat) : Q := nth (col * 4 + row) m 0%Q.

Definition mat4_apply (m : mat4) (v : Q * Q * Q * Q) : Q * Q * Q * Q :=
  let '(x, y, z, w) := v in
  let r i := (mat4_entry m i 0 * x + mat4_entry m i 1 * y
              + mat4_entry m i 2 * z + mat4_entry m i 3 * w)%Q in
  (r 0%nat, r 1%nat, r 2%nat, r 3%nat).

(* ================================================================== *)
(** * The context and its collaborators ([internal.h]) *)
(* ================================================================== *)

Definition node_id := nat.

(** Modelled from the spec: the node graph ([nodes.c]) is an external
    collaborator.  The spec says a scene root is shared-owned and
    reference-counted, and that attaching propagates the context down the
    graph; a node is represented by its reference count (zero: destroyed)
    and by whether it currently carries a context. *)
Record node := {
  refcount : nat;
  node_attached : bool
}.

Definition node_store := node_id -> node.

Definition node_update (n : node_id) (f : node -> node) (ns : node_store)
    : node_store :=
  fun m => if Nat.eqb m n then f (ns m) else ns m.

Definition node_alive (ns : node_store) (n : node_id) : bool :=
  negb (Nat.eqb (refcount (ns n)) 0).

(** The two entries of [extern const struct api_impl api_gl, api_vk]. *)
Inductive api_id := api_gl | api_vk.

Inductive reset_action := NGLI_ACTION_KEEP_SCENE | NGLI_ACTION_UNREF_SCENE.

(** [ngli_config_reset] leaves a zeroed [struct ngl_config]. *)
Definition ngl_config_zero : ngl_config :=
  {| platform := 0; backend := 0; backend_config := None; display := 0;
     window := 0; swap_interval := 0; offscreen := false; width := 0;
     height := 0; viewport := [0; 0; 0; 0]; samples := 0;
     set_surface_pts := false; clear_color := [0#1; 0#1; 0#1; 0#1]%Q;
     capture_buffer := None;
     capture_buffer_type := NGL_CAPTURE_BUFFER_TYPE_CPU; hud := false |}.

(** The fields of [struct ngl_ctx] the dispatcher reads or writes, over the
    type [G] of GPU contexts.  The mailbox fields are modelled apart, in the
    last part. *)
Record ngl_ctx (G : Type) := {
  configured : bool;
  api_impl : option api_id;
  gpu_ctx : option G;
  ctx_config : ngl_config;
  scene : option node_id;
  ctx_hud : option unit;
  rnode : option rendertarget_desc;
  pgcache : bool;
  font_atlas : option nat;
  projection_matrix_stack : list mat4
}.
Arguments configured {G} _.
Arguments api_impl {G} _.
Arguments gpu_ctx {G} _.
Arguments ctx_config {G} _.
Arguments scene {G} _.
Arguments ctx_hud {G} _.
Arguments rnode {G} _.
Arguments pgcache {G} _.
Arguments font_atlas {G} _.
Arguments projection_matrix_stack {G} _.

Definition NGLI_MAT4_IDENTITY : mat4 :=
  [ 1#1; 0#1; 0#1; 0#1;
    0#1; 1#1; 0#1; 0#1;
    0#1; 0#1; 1#1; 0#1;
    0#1; 0#1; 0#1; 1#1 ]%Q.

(** The context [ngl_create] returns. *)
Definition ngl_ctx_created (G : Type) : ngl_ctx G :=
  {| configured := false; api_impl := None; gpu_ctx := None;
     ctx_config := ngl_config_zero; scene := None; ctx_hud := None;
     rnode := None; pgcache := false; font_atlas := None;
     projection_matrix_stack := [NGLI_MAT4_IDENTITY] |}.

Section CtxSetters.
Context {G : Type}.

Definition set_configured (v : bool) (s : ngl_ctx G) : ngl_ctx G :=
  {| configured := v; api_impl := api_impl s; gpu_ctx := gpu_ctx s;
     ctx_config := ctx_config s; scene := scene s; ctx_hud := ctx_hud s;
     rnode := rnode s; pgcache := pgcache s; font_atlas := font_atlas s;
     projection_matrix_stack := projection_matrix_stack s |}.

Definition set_api_impl (v : option api_id) (s : ngl_ctx G) : ngl_ctx G :=
  {| configured := configured s; api_impl := v; gpu_ctx := gpu_ctx s;
     ctx_config := ctx_config s; scene := scene s; ctx_hud := ctx_hud s;
     rnode := rnode s; pgcache := pgcache s; font_atlas := font_atlas s;
     projection_matrix_stack := projection_matrix_stack s |}.

Definition set_gpu_ctx (v : option G) (s : ngl_ctx G) : ngl_ctx G :=
  {| configured := configured s; api_impl := api_impl s; gpu_ctx := v;
     ctx_config := ctx_config s; scene := scene s; ctx_hud := ctx_hud s;
     rnode := rnode s; pgcache := pgcache s; font_atlas := font_atlas s;
     projection_matrix_stack := projection_matrix_stack s |}.

Definition set_ctx_config (v : ngl_config) (s : ngl_ctx G) : ngl_ctx G :=
  {| configured := configured s; api_impl := api_impl s; gpu_ctx := gpu_ctx s;
     ctx_config := v; scene := scene s; ctx_hud := ctx_hud s;
     rnode := rnode s; pgcache := pgcache s; font_atlas := font_atlas s;
     projection_matrix_stack := projection_matrix_stack s |}.

Definition set_scene (v : option node_id) (s : ngl_ctx G) : ngl_ctx G :=
  {| configured := configured s; api_impl := api_impl s; gpu_ctx := gpu_ctx s;
     ctx_config := ctx_config s; scene := v; ctx_hud := ctx_hud s;
     rnode := rnode s; pgcache := pgcache s; font_atlas := font_atlas s;
     projection_matrix_stack := projection_matrix_stack s |}.

Definition set_ctx_hud (v : option unit) (s : ngl_ctx G) : ngl_ctx G :=
  {| configured := configured s; api_impl := api_impl s; gpu_ctx := gpu_ctx s;
     ctx_config := ctx_config s; scene := scene s; ctx_hud := v;
     rnode := rnode s; pgcache := pgcache s; font_atlas := font_atlas s;
     projection_matrix_stack := projection_matrix_stack s |}.

Definition set_rnode (v : option rendertarget_desc) (s : ngl_ctx G) : ngl_ctx G :=
  {| configured := configured s; api_impl := api_impl s; gpu_ctx := gpu_ctx s;
     ctx_config := ctx_config s; scene := scene s; ctx_hud := ctx_hud s;
     rnode := v; pgcache := pgcache s; font_atlas := font_atlas s;
     projection_matrix_stack := projection_matrix_stack s |}.

Definition set_pgcache (v : bool) (s : ngl_ctx G) : ngl_ctx G :=
  {| configured := configured s; api_impl := api_impl s; gpu_ctx := gpu_ctx s;
     ctx_config := ctx_config s; scene := scene s; ctx_hud := ctx_hud s;
     rnode := rnode s; pgcache := v; font_atlas := font_atlas s;
     projection_matrix_stack := projection_matrix_stack s |}.

Definition set_font_atlas (v : option nat) (s : ngl_ctx G) : ngl_ctx G :=
  {| configured := configured s; api_impl := api_impl s; gpu_ctx := gpu_ctx s;
     ctx_config := ctx_config s; scene := scene s; ctx_hud := ctx_hud s;
     rnode := rnode s; pgcache := pgcache s; font_atlas := v;
     projection_matrix_stack := projection_matrix_stack s |}.

Definition set_projection_matrix_stack (v : list mat4) (s : ngl_ctx G)
    : ngl_ctx G :=
  {| configured := configured s; api_impl := api_impl s; gpu_ctx := gpu_ctx s;
     ctx_config := ctx_config s; scene := scene s; ctx_hud := ctx_hud s;
     rnode := rnode s; pgcache := pgcache s; font_atlas := font_atlas s;
     projection_matrix_stack := v |}.

End CtxSetters.

(** The state threaded through the dispatcher: the context, the world
    outside it and the node graph. *)
Record apist (G : Type) := {
  ctx : ngl_ctx G;
  aw : world;
  nodes : node_store
}.
Arguments ctx {G} _.
Arguments aw {G} _.
Arguments nodes {G} _.
Arguments Build_apist {G} _ _ _.

(** The backend-agnostic GPU context interface of [gpu_ctx.h]
    ([gpu_ctx.c] dispatches each call to the class of the backend).  The
    functions act on the GPU context and the world; [gpu_backend_str],
    [gpu_cls_name], [gpu_features] and [gpu_limits_of] read the fields
    [backend_str], [cls->name], [features] and [limits]. *)
Record gpu_ctx_ops (G : Type) := {
  ngli_gpu_ctx_create : ngl_config -> world -> option G * world;
  ngli_gpu_ctx_init : M (G * world) Z;
  ngli_gpu_ctx_resize : Z -> Z -> option (list Z) -> M (G * world) Z;
  ngli_gpu_ctx_set_capture_buffer : option ptr -> M (G * world) Z;
  ngli_gpu_ctx_wait_idle : M (G * world) unit;
  ngli_gpu_ctx_destroy : G -> world -> world;
  ngli_gpu_ctx_transform_projection_matrix : G -> mat4 -> mat4;
  ngli_gpu_ctx_get_default_rendertarget_desc : G -> rendertarget_desc;
  gpu_backend_str : G -> string;
  gpu_cls_name : G -> string;
  gpu_features : G -> list feature;
  gpu_limits_of : G -> gpu_limits
}.
Arguments ngli_gpu_ctx_create {G} _ _ _.
Arguments ngli_gpu_ctx_init {G} _ _.
Arguments ngli_gpu_ctx_resize {G} _ _ _ _ _.
Arguments ngli_gpu_ctx_set_capture_buffer {G} _ _ _.
Arguments ngli_gpu_ctx_wait_idle {G} _ _.
Arguments ngli_gpu_ctx_destroy {G} _ _ _.
Arguments ngli_gpu_ctx_transform_projection_matrix {G} _ _ _.
Arguments ngli_gpu_ctx_get_default_rendertarget_desc {G} _ _.
Arguments gpu_backend_str {G} _ _.
Arguments gpu_cls_name {G} _ _.
Arguments gpu_features {G} _ _.
Arguments gpu_limits_of {G} _ _.

(** What the dispatcher cannot decide: the outcome of the calls into the
    node graph, the HUD, the program cache and the allocator. *)
Record env := {
  env_config_copy : ngl_config -> Z;
  env_pgcache_init : Z;
  env_darray_push : bool;
  env_node_attach : node_id -> Z;
  env_hud_create : bool;
  env_hud_init : Z;
  env_calloc : bool;
  env_memdup : bool
}.

(* ================================================================== *)
(** * The backend-agnostic layer ([api.c], [ngli_ctx_*]) *)
(* ================================================================== *)

Section Ctx.

Context {G : Type}.
Variable ops : gpu_ctx_ops G.
Variable e : env.

Definition on_ctx (f : ngl_ctx G -> ngl_ctx G) : M (apist G) unit :=
  modify (fun st => {| ctx := f (ctx st); aw := aw st; nodes := nodes st |}).

Definition on_nodes (f : node_store -> node_store) : M (apist G) unit :=
  modify (fun st => {| ctx := ctx st; aw := aw st; nodes := f (nodes st) |}).

(** [LOG(level, msg)] from the dispatcher. *)
Definition ctx_log (l : log_level) (msg : string) : M (apist G) unit :=
  modify (fun st => {| ctx := ctx st; aw := world_log (l, msg) (aw st);
                       nodes := nodes st |}).

(** A call [ngli_gpu_ctx_*(s->gpu_ctx, ...)]: the pointer is dereferenced. *)
Definition with_gpu {A} (m : M (G * world) A) : M (apist G) A :=
  fun st =>
    match gpu_ctx (ctx st) with
    | None => None
    | Some g =>
        match m (g, aw st) with
        | None => None
        | Some (a, (g', w')) =>
            Some (a, {| ctx := set_gpu_ctx (Some g') (ctx st); aw := w';
                        nodes := nodes st |})
        end
    end.

(** [ngli_gpu_ctx_freep(&s->gpu_ctx)] *)
Definition ngli_gpu_ctx_freep : M (apist G) unit :=
  fun st =>
    match gpu_ctx (ctx st) with
    | None => Some (tt, st)
    | Some g =>
        Some (tt, {| ctx := set_gpu_ctx None (ctx st);
                     aw := ngli_gpu_ctx_destroy ops g (aw st);
                     nodes := nodes st |})
    end.

(** Node operations touch the node: on a destroyed one they are a use
    after free. *)
Definition node_op (n : node_id) (f : node -> node) : M (apist G) unit :=
  ns <- gets nodes ;;
  if node_alive ns n then on_nodes (node_update n f) else crash.

Definition ngli_node_attach_ctx (n : node_id) : M (apist G) Z :=
  node_op n (fun x => {| refcount := refcount x; node_attached := true |}) ;;
  ret (env_node_attach e n).

Definition ngli_node_detach_ctx (n : node_id) : M (apist G) unit :=
  node_op n (fun x => {| refcount := refcount x; node_attached := false |}).

Definition ngl_node_ref (n : node_id) : M (apist G) unit :=
  node_op n (fun x => {| refcount := S (refcount x);
                         node_attached := node_attached x |}).

(** [ngl_node_unrefp(&p)] for a non-null [p]; the caller clears [p]. *)
Definition ngl_node_unref (n : node_id) : M (apist G) unit :=
  node_op n (fun x => {| refcount := pred (refcount x);
                         node_attached := node_attached x |}).

Definition reset_scene (action : reset_action) : M (apist G) unit :=
  on_ctx (set_ctx_hud None) ;;
  sc <- gets (fun st => scene (ctx st)) ;;
  (match sc with
   | Some n =>
       ngli_node_detach_ctx n ;;
       match action with
       | NGLI_ACTION_UNREF_SCENE =>
           ngl_node_unref n ;; on_ctx (set_scene None)
       | NGLI_ACTION_KEEP_SCENE => ret tt
       end
   | None => ret tt
   end) ;;
  on_ctx (set_rnode None).

(** [ngli_ctx_set_scene].  In the HUD block the result of [ngli_hud_init]
    is stored in a second, inner [ret]; the [fail] label returns the outer
    one, which is still [0] on that path. *)
Definition ngli_ctx_set_scene (new_scene : option node_id) : M (apist G) Z :=
  with_gpu (ngli_gpu_ctx_wait_idle ops) ;;
  reset_scene NGLI_ACTION_UNREF_SCENE ;;
  g <- deref (fun st => gpu_ctx (ctx st)) ;;
  on_ctx (set_rnode (Some (ngli_gpu_ctx_get_default_rendertarget_desc ops g))) ;;
  try! (match new_scene with
        | Some n =>
            r <- ngli_node_attach_ctx n ;;
            if r <? 0 then
              ngli_node_detach_ctx n ;;
              ret r
            else
              ngl_node_ref n ;;
              on_ctx (set_scene (Some n)) ;;
              ret 0
        | None => ret 0
        end) ;;
  cfg <- gets (fun st => ctx_config (ctx st)) ;;
  if hud cfg then
    if env_hud_create e then
      on_ctx (set_ctx_hud (Some tt)) ;;
      if env_hud_init e <? 0 then
        reset_scene NGLI_ACTION_UNREF_SCENE ;;
        ret 0
      else ret 0
    else
      reset_scene NGLI_ACTION_UNREF_SCENE ;;
      ret NGL_ERROR_MEMORY
  else ret 0.

(** [ngli_ctx_reset].  The VAAPI and Android resets are compiled out. *)
Definition ngli_ctx_reset (action : reset_action) : M (apist G) unit :=
  g <- gets (fun st => gpu_ctx (ctx st)) ;;
  (if is_some g then with_gpu (ngli_gpu_ctx_wait_idle ops) else ret tt) ;;
  reset_scene action ;;
  on_ctx (set_font_atlas None) ;;
  on_ctx (set_pgcache false) ;;
  ngli_gpu_ctx_freep ;;
  on_ctx (set_ctx_config ngl_config_zero).

(** [s->gpu_ctx = ngli_gpu_ctx_create(config)] *)
Definition ctx_gpu_create (cfg : ngl_config) : M (apist G) unit :=
  modify (fun st =>
    {| ctx := set_gpu_ctx (fst (ngli_gpu_ctx_create ops cfg (aw st))) (ctx st);
       aw := snd (ngli_gpu_ctx_create ops cfg (aw st));
       nodes := nodes st |}).

(** The [fail] label of [ngli_ctx_configure]. *)
Definition configure_fail (r : Z) : M (apist G) Z :=
  ngli_ctx_reset NGLI_ACTION_KEEP_SCENE ;;
  ret r.

(** [ngli_ctx_configure].  The VAAPI and Android initialisations are
    compiled out (they only log a warning on failure). *)
Definition ngli_ctx_configure (cfg : ngl_config) : M (apist G) Z :=
  if env_config_copy e cfg <? 0 then ret (env_config_copy e cfg)
  else
    on_ctx (set_ctx_config cfg) ;;
    ctx_gpu_create cfg ;;
    g <- gets (fun st => gpu_ctx (ctx st)) ;;
    if negb (is_some g) then
      on_ctx (set_ctx_config ngl_config_zero) ;;
      ret NGL_ERROR_MEMORY
    else
      r <- with_gpu (ngli_gpu_ctx_init ops) ;;
      if r <? 0 then
        ctx_log ERROR "could not initialize gpu context: %s" ;;
        ngli_gpu_ctx_freep ;;
        on_ctx (set_ctx_config ngl_config_zero) ;;
        ret r
      else if env_pgcache_init e <? 0 then
        configure_fail (env_pgcache_init e)
      else
        on_ctx (set_pgcache true) ;;
        g <- deref (fun st => gpu_ctx (ctx st)) ;;
        on_ctx (set_projection_matrix_stack []) ;;
        if negb (env_darray_push e) then configure_fail NGL_ERROR_MEMORY
        else
          on_ctx (set_projection_matrix_stack
                    [ngli_gpu_ctx_transform_projection_matrix ops g
                       NGLI_MAT4_IDENTITY]) ;;
          old_scene <- gets (fun st => scene (ctx st)) ;;
          on_ctx (set_scene None) ;;
          r <- ngli_ctx_set_scene old_scene ;;
          if r <? 0 then
            on_ctx (set_scene old_scene) ;;
            configure_fail r
          else
            (match old_scene with
             | Some n => ngl_node_unref n
             | None => ret tt
             end) ;;
            ret 0.

Definition ngli_ctx_resize (w h : Z) (vp : option (list Z)) : M (apist G) Z :=
  with_gpu (ngli_gpu_ctx_resize ops w h vp).

Definition ngli_ctx_set_capture_buffer (buffer : option ptr) : M (apist G) Z :=
  r <- with_gpu (ngli_gpu_ctx_set_capture_buffer ops buffer) ;;
  if r <? 0 then
    ngli_ctx_reset NGLI_ACTION_KEEP_SCENE ;;
    ret r
  else
    on_ctx (fun s => set_ctx_config (set_capture_buffer buffer (ctx_config s)) s) ;;
    ret 0.

End Ctx.

(* ================================================================== *)
(** * The public entry points ([api.c], [ngl_*]) *)
(* ================================================================== *)

(** [struct api_impl]: the per-backend entry points; only
    [gl_wrap_framebuffer] may be [NULL]. *)
Record api_impl_t (G : Type) := {
  impl_configure : ngl_config -> M (apist G) Z;
  impl_resize : Z -> Z -> option (list Z) -> M (apist G) Z;
  impl_set_capture_buffer : option ptr -> M (apist G) Z;
  impl_set_scene : option node_id -> M (apist G) Z;
  impl_prepare_draw : Q -> M (apist G) Z;
  impl_draw : Q -> M (apist G) Z;
  impl_reset : reset_action -> M (apist G) unit;
  impl_gl_wrap_framebuffer : option (Z -> M (apist G) Z)
}.
Arguments impl_configure {G} _ _ _.
Arguments impl_resize {G} _ _ _ _ _.
Arguments impl_set_capture_buffer {G} _ _ _.
Arguments impl_set_scene {G} _ _ _.
Arguments impl_prepare_draw {G} _ _ _.
Arguments impl_draw {G} _ _ _.
Arguments impl_reset {G} _ _ _.
Arguments impl_gl_wrap_framebuffer {G} _.

(** [api_map[backend].api_impl] *)
Definition api_map (b : build) (backend_id : Z) : option api_id :=
  if (backend_id =? NGL_BACKEND_OPENGL) && BACKEND_GL b then Some api_gl
  else if (backend_id =? NGL_BACKEND_OPENGLES) && BACKEND_GLES b then Some api_gl
  else if (backend_id =? NGL_BACKEND_VULKAN) && BACKEND_VK b then Some api_vk
  else None.

Section Api.

Context {G : Type}.
Variable b : build.
(** The two tables [api_gl] and [api_vk], defined in other files. *)
Variable impls : api_id -> api_impl_t G.

(** [s->api_impl->...]: the table pointer is dereferenced. *)
Definition the_impl : M (apist G) (api_impl_t G) :=
  i <- deref (fun st => api_impl (ctx st)) ;;
  ret (impls i).

(** The caller's [*config] after the automatic selections of
    [ngl_configure] have been written back. *)
Definition resolve_auto (cfg : ngl_config) : ngl_config :=
  set_backend_platform
    (if backend cfg =? NGL_BACKEND_AUTO then DEFAULT_BACKEND b else backend cfg)
    (if platform cfg =? NGL_PLATFORM_AUTO then get_default_platform b
     else platform cfg)
    cfg.

(** [ngl_configure]: the result, and the caller's configuration afterwards
    (it is updated in place). *)
Definition ngl_configure (config : option ngl_config)
    : M (apist G) (Z * option ngl_config) :=
  c <- gets (fun st => configured (ctx st)) ;;
  (if c then
     i <- the_impl ;;
     impl_reset i NGLI_ACTION_KEEP_SCENE ;;
     on_ctx (set_configured false)
   else ret tt) ;;
  match config with
  | None =>
      ctx_log ERROR "context configuration cannot be NULL" ;;
      ret (NGL_ERROR_INVALID_ARG, None)
  | Some cfg =>
      if (backend cfg =? NGL_BACKEND_AUTO) && is_some (backend_config cfg) then
        ctx_log ERROR "backend specific configuration is not allowed while automatic backend selection is used" ;;
        ret (NGL_ERROR_INVALID_USAGE, Some cfg)
      else
        let cfg := resolve_auto cfg in
        if platform cfg <? 0 then
          ctx_log ERROR "can not determine which platform to use" ;;
          ret (platform cfg, Some cfg)
        else if (backend cfg <? 0) || (backend cfg >=? NGL_NB_BACKEND) then
          ctx_log ERROR "unknown backend %d" ;;
          ret (NGL_ERROR_INVALID_ARG, Some cfg)
        else
          on_ctx (set_api_impl (api_map b (backend cfg))) ;;
          match api_map b (backend cfg) with
          | None =>
              ctx_log ERROR "backend \%s\ not available with this build" ;;
              ret (NGL_ERROR_UNSUPPORTED, Some cfg)
          | Some i =>
              r <- impl_configure (impls i) cfg ;;
              if r <? 0 then ret (r, Some cfg)
              else
                on_ctx (set_configured true) ;;
                ret (0, Some cfg)
          end
  end.

Definition ngl_resize (w h : Z) (vp : option (list Z)) : M (apist G) Z :=
  c <- gets (fun st => configured (ctx st)) ;;
  if negb c then
    ctx_log ERROR "context must be configured before resizing rendering buffers" ;;
    ret NGL_ERROR_INVALID_USAGE
  else
    i <- the_impl ;;
    impl_resize i w h vp.

Definition ngl_set_capture_buffer (buffer : option ptr) : M (apist G) Z :=
  c <- gets (fun st => configured (ctx st)) ;;
  if negb c then
    ctx_log ERROR "context must be configured before setting a capture buffer" ;;
    ret NGL_ERROR_INVALID_USAGE
  else
    i <- the_impl ;;
    r <- impl_set_capture_buffer i buffer ;;
    if r <? 0 then
      on_ctx (set_configured false) ;;
      ret r
    else ret r.

Definition ngl_set_scene (new_scene : option node_id) : M (apist G) Z :=
  c <- gets (fun st => configured (ctx st)) ;;
  if negb c then
    ctx_log ERROR "context must be configured before setting a scene" ;;
    ret NGL_ERROR_INVALID_USAGE
  else
    i <- the_impl ;;
    impl_set_scene i new_scene.

Definition ngli_prepare_draw (t : Q) : M (apist G) Z :=
  c <- gets (fun st => configured (ctx st)) ;;
  if negb c then
    ctx_log ERROR "context must be configured before updating" ;;
    ret NGL_ERROR_INVALID_USAGE
  else
    i <- the_impl ;;
    impl_prepare_draw i t.

Definition ngl_draw (t : Q) : M (apist G) Z :=
  c <- gets (fun st => configured (ctx st)) ;;
  if negb c then
    ctx_log ERROR "context must be configured before drawing" ;;
    ret NGL_ERROR_INVALID_USAGE
  else
    i <- the_impl ;;
    impl_draw i t.

Definition ngl_gl_wrap_framebuffer (framebuffer : Z) : M (apist G) Z :=
  c <- gets (fun st => configured (ctx st)) ;;
  if negb c then
    ctx_log ERROR "context must be configured before wrapping a new external OpenGL framebuffer" ;;
    ret NGL_ERROR_INVALID_USAGE
  else
    i <- the_impl ;;
    match impl_gl_wrap_framebuffer i with
    | None =>
        ctx_log ERROR "wrapping external OpenGL framebuffer is not supported by context" ;;
        ret NGL_ERROR_UNSUPPORTED
    | Some wrap =>
        r <- wrap framebuffer ;;
        if r <? 0 then
          on_ctx (set_configured false) ;;
          ret r
        else ret 0
    end.

End Api.

(* ================================================================== *)
(** * Backend probing ([api.c]) *)
(* ================================================================== *)

Inductive cap_id :=
| NGL_CAP_BLOCK | NGL_CAP_COMPUTE | NGL_CAP_DEPTH_STENCIL_RESOLVE
| NGL_CAP_INSTANCED_DRAW | NGL_CAP_MAX_COLOR_ATTACHMENTS
| NGL_CAP_MAX_COMPUTE_GROUP_COUNT_X | NGL_CAP_MAX_COMPUTE_GROUP_COUNT_Y
| NGL_CAP_MAX_COMPUTE_GROUP_COUNT_Z | NGL_CAP_MAX_COMPUTE_GROUP_INVOCATIONS
| NGL_CAP_MAX_COMPUTE_GROUP_SIZE_X | NGL_CAP_MAX_COMPUTE_GROUP_SIZE_Y
| NGL_CAP_MAX_COMPUTE_GROUP_SIZE_Z | NGL_CAP_MAX_COMPUTE_SHARED_MEMORY_SIZE
| NGL_CAP_MAX_SAMPLES | NGL_CAP_MAX_TEXTURE_DIMENSION_1D
| NGL_CAP_MAX_TEXTURE_DIMENSION_2D | NGL_CAP_MAX_TEXTURE_DIMENSION_3D
| NGL_CAP_MAX_TEXTURE_DIMENSION_CUBE | NGL_CAP_NPOT_TEXTURE
| NGL_CAP_SHADER_TEXTURE_LOD | NGL_CAP_TEXTURE_3D | NGL_CAP_TEXTURE_CUBE
| NGL_CAP_UINT_UNIFORMS.

Definition get_cap_string_id (c : cap_id) : string :=
  match c with
  | NGL_CAP_BLOCK => "block"
  | NGL_CAP_COMPUTE => "compute"
  | NGL_CAP_DEPTH_STENCIL_RESOLVE => "depth_stencil_resolve"
  | NGL_CAP_INSTANCED_DRAW => "instanced_draw"
  | NGL_CAP_MAX_COLOR_ATTACHMENTS => "max_color_attachments"
  | NGL_CAP_MAX_COMPUTE_GROUP_COUNT_X => "max_compute_group_count_x"
  | NGL_CAP_MAX_COMPUTE_GROUP_COUNT_Y => "max_compute_group_count_y"
  | NGL_CAP_MAX_COMPUTE_GROUP_COUNT_Z => "max_compute_group_count_z"
  | NGL_CAP_MAX_COMPUTE_GROUP_INVOCATIONS => "max_compute_group_invocations"
  | NGL_CAP_MAX_COMPUTE_GROUP_SIZE_X => "max_compute_group_size_x"
  | NGL_CAP_MAX_COMPUTE_GROUP_SIZE_Y => "max_compute_group_size_y"
  | NGL_CAP_MAX_COMPUTE_GROUP_SIZE_Z => "max_compute_group_size_z"
  | NGL_CAP_MAX_COMPUTE_SHARED_MEMORY_SIZE => "max_compute_shared_memory_size"
  | NGL_CAP_MAX_SAMPLES => "max_samples"
  | NGL_CAP_MAX_TEXTURE_DIMENSION_1D => "max_texture_dimensions_1d"
  | NGL_CAP_MAX_TEXTURE_DIMENSION_2D => "max_texture_dimensions_2d"
  | NGL_CAP_MAX_TEXTURE_DIMENSION_3D => "max_texture_dimensions_3d"
  | NGL_CAP_MAX_TEXTURE_DIMENSION_CUBE => "max_texture_dimensions_cube"
  | NGL_CAP_NPOT_TEXTURE => "npot_texture"
  | NGL_CAP_SHADER_TEXTURE_LOD => "shader_texture_lod"
  | NGL_CAP_TEXTURE_3D => "texture_3d"
  | NGL_CAP_TEXTURE_CUBE => "texture_cube"
  | NGL_CAP_UINT_UNIFORMS => "uint_uniforms"
  end%string.

(** [struct ngl_cap] *)
Record ngl_cap := {
  cap_ident : cap_id;
  cap_string_id : string;
  cap_value : Z
}.

(** [CAP(cap_id, value)] *)
Definition CAP (c : cap_id) (v : Z) : ngl_cap :=
  {| cap_ident := c; cap_string_id := get_cap_string_id c; cap_value := v |}.

(** [struct ngl_backend] *)
Record ngl_backend := {
  be_id : Z;
  be_string_id : option string;
  be_name : option string;
  be_is_default : bool;
  be_caps : option (list ngl_cap);
  be_nb_caps : nat
}.

(** One zeroed slot of the [ngli_calloc]ed result array. *)
Definition ngl_backend_zero : ngl_backend :=
  {| be_id := 0; be_string_id := None; be_name := None;
     be_is_default := false; be_caps := None; be_nb_caps := 0 |}.

Definition has (fs : list feature) (f : feature) : bool :=
  existsb (feature_eqb f) fs.

(** The [caps] array literal of [load_caps]. *)
Definition caps_of (fs : list feature) (l : gpu_limits) : list ngl_cap :=
  let flag (v : bool) : Z := if v then 1 else 0 in
  let '(cx, cy, cz) := max_compute_work_group_count l in
  let '(sx, sy, sz) := max_compute_work_group_size l in
  [ CAP NGL_CAP_BLOCK (flag (has fs NGLI_FEATURE_UNIFORM_BUFFER
                             || has fs NGLI_FEATURE_STORAGE_BUFFER));
    CAP NGL_CAP_COMPUTE (flag (has fs NGLI_FEATURE_COMPUTE));
    CAP NGL_CAP_DEPTH_STENCIL_RESOLVE
      (flag (has fs NGLI_FEATURE_DEPTH_STENCIL_RESOLVE));
    CAP NGL_CAP_INSTANCED_DRAW (flag (has fs NGLI_FEATURE_INSTANCED_DRAW));
    CAP NGL_CAP_MAX_COLOR_ATTACHMENTS (max_color_attachments l);
    CAP NGL_CAP_MAX_COMPUTE_GROUP_COUNT_X cx;
    CAP NGL_CAP_MAX_COMPUTE_GROUP_COUNT_Y cy;
    CAP NGL_CAP_MAX_COMPUTE_GROUP_COUNT_Z cz;
    CAP NGL_CAP_MAX_COMPUTE_GROUP_INVOCATIONS
      (max_compute_work_group_invocations l);
    CAP NGL_CAP_MAX_COMPUTE_GROUP_SIZE_X sx;
    CAP NGL_CAP_MAX_COMPUTE_GROUP_SIZE_Y sy;
    CAP NGL_CAP_MAX_COMPUTE_GROUP_SIZE_Z sz;
    CAP NGL_CAP_MAX_COMPUTE_SHARED_MEMORY_SIZE
      (max_compute_shared_memory_size l);
    CAP NGL_CAP_MAX_SAMPLES (max_samples l);
    CAP NGL_CAP_MAX_TEXTURE_DIMENSION_1D (max_texture_dimension_1d l);
    CAP NGL_CAP_MAX_TEXTURE_DIMENSION_2D (max_texture_dimension_2d l);
    CAP NGL_CAP_MAX_TEXTURE_DIMENSION_3D (max_texture_dimension_3d l);
    CAP NGL_CAP_MAX_TEXTURE_DIMENSION_CUBE (max_texture_dimension_cube l);
    CAP NGL_CAP_NPOT_TEXTURE (flag (has fs NGLI_FEATURE_TEXTURE_NPOT));
    CAP NGL_CAP_SHADER_TEXTURE_LOD
      (flag (has fs NGLI_FEATURE_SHADER_TEXTURE_LOD));
    CAP NGL_CAP_TEXTURE_3D (flag (has fs NGLI_FEATURE_TEXTURE_3D));
    CAP NGL_CAP_TEXTURE_CUBE (flag (has fs NGLI_FEATURE_TEXTURE_CUBE_MAP));
    CAP NGL_CAP_UINT_UNIFORMS (flag (has fs NGLI_FEATURE_UINT_UNIFORMS)) ].

Inductive probe_mode := PROBE_MODE_FULL | PROBE_MODE_NO_GRAPHICS.

(** [backend_ids] *)
Definition backend_ids (b : build) : list Z :=
  (if BACKEND_GL b then [NGL_BACKEND_OPENGL] else [])
  ++ (if BACKEND_GLES b then [NGL_BACKEND_OPENGLES] else [])
  ++ (if BACKEND_VK b then [NGL_BACKEND_VULKAN] else []).

(** [default_config] of [backends_probe] *)
Definition probe_default_config : ngl_config :=
  {| platform := 0; backend := 0; backend_config := None; display := 0;
     window := 0; swap_interval := 0; offscreen := true; width := 1;
     height := 1; viewport := [0; 0; 0; 0]; samples := 0;
     set_surface_pts := false; clear_color := [0#1; 0#1; 0#1; 0#1]%Q;
     capture_buffer := None;
     capture_buffer_type := NGL_CAPTURE_BUFFER_TYPE_CPU; hud := false |}.

(** [backends[i] = v] *)
Fixpoint array_set {A} (l : list A) (i : nat) (v : A) : list A :=
  match l, i with
  | [], _ => []
  | _ :: l', O => v :: l'
  | x :: l', S i' => x :: array_set l' i' v
  end.

(** What [backends_probe] leaves in [*backendsp] and [*nb_backendsp]
    (nothing is stored when the allocation fails). *)
Record probe_result := {
  pr_ret : Z;
  pr_backends : option (list ngl_backend);
  pr_nb_backends : nat
}.

(** The entries a caller may read: [backends[0 .. nb_backends-1]]. *)
Definition listed (r : probe_result) : list ngl_backend :=
  match pr_backends r with
  | Some arr => firstn (pr_nb_backends r) arr
  | None => []
  end.

Section Probe.

Context {G : Type}.
Variable b : build.
Variable ops : gpu_ctx_ops G.
Variable e : env.

(** [load_caps]: result and the entry afterwards. *)
Definition load_caps (backend_entry : ngl_backend) (g : G) : Z * ngl_backend :=
  let caps := caps_of (gpu_features ops g) (gpu_limits_of ops g) in
  let filled v :=
    {| be_id := be_id backend_entry;
       be_string_id := be_string_id backend_entry;
       be_name := be_name backend_entry;
       be_is_default := be_is_default backend_entry;
       be_caps := v; be_nb_caps := List.length caps |} in
  if env_memdup e then (0, filled (Some caps))
  else (NGL_ERROR_MEMORY, filled None).

(** [backend_probe]: result and the entry afterwards. *)
Definition backend_probe (backend_entry : ngl_backend) (cfg : ngl_config)
    (mode : probe_mode) : M world (Z * ngl_backend) :=
  fun w =>
    match ngli_gpu_ctx_create ops cfg w with
    | (None, w1) => Some ((NGL_ERROR_MEMORY, backend_entry), w1)
    | (Some g, w1) =>
        let named :=
          {| be_id := backend cfg;
             be_string_id := Some (gpu_backend_str ops g);
             be_name := Some (gpu_cls_name ops g);
             be_is_default := be_is_default backend_entry;
             be_caps := be_caps backend_entry;
             be_nb_caps := be_nb_caps backend_entry |} in
        match mode with
        | PROBE_MODE_NO_GRAPHICS =>
            Some ((0, named), ngli_gpu_ctx_destroy ops g w1)
        | PROBE_MODE_FULL =>
            match ngli_gpu_ctx_init ops (g, w1) with
            | None => None
            | Some (r, (g2, w2)) =>
                if r <? 0 then
                  Some ((r, named), ngli_gpu_ctx_destroy ops g2 w2)
                else
                  Some (load_caps named g2, ngli_gpu_ctx_destroy ops g2 w2)
            end
        end
    end.

Definition set_is_default (v : bool) (x : ngl_backend) : ngl_backend :=
  {| be_id := be_id x; be_string_id := be_string_id x; be_name := be_name x;
     be_is_default := v; be_caps := be_caps x; be_nb_caps := be_nb_caps x |}.

(** The [for] loop of [backends_probe] over the remaining [ids]. *)
Fixpoint probe_loop (user_config : ngl_config) (platform_id : Z)
    (mode : probe_mode) (ids : list Z) (backends : list ngl_backend)
    (nb_backends : nat) : M world (list ngl_backend * nat) :=
  match ids with
  | [] => ret (backends, nb_backends)
  | id :: ids' =>
      if negb (backend user_config =? NGL_BACKEND_AUTO)
         && negb (backend user_config =? id) then
        probe_loop user_config platform_id mode ids' backends nb_backends
      else
        r <- backend_probe (nth nb_backends backends ngl_backend_zero)
               (set_backend_platform id platform_id user_config) mode ;;
        if fst r <? 0 then
          probe_loop user_config platform_id mode ids'
            (array_set backends nb_backends (snd r)) nb_backends
        else
          probe_loop user_config platform_id mode ids'
            (array_set backends nb_backends
               (set_is_default (id =? DEFAULT_BACKEND b) (snd r)))
            (S nb_backends)
  end.

Definition backends_probe (user_config : option ngl_config)
    (mode : probe_mode) : M world probe_result :=
  let user_config :=
    match user_config with Some c => c | None => probe_default_config end in
  let platform_id :=
    if platform user_config =? NGL_PLATFORM_AUTO then get_default_platform b
    else platform user_config in
  if negb (env_calloc e) then
    ret {| pr_ret := NGL_ERROR_MEMORY; pr_backends := None;
           pr_nb_backends := 0 |}
  else
    r <- probe_loop user_config platform_id mode (backend_ids b)
           (repeat ngl_backend_zero (List.length (backend_ids b))) 0 ;;
    ret {| pr_ret := 0;
           pr_backends := match snd r with
                          | O => None
                          | S _ => Some (fst r)
                          end;
           pr_nb_backends := snd r |}.

Definition ngl_backends_probe (user_config : option ngl_config)
    : M world probe_result :=
  backends_probe user_config PROBE_MODE_FULL.

Definition ngl_backends_get (user_config : option ngl_config)
    : M world probe_result :=
  backends_probe user_config PROBE_MODE_NO_GRAPHICS.

End Probe.

(* ================================================================== *)
(** * The OpenGL class behind the GPU context interface *)
(* ================================================================== *)

(** [feature_map] *)
Definition feature_map : list (feature * list gl_feature) :=
  [ (NGLI_FEATURE_COMPUTE, [NGLI_FEATURE_GL_COMPUTE_SHADER_ALL]);
    (NGLI_FEATURE_INSTANCED_DRAW,
       [NGLI_FEATURE_GL_DRAW_INSTANCED; NGLI_FEATURE_GL_INSTANCED_ARRAY]);
    (NGLI_FEATURE_COLOR_RESOLVE, [NGLI_FEATURE_GL_FRAMEBUFFER_OBJECT]);
    (NGLI_FEATURE_SHADER_TEXTURE_LOD, [NGLI_FEATURE_GL_SHADER_TEXTURE_LOD]);
    (NGLI_FEATURE_SOFTWARE, [NGLI_FEATURE_GL_SOFTWARE]);
    (NGLI_FEATURE_TEXTURE_3D, [NGLI_FEATURE_GL_TEXTURE_3D]);
    (NGLI_FEATURE_TEXTURE_CUBE_MAP, [NGLI_FEATURE_GL_TEXTURE_CUBE_MAP]);
    (NGLI_FEATURE_TEXTURE_NPOT, [NGLI_FEATURE_GL_TEXTURE_NPOT]);
    (NGLI_FEATURE_UINT_UNIFORMS, [NGLI_FEATURE_GL_UINT_UNIFORMS]);
    (NGLI_FEATURE_UNIFORM_BUFFER, [NGLI_FEATURE_GL_UNIFORM_BUFFER_OBJECT]);
    (NGLI_FEATURE_STORAGE_BUFFER,
       [NGLI_FEATURE_GL_SHADER_STORAGE_BUFFER_OBJECT]);
    (NGLI_FEATURE_DEPTH_STENCIL_RESOLVE, [NGLI_FEATURE_GL_FRAMEBUFFER_OBJECT]);
    (NGLI_FEATURE_TEXTURE_FLOAT_RENDERABLE,
       [NGLI_FEATURE_GL_COLOR_BUFFER_FLOAT]);
    (NGLI_FEATURE_TEXTURE_HALF_FLOAT_RENDERABLE,
       [NGLI_FEATURE_GL_COLOR_BUFFER_HALF_FLOAT]) ].

(** The feature set [gpu_ctx_info_init] stores in [s->features]. *)
Definition gpu_ctx_info_features (gl : glcontext) : list feature :=
  map fst (filter (fun p => forallb (has_feature gl) (snd p)) feature_map).

Definition gpu_limits_zero : gpu_limits :=
  {| max_color_attachments := 0; max_draw_buffers := 0;
     max_compute_work_group_count := (0, 0, 0);
     max_compute_work_group_invocations := 0;
     max_compute_work_group_size := (0, 0, 0);
     max_compute_shared_memory_size := 0; max_samples := 0;
     max_texture_dimension_1d := 0; max_texture_dimension_2d := 0;
     max_texture_dimension_3d := 0; max_texture_dimension_cube := 0 |}.

(** [ngli_get_backend_string_id] *)
Definition ngli_get_backend_string_id (backend_id : Z) : option string :=
  if backend_id =? NGL_BACKEND_OPENGL then Some "opengl"%string
  else if backend_id =? NGL_BACKEND_OPENGLES then Some "opengles"%string
  else if backend_id =? NGL_BACKEND_VULKAN then Some "vulkan"%string
  else None.

(** A backend function run on a GPU context and a world. *)
Definition run_gl {A} (m : M glst A) : M (gpu_ctx_gl * world) A :=
  fun p =>
    match m {| gs := fst p; gw := snd p |} with
    | Some (a, st) => Some (a, (gs st, gw st))
    | None => None
    end.

(** Modelled from the spec: [gpu_ctx.c] is not among the sources; per the
    spec the backend-agnostic contract dispatches every call to the class
    of the selected backend, here [DECLARE_GPU_CTX_CLASS] of
    [gpu_ctx_gl.c].  [features] and [limits] are the snapshot taken by
    [gpu_ctx_info_init] from the native context. *)
Definition gl_ops (b : build) (d : driver) (mat4_mul : mat4 -> mat4 -> mat4)
    : gpu_ctx_ops gpu_ctx_gl :=
  {| ngli_gpu_ctx_create := gl_create d;
     ngli_gpu_ctx_init := run_gl (gl_init b d);
     ngli_gpu_ctx_resize := fun w h vp => run_gl (gl_resize d w h vp);
     ngli_gpu_ctx_set_capture_buffer :=
       fun buf => run_gl (gl_set_capture_buffer b d buf);
     ngli_gpu_ctx_wait_idle := run_gl gl_wait_idle;
     ngli_gpu_ctx_destroy := fun g w =>
       match gl_destroy b {| gs := g; gw := w |} with
       | Some (_, st) => gw st
       | None => w
       end;
     ngli_gpu_ctx_transform_projection_matrix :=
       gl_transform_projection_matrix mat4_mul;
     ngli_gpu_ctx_get_default_rendertarget_desc :=
       gl_get_default_rendertarget_desc;
     gpu_backend_str := fun g =>
       match ngli_get_backend_string_id (backend (config g)) with
       | Some s => s
       | None => ""%string
       end;
     gpu_cls_name := fun g =>
       if backend (config g) =? NGL_BACKEND_OPENGLES then "OpenGL ES"%string
       else "OpenGL"%string;
     gpu_features := fun g =>
       match glctx g with
       | Some gl => gpu_ctx_info_features gl
       | None => []
       end;
     gpu_limits_of := fun g =>
       match glctx g with
       | Some gl => gl_limits gl
       | None => gpu_limits_zero
       end |}.

(** Modelled from the spec: [api_gl] is defined in a file that is not
    among the sources; per the spec the entry points are executed
    synchronously on the calling thread through [ngli_ctx_*].  The entry
    points whose [ngli_ctx_*] function is not modelled are parameters. *)
Definition direct_impl {G} (ops : gpu_ctx_ops G) (e : env)
    (prepare_draw draw : Q -> M (apist G) Z)
    (wrap : option (Z -> M (apist G) Z)) : api_impl_t G :=
  {| impl_configure := ngli_ctx_configure ops e;
     impl_resize := ngli_ctx_resize ops;
     impl_set_capture_buffer := ngli_ctx_set_capture_buffer ops;
     impl_set_scene := ngli_ctx_set_scene ops e;
     impl_prepare_draw := prepare_draw;
     impl_draw := draw;
     impl_reset := ngli_ctx_reset ops;
     impl_gl_wrap_framebuffer := wrap |}.

(* ================================================================== *)
(** * The command mailbox ([ngli_ctx_dispatch_cmd], [worker_thread]) *)
(* ================================================================== *)

(** Two kinds of threads run the two functions: controllers, each inside
    one call of [ngli_ctx_dispatch_cmd], and the worker.  A thread is a
    program counter over the statements of its function; the shared fields
    of [struct ngl_ctx] are [lock], [cmd_func] (with [cmd_arg]) and
    [cmd_ret].  One step executes one statement of one thread; a blocked
    thread has no step.  The order of steps is a schedule. *)

(** A command: [cmd_stop], or a function identified by [id] that returns
    [result] when the worker calls it. *)
Inductive cmd :=
| cmd_stop
| cmd_user (id : nat) (result : Z).

(** [s->cmd_func(s, s->cmd_arg)] *)
Definition cmd_run (c : cmd) : Z :=
  match c with
  | cmd_stop => 0
  | cmd_user _ r => r
  end.

Definition is_stop (c : cmd) : bool :=
  match c with
  | cmd_stop => true
  | cmd_user _ _ => false
  end.

Inductive thread := T_ctl (i : nat) | T_wkr.

(** Statements of [ngli_ctx_dispatch_cmd]. *)
Inductive ctl_pc :=
| C_lock              (** [pthread_mutex_lock(&s->lock)] *)
| C_publish           (** [s->cmd_func = cmd_func; s->cmd_arg = arg] *)
| C_signal            (** [pthread_cond_signal(&s->cond_wkr)] *)
| C_check             (** [while (s->cmd_func)] *)
| C_wait              (** blocked in [pthread_cond_wait(&s->cond_ctl, &s->lock)] *)
| C_wake              (** woken, re-acquiring the lock inside [pthread_cond_wait] *)
| C_unlock            (** [pthread_mutex_unlock(&s->lock)] *)
| C_read              (** [return s->cmd_ret] *)
| C_done (r : Z).     (** returned [r] *)

(** Statements of [worker_thread]. *)
Inductive wkr_pc :=
| W_lock              (** [pthread_mutex_lock(&s->lock)] *)
| W_check             (** [while (!s->cmd_func)] *)
| W_wait              (** blocked in [pthread_cond_wait(&s->cond_wkr, &s->lock)] *)
| W_wake              (** woken, re-acquiring the lock *)
| W_exec              (** [s->cmd_ret = s->cmd_func(s, s->cmd_arg)] *)
| W_clear             (** [need_stop = ...; s->cmd_func = s->cmd_arg = NULL] *)
| W_signal (need_stop : bool)  (** [pthread_cond_signal(&s->cond_ctl)] *)
| W_unlock            (** [pthread_mutex_unlock(&s->lock)] *)
| W_done.             (** returned *)

Record mailbox := {
  lock : option thread;
  cmd_func : option cmd;
  cmd_ret : Z;
  ctls : list (ctl_pc * cmd);
  wkr : wkr_pc;
  executed : list cmd
}.

(** The state [ngl_create] leaves: the worker has been started, no
    command is pending; every controller is about to call dispatch with
    its command. *)
Definition mailbox_init (cmds : list cmd) : mailbox :=
  {| lock := None; cmd_func := None; cmd_ret := 0;
     ctls := map (fun c => (C_lock, c)) cmds; wkr := W_lock;
     executed := [] |}.

(** A scheduling decision.  When the worker's statement is the
    [pthread_cond_signal] on [cond_ctl], [wake] is the waiting controller
    the signal unblocks ([None] only when no controller waits).  POSIX lets
    [pthread_cond_wait] return spuriously. *)
Inductive sched :=
| Run_ctl (i : nat)
| Run_wkr (wake : option nat)
| Spurious_ctl (i : nat)
| Spurious_wkr.

Definition set_ctl (i : nat) (pc : ctl_pc) (m : mailbox) : list (ctl_pc * cmd) :=
  match nth_error (ctls m) i with
  | Some (_, c) => array_set (ctls m) i (pc, c)
  | None => ctls m
  end.

Definition is_waiting (p : ctl_pc * cmd) : bool :=
  match fst p with C_wait => true | _ => false end.

Definition free (m : mailbox) : bool :=
  match lock m with None => true | Some _ => false end.

(** One statement of controller [i]. *)
Definition ctl_step (i : nat) (m : mailbox) : option mailbox :=
  match nth_error (ctls m) i with
  | None => None
  | Some (pc, c) =>
      let upd l f r w pc' :=
        Some {| lock := l; cmd_func := f; cmd_ret := r;
                ctls := set_ctl i pc' m; wkr := w;
                executed := executed m |} in
      match pc with
      | C_lock =>
          if free m
          then upd (Some (T_ctl i)) (cmd_func m) (cmd_ret m) (wkr m) C_publish
          else None
      | C_publish =>
          upd (lock m) (Some c) (cmd_ret m) (wkr m) C_signal
      | C_signal =>
          upd (lock m) (cmd_func m) (cmd_ret m)
              (match wkr m with W_wait => W_wake | w => w end) C_check
      | C_check =>
          match cmd_func m with
          | Some _ => upd None (cmd_func m) (cmd_ret m) (wkr m) C_wait
          | None => upd (lock m) (cmd_func m) (cmd_ret m) (wkr m) C_unlock
          end
      | C_wait => None
      | C_wake =>
          if free m
          then upd (Some (T_ctl i)) (cmd_func m) (cmd_ret m) (wkr m) C_check
          else None
      | C_unlock =>
          upd None (cmd_func m) (cmd_ret m) (wkr m) C_read
      | C_read =>
          upd (lock m) (cmd_func m) (cmd_ret m) (wkr m) (C_done (cmd_ret m))
      | C_done _ => None
      end
  end.

(** One statement of the worker. *)
Definition wkr_step (wake : option nat) (m : mailbox) : option mailbox :=
  let upd l f r cs w ex :=
    Some {| lock := l; cmd_func := f; cmd_ret := r; ctls := cs; wkr := w;
            executed := ex |} in
  match wkr m with
  | W_lock =>
      if free m
      then upd (Some T_wkr) (cmd_func m) (cmd_ret m) (ctls m) W_check (executed m)
      else None
  | W_check =>
      match cmd_func m with
      | None => upd None (cmd_func m) (cmd_ret m) (ctls m) W_wait (executed m)
      | Some _ => upd (lock m) (cmd_func m) (cmd_ret m) (ctls m) W_exec (executed m)
      end
  | W_wait => None
  | W_wake =>
      if free m
      then upd (Some T_wkr) (cmd_func m) (cmd_ret m) (ctls m) W_check (executed m)
      else None
  | W_exec =>
      match cmd_func m with
      | Some c => upd (lock m) (cmd_func m) (cmd_run c) (ctls m) W_clear
                      (executed m ++ [c])
      | None => None
      end
  | W_clear =>
      match cmd_func m with
      | Some c => upd (lock m) None (cmd_ret m) (ctls m) (W_signal (is_stop c))
                      (executed m)
      | None => upd (lock m) None (cmd_ret m) (ctls m) (W_signal false)
                    (executed m)
      end
  | W_signal need_stop =>
      let next := if need_stop then W_unlock else W_check in
      match wake with
      | Some i =>
          match nth_error (ctls m) i with
          | Some (C_wait, _) =>
              upd (lock m) (cmd_func m) (cmd_ret m) (set_ctl i C_wake m) next
                  (executed m)
          | _ => None
          end
      | None =>
          if existsb is_waiting (ctls m) then None
          else upd (lock m) (cmd_func m) (cmd_ret m) (ctls m) next (executed m)
      end
  | W_unlock => upd None (cmd_func m) (cmd_ret m) (ctls m) W_done (executed m)
  | W_done => None
  end.

(** One step of the system under a scheduling decision; [None] when the
    chosen thread cannot move. *)
Definition mailbox_step (l : sched) (m : mailbox) : option mailbox :=
  match l with
  | Run_ctl i => ctl_step i m
  | Run_wkr wake =>
      match wkr m, wake with
      | W_signal _, _ | _, None => wkr_step wake m
      | _, Some _ => None
      end
  | Spurious_ctl i =>
      match nth_error (ctls m) i with
      | Some (C_wait, _) =>
          Some {| lock := lock m; cmd_func := cmd_func m;
                  cmd_ret := cmd_ret m; ctls := set_ctl i C_wake m;
                  wkr := wkr m; executed := executed m |}
      | _ => None
      end
  | Spurious_wkr =>
      match wkr m with
      | W_wait =>
          Some {| lock := lock m; cmd_func := cmd_func m;
                  cmd_ret := cmd_ret m; ctls := ctls m; wkr := W_wake;
                  executed := executed m |}
      | _ => None
      end
  end.

(** A run under a schedule. *)
Fixpoint mailbox_run (ls : list sched) (m : mailbox) : option mailbox :=
  match ls with
  | [] => Some m
  | l :: ls' =>
      match mailbox_step l m with
      | Some m' => mailbox_run ls' m'
      | None => None
      end
  end.

(** What controller [i] returned, if it has. *)
Definition returned (m : mailbox) (i : nat) : option Z :=
  match nth_error (ctls m) i with
  | Some (C_done r, _) => Some r
  | _ => None
  end.

(* ================================================================== *)
(** * Properties stated about the model *)
(* ================================================================== *)

(** ** OpenGL backend *)

(** [m] leaves the GPU context untouched (it may log or call the driver). *)
Definition keeps_gs {A} (m : M glst A) : Prop :=
  forall st a st', m st = Some (a, st') -> gs st' = gs st.

(** [m] leaves the configuration of the GPU context untouched. *)
Definition keeps_config {A} (m : M glst A) : Prop :=
  forall st a st', m st = Some (a, st') -> config (gs st') = config (gs st).

(** What a render target records about the parameters it was built from. *)
Definition records (rt : rendertarget) (p : rendertarget_params) : Prop :=
  rt_params rt = Some p /\ rt_width rt = rp_width p /\ rt_height rt = rp_height p.

Definition att_with_load_op (l : load_op_t) (a : attachment) : attachment :=
  {| att_attachment := att_attachment a;
     att_resolve_target := att_resolve_target a;
     att_load_op := l;
     att_clear_value := att_clear_value a;
     att_store_op := att_store_op a |}.

(** The same parameters with every load operation replaced by [l]. *)
Definition with_load_op (l : load_op_t) (p : rendertarget_params)
    : rendertarget_params :=
  {| rp_width := rp_width p; rp_height := rp_height p;
     rp_nb_colors := rp_nb_colors p;
     rp_colors := map (att_with_load_op l) (rp_colors p);
     rp_depth_stencil := att_with_load_op l (rp_depth_stencil p) |}.

(** The load operations of every attachment. *)
Definition load_ops (p : rendertarget_params) : list load_op_t :=
  map att_load_op (rp_colors p) ++ [att_load_op (rp_depth_stencil p)].

(** The textures attached: color attachments, resolve targets,
    depth-stencil. *)
Definition attachments_of (p : rendertarget_params)
    : list (option texture) * list (option texture) * option texture :=
  (map att_attachment (rp_colors p), map att_resolve_target (rp_colors p),
   att_attachment (rp_depth_stencil p)).

(** The pairing of the two default render targets of a GPU context: both
    exist, they have the same attachments and parameters up to the load
    operation, the first clears and the second loads, and both record the
    dimensions of the configuration. *)
Definition default_rts_paired (s : gpu_ctx_gl) : Prop :=
  exists rt rt_load p p_load,
    default_rt s = Some rt /\ default_rt_load s = Some rt_load /\
    rt_params rt = Some p /\ rt_params rt_load = Some p_load /\
    attachments_of p = attachments_of p_load /\
    (forall l, with_load_op l p = with_load_op l p_load) /\
    Forall (eq NGLI_LOAD_OP_CLEAR) (load_ops p) /\
    Forall (eq NGLI_LOAD_OP_LOAD) (load_ops p_load) /\
    rt_width rt = width (config s) /\ rt_height rt = height (config s) /\
    rt_width rt_load = width (config s) /\
    rt_height rt_load = height (config s).

(** The [glcontext_params] literal of [gl_init]. *)
Definition glcontext_params_of (cfg : ngl_config) : glcontext_params :=
  {| gp_platform := platform cfg; gp_backend := backend cfg;
     gp_external := is_external cfg; gp_display := display cfg;
     gp_window := window cfg; gp_swap_interval := swap_interval cfg;
     gp_offscreen := offscreen cfg; gp_width := width cfg;
     gp_height := height cfg; gp_samples := samples cfg |}.

(** The warning of [offscreen_rendertarget_init]. *)
Definition msaa_warning : log_entry :=
  (WARNING, "context does not support the framebuffer object feature, multisample anti-aliasing will be disabled"%string).

(** A driver on which every allocation, texture creation and framebuffer
    creation succeeds for the native context [gl]. *)
Definition cooperative (d : driver) (gl : glcontext) : Prop :=
  (forall n, drv_alloc d n = true) /\
  (forall p, 0 <= drv_texture_init d p) /\
  (forall p r, drv_framebuffer_complete d p r = true) /\
  1 <= gl_max_color_attachments gl /\
  1 <= gl_max_draw_buffers gl.

(** Equality of points up to equality of rationals. *)
Definition vec4_eq (a b : Q * Q * Q * Q) : Prop :=
  let '(a0, a1, a2, a3) := a in
  let '(b0, b1, b2, b3) := b in
  (a0 == b0 /\ a1 == b1 /\ a2 == b2 /\ a3 == b3)%Q.

(** ** Dispatcher *)

(** The operations guarded by the [configured] flag. *)
Inductive guarded_op :=
| Op_resize (w h : Z) (vp : option (list Z))
| Op_set_capture_buffer (buffer : option ptr)
| Op_set_scene (new_scene : option node_id)
| Op_draw (t : Q)
| Op_gl_wrap_framebuffer (framebuffer : Z).

(** The error message of the guard of each operation. *)
Definition guard_message (o : guarded_op) : string :=
  match o with
  | Op_resize _ _ _ =>
      "context must be configured before resizing rendering buffers"
  | Op_set_capture_buffer _ =>
      "context must be configured before setting a capture buffer"
  | Op_set_scene _ => "context must be configured before setting a scene"
  | Op_draw _ => "context must be configured before drawing"
  | Op_gl_wrap_framebuffer _ =>
      "context must be configured before wrapping a new external OpenGL framebuffer"
  end.

Section GuardedOps.

Context {G : Type}.
Variable impls : api_id -> api_impl_t G.

Definition run_op (o : guarded_op) : M (apist G) Z :=
  match o with
  | Op_resize w h vp => ngl_resize impls w h vp
  | Op_set_capture_buffer buffer => ngl_set_capture_buffer impls buffer
  | Op_set_scene new_scene => ngl_set_scene impls new_scene
  | Op_draw t => ngl_draw impls t
  | Op_gl_wrap_framebuffer framebuffer =>
      ngl_gl_wrap_framebuffer impls framebuffer
  end.

(** A sequence of guarded calls; the results in order. *)
Fixpoint run_ops (os : list guarded_op) : M (apist G) (list Z) :=
  match os with
  | [] => ret []
  | o :: os' =>
      r <- run_op o ;;
      rs <- run_ops os' ;;
      ret (r :: rs)
  end.

End GuardedOps.

(** The state a rejected call leaves: the same, with one more log line. *)
Definition logged {G} (l : log_level) (msg : string) (st : apist G) : apist G :=
  {| ctx := ctx st; aw := world_log (l, msg) (aw st); nodes := nodes st |}.

Definition node_detached (x : node) : node :=
  {| refcount := refcount x; node_attached := false |}.

Definition node_unreferenced (x : node) : node :=
  {| refcount := pred (refcount x); node_attached := node_attached x |}.

(** The node graph and the context after [reset_scene]. *)
Definition nodes_after_reset (action : reset_action) (sc : option node_id)
    (ns : node_store) : node_store :=
  match sc, action with
  | None, _ => ns
  | Some n, NGLI_ACTION_KEEP_SCENE => node_update n node_detached ns
  | Some n, NGLI_ACTION_UNREF_SCENE =>
      node_update n node_unreferenced (node_update n node_detached ns)
  end.

Definition ctx_after_reset {G} (action : reset_action) (c : ngl_ctx G)
    : ngl_ctx G :=
  set_rnode None
    (match scene c, action with
     | Some _, NGLI_ACTION_UNREF_SCENE => set_scene None (set_ctx_hud None c)
     | _, _ => set_ctx_hud None c
     end).

(** The error [ngl_configure] returns for a configuration it rejects
    before calling the backend: a [NULL] configuration, a backend
    configuration together with automatic backend selection, an
    undetermined platform, an unknown backend id, a backend absent from the
    build. *)
Definition config_rejection (b : build) (cfg : option ngl_config) : option Z :=
  match cfg with
  | None => Some NGL_ERROR_INVALID_ARG
  | Some cfg =>
      if (backend cfg =? NGL_BACKEND_AUTO) && is_some (backend_config cfg)
      then Some NGL_ERROR_INVALID_USAGE
      else if platform (resolve_auto b cfg) <? 0
      then Some (platform (resolve_auto b cfg))
      else if (backend (resolve_auto b cfg) <? 0)
              || (backend (resolve_auto b cfg) >=? NGL_NB_BACKEND)
      then Some NGL_ERROR_INVALID_ARG
      else match api_map b (backend (resolve_auto b cfg)) with
           | None => Some NGL_ERROR_UNSUPPORTED
           | Some _ => None
           end
  end.

(** A context demoted to the unconfigured state: the flag is clear, every
    sequence of guarded operations is answered with
    [NGL_ERROR_INVALID_USAGE] and leaves the context as it is, and a
    configure that succeeds sets the flag again. *)
Definition demoted {G} (impls : api_id -> api_impl_t G) (st : apist G) : Prop :=
  configured (ctx st) = false /\
  (forall os, exists st',
      run_ops impls os st
      = Some (repeat NGL_ERROR_INVALID_USAGE (List.length os), st') /\
      ctx st' = ctx st) /\
  (forall b cfg c' st',
      ngl_configure b impls cfg st = Some ((0, c'), st') ->
      configured (ctx st') = true).

(** ** Probing *)

(** Whether [ngli_gpu_ctx_create] succeeds does not depend on the state of
    the world (no allocation failure in one probe but not in the other). *)
Definition create_stable {G} (ops : gpu_ctx_ops G) : Prop :=
  forall cfg w w',
    is_some (fst (ngli_gpu_ctx_create ops cfg w))
    = is_some (fst (ngli_gpu_ctx_create ops cfg w')).

(** The platform [backends_probe] passes to every backend. *)
Definition probe_platform (b : build) (uc : ngl_config) : Z :=
  if platform uc =? NGL_PLATFORM_AUTO then get_default_platform b
  else platform uc.

(** The backend ids [backends_probe] tries for a configuration. *)
Definition selected (uc : ngl_config) (id : Z) : bool :=
  (backend uc =? NGL_BACKEND_AUTO) || (backend uc =? id).

(** The ids for which a GPU context can be created, in world [w]. *)
Definition creatable {G} (b : build) (ops : gpu_ctx_ops G) (uc : ngl_config)
    (w : world) (id : Z) : bool :=
  is_some (fst (ngli_gpu_ctx_create ops
                  (set_backend_platform id (probe_platform b uc) uc) w)).

(** The result code of the probe of backend [id] in world [w] and the
    world the probe leaves ([backend_probe] reads nothing of the entry it
    fills). *)
Definition probe_of {G} (b : build) (ops : gpu_ctx_ops G) (e : env)
    (uc : ngl_config) (mode : probe_mode) (id : Z) (w : world)
    : option (Z * world) :=
  match backend_probe ops e ngl_backend_zero
          (set_backend_platform id (probe_platform b uc) uc) mode w with
  | Some ((r, _), w') => Some (r, w')
  | None => None
  end.

Definition probe_succeeds {G} (b : build) (ops : gpu_ctx_ops G) (e : env)
    (uc : ngl_config) (mode : probe_mode) (p : Z * world) : bool :=
  match probe_of b ops e uc mode (fst p) (snd p) with
  | Some (r, _) => 0 <=? r
  | None => false
  end.

Definition world_after_probe {G} (b : build) (ops : gpu_ctx_ops G) (e : env)
    (uc : ngl_config) (mode : probe_mode) (id : Z) (w : world) : world :=
  match probe_of b ops e uc mode id w with
  | Some (_, w') => w'
  | None => w
  end.

(** The selected backends of [ids], each with the world in which it is
    probed when none is left out: the world the probes of the selected
    backends before it have left, whether they succeeded or failed. *)
Fixpoint probe_worlds {G} (b : build) (ops : gpu_ctx_ops G) (e : env)
    (uc : ngl_config) (mode : probe_mode) (ids : list Z) (w : world)
    : list (Z * world) :=
  match ids with
  | [] => []
  | id :: ids' =>
      if selected uc id then
        (id, w) :: probe_worlds b ops e uc mode ids'
                     (world_after_probe b ops e uc mode id w)
      else probe_worlds b ops e uc mode ids' w
  end.

(** ** Mailbox *)

(** Where a single dispatch of a command stands. *)
Inductive phase := Unpublished | Pending | Ran | Cleared.

(** The shared fields in each phase, for a dispatch of [c] that started
    with execution log [h] and result slot [r0]. *)
Definition phase_data (c : cmd) (h : list cmd) (r0 : Z) (p : phase)
    (m : mailbox) : Prop :=
  match p with
  | Unpublished => cmd_func m = None /\ executed m = h /\ cmd_ret m = r0
  | Pending => cmd_func m = Some c /\ executed m = h /\ cmd_ret m = r0
  | Ran => cmd_func m = Some c /\ executed m = h ++ [c]
           /\ cmd_ret m = cmd_run c
  | Cleared => cmd_func m = None /\ executed m = h ++ [c]
               /\ cmd_ret m = cmd_run c
  end.

(** The statements a thread executes while holding the lock. *)
Definition ctl_holds (k : ctl_pc) : bool :=
  match k with
  | C_publish | C_signal | C_check | C_unlock => true
  | _ => false
  end.

Definition wkr_holds (w : wkr_pc) : bool :=
  match w with
  | W_check | W_exec | W_clear | W_signal _ | W_unlock => true
  | _ => false
  end.

(** The program counters that occur together in each phase. *)
Definition pcs_ok (c : cmd) (p : phase) (k : ctl_pc) (w : wkr_pc) : bool :=
  negb (ctl_holds k && wkr_holds w) &&
  match p with
  | Unpublished =>
      match k, w with
      | (C_lock | C_publish), (W_lock | W_check | W_wait | W_wake) => true
      | _, _ => false
      end
  | Pending =>
      match k, w with
      | C_signal, (W_lock | W_wait | W_wake) => true
      | (C_check | C_wait | C_wake), (W_lock | W_wake | W_check | W_exec) =>
          true
      | _, _ => false
      end
  | Ran =>
      match k, w with
      | (C_wait | C_wake), W_clear => true
      | _, _ => false
      end
  | Cleared =>
      match k, w with
      | (C_wait | C_wake), W_signal ns => Bool.eqb ns (is_stop c)
      | (C_wake | C_check | C_unlock | C_read), (W_check | W_wait | W_wake) =>
          negb (is_stop c)
      | (C_wake | C_check | C_unlock | C_read), (W_unlock | W_done) =>
          is_stop c
      | C_done r, (W_check | W_wait | W_wake) =>
          negb (is_stop c) && (r =? cmd_run c)
      | C_done r, (W_unlock | W_done) => is_stop c && (r =? cmd_run c)
      | _, _ => false
      end
  end.

Definition lock_of (k : ctl_pc) (w : wkr_pc) : option thread :=
  if ctl_holds k then Some (T_ctl 0)
  else if wkr_holds w then Some T_wkr else None.

(** The invariant of a mailbox with one controller dispatching [c]. *)
Definition dispatch_inv (c : cmd) (h : list cmd) (r0 : Z) (m : mailbox) : Prop :=
  exists k p,
    ctls m = [(k, c)] /\ phase_data c h r0 p m /\
    pcs_ok c p k (wkr m) = true /\ lock m = lock_of k (wkr m).

(** A mailbox with no dispatch in progress, as [ngl_create] or a returned
    dispatch leaves it, when one controller is about to dispatch [c]: no
    command is pending and the worker is somewhere in its idle loop, not
    yet started, checking the slot with the lock held, parked in its wait
    or woken and about to take the lock again; [h] is what the worker has
    executed so far and [r0] the content of the result slot. *)
Definition quiescent (c : cmd) (h : list cmd) (r0 : Z) (m : mailbox) : Prop :=
  cmd_func m = None /\ cmd_ret m = r0 /\ executed m = h /\
  ctls m = [(C_lock, c)] /\
  ((lock m = None /\ (wkr m = W_lock \/ wkr m = W_wait \/ wkr m = W_wake)) \/
   (lock m = Some T_wkr /\ wkr m = W_check)).

(** A scheduling decision that executes a statement of a thread: not a
    spurious return of [pthread_cond_wait]. *)
Definition real_step (l : sched) : bool :=
  match l with
  | Run_ctl _ | Run_wkr _ => true
  | Spurious_ctl _ | Spurious_wkr => false
  end.

(** A bound on the statements the two threads still execute before the
    dispatch has returned and the worker is parked or has ended, as long
    as no wait returns spuriously. *)
Definition ctl_rank (p : phase) (k : ctl_pc) : nat :=
  match p, k with
  | Unpublished, C_lock => 2
  | Unpublished, _ => 1
  | Pending, C_signal => 4
  | Pending, C_wake => 3
  | Pending, C_check => 2
  | Pending, _ => 1
  | _, C_wait => 5
  | _, C_wake => 4
  | _, C_check => 3
  | _, C_unlock => 2
  | _, C_read => 1
  | _, _ => 0
  end.

Definition wkr_rank (p : phase) (w : wkr_pc) : nat :=
  match p, w with
  | Unpublished, (W_lock | W_wake) => 2
  | Unpublished, W_check => 1
  | Unpublished, _ => 0
  | Pending, (W_lock | W_wake) => 6
  | Pending, (W_wait | W_check) => 5
  | Pending, _ => 4
  | Ran, _ => 3
  | Cleared, (W_signal _ | W_wake) => 2
  | Cleared, (W_check | W_unlock) => 1
  | Cleared, _ => 0
  end.

Definition dispatch_rank (p : phase) (k : ctl_pc) (w : wkr_pc) : nat :=
  (match p with Unpublished => 13 | Pending => 4 | _ => 0 end
   + ctl_rank p k + wkr_rank p w)%nat.

(** The invariant, with the bound of the state. *)
Definition dispatch_inv_rank (c : cmd) (h : list cmd) (r0 : Z) (n : nat)
    (m : mailbox) : Prop :=
  exists k p,
    ctls m = [(k, c)] /\ phase_data c h r0 p m /\
    pcs_ok c p k (wkr m) = true /\ lock m = lock_of k (wkr m) /\
    dispatch_rank p k (wkr m) = n.

(** A schedule under which one dispatch completes, when the worker is
    parked: the controller publishes and waits, the worker runs the
    command and signals, the controller reads the result.  When the worker
    is not parked yet it first runs to its wait. *)
Definition completing_schedule (started : bool) : list sched :=
  (if started then [] else [Run_wkr None; Run_wkr None])
  ++ [Run_ctl 0; Run_ctl 0; Run_ctl 0; Run_ctl 0;
      Run_wkr None; Run_wkr None; Run_wkr None; Run_wkr None;
      Run_wkr (Some 0%nat); Run_wkr None;
      Run_ctl 0; Run_ctl 0; Run_ctl 0; Run_ctl 0]%nat.

(** A schedule of two concurrent dispatches: controller 1 takes the lock
    while controller 0 waits and before the worker has run its command. *)
Definition overwriting_schedule : list sched :=
  [ Run_wkr None; Run_wkr None;
    Run_ctl 0; Run_ctl 0; Run_ctl 0; Run_ctl 0;
    Run_ctl 1; Run_ctl 1; Run_ctl 1; Run_ctl 1;
    Run_wkr None; Run_wkr None; Run_wkr None; Run_wkr None;
    Run_wkr (Some 0%nat); Run_wkr None;
    Run_ctl 0; Run_ctl 0; Run_ctl 0; Run_ctl 0 ]%nat.

(** ** Concrete instances for the examples *)

(** A desktop build with the OpenGL and Vulkan backends. *)
Definition demo_build : build :=
  {| BACKEND_GL := true; BACKEND_GLES := false; BACKEND_VK := true;
     target := TARGET_LINUX |}.

Definition demo_limits : gpu_limits :=
  {| max_color_attachments := 8; max_draw_buffers := 8;
     max_compute_work_group_count := (0, 0, 0);
     max_compute_work_group_invocations := 0;
     max_compute_work_group_size := (0, 0, 0);
     max_compute_shared_memory_size := 0; max_samples := 4;
     max_texture_dimension_1d := 4096; max_texture_dimension_2d := 4096;
     max_texture_dimension_3d := 256; max_texture_dimension_cube := 4096 |}.

(** A driver without the framebuffer-object feature on which every call
    succeeds; a resized swapchain is 16 pixels narrower than requested. *)
Definition demo_driver : driver :=
  {| drv_alloc := fun _ => true;
     drv_glcontext_new := fun p =>
       Some {| gl_features := [NGLI_FEATURE_GL_CLEAR_BUFFER];
               gl_offscreen := gp_offscreen p;
               gl_width := gp_width p; gl_height := gp_height p;
               gl_samples := gp_samples p; gl_limits := demo_limits;
               gl_default_framebuffer := 0 |};
     drv_glcontext_resize := fun gl w h =>
       (0, {| gl_features := gl_features gl; gl_offscreen := gl_offscreen gl;
              gl_width := w - 16; gl_height := h;
              gl_samples := gl_samples gl; gl_limits := gl_limits gl;
              gl_default_framebuffer := gl_default_framebuffer gl |});
     drv_texture_init := fun _ => 0;
     drv_texture_wrap := fun _ => 0;
     drv_framebuffer_complete := fun _ _ => true;
     drv_attachment_type := fun _ _ => 1;
     drv_attachment_size := fun _ _ _ => 8;
     drv_cv_create_texture := fun _ => Some 1;
     drv_cv_size := fun _ => (1, 1) |}.

(** An environment in which everything succeeds except attaching node 2. *)
Definition demo_env : env :=
  {| env_config_copy := fun _ => 0;
     env_pgcache_init := 0;
     env_darray_push := true;
     env_node_attach := fun n => if Nat.eqb n 2 then -1 else 0;
     env_hud_create := true;
     env_hud_init := 0;
     env_calloc := true;
     env_memdup := true |}.

Definition demo_world : world :=
  {| w_log := []; w_calls := []; w_next := 0 |}.

(** Two scenes, each with one reference; every other node is destroyed. *)
Definition demo_nodes : node_store :=
  fun n =>
    if Nat.eqb n 1 || Nat.eqb n 2
    then {| refcount := 1; node_attached := false |}
    else {| refcount := 0; node_attached := false |}.

(** The row-by-column product of two column-major matrices. *)
Definition mat4_product (a b : mat4) : mat4 :=
  map (fun i =>
         let row := Nat.modulo i 4 in
         let col := Nat.div i 4 in
         (mat4_entry a row 0 * mat4_entry b 0 col
          + mat4_entry a row 1 * mat4_entry b 1 col
          + mat4_entry a row 2 * mat4_entry b 2 col
          + mat4_entry a row 3 * mat4_entry b 3 col)%Q)
      (seq 0 16).

Definition demo_config (offs : bool) (nsamples : Z) (be : Z) : ngl_config :=
  {| platform := 0; backend := be; backend_config := None; display := 0;
     window := 0; swap_interval := 0; offscreen := offs; width := 640;
     height := 480; viewport := [0; 0; 0; 0]; samples := nsamples;
     set_surface_pts := false; clear_color := [0#1; 0#1; 0#1; 1#1]%Q;
     capture_buffer := None;
     capture_buffer_type := NGL_CAPTURE_BUFFER_TYPE_CPU; hud := false |}.

Definition demo_ops : gpu_ctx_ops gpu_ctx_gl :=
  gl_ops demo_build demo_driver mat4_product.



(** A build with the three backends, and a driver that cannot create a
    native context for OpenGL ES, the second of them. *)
Definition demo_build_all : build :=
  {| BACKEND_GL := true; BACKEND_GLES := true; BACKEND_VK := true;
     target := TARGET_LINUX |}.

Definition demo_driver_no_gles : driver :=
  {| drv_alloc := drv_alloc demo_driver;
     drv_glcontext_new := fun p =>
       if gp_backend p =? NGL_BACKEND_OPENGLES then None
       else drv_glcontext_new demo_driver p;
     drv_glcontext_resize := drv_glcontext_resize demo_driver;
     drv_texture_init := drv_texture_init demo_driver;
     drv_texture_wrap := drv_texture_wrap demo_driver;
     drv_framebuffer_complete := drv_framebuffer_complete demo_driver;
     drv_attachment_type := drv_attachment_type demo_driver;
     drv_attachment_size := drv_attachment_size demo_driver;
     drv_cv_create_texture := drv_cv_create_texture demo_driver;
     drv_cv_size := drv_cv_size demo_driver |}.

Definition demo_ops_no_gles : gpu_ctx_ops gpu_ctx_gl :=
  gl_ops demo_build_all demo_driver_no_gles mat4_product.

(** The two backend tables: both run the backend-agnostic layer directly;
    only the first has the OpenGL framebuffer-wrapping entry. *)
Definition demo_impls (i : api_id) : api_impl_t gpu_ctx_gl :=
  direct_impl demo_ops demo_env (fun _ => ret 0) (fun _ => ret 0)
    (match i with
     | api_gl =>
         Some (fun fbo =>
                 with_gpu (run_gl (ngli_gpu_ctx_gl_wrap_framebuffer
                                     demo_driver fbo)))
     | api_vk => None
     end).

(** The state after [ngl_create]. *)
Definition demo_created : apist gpu_ctx_gl :=
  {| ctx := ngl_ctx_created gpu_ctx_gl; aw := demo_world;
     nodes := demo_nodes |}.

(** The state after a call, or the state before it if the call crashed. *)
Definition state_after {S A} (m : M S A) (s : S) : S :=
  match m s with
  | Some (_, s') => s'
  | None => s
  end.

(** An onscreen OpenGL context showing scene 1. *)
Definition demo_onscreen : apist gpu_ctx_gl :=
  state_after (ngl_set_scene demo_impls (Some 1%nat))
    (state_after
       (ngl_configure demo_build demo_impls
          (Some (demo_config false 0 NGL_BACKEND_OPENGL)))
       demo_created).

(** A configured context of the backend without the wrapping entry. *)
Definition demo_vulkan : apist gpu_ctx_gl :=
  state_after
    (ngl_configure demo_build demo_impls
       (Some (demo_config true 0 NGL_BACKEND_VULKAN)))
    demo_created.

(** The OpenGL backend state after [gl_init] on an offscreen configuration
    asking for four samples, and on an onscreen configuration. *)
Definition demo_offscreen_gl : glst :=
  state_after (gl_init demo_build demo_driver)
    {| gs := gpu_ctx_gl_zero (demo_config true 4 NGL_BACKEND_OPENGL);
       gw := demo_world |}.

Definition demo_onscreen_gl : glst :=
  state_after (gl_init demo_build demo_driver)
    {| gs := gpu_ctx_gl_zero (demo_config false 0 NGL_BACKEND_OPENGL);
       gw := demo_world |}.

(** The onscreen context after the caller has dropped its own reference to
    scene 1 ([ngl_node_unrefp]): the context holds the only one. *)
Definition demo_onscreen_owned : apist gpu_ctx_gl :=
  {| ctx := ctx demo_onscreen; aw := aw demo_onscreen;
     nodes := node_update 1%nat node_unreferenced (nodes demo_onscreen) |}.

(** ** Capabilities *)

Definition cap_id_eq_dec (a b : cap_id) : {a = b} + {a <> b}.
Proof. decide equality. Defined.

(** The capability identifiers, in the order of the [enum]. *)
Definition all_caps : list cap_id :=
  [ NGL_CAP_BLOCK; NGL_CAP_COMPUTE; NGL_CAP_DEPTH_STENCIL_RESOLVE;
    NGL_CAP_INSTANCED_DRAW; NGL_CAP_MAX_COLOR_ATTACHMENTS;
    NGL_CAP_MAX_COMPUTE_GROUP_COUNT_X; NGL_CAP_MAX_COMPUTE_GROUP_COUNT_Y;
    NGL_CAP_MAX_COMPUTE_GROUP_COUNT_Z; NGL_CAP_MAX_COMPUTE_GROUP_INVOCATIONS;
    NGL_CAP_MAX_COMPUTE_GROUP_SIZE_X; NGL_CAP_MAX_COMPUTE_GROUP_SIZE_Y;
    NGL_CAP_MAX_COMPUTE_GROUP_SIZE_Z; NGL_CAP_MAX_COMPUTE_SHARED_MEMORY_SIZE;
    NGL_CAP_MAX_SAMPLES; NGL_CAP_MAX_TEXTURE_DIMENSION_1D;
    NGL_CAP_MAX_TEXTURE_DIMENSION_2D; NGL_CAP_MAX_TEXTURE_DIMENSION_3D;
    NGL_CAP_MAX_TEXTURE_DIMENSION_CUBE; NGL_CAP_NPOT_TEXTURE;
    NGL_CAP_SHADER_TEXTURE_LOD; NGL_CAP_TEXTURE_3D; NGL_CAP_TEXTURE_CUBE;
    NGL_CAP_UINT_UNIFORMS ].

(** The value a capability array holds for [c]: the first entry with that
    identifier. *)
Definition cap_value_of (cs : list ngl_cap) (c : cap_id) : option Z :=
  match find (fun x => if cap_id_eq_dec (cap_ident x) c then true else false)
          cs with
  | Some x => Some (cap_value x)
  | None => None
  end.

(** A C truth value. *)
Definition flag_of (v : bool) : Z := if v then 1 else 0.

(** ** Context teardown *)

(** [ngl_freep] on a non-null context, up to the release of the backend;
    what follows is the dispatch of [cmd_stop], modelled with the mailbox,
    and the release of the context's own memory. *)
Definition ngl_freep {G} (impls : api_id -> api_impl_t G) : M (apist G) unit :=
  c <- gets (fun st => configured (ctx st)) ;;
  if c then
    i <- the_impl impls ;;
    impl_reset i NGLI_ACTION_UNREF_SCENE ;;
    on_ctx (set_configured false)
  else ret tt.

(** The HUD block that ends [ngli_ctx_set_scene], with its [fail] label. *)
Definition hud_setup {G} (e : env) : M (apist G) Z :=
  cfg <- gets (fun st => ctx_config (ctx st)) ;;
  if hud cfg then
    if env_hud_create e then
      on_ctx (set_ctx_hud (Some tt)) ;;
      if env_hud_init e <? 0 then
        reset_scene NGLI_ACTION_UNREF_SCENE ;;
        ret 0
      else ret 0
    else
      reset_scene NGLI_ACTION_UNREF_SCENE ;;
      ret NGL_ERROR_MEMORY
  else ret 0.

(** What attaching and referencing does to a node. *)
Definition node_attached_to_ctx (x : node) : node :=
  {| refcount := refcount x; node_attached := true |}.

Definition node_referenced (x : node) : node :=
  {| refcount := S (refcount x); node_attached := node_attached x |}.

(** ** Further instances for the examples *)

(** An environment in which the HUD can be created but not initialised. *)
Definition demo_env_hud_fails : env :=
  {| env_config_copy := fun _ => 0;
     env_pgcache_init := 0;
     env_darray_push := true;
     env_node_attach := fun _ => 0;
     env_hud_create := true;
     env_hud_init := -1;
     env_calloc := true;
     env_memdup := true |}.

(** The onscreen configuration with the HUD enabled. *)
Definition demo_hud_config : ngl_config :=
  {| platform := 0; backend := NGL_BACKEND_OPENGL; backend_config := None;
     display := 0; window := 0; swap_interval := 0; offscreen := false;
     width := 640; height := 480; viewport := [0; 0; 0; 0]; samples := 0;
     set_surface_pts := false; clear_color := [0#1; 0#1; 0#1; 1#1]%Q;
     capture_buffer := None;
     capture_buffer_type := NGL_CAPTURE_BUFFER_TYPE_CPU; hud := true |}.

Definition demo_impls_hud (i : api_id) : api_impl_t gpu_ctx_gl :=
  direct_impl demo_ops demo_env_hud_fails (fun _ => ret 0) (fun _ => ret 0)
    None.

(** A context configured with the HUD enabled; no scene is set. *)
Definition demo_hud : apist gpu_ctx_gl :=
  state_after
    (ngl_configure demo_build demo_impls_hud (Some demo_hud_config))
    demo_created.

(** The onscreen context before its scene was set. *)
Definition demo_configured : apist gpu_ctx_gl :=
  state_after
    (ngl_configure demo_build demo_impls
       (Some (demo_config false 0 NGL_BACKEND_OPENGL)))
    demo_created.

(** The onscreen context after a rejected reconfiguration: unconfigured,
    scene 1 kept, detached. *)
Definition demo_unconfigured : apist gpu_ctx_gl :=
  state_after (ngl_configure demo_build demo_impls None) demo_onscreen.

(** ** Probe results *)

(** What a caller can rely on in an entry a probe lists: its default flag
    says whether it is the default backend, its names are set, and its
    capability array is complete after a full probe and absent after a
    lightweight one. *)
Definition probe_entry_ok (b : build) (mode : probe_mode) (x : ngl_backend)
    : Prop :=
  be_is_default x = (be_id x =? DEFAULT_BACKEND b) /\
  is_some (be_string_id x) = true /\
  is_some (be_name x) = true /\
  match mode with
  | PROBE_MODE_FULL =>
      exists cs, be_caps x = Some cs /\ be_nb_caps x = List.length cs /\
                 map cap_ident cs = all_caps
  | PROBE_MODE_NO_GRAPHICS => be_caps x = None /\ be_nb_caps x = 0%nat
  end.

(** An entry without capability array. *)
Definition capless (x : ngl_backend) : Prop :=
  be_caps x = None /\ be_nb_caps x = 0%nat.

(** ** OpenGL backend: further predicates *)

(** The configurations [gl_init] refuses before it creates anything: an
    external or offscreen context without positive dimensions, and an
    external or onscreen context with a capture buffer. *)
Definition gl_config_invalid (cfg : ngl_config) : bool :=
  if is_external cfg then
    (width cfg <=? 0) || (height cfg <=? 0) || is_some (capture_buffer cfg)
  else if offscreen cfg then (width cfg <=? 0) || (height cfg <=? 0)
  else is_some (capture_buffer cfg).

(** Every component checked on an external framebuffer is attached and has
    a size. *)
Definition fb_checks_pass (d : driver) (es : bool) (fbo : Z) : bool :=
  forallb (fun c : string * string * GLenum * nat =>
             negb (drv_attachment_type d fbo (snd (fst c)) =? 0)
             && negb (drv_attachment_size d fbo (snd (fst c)) (snd c) =? 0))
    (fb_components es fbo).

(** The framebuffer [create_rendertarget] wraps when it is given no color
    texture. *)
Definition wrapped_fbo_id (cfg : ngl_config) (gl : glcontext) : Z :=
  match backend_config cfg with
  | Some g => if external g then external_framebuffer g
              else gl_default_framebuffer gl
  | None => gl_default_framebuffer gl
  end.

(** The viewport [gl_init] and [gl_resize] select: the requested one when
    its width and height are positive, else the whole surface. *)
Definition effective_viewport (requested : option (list Z)) (cfg : ngl_config)
    : list Z :=
  match requested with
  | Some v => if viewport_valid v then v else [0; 0; width cfg; height cfg]
  | None => [0; 0; width cfg; height cfg]
  end.

(** [m] leaves the part [f] of the GPU context untouched. *)
Definition keeps_field {X A} (f : gpu_ctx_gl -> X) (m : M glst A) : Prop :=
  forall st a st', m st = Some (a, st') -> f (gs st') = f (gs st).

(** The native context of a GPU context and the surface its configuration
    describes. *)
Definition surface_of (s : gpu_ctx_gl)
    : option glcontext * Z * Z * list Z :=
  (glctx s, width (config s), height (config s), viewport (config s)).

(** The render target description [gl_init] derives from the native
    context. *)
Definition default_desc_of (gl : glcontext) : rendertarget_desc :=
  {| desc_samples := gl_samples gl;
     desc_nb_colors := 1;
     desc_color0_format := Some NGLI_FORMAT_R8G8B8A8_UNORM;
     desc_color0_resolve := gl_samples gl >? 1;
     desc_depth_stencil_format := Some NGLI_FORMAT_D24_UNORM_S8_UINT;
     desc_depth_stencil_resolve := gl_samples gl >? 1 |}.

(** ** Tear-down of the OpenGL backend *)

(** Several native calls, in order. *)
Definition world_calls (cs : list native_call) (w : world) : world :=
  {| w_log := w_log w; w_calls := w_calls w ++ cs; w_next := w_next w |}.

(** The calls that release a render target, a texture, a CoreVideo object,
    the timer queries and the native context. *)
Definition rt_free_calls (r : option rendertarget) : list native_call :=
  match r with
  | Some r => if rt_wrapped r then []
              else [CallDeleteFramebuffer (rt_id r);
                    CallDeleteFramebuffer (rt_resolve_id r)]
  | None => []
  end.

Definition texture_free_calls (t : option texture) : list native_call :=
  match t with
  | Some t => [CallTextureFree (tex_id t)]
  | None => []
  end.

Definition cf_release_calls (p : option ptr) : list native_call :=
  match p with
  | Some p => [CallCvRelease p]
  | None => []
  end.

Definition timer_reset_calls (t : option timer_funcs) : list native_call :=
  match t with
  | Some t => [CallDeleteQueries t]
  | None => []
  end.

Definition glcontext_free_calls (g : option glcontext) : list native_call :=
  match g with
  | Some _ => [CallGlcontextFree]
  | None => []
  end.

(** The render targets and textures of a context after
    [rendertarget_reset]. *)
Definition rendertargets_released (b : build) (s : gpu_ctx_gl) : gpu_ctx_gl :=
  set_capture_func None
    ((if target_apple b
      then fun s => set_capture_cvtexture None (set_capture_cvbuffer None s)
      else fun s => s)
       (set_depth_stencil None
          (set_ms_color None
             (set_color None
                (set_default_rt_load None (set_default_rt None s)))))).

Definition rendertarget_reset_calls (b : build) (s : gpu_ctx_gl)
    : list native_call :=
  rt_free_calls (default_rt s) ++ rt_free_calls (default_rt_load s)
  ++ texture_free_calls (color s) ++ texture_free_calls (ms_color s)
  ++ texture_free_calls (depth_stencil s)
  ++ (if target_apple b
      then cf_release_calls (capture_cvbuffer s)
           ++ cf_release_calls (capture_cvtexture s)
      else []).

(** The textures and render targets a context holds. *)
Definition held_textures (s : gpu_ctx_gl) : list (option texture) :=
  [color s; ms_color s; depth_stencil s].

Definition held_rendertargets (s : gpu_ctx_gl) : list (option rendertarget) :=
  [default_rt s; default_rt_load s].

(** ** Framebuffer creation *)



(** ** Texture accounting *)

(** The call creates, or frees, the texture object [id]. *)
Definition texture_created (id : nat) (c : native_call) : bool :=
  match c with
  | CallTextureInit i _ | CallTextureWrap i _ => Nat.eqb i id
  | _ => false
  end.

Definition texture_freed (id : nat) (c : native_call) : bool :=
  match c with
  | CallTextureFree i => Nat.eqb i id
  | _ => false
  end.

(** How many times texture [id] has been created and not freed in a
    sequence of calls. *)
Definition textures_outstanding (id : nat) (cs : list native_call) : Z :=
  Z.of_nat (List.length (filter (texture_created id) cs))
  - Z.of_nat (List.length (filter (texture_freed id) cs)).

Definition holds_texture (id : nat) (t : option texture) : bool :=
  match t with
  | Some t => Nat.eqb (tex_id t) id
  | None => false
  end.

(** How many of the given fields hold texture [id]. *)
Definition textures_held (id : nat) (l : list (option texture)) : Z :=
  Z.of_nat (List.length (filter (holds_texture id) l)).

(** Every texture created and not yet freed is held by the context, and
    the context holds no other. *)
Definition textures_balanced (st : glst) : Prop :=
  forall id,
    textures_outstanding id (w_calls (gw st))
    = textures_held id (held_textures (gs st)).

(** [m] neither creates nor frees a texture, and leaves the texture fields
    of the context alone. *)
Definition keeps_textures {A} (m : M glst A) : Prop :=
  forall st a st',
    m st = Some (a, st') ->
    held_textures (gs st') = held_textures (gs st) /\
    forall id, textures_outstanding id (w_calls (gw st'))
               = textures_outstanding id (w_calls (gw st)).

(** What a step that may create one texture does: on failure the textures
    are as before (a texture created on the way has been freed again); on
    success the field written through [setter] holds one new texture. *)
Definition texture_step
    (setter : option texture -> gpu_ctx_gl -> gpu_ctx_gl) (m : M glst Z)
    : Prop :=
  forall st r st',
    m st = Some (r, st') ->
    (r < 0 /\ held_textures (gs st') = held_textures (gs st) /\
     forall id, textures_outstanding id (w_calls (gw st'))
                = textures_outstanding id (w_calls (gw st))) \/
    (r = 0 /\ exists t,
       held_textures (gs st') = held_textures (setter (Some t) (gs st)) /\
       forall id, textures_outstanding id (w_calls (gw st'))
                  = textures_outstanding id (w_calls (gw st))
                    + (if Nat.eqb (tex_id t) id then 1 else 0)).

(** ** Further fixtures *)

(** An external configuration naming framebuffer 7. *)
Definition demo_external_config : ngl_config :=
  set_backend_config (Some {| external := true; external_framebuffer := 7 |})
    (demo_config false 0 NGL_BACKEND_OPENGL).

(** A driver with framebuffer objects on which framebuffer 9 has nothing
    attached and depth-stencil textures cannot be created. *)
Definition demo_driver_fbo : driver :=
  {| drv_alloc := drv_alloc demo_driver;
     drv_glcontext_new := fun p =>
       Some {| gl_features := [NGLI_FEATURE_GL_FRAMEBUFFER_OBJECT;
                               NGLI_FEATURE_GL_CLEAR_BUFFER];
               gl_offscreen := gp_offscreen p;
               gl_width := gp_width p; gl_height := gp_height p;
               gl_samples := gp_samples p; gl_limits := demo_limits;
               gl_default_framebuffer := 0 |};
     drv_glcontext_resize := drv_glcontext_resize demo_driver;
     drv_texture_init := fun p =>
       match tp_format p with
       | NGLI_FORMAT_D24_UNORM_S8_UINT => -1
       | _ => 0
       end;
     drv_texture_wrap := drv_texture_wrap demo_driver;
     drv_framebuffer_complete := drv_framebuffer_complete demo_driver;
     drv_attachment_type := fun fbo _ => if fbo =? 9 then 0 else 1;
     drv_attachment_size := drv_attachment_size demo_driver;
     drv_cv_create_texture := drv_cv_create_texture demo_driver;
     drv_cv_size := drv_cv_size demo_driver |}.

(** The external context after [gl_init] on that driver. *)
Definition demo_external_gl : glst :=
  state_after (gl_init demo_build demo_driver_fbo)
    {| gs := gpu_ctx_gl_zero demo_external_config; gw := demo_world |}.

(** A fresh offscreen context asking for four samples. *)
Definition demo_fresh_offscreen_gl : glst :=
  {| gs := gpu_ctx_gl_zero (demo_config true 4 NGL_BACKEND_OPENGL);
     gw := demo_world |}.

(** A configured offscreen OpenGL context capturing to CPU memory. *)
Definition demo_offscreen : apist gpu_ctx_gl :=
  state_after
    (ngl_configure demo_build demo_impls
       (Some (demo_config true 0 NGL_BACKEND_OPENGL)))
    demo_created.

(** ** Consecutive dispatches *)

(** The controlling thread calls [ngli_ctx_dispatch_cmd] again, with
    command [c]: the shared fields and the worker are where the previous
    call left them. *)
Definition redispatch (c : cmd) (m : mailbox) : mailbox :=
  {| lock := lock m; cmd_func := cmd_func m; cmd_ret := cmd_ret m;
     ctls := [(C_lock, c)]; wkr := wkr m; executed := executed m |}.

(** The worker is inside its loop, or has left it. *)
Definition wkr_in_loop (w : wkr_pc) : bool :=
  match w with
  | W_unlock | W_done => false
  | _ => true
  end.

(** A dispatch of [c] after the worker has left its loop: the controller
    is somewhere before its [pthread_mutex_unlock], and once it has
    published the command, the command stays in the slot. *)
Definition stopped_inv (c : cmd) (h : list cmd) (m : mailbox) : Prop :=
  exists k,
    ctls m = [(k, c)] /\ wkr_in_loop (wkr m) = false /\ executed m = h /\
    match k with
    | C_lock | C_publish => True
    | C_signal | C_check | C_wait | C_wake => cmd_func m = Some c
    | C_unlock | C_read | C_done _ => False
    end.

(* ================================================================== *)
(** * Android bindings ([api.c], [ngl_jni_*], [ngl_android_*]) *)
(* ================================================================== *)

(** The file-scope variables [java_vm] and [android_application_context]
    ([NULL] is [0]) and, outside the program, the JNI global references
    that are alive, the number of references requested so far and the log.
    Every function below runs its body between [pthread_mutex_lock] and
    [pthread_mutex_unlock] on the same mutex, so calls are atomic and a
    history of calls is a sequence. *)
Record jni_state := {
  java_vm : ptr;
  android_application_context : ptr;
  global_refs : list ptr;
  jni_next : nat;
  jni_log : list log_entry
}.

(** What the code cannot decide: whether [ngli_jni_get_env] returns an
    environment, and the reference [NewGlobalRef] returns for an object on
    its [n]-th request ([NULL] when it fails). *)
Record jni_oracle := {
  jni_get_env : bool;
  jni_new_global_ref : ptr -> nat -> ptr
}.

Definition set_java_vm (vm : ptr) (s : jni_state) : jni_state :=
  {| java_vm := vm;
     android_application_context := android_application_context s;
     global_refs := global_refs s; jni_next := jni_next s;
     jni_log := jni_log s |}.

Definition jni_LOG (l : log_level) (msg : string) : M jni_state unit :=
  modify (fun s =>
    {| java_vm := java_vm s;
       android_application_context := android_application_context s;
       global_refs := global_refs s; jni_next := jni_next s;
       jni_log := jni_log s ++ [(l, msg)] |}).

(** [#if defined(TARGET_ANDROID)] *)
Definition target_android (b : build) : bool :=
  match target b with
  | TARGET_ANDROID => true
  | _ => false
  end.

Definition ngl_jni_set_java_vm (b : build) (vm : ptr) : M jni_state Z :=
  if target_android b then
    cur <- gets java_vm ;;
    if cur =? 0 then
      modify (set_java_vm vm) ;;
      ret 0
    else if negb (cur =? vm) then
      jni_LOG ERROR "a Java virtual machine has already been set" ;;
      ret (-1)
    else ret 0
  else ret NGL_ERROR_UNSUPPORTED.

Definition ngl_jni_get_java_vm (b : build) : M jni_state ptr :=
  if target_android b then gets java_vm else ret 0.

(** [DeleteGlobalRef(env, ref)]: the reference is no longer
    alive. *)
Fixpoint delete_ref (ref : ptr) (l : list ptr) : list ptr :=
  match l with
  | [] => []
  | x :: l' => if x =? ref then l' else x :: delete_ref ref l'
  end.

Definition DeleteGlobalRef (ref : ptr) : M jni_state unit :=
  modify (fun s =>
    {| java_vm := java_vm s;
       android_application_context := android_application_context s;
       global_refs := delete_ref ref (global_refs s);
       jni_next := jni_next s; jni_log := jni_log s |}).

(** [NewGlobalRef(env, obj)]: a reference that is alive, or
    [NULL]. *)
Definition NewGlobalRef (o : jni_oracle) (obj : ptr) : M jni_state ptr :=
  n <- gets jni_next ;;
  let ref := jni_new_global_ref o obj n in
  modify (fun s =>
    {| java_vm := java_vm s;
       android_application_context := android_application_context s;
       global_refs := if ref =? 0 then global_refs s
                      else global_refs s ++ [ref];
       jni_next := S (jni_next s); jni_log := jni_log s |}) ;;
  ret ref.

Definition set_application_context (c : ptr) : M jni_state unit :=
  modify (fun s =>
    {| java_vm := java_vm s; android_application_context := c;
       global_refs := global_refs s; jni_next := jni_next s;
       jni_log := jni_log s |}).

Definition ngl_android_set_application_context (b : build) (o : jni_oracle)
    (application_context : ptr) : M jni_state Z :=
  if target_android b then
    if negb (jni_get_env o) then ret NGL_ERROR_EXTERNAL
    else
      cur <- gets android_application_context ;;
      (if negb (cur =? 0) then
         DeleteGlobalRef cur ;;
         set_application_context 0
       else ret tt) ;;
      (if negb (application_context =? 0) then
         ref <- NewGlobalRef o application_context ;;
         set_application_context ref
       else ret tt) ;;
      ret 0
  else ret NGL_ERROR_UNSUPPORTED.

Definition ngl_android_get_application_context (b : build) : M jni_state ptr :=
  if target_android b then gets android_application_context else ret 0.

(** A history of calls to [ngl_jni_set_java_vm]; the results in order. *)
Fixpoint set_java_vms (b : build) (vms : list ptr) : M jni_state (list Z) :=
  match vms with
  | [] => ret []
  | vm :: vms' =>
      r <- ngl_jni_set_java_vm b vm ;;
      rs <- set_java_vms b vms' ;;
      ret (r :: rs)
  end.

(** A history of calls to [ngl_android_set_application_context]. *)
Fixpoint set_application_contexts (b : build) (o : jni_oracle)
    (cs : list ptr) : M jni_state (list Z) :=
  match cs with
  | [] => ret []
  | c :: cs' =>
      r <- ngl_android_set_application_context b o c ;;
      rs <- set_application_contexts b o cs' ;;
      ret (r :: rs)
  end.

(** The first virtual machine of a history that is not [NULL]. *)
Definition first_vm (vms : list ptr) : ptr :=
  hd 0 (filter (fun v => negb (v =? 0)) vms).

(** The only global reference alive is the stored application context. *)
Definition one_context_ref (s : jni_state) : Prop :=
  global_refs s = if android_application_context s =? 0 then []
                  else [android_application_context s].

(** The state of a process that has not called the bindings yet. *)
Definition jni_initial : jni_state :=
  {| java_vm := 0; android_application_context := 0; global_refs := [];
     jni_next := 0; jni_log := [] |}.

Definition android_build : build :=
  {| BACKEND_GL := false; BACKEND_GLES := true; BACKEND_VK := false;
     target := TARGET_ANDROID |}.

(** An oracle whose [n]-th global reference is [100 + n]. *)
Definition demo_jni : jni_oracle :=
  {| jni_get_env := true;
     jni_new_global_ref := fun _ n => 100 + Z.of_nat n |}.

(* ================================================================== *)
(** * Drawing ([gpu_ctx_gl.c] draw entry points, [rendertarget_gl.c] passes) *)
(* ================================================================== *)

Inductive fb_target :=
| GL_FRAMEBUFFER | GL_READ_FRAMEBUFFER | GL_DRAW_FRAMEBUFFER.

(** The OpenGL and platform commands issued while drawing, in program
    order.  The timer commands carry the function set they go through
    ([timer_noop] issues none); [GlDrawBuffers] carries the array passed,
    [None] standing for a zero entry. *)
Inductive gl_cmd :=
| GlColorMask (r g b a : bool)
| GlDepthMask (flag : bool)
| GlStencilMask (mask : Z)
| GlDisableScissorTest
| GlBindFramebuffer (target : fb_target) (id : Z)
| GlClearColor (v : list float)
| GlClear (mask : Z)
| GlClearBufferfv (drawbuffer : nat) (v : list float)
| GlClearBufferfi
| GlReadBuffer (i : nat)
| GlDrawBuffer (i : nat)
| GlDrawBuffers (bufs : list (option GLenum))
| GlBlitFramebuffer (w h : Z) (mask : Z)
| GlInvalidateFramebuffer (atts : list GLenum)
| GlBeginQuery (t : timer_funcs) (q : nat)
| GlEndQuery (t : timer_funcs)
| GlQueryCounter (t : timer_funcs) (q : nat)
| GlGetQueryObject (t : timer_funcs) (q : nat)
| Capture (f : capture_func_type)
| GlCheckError
| SetSurfacePts (t : Q)
| SwapBuffers.

(** The fields of [struct glstate] the passes read and write. *)
Record glstate := {
  color_write_mask : bool * bool * bool * bool;
  depth_write_mask : bool;
  stencil_write_mask : Z;
  scissor_test : bool
}.

Definition default_glstate : glstate :=
  {| color_write_mask := (true, true, true, true); depth_write_mask := true;
     stencil_write_mask := 0xff; scissor_test := false |}.

(** The GPU context while drawing: the part modelled above, and the fields
    [glstate] and [current_rt] of [struct gpu_ctx_gl]; the commands issued
    so far. *)
Record drawst := {
  dr_gs : gpu_ctx_gl;
  dr_glstate : glstate;
  current_rt : option rendertarget;
  gl_cmds : list gl_cmd
}.

(** What the driver answers while drawing: [GL_QUERY_RESULT] of a query
    and the result of [ngli_glcontext_check_gl_error]. *)
Record draw_oracle := {
  query_result : nat -> Z;
  check_gl_error : Z
}.

(** Commands issued through the native context [gl]: the context is
    dereferenced when there is a command to issue. *)
Definition emit (cs : list gl_cmd) : M drawst unit :=
  match cs with
  | [] => ret tt
  | _ =>
      gl <- deref (fun st => glctx (dr_gs st)) ;;
      modify (fun s => {| dr_gs := dr_gs s; dr_glstate := dr_glstate s;
                          current_rt := current_rt s;
                          gl_cmds := gl_cmds s ++ cs |})
  end.

Definition set_glstate (g : glstate) : M drawst unit :=
  modify (fun s => {| dr_gs := dr_gs s; dr_glstate := g;
                      current_rt := current_rt s; gl_cmds := gl_cmds s |}).

Definition set_current_rt (r : option rendertarget) : M drawst unit :=
  modify (fun s => {| dr_gs := dr_gs s; dr_glstate := dr_glstate s;
                      current_rt := r; gl_cmds := gl_cmds s |}).

Definition all_buffer_bits : Z :=
  Z.lor GL_COLOR_BUFFER_BIT (Z.lor GL_DEPTH_BUFFER_BIT GL_STENCIL_BUFFER_BIT).

(** [clear_buffer]: one [glClear] with the flags computed when the render
    target was set up. *)
Definition clear_buffer_cmds (s : rendertarget) (p : rendertarget_params)
    : option (list gl_cmd) :=
  match rp_nb_colors p, rp_colors p with
  | O, _ => Some []
  | S _, color :: _ =>
      Some [GlClearColor (att_clear_value color); GlClear (rt_clear_flags s)]
  | S _, [] => None
  end.

(** The color loop of [clear_buffers]. *)
Fixpoint clear_colors_cmds (cs : list attachment) (i : nat) : list gl_cmd :=
  match cs with
  | [] => []
  | color :: cs' =>
      (match att_load_op color with
       | NGLI_LOAD_OP_LOAD => []
       | _ => [GlClearBufferfv i (att_clear_value color)]
       end) ++ clear_colors_cmds cs' (S i)
  end.

(** [clear_buffers]: one clear per attachment whose load operation is not
    [NGLI_LOAD_OP_LOAD]. *)
Definition clear_buffers_cmds (s : rendertarget) (p : rendertarget_params)
    : list gl_cmd :=
  clear_colors_cmds (visited_colors p) 0
  ++ (if is_some (att_attachment (rp_depth_stencil p)) || rt_wrapped s then
        match att_load_op (rp_depth_stencil p) with
        | NGLI_LOAD_OP_LOAD => []
        | _ => [GlClearBufferfi]
        end
      else []).

(** [s_priv->clear(s)]; [None] when the function pointer or the parameters
    were never set. *)
Definition clear_cmds (s : rendertarget) : option (list gl_cmd) :=
  match rt_clear s, rt_params s with
  | Some clear_buffer, Some p => clear_buffer_cmds s p
  | Some clear_buffers, Some p => Some (clear_buffers_cmds s p)
  | _, _ => None
  end.

(** [s_priv->invalidate(s)] *)
Definition invalidate_cmds (s : rendertarget) : option (list gl_cmd) :=
  match rt_invalidate s with
  | Some invalidate =>
      Some [GlInvalidateFramebuffer (rt_invalidate_attachments s)]
  | Some invalidate_noop => Some []
  | None => None
  end.

(** The loop of [resolve_draw_buffers]. *)
Fixpoint resolve_colors_cmds (darwin : bool) (w h : Z) (cs : list attachment)
    (i : nat) : list gl_cmd :=
  match cs with
  | [] => []
  | a :: cs' =>
      (match att_resolve_target a with
       | None => []
       | Some _ =>
           [GlReadBuffer i;
            if darwin then GlDrawBuffer i
            else GlDrawBuffers
                   (repeat None i ++ [Some (GL_COLOR_ATTACHMENT0_plus i)]);
            GlBlitFramebuffer w h
              (if Nat.eqb i 0 then all_buffer_bits else GL_COLOR_BUFFER_BIT)]
       end) ++ resolve_colors_cmds darwin w h cs' (S i)
  end.

(** [s_priv->resolve(s)] *)
Definition resolve_cmds (b : build) (s : rendertarget)
    : option (list gl_cmd) :=
  match rt_resolve s, rt_params s with
  | Some resolve_no_draw_buffers, _ =>
      Some [GlBlitFramebuffer (rt_width s) (rt_height s) all_buffer_bits]
  | Some resolve_draw_buffers, Some p =>
      Some (resolve_colors_cmds
              (match target b with TARGET_DARWIN => true | _ => false end)
              (rt_width s) (rt_height s) (visited_colors p) 0
            ++ [GlReadBuffer 0;
                GlDrawBuffers
                  (firstn (rp_nb_colors p)
                     (map Some (rt_draw_buffers s)
                      ++ repeat None (rp_nb_colors p)))])
  | _, _ => None
  end.

(** The write masks and the scissor test are brought back to their
    defaults; a command is issued only for what the cached state says
    differs. *)
Definition reset_write_masks_cmds (g : glstate) : list gl_cmd :=
  (match color_write_mask g with
   | (true, true, true, true) => []
   | _ => [GlColorMask true true true true]
   end)
  ++ (if depth_write_mask g then [] else [GlDepthMask true])
  ++ (if stencil_write_mask g =? 0xff then [] else [GlStencilMask 0xff])
  ++ (if scissor_test g then [GlDisableScissorTest] else []).

Definition scissor_off (g : glstate) : glstate :=
  {| color_write_mask := color_write_mask g;
     depth_write_mask := depth_write_mask g;
     stencil_write_mask := stencil_write_mask g; scissor_test := false |}.

(** [ngli_rendertarget_gl_begin_pass] *)
Definition ngli_rendertarget_gl_begin_pass (s : rendertarget) : M drawst unit :=
  g <- gets dr_glstate ;;
  emit (reset_write_masks_cmds g) ;;
  set_glstate default_glstate ;;
  emit [GlBindFramebuffer GL_FRAMEBUFFER (rt_id s)] ;;
  match clear_cmds s with
  | Some cs => emit cs
  | None => crash
  end.

(** [ngli_rendertarget_gl_end_pass] *)
Definition ngli_rendertarget_gl_end_pass (b : build) (s : rendertarget)
    : M drawst unit :=
  g <- gets dr_glstate ;;
  (if scissor_test g then
     emit [GlDisableScissorTest] ;;
     set_glstate (scissor_off g)
   else ret tt) ;;
  (if negb (rt_resolve_id s =? 0) then
     emit [GlBindFramebuffer GL_READ_FRAMEBUFFER (rt_id s);
           GlBindFramebuffer GL_DRAW_FRAMEBUFFER (rt_resolve_id s)] ;;
     match resolve_cmds b s with
     | Some cs =>
         emit cs ;;
         cur <- gets current_rt ;;
         match cur with
         | Some rt => emit [GlBindFramebuffer GL_FRAMEBUFFER (rt_id rt)]
         | None =>
             gl <- deref (fun st => glctx (dr_gs st)) ;;
             emit [GlBindFramebuffer GL_FRAMEBUFFER (gl_default_framebuffer gl)]
         end
     | None => crash
     end
   else ret tt) ;;
  match invalidate_cmds s with
  | Some cs => emit cs
  | None => crash
  end.

(** [gl_begin_render_pass]; the assertion fails when a pass is open. *)
Definition gl_begin_render_pass (rt : rendertarget) : M drawst unit :=
  cur <- gets current_rt ;;
  match cur with
  | Some _ => crash
  | None =>
      ngli_rendertarget_gl_begin_pass rt ;;
      set_current_rt (Some rt)
  end.

(** [gl_end_render_pass]; the assertion fails when no pass is open. *)
Definition gl_end_render_pass (b : build) : M drawst unit :=
  cur <- gets current_rt ;;
  match cur with
  | None => crash
  | Some rt =>
      ngli_rendertarget_gl_end_pass b rt ;;
      set_current_rt None
  end.

(** A command issued through the timer function set of the context:
    nothing for the no-op set, a call through [NULL] when [timer_init] has
    not run. *)
Definition timer_cmd (c : timer_funcs -> gl_cmd) : M drawst unit :=
  t <- gets (fun st => timer (dr_gs st)) ;;
  match t with
  | Some timer_noop => ret tt
  | Some t => emit [c t]
  | None => crash
  end.

(** The value [glGetQueryObjectui64v] leaves in a variable initialised to
    zero. *)
Definition timer_result (o : draw_oracle) (q : nat) : M drawst Z :=
  t <- gets (fun st => timer (dr_gs st)) ;;
  match t with
  | Some timer_noop => ret 0
  | Some t => emit [GlGetQueryObject t q] ;; ret (query_result o q)
  | None => crash
  end.

Definition is_darwin (b : build) : bool :=
  match target b with
  | TARGET_DARWIN => true
  | _ => false
  end.

(** [gl_begin_draw] *)
Definition gl_begin_draw (b : build) : M drawst Z :=
  cfg <- gets (fun st => config (dr_gs st)) ;;
  (if hud cfg then
     if is_darwin b then timer_cmd (fun t => GlBeginQuery t 0)
     else timer_cmd (fun t => GlQueryCounter t 0)
   else ret tt) ;;
  ret 0.

(** A [GLuint64] stored into an [int64_t]. *)
Definition to_int64 (z : Z) : Z :=
  let u := z mod 2 ^ 64 in
  if u <? 2 ^ 63 then u else u - 2 ^ 64.

(** [gl_query_draw_time]: the result and the value stored through
    [time]. *)
Definition gl_query_draw_time (b : build) (o : draw_oracle)
    : M drawst (Z * option Z) :=
  cfg <- gets (fun st => config (dr_gs st)) ;;
  if negb (hud cfg) then ret (NGL_ERROR_INVALID_USAGE, None)
  else if is_darwin b then
    timer_cmd GlEndQuery ;;
    time_elapsed <- timer_result o 0 ;;
    ret (0, Some (to_int64 time_elapsed))
  else
    timer_cmd (fun t => GlQueryCounter t 1) ;;
    start_time <- timer_result o 0 ;;
    end_time <- timer_result o 1 ;;
    ret (0, Some (to_int64 (end_time - start_time))).

(** [gl_end_draw] *)
Definition gl_end_draw (o : draw_oracle) (t : Q) : M drawst Z :=
  s <- gets dr_gs ;;
  (match capture_func s, capture_buffer (config s) with
   | Some f, Some _ => emit [Capture f]
   | _, _ => ret tt
   end) ;;
  emit [GlCheckError] ;;
  (if negb (is_external (config s)) && negb (offscreen (config s)) then
     (if set_surface_pts (config s) then emit [SetSurfacePts t] else ret tt) ;;
     emit [SwapBuffers]
   else ret tt) ;;
  ret (check_gl_error o).

(** ** Properties of the commands *)

(** No command of the sequence clears a buffer. *)
Definition clears_nothing (cs : list gl_cmd) : Prop :=
  Forall (fun c => match c with
                   | GlClear mask => mask = 0
                   | GlClearBufferfv _ _ | GlClearBufferfi => False
                   | _ => True
                   end) cs.

(** The sequence clears color, depth and stencil, the color to [cc]. *)
Definition clears_everything (cc : list float) (cs : list gl_cmd) : Prop :=
  cs = [GlClearBufferfv 0 cc; GlClearBufferfi] \/
  cs = [GlClearColor cc; GlClear all_buffer_bits].

(** A default render target set up for load operation [lop] with clear
    color [cc]. *)
Definition default_clear_setup (lop : load_op_t) (cc : list float)
    (rt : rendertarget) : Prop :=
  exists cfg c rc ds,
    rt_params rt = Some (default_rendertarget_params cfg c rc ds lop) /\
    clear_color cfg = cc /\
    rt_clear rt <> None /\ rt_invalidate rt <> None /\
    rt_resolve rt <> None /\
    is_some ds || rt_wrapped rt = true /\
    rt_clear_flags rt = (if clears lop then all_buffer_bits else 0).

(** What a configuration says about the mode of the context. *)
Definition mode_of (s : gpu_ctx_gl)
    : bool * bool * option ptr * capture_buffer_type_t * bool * bool
      * list float :=
  (offscreen (config s), is_external (config s), capture_buffer (config s),
   capture_buffer_type (config s), set_surface_pts (config s),
   hud (config s), clear_color (config s)).

(** The default render targets of a context. *)
Definition default_rts_of (s : gpu_ctx_gl)
    : option rendertarget * option rendertarget :=
  (default_rt s, default_rt_load s).

(** The clear color of the configuration of a context. *)
Definition cc_of (s : gpu_ctx_gl) : list float := clear_color (config s).

(** ** Fixtures for drawing *)

(** The offscreen context of the examples, about to draw its first
    frame. *)
Definition demo_draw : drawst :=
  {| dr_gs := gs demo_offscreen_gl; dr_glstate := default_glstate;
     current_rt := None; gl_cmds := [] |}.

(** Its clearing default render target. *)
Definition demo_rt : rendertarget :=
  match default_rt (gs demo_offscreen_gl) with
  | Some rt => rt
  | None => rendertarget_zero
  end.

(** A driver whose timer queries report 1000 and 1500 and which reports no
    error. *)
Definition demo_draw_oracle : draw_oracle :=
  {| query_result := fun q => if Nat.eqb q 0 then 1000 else 1500;
     check_gl_error := 0 |}.

(** The onscreen context of the examples with the HUD enabled and the core
    timer functions. *)
Definition demo_draw_hud : drawst :=
  {| dr_gs := set_timer (Some timer_core)
                (with_config
                   (fun c =>
                      {| platform := platform c; backend := backend c;
                         backend_config := backend_config c;
                         display := display c; window := window c;
                         swap_interval := swap_interval c;
                         offscreen := offscreen c; width := width c;
                         height := height c; viewport := viewport c;
                         samples := samples c;
                         set_surface_pts := set_surface_pts c;
                         clear_color := clear_color c;
                         capture_buffer := capture_buffer c;
                         capture_buffer_type := capture_buffer_type c;
                         hud := true |})
                   (gs demo_onscreen_gl));
     dr_glstate := default_glstate; current_rt := None; gl_cmds := [] |}.

(** The capture made at the end of a frame. *)
Definition is_capture (c : gl_cmd) : bool :=
  match c with
  | Capture _ => true
  | _ => false
  end.

(** The presentation of a frame on the surface. *)
Definition is_present (c : gl_cmd) : bool :=
  match c with
  | SetSurfacePts _ | SwapBuffers => true
  | _ => false
  end.

(** The configuration draws on a surface of the platform: neither
    offscreen nor into a framebuffer of the caller. *)
Definition presents (c : ngl_config) : bool :=
  negb (is_external c) && negb (offscreen c).

(* ================================================================== *)
(** * Reasoning about the monad *)
(* ================================================================== *)

Lemma bind_inv {S A B} (m : M S A) (k : A -> M S B) s b s' :
  bind m k s = Some (b, s') ->
  exists a s1, m s = Some (a, s1) /\ k a s1 = Some (b, s').
Proof.
  unfold bind. destruct (m s) as [[a s1]|]; [|discriminate].
  intros H. exists a, s1. auto.
Qed.

Lemma bind_eq {S A B} (m : M S A) (k : A -> M S B) s a s1 :
  m s = Some (a, s1) -> bind m k s = k a s1.
Proof. unfold bind. intros ->. reflexivity. Qed.

Lemma keeps_gs_ret {A} (a : A) : keeps_gs (ret a).
Proof. intros st a' st' H. inversion H. reflexivity. Qed.

Lemma keeps_gs_bind {A B} (m : M glst A) (k : A -> M glst B) :
  keeps_gs m -> (forall a, keeps_gs (k a)) -> keeps_gs (bind m k).
Proof.
  intros Hm Hk st b st' H. apply bind_inv in H as (a & s1 & H1 & H2).
  rewrite (Hk _ _ _ _ H2). eauto.
Qed.

Lemma keeps_gs_on_gw f : keeps_gs (on_gw f).
Proof. intros st a st' H. inversion H. reflexivity. Qed.

Lemma keeps_gs_LOG l m : keeps_gs (LOG l m).
Proof. apply keeps_gs_on_gw. Qed.

Lemma keeps_gs_call c : keeps_gs (call c).
Proof. apply keeps_gs_on_gw. Qed.

Lemma keeps_gs_gets {A} (f : glst -> A) : keeps_gs (gets f).
Proof. intros st a st' H. inversion H. reflexivity. Qed.

Lemma keeps_gs_deref {A} (f : glst -> option A) : keeps_gs (deref f).
Proof. intros st a st' H. unfold deref in H. destruct (f st); inversion H. reflexivity. Qed.

Lemma keeps_gs_crash {A} : keeps_gs (@crash glst A).
Proof. intros st a st' H. discriminate. Qed.

Ltac keeps :=
  repeat first
    [ apply keeps_gs_ret | apply keeps_gs_LOG | apply keeps_gs_call
    | apply keeps_gs_on_gw | apply keeps_gs_gets | apply keeps_gs_deref
    | apply keeps_gs_crash
    | apply keeps_gs_bind; [|intros ?]
    | match goal with
      | |- keeps_gs (if ?c then _ else _) => destruct c
      | |- keeps_gs (match ?x with _ => _ end) => destruct x
      end ].

Lemma keeps_gs_alloc d : keeps_gs (alloc d).
Proof. unfold alloc. keeps. Qed.

Lemma keeps_gs_create_fbo d p r o : keeps_gs (create_fbo d p r o).
Proof. unfold create_fbo, gen_framebuffer, the_gl. keeps. Qed.

Lemma keeps_gs_rt_init d s p : keeps_gs (ngli_rendertarget_gl_init d s p).
Proof.
  unfold ngli_rendertarget_gl_init, rendertarget_gl_init_strategies, the_gl.
  keeps; try apply keeps_gs_create_fbo.
Qed.

Lemma keeps_gs_rt_wrap s p id : keeps_gs (ngli_rendertarget_gl_wrap s p id).
Proof. unfold ngli_rendertarget_gl_wrap, the_gl. keeps. Qed.

Lemma keeps_gs_rt_free r : keeps_gs (rendertarget_gl_free r).
Proof. unfold rendertarget_gl_free. keeps. Qed.

Lemma rt_init_records d s p st r rt st' :
  ngli_rendertarget_gl_init d s p st = Some ((r, rt), st') -> records rt p.
Proof.
  unfold ngli_rendertarget_gl_init. intros H.
  apply bind_inv in H as (gl & s1 & _ & H).
  destruct (require_resolve_fbo p && negb (has_feature gl NGLI_FEATURE_GL_FRAMEBUFFER_OBJECT)).
  - apply bind_inv in H as (? & ? & _ & H). inversion H; subst. repeat split.
  - apply bind_inv in H as (r1 & s2 & _ & H).
    destruct (fst r1 <? 0).
    + inversion H; subst. repeat split.
    + apply bind_inv in H as (r2 & s3 & _ & H).
      destruct (fst r2 <? 0).
      * inversion H; subst. repeat split.
      * unfold rendertarget_gl_init_strategies in H.
        destruct (has_feature gl NGLI_FEATURE_GL_DRAW_BUFFERS && (Z.of_nat (rp_nb_colors p) >? gl_max_draw_buffers gl)).
        -- apply bind_inv in H as (? & ? & _ & H). inversion H; subst. repeat split.
        -- inversion H; subst. repeat split.
Qed.

Lemma rt_wrap_records s p id st r rt st' :
  ngli_rendertarget_gl_wrap s p id st = Some ((r, rt), st') -> records rt p.
Proof.
  unfold ngli_rendertarget_gl_wrap. intros H.
  apply bind_inv in H as (gl & s1 & _ & H).
  destruct (rp_nb_colors p) as [|[|n]]; try discriminate.
  destruct (rp_colors p) as [|c0 cs]; try discriminate.
  destruct (_ || _); try discriminate.
  inversion H; subst. repeat split.
Qed.

(** The outcome of [create_rendertarget]: an error and an untouched
    context, or success and the target stored through [rendertargetp]. *)
Lemma create_rendertarget_spec d c rc ds lop setter st r st' :
  create_rendertarget d c rc ds lop setter st = Some (r, st') ->
  (r < 0 /\ gs st' = gs st) \/
  (r = 0 /\ exists rt,
      gs st' = setter (Some rt) (gs st) /\
      records rt (default_rendertarget_params (config (gs st)) c rc ds lop)).
Proof.
  unfold create_rendertarget. intros H.
  apply bind_inv in H as (cfg & s1 & H1 & H). inversion H1; subst; clear H1.
  apply bind_inv in H as (o & s2 & H1 & H).
  assert (E2 : gs s2 = gs s1).
  { unfold ngli_rendertarget_gl_create in H1.
    apply bind_inv in H1 as (? & ? & Ha & H1). inversion H1; subst.
    eapply keeps_gs_alloc; eauto. }
  destruct o as [rt0|].
  2:{ inversion H; subst. left. split; [reflexivity|assumption]. }
  apply bind_inv in H as ([r1 rt1] & s3 & H1' & H).
  assert (E3 : gs s3 = gs s2 /\
          records rt1 (default_rendertarget_params (config (gs s1)) c rc ds lop)).
  { destruct (is_some c).
    - split. eapply keeps_gs_rt_init; eauto. eapply rt_init_records; eauto.
    - apply bind_inv in H1' as (gl & s4 & Hg & H1').
      assert (gs s4 = gs s2) by (unfold the_gl in Hg; eapply keeps_gs_deref; eauto).
      split. rewrite <- H0. eapply keeps_gs_rt_wrap; eauto.
      eapply rt_wrap_records; eauto. }
  destruct E3 as [E3 R]. cbn [fst snd] in H.
  destruct (r1 <? 0) eqn:Er.
  - apply bind_inv in H as (? & s5 & Hf & H). inversion H; subst.
    left. split; [apply Z.ltb_lt; assumption|].
    rewrite (keeps_gs_rt_free _ _ _ _ Hf). congruence.
  - apply bind_inv in H as (? & s5 & Hf & H). inversion H; subst.
    right. split; [reflexivity|]. exists rt1.
    inversion Hf; subst. cbn. rewrite E3, E2. split; [reflexivity|assumption].
Qed.

Lemma paired_intro s cfg c rc ds rt rtl :
  default_rt s = Some rt -> default_rt_load s = Some rtl ->
  records rt (default_rendertarget_params cfg c rc ds NGLI_LOAD_OP_CLEAR) ->
  records rtl (default_rendertarget_params cfg c rc ds NGLI_LOAD_OP_LOAD) ->
  width (config s) = width cfg -> height (config s) = height cfg ->
  default_rts_paired s.
Proof.
  intros H1 H2 (P1 & W1 & Hh1) (P2 & W2 & Hh2) Hw Hh.
  exists rt, rtl, (default_rendertarget_params cfg c rc ds NGLI_LOAD_OP_CLEAR),
    (default_rendertarget_params cfg c rc ds NGLI_LOAD_OP_LOAD).
  cbn in W1, Hh1, W2, Hh2.
  repeat split; auto; cbn; try congruence; repeat constructor.
Qed.

Lemma create_default_rendertargets_spec d c rc ds st r st' :
  create_default_rendertargets d c rc ds st = Some (r, st') ->
  (r < 0 /\ config (gs st') = config (gs st)) \/
  (r = 0 /\ exists rt rtl,
      gs st' = set_default_rt_load (Some rtl) (set_default_rt (Some rt) (gs st)) /\
      records rt (default_rendertarget_params (config (gs st)) c rc ds NGLI_LOAD_OP_CLEAR) /\
      records rtl (default_rendertarget_params (config (gs st)) c rc ds NGLI_LOAD_OP_LOAD)).
Proof.
  unfold create_default_rendertargets. intros H.
  apply bind_inv in H as (r1 & s1 & H1 & H).
  apply create_rendertarget_spec in H1 as [[Hr E]|[Hr (rt & E & R)]].
  - apply Z.ltb_lt in Hr as Hr'. rewrite Hr' in H. inversion H; subst.
    left. split; [assumption|congruence].
  - subst r1. cbn in H.
    apply bind_inv in H as (r2 & s2 & H2 & H).
    apply create_rendertarget_spec in H2 as [[Hr E2]|[Hr (rtl & E2 & R2)]].
    + apply Z.ltb_lt in Hr as Hr'. rewrite Hr' in H. inversion H; subst.
      left. split; [assumption|]. rewrite E2, E. reflexivity.
    + subst r2. cbn in H. inversion H; subst.
      right. split; [reflexivity|]. exists rt, rtl.
      rewrite E2, E. rewrite E in R2. cbn in R2. auto.
Qed.

Lemma keeps_config_of_gs {A} (m : M glst A) : keeps_gs m -> keeps_config m.
Proof. intros H st a st' E. rewrite (H _ _ _ E). reflexivity. Qed.

Lemma keeps_config_bind {A B} (m : M glst A) (k : A -> M glst B) :
  keeps_config m -> (forall a, keeps_config (k a)) -> keeps_config (bind m k).
Proof.
  intros Hm Hk st b0 st' H. apply bind_inv in H as (a & s1 & H1 & H2).
  rewrite (Hk _ _ _ _ H2). eauto.
Qed.

Lemma keeps_config_ret {A} (a : A) : keeps_config (ret a).
Proof. apply keeps_config_of_gs, keeps_gs_ret. Qed.

Lemma keeps_config_on_gs f :
  (forall s, config (f s) = config s) -> keeps_config (on_gs f).
Proof. intros Hf st a st' H. inversion H; subst. cbn. apply Hf. Qed.

Lemma keeps_config_create_rendertarget d c rc ds lop setter :
  (forall r s, config (setter r s) = config s) ->
  keeps_config (create_rendertarget d c rc ds lop setter).
Proof.
  intros Hs st r st' H.
  apply create_rendertarget_spec in H as [[_ E]|[_ (rt & E & _)]];
    rewrite E; auto.
Qed.

Lemma keeps_config_create_texture d f n setter :
  (forall r s, config (setter r s) = config s) ->
  keeps_config (create_texture d f n setter).
Proof.
  intros Hs st r st' H. unfold create_texture in H.
  apply bind_inv in H as (cfg & s1 & H1 & H). inversion H1; subst; clear H1.
  apply bind_inv in H as (o & s2 & H1 & H).
  apply keeps_gs_alloc in H1.
  destruct o as [id|].
  - apply bind_inv in H as (? & s3 & H2 & H). apply keeps_gs_call in H2.
    destruct (_ <? 0).
    + apply bind_inv in H as (? & s4 & H3 & H). apply keeps_gs_call in H3.
      inversion H; subst. congruence.
    + apply bind_inv in H as (? & s4 & H3 & H). inversion H3; subst.
      inversion H; subst. cbn. rewrite Hs. congruence.
  - inversion H; subst. congruence.
Qed.

Ltac keeps_cfg :=
  repeat first
    [ apply keeps_config_ret
    | apply keeps_config_on_gs; intros; reflexivity
    | apply keeps_config_create_rendertarget; intros; reflexivity
    | apply keeps_config_create_texture; intros; reflexivity
    | apply keeps_config_of_gs; keeps; fail
    | apply keeps_config_bind; [|intros ?]
    | match goal with
      | |- keeps_config (if ?c then _ else _) => destruct c
      | |- keeps_config (match ?x with _ => _ end) => destruct x
      end ].

Lemma keeps_config_rendertarget_freep field setter :
  (forall r s, config (setter r s) = config s) ->
  keeps_config (rendertarget_freep field setter).
Proof.
  intros Hs. unfold rendertarget_freep.
  apply keeps_config_bind; [keeps_cfg|intros [r|]]; [|keeps_cfg].
  apply keeps_config_bind; [apply keeps_config_of_gs, keeps_gs_rt_free|intros].
  apply keeps_config_on_gs. intros; apply Hs.
Qed.

Lemma keeps_config_timer_init : keeps_config timer_init.
Proof. unfold timer_init, the_gl. keeps_cfg. Qed.

(** Pairing only depends on the two targets and the configured size. *)
Lemma paired_ext s s' :
  default_rt s' = default_rt s -> default_rt_load s' = default_rt_load s ->
  width (config s') = width (config s) ->
  height (config s') = height (config s) ->
  default_rts_paired s -> default_rts_paired s'.
Proof.
  intros E1 E2 Ew Eh (rt & rtl & p & pl & H).
  exists rt, rtl, p, pl. rewrite E1, E2, Ew, Eh. exact H.
Qed.

Lemma paired_after_create d c rc ds st r st' :
  create_default_rendertargets d c rc ds st = Some (r, st') -> 0 <= r ->
  default_rts_paired (gs st').
Proof.
  intros H Hr.
  apply create_default_rendertargets_spec in H as [[Hn _]|[_ (rt & rtl & E & R1 & R2)]];
    [lia|].
  eapply paired_intro with (rt := rt) (rtl := rtl); eauto; rewrite E; reflexivity.
Qed.

Lemma wrap_framebuffer_paired d fbo st r st' :
  ngli_gpu_ctx_gl_wrap_framebuffer d fbo st = Some (r, st') -> 0 <= r ->
  default_rts_paired (gs st').
Proof.
  unfold ngli_gpu_ctx_gl_wrap_framebuffer. intros H Hr.
  apply bind_inv in H as (cfg & s1 & H1 & H). inversion H1; subst; clear H1.
  destruct (negb (is_external (config (gs s1)))).
  { apply bind_inv in H as (? & ? & _ & H). inversion H; subst.
    unfold NGL_ERROR_UNSUPPORTED in Hr; cbn in Hr; lia. }
  apply bind_inv in H as (gl & s2 & _ & H).
  apply bind_inv in H as (r1 & s3 & _ & H).
  destruct (r1 <? 0) eqn:E1.
  { inversion H; subst. apply Z.ltb_lt in E1. lia. }
  apply bind_inv in H as (? & s4 & _ & H).
  apply bind_inv in H as (? & s5 & _ & H).
  apply bind_inv in H as (r2 & s6 & Hc & H).
  destruct (r2 <? 0) eqn:E2.
  { inversion H; subst. apply Z.ltb_lt in E2. lia. }
  apply Z.ltb_ge in E2.
  apply paired_after_create in Hc; [|assumption].
  apply bind_inv in H as (? & s7 & Hs & H). inversion Hs; subst.
  inversion H; subst. cbn.
  eapply paired_ext; [| | | |exact Hc]; reflexivity.
Qed.

Lemma offscreen_init_paired b d st r st' :
  offscreen_rendertarget_init b d st = Some (r, st') -> 0 <= r ->
  default_rts_paired (gs st').
Proof.
  unfold offscreen_rendertarget_init. intros H Hr.
  apply bind_inv in H as (gl & s1 & _ & H).
  apply bind_inv in H as (cfg & s2 & _ & H).
  apply bind_inv in H as (? & s3 & _ & H).
  apply bind_inv in H as (cfg' & s4 & _ & H).
  apply bind_inv in H as (r1 & s5 & _ & H).
  destruct (r1 <? 0) eqn:E1.
  { inversion H; subst. apply Z.ltb_lt in E1. lia. }
  apply bind_inv in H as (r2 & s6 & _ & H).
  destruct (r2 <? 0) eqn:E2.
  { inversion H; subst. apply Z.ltb_lt in E2. lia. }
  apply bind_inv in H as (r3 & s7 & _ & H).
  destruct (r3 <? 0) eqn:E3.
  { inversion H; subst. apply Z.ltb_lt in E3. lia. }
  apply bind_inv in H as (s & s8 & _ & H).
  apply bind_inv in H as (r4 & s9 & Hc & H).
  destruct (r4 <? 0) eqn:E4.
  { inversion H; subst. apply Z.ltb_lt in E4. lia. }
  apply Z.ltb_ge in E4.
  apply paired_after_create in Hc; [|assumption].
  apply bind_inv in H as (? & s10 & Hs & H). inversion Hs; subst.
  inversion H; subst. cbn.
  eapply paired_ext; [| | | |exact Hc]; reflexivity.
Qed.

Lemma gl_init_paired b d st r st' :
  gl_init b d st = Some (r, st') -> 0 <= r -> default_rts_paired (gs st').
Proof.
  unfold gl_init. intros H Hr.
  apply bind_inv in H as (cfg & s1 & _ & H).
  apply bind_inv in H as (r0 & s2 & _ & H).
  destruct (r0 <? 0) eqn:E0.
  { inversion H; subst. apply Z.ltb_lt in E0. lia. }
  apply bind_inv in H as (? & s3 & _ & H).
  apply bind_inv in H as (? & s4 & _ & H).
  destruct (drv_glcontext_new d _) as [gl|].
  2:{ inversion H; subst. unfold NGL_ERROR_MEMORY in Hr; cbn in Hr; lia. }
  apply bind_inv in H as (r1 & s5 & Hm & H).
  destruct (r1 <? 0) eqn:E1.
  { inversion H; subst. apply Z.ltb_lt in E1. lia. }
  apply Z.ltb_ge in E1.
  assert (P : default_rts_paired (gs s5)).
  { destruct (is_external cfg).
    - eapply wrap_framebuffer_paired; eauto.
    - destruct (gl_offscreen gl).
      + eapply offscreen_init_paired; eauto.
      + apply bind_inv in Hm as (? & s6 & _ & Hm).
        eapply paired_after_create; eauto. }
  clear Hm.
  apply bind_inv in H as (r2 & s6 & Ht & H).
  apply keeps_config_timer_init in Ht as Hcfg.
  assert (Hrt : default_rt (gs s6) = default_rt (gs s5) /\
                default_rt_load (gs s6) = default_rt_load (gs s5)).
  { unfold timer_init in Ht.
    apply bind_inv in Ht as (? & ? & Hg & Ht). unfold the_gl, deref in Hg.
    destruct (glctx (gs s5)); inversion Hg; subst.
    apply bind_inv in Ht as (? & ? & Hs & Ht). inversion Hs; subst.
    apply bind_inv in Ht as (? & ? & Hc & Ht). inversion Hc; subst.
    inversion Ht; subst. cbn. auto. }
  destruct Hrt as [Hrt1 Hrt2].
  assert (P6 : default_rts_paired (gs s6)).
  { eapply paired_ext; [exact Hrt1|exact Hrt2| | |exact P]; rewrite Hcfg; reflexivity. }
  destruct (r2 <? 0).
  { inversion H; subst. exact P6. }
  apply bind_inv in H as (? & s7 & Hs1 & H). inversion Hs1; subst.
  apply bind_inv in H as (cfg2 & s8 & Hs2 & H). inversion Hs2; subst.
  apply bind_inv in H as (? & s9 & Hs3 & H).
  apply bind_inv in H as (? & s10 & Hs4 & H). inversion Hs4; subst.
  inversion H; subst. cbn.
  destruct (viewport_valid _); inversion Hs3; subst; cbn;
    (eapply paired_ext; [| | | |exact P6]; reflexivity).
Qed.

Lemma paired_resized s s' rt rtl w h :
  default_rts_paired s ->
  default_rt s = Some rt -> default_rt_load s = Some rtl ->
  (exists i, default_rt s' = Some (rt_set_id i (rt_set_size w h rt)) \/
             default_rt s' = Some (rt_set_size w h rt)) ->
  (exists i, default_rt_load s' = Some (rt_set_id i (rt_set_size w h rtl)) \/
             default_rt_load s' = Some (rt_set_size w h rtl)) ->
  width (config s') = w -> height (config s') = h ->
  default_rts_paired s'.
Proof.
  intros (rt0 & rtl0 & p & pl & H1 & H2 & H) E1 E2 (i & Hi) (j & Hj) Hw Hh.
  rewrite E1 in H1. rewrite E2 in H2. inversion H1; inversion H2; subst rt0 rtl0.
  destruct H as (P1 & P2 & A & L & F1 & F2 & _).
  destruct Hi as [Hi|Hi], Hj as [Hj|Hj];
    eexists _, _, p, pl; rewrite Hi, Hj, Hw, Hh;
    repeat split; auto.
Qed.

Lemma resize_mode_part_keeps_rts d w h st r s2 :
  (if is_external (config (gs st)) then
          on_gs (with_config (set_width_height w h)) ;;
          ret 0
        else if negb (offscreen (config (gs st))) then
          gl <- the_gl ;;
          call (CallGlcontextResize w h) ;;
          on_gs (set_glctx (Some (snd (drv_glcontext_resize d gl w h)))) ;;
          if fst (drv_glcontext_resize d gl w h) <? 0 then
            ret (fst (drv_glcontext_resize d gl w h))
          else
            on_gs (with_config
                     (set_width_height
                        (gl_width (snd (drv_glcontext_resize d gl w h)))
                        (gl_height (snd (drv_glcontext_resize d gl w h))))) ;;
            ret 0
        else
          LOG ERROR "resize operation is not supported by offscreen context" ;;
          ret NGL_ERROR_UNSUPPORTED)%monad st = Some (r, s2) ->
  default_rt (gs s2) = default_rt (gs st) /\
  default_rt_load (gs s2) = default_rt_load (gs st).
Proof.
  intros Hm.
  destruct (is_external (config (gs st))).
  - apply bind_inv in Hm as (? & ? & H1 & Hm). inversion H1; subst.
    inversion Hm; subst. cbn. auto.
  - destruct (negb (offscreen (config (gs st)))).
    + apply bind_inv in Hm as (gl & ? & H1 & Hm).
      unfold the_gl, deref in H1. destruct (glctx (gs st)); inversion H1; subst.
      apply bind_inv in Hm as (? & ? & H2 & Hm). inversion H2; subst.
      apply bind_inv in Hm as (? & ? & H3 & Hm). inversion H3; subst.
      destruct (fst _ <? 0).
      * inversion Hm; subst. cbn. auto.
      * apply bind_inv in Hm as (? & ? & H4 & Hm). inversion H4; subst.
        inversion Hm; subst. cbn. auto.
    + apply bind_inv in Hm as (? & ? & H1 & Hm). inversion H1; subst.
      inversion Hm; subst. cbn. auto.
Qed.

Lemma gl_resize_paired d w h vp st r st' :
  default_rts_paired (gs st) ->
  gl_resize d w h vp st = Some (r, st') -> 0 <= r ->
  default_rts_paired (gs st').
Proof.
  intros P H Hr. unfold gl_resize in H.
  apply bind_inv in H as (cfg & s1 & H1 & H). inversion H1; subst; clear H1.
  apply bind_inv in H as (r1 & s2 & Hm & H).
  apply resize_mode_part_keeps_rts in Hm as [K1 K2].
  destruct (r1 <? 0) eqn:E1.
  { inversion H; subst. apply Z.ltb_lt in E1. lia. }
  pose proof P as (rt & rtl & p & pl & D1 & D2 & _).
  apply bind_inv in H as (cfg2 & s3 & H1 & H). inversion H1; subst; clear H1.
  apply bind_inv in H as (rt0 & s4 & H1 & H).
  unfold deref in H1. rewrite K1, D1 in H1. inversion H1; subst; clear H1.
  apply bind_inv in H as (? & s5 & H1 & H). inversion H1; subst; clear H1.
  apply bind_inv in H as (rtl0 & s6 & H1 & H).
  unfold deref in H1. cbn in H1. rewrite K2, D2 in H1.
  inversion H1; subst; clear H1.
  apply bind_inv in H as (? & s7 & H1 & H). inversion H1; subst; clear H1.
  apply bind_inv in H as (? & s8 & Hid & H).
  apply bind_inv in H as (? & s9 & Hvp & H).
  apply bind_inv in H as (? & s10 & H1 & H). inversion H1; subst; clear H1.
  inversion H; subst; clear H. cbn.
  assert (Hs9 : default_rt (gs s9) = default_rt (gs s8) /\
                default_rt_load (gs s9) = default_rt_load (gs s8) /\
                config (gs s9) = config (gs s8)).
  { destruct vp as [v|]; [destruct (viewport_valid v)|];
      inversion Hvp; subst; cbn; auto. }
  destruct Hs9 as (E91 & E92 & E93).
  assert (E8 :
    (exists i, default_rt (gs s8) = Some (rt_set_id i (rt_set_size (width (config (gs s4))) (height (config (gs s4))) rt0)) \/
               default_rt (gs s8) = Some (rt_set_size (width (config (gs s4))) (height (config (gs s4))) rt0)) /\
    (exists i, default_rt_load (gs s8) = Some (rt_set_id i (rt_set_size (width (config (gs s4))) (height (config (gs s4))) rtl0)) \/
               default_rt_load (gs s8) = Some (rt_set_size (width (config (gs s4))) (height (config (gs s4))) rtl0)) /\
    config (gs s8) = config (gs s4)).
  { destruct (negb (is_external (config (gs s1)))).
    - apply bind_inv in Hid as (gl & ? & H1 & Hid).
      unfold the_gl, deref in H1; cbn in H1.
      destruct (glctx (gs s4)); inversion H1; subst; clear H1.
      apply bind_inv in Hid as (? & ? & H1 & Hid); inversion H1; subst; clear H1.
      apply bind_inv in Hid as (? & ? & H1 & Hid); inversion H1; subst; clear H1.
      apply bind_inv in Hid as (? & ? & H1 & Hid); inversion H1; subst; clear H1.
      inversion Hid; subst; clear Hid; cbn.
      repeat split; eexists; left; reflexivity.
    - inversion Hid; subst; clear Hid; cbn.
      repeat split; exists 0; right; reflexivity. }
  destruct E8 as (E81 & E82 & E83).
  eapply paired_resized with (s := gs s1); try eassumption; cbn;
    rewrite ?E91, ?E92, ?E93, ?E83; try eassumption; reflexivity.
Qed.

Lemma gl_resize_returns d w h vp st gl :
  default_rts_paired (gs st) -> glctx (gs st) = Some gl ->
  exists r st', gl_resize d w h vp st = Some (r, st').
Proof.
  intros (rt & rtl & p & pl & D1 & D2 & _) G.
  destruct st as [s w0]. cbn in *.
  unfold gl_resize, bind, gets, the_gl, deref, on_gs, on_gw, modify, LOG, call, ret,
    gl_set_viewport, gl_set_scissor.
  cbn.
  destruct (is_external (config s)); cbn.
  - rewrite D1; cbn; rewrite D2; cbn.
    destruct vp as [v|]; [destruct (viewport_valid v)|]; cbn; eauto.
  - destruct (offscreen (config s)); cbn.
    + eauto.
    + rewrite G. cbn.
      destruct (drv_glcontext_resize d gl w h) as [rr gl2]. cbn.
      destruct (rr <? 0) eqn:E; cbn; [rewrite E; eauto|].
      rewrite D1; cbn; rewrite D2; cbn.
      destruct vp as [v|]; [destruct (viewport_valid v)|]; cbn; eauto.
Qed.

Lemma offscreen_init_clamps b d st gl :
  glctx (gs st) = Some gl ->
  has_feature gl NGLI_FEATURE_GL_FRAMEBUFFER_OBJECT = false ->
  0 < samples (config (gs st)) ->
  offscreen_rendertarget_init b d st
  = offscreen_rendertarget_init b d
      {| gs := with_config (set_samples 0) (gs st);
         gw := world_log msaa_warning (gw st) |}.
Proof.
  intros G F Hs. destruct st as [s w]. cbn in *.
  unfold offscreen_rendertarget_init.
  unfold bind at 1. unfold the_gl at 1, deref. cbn [gs glctx]. rewrite G.
  unfold bind at 1. cbn [gets gs config].
  rewrite F. replace (samples (config s) >? 0) with true
    by (symmetry; rewrite Z.gtb_ltb; apply Z.ltb_lt; lia).
  cbn [negb andb].
  unfold bind at 1. unfold bind at 1. cbn [LOG on_gw modify gs gw].
  cbn [on_gs modify gs gw].
  symmetry.
  unfold bind at 1. unfold the_gl at 1, deref. cbn [gs glctx with_config]. rewrite G.
  unfold bind at 1. cbn [gets gs config with_config set_samples samples].
  rewrite F. cbn [negb andb Z.gtb Z.compare].
  unfold bind at 1. cbn [ret].
  reflexivity.
Qed.

Lemma create_texture_ok d f n setter st :
  (forall k, drv_alloc d k = true) -> (forall p, 0 <= drv_texture_init d p) ->
  exists t w',
    create_texture d f n setter st
    = Some (0, {| gs := setter (Some t) (gs st); gw := w' |}) /\
    w_log w' = w_log (gw st).
Proof.
  intros Ha Ht. unfold create_texture, alloc, bind, gets, on_gw, on_gs, modify, call, ret.
  cbn. rewrite Ha.
  match goal with |- context [drv_texture_init d ?p <? 0] =>
    replace (drv_texture_init d p <? 0) with false
      by (symmetry; apply Z.ltb_ge; apply Ht) end.
  eexists _, _. split; [reflexivity|]. reflexivity.
Qed.

Lemma create_rendertarget_ok d gl t ds lop setter st :
  cooperative d gl -> glctx (gs st) = Some gl ->
  exists rt w',
    create_rendertarget d (Some t) None ds lop setter st
    = Some (0, {| gs := setter (Some rt) (gs st); gw := w' |}) /\
    w_log w' = w_log (gw st).
Proof.
  intros (Ha & Ht & Hc & Hca & Hdb) G.
  destruct st as [s w]. cbn in G.
  unfold create_rendertarget, ngli_rendertarget_gl_create, alloc.
  unfold ngli_rendertarget_gl_init, create_fbo, gen_framebuffer, the_gl, deref,
    rendertarget_gl_init_strategies.
  unfold bind, gets, on_gw, on_gs, modify, call, ret. cbn.
  assert (E1 : (0 >=? gl_max_color_attachments gl) = false)
    by (rewrite Z.geb_leb; apply Z.leb_gt; lia).
  assert (E2 : (1 >? gl_max_draw_buffers gl) = false)
    by (rewrite Z.gtb_ltb; apply Z.ltb_ge; lia).
  repeat (rewrite ?Ha, ?G, ?E1, ?E2, ?Hc, ?andb_false_r; cbn).
  eexists _, _. split; [reflexivity|]. reflexivity.
Qed.


Lemma create_default_rendertargets_ok d gl t ds st :
  cooperative d gl -> glctx (gs st) = Some gl ->
  (forall r s, glctx (set_default_rt r s) = glctx s) ->
  exists rt rtl w',
    create_default_rendertargets d (Some t) None ds st
    = Some (0, {| gs := set_default_rt_load (Some rtl)
                          (set_default_rt (Some rt) (gs st));
                  gw := w' |}) /\
    w_log w' = w_log (gw st).
Proof.
  intros C G _. unfold create_default_rendertargets.
  destruct (create_rendertarget_ok d gl t ds NGLI_LOAD_OP_CLEAR set_default_rt st C G)
    as (rt & w1 & E1 & L1).
  rewrite (bind_eq _ _ _ _ _ E1). cbn.
  destruct (create_rendertarget_ok d gl t ds NGLI_LOAD_OP_LOAD set_default_rt_load
              {| gs := set_default_rt (Some rt) (gs st); gw := w1 |} C G)
    as (rtl & w2 & E2 & L2).
  rewrite (bind_eq _ _ _ _ _ E2). cbn.
  exists rt, rtl, w2. split; [reflexivity|]. cbn in L2. congruence.
Qed.

Lemma offscreen_init_ok b d gl s w :
  cooperative d gl -> glctx s = Some gl ->
  has_feature gl NGLI_FEATURE_GL_FRAMEBUFFER_OBJECT = false ->
  0 < samples (config s) ->
  capture_buffer_type (config s) = NGL_CAPTURE_BUFFER_TYPE_CPU ->
  ms_color s = None ->
  exists st',
    offscreen_rendertarget_init b d {| gs := s; gw := w |} = Some (0, st') /\
    config (gs st') = set_samples 0 (config s) /\
    ms_color (gs st') = None /\
    glctx (gs st') = Some gl /\
    w_log (gw st') = w_log w ++ [msaa_warning].
Proof.
  intros C G F Hs Hcap Hms.
  pose proof C as (Ha & Ht & Hc & Hca & Hdb).
  unfold offscreen_rendertarget_init.
  erewrite bind_eq by (unfold the_gl, deref; cbn; rewrite G; reflexivity).
  erewrite bind_eq by reflexivity. cbn [gs config].
  rewrite F. replace (samples (config s) >? 0) with true
    by (symmetry; rewrite Z.gtb_ltb; apply Z.ltb_lt; lia).
  cbn [negb andb].
  erewrite bind_eq by reflexivity.
  erewrite bind_eq by reflexivity.
  cbn [gs gw config with_config set_samples capture_buffer_type samples].
  rewrite Hcap.
  match goal with |- context [bind (create_texture d ?f ?n ?set) _ ?st] =>
    destruct (create_texture_ok d f n set st Ha Ht) as (t1 & w1 & E1 & L1) end.
  rewrite (bind_eq _ _ _ _ _ E1). cbn [Z.ltb Z.compare].
  erewrite bind_eq by reflexivity. cbn [Z.ltb Z.compare Z.eqb].
  match goal with |- context [bind (create_texture d ?f ?n ?set) _ ?st] =>
    destruct (create_texture_ok d f n set st Ha Ht) as (t2 & w2 & E2 & L2) end.
  rewrite (bind_eq _ _ _ _ _ E2). cbn [Z.ltb Z.compare].
  erewrite bind_eq by reflexivity.
  cbn [gs ms_color set_depth_stencil set_color with_config color depth_stencil].
  rewrite Hms. cbn [is_some].
  match goal with |- context [bind (create_default_rendertargets d (Some ?t) None ?ds) _ ?st] =>
    destruct (create_default_rendertargets_ok d gl t ds st C) as (rt & rtl & w3 & E3 & L3);
      [cbn; exact G|reflexivity|] end.
  rewrite (bind_eq _ _ _ _ _ E3). cbn [Z.ltb Z.compare].
  erewrite bind_eq by reflexivity.
  eexists. split; [reflexivity|]. cbn.
  repeat split; auto.
  cbn in L1, L2, L3. unfold msaa_warning. congruence.
Qed.


(* ================================================================== *)
(** * OpenGL backend: theorems *)
(* ================================================================== *)

(** C6.  In offscreen mode the cull-mode transform maps FRONT to BACK, BACK
    to FRONT and NONE to NONE, and the projection transform multiplies the
    matrix on the left by a constant matrix that negates Y; outside
    offscreen mode both transforms are the identity and the render-target
    UV-coordinate matrix is the constant Y-flip (v becomes 1 - v on points
    with w = 1).  The three results are the same for any two contexts with
    the same offscreen flag. *)
Theorem gl_transforms_follow_offscreen
    (mul : mat4 -> mat4 -> mat4) (s : gpu_ctx_gl) (dst : mat4) (m : cull_mode) :
  (offscreen (config s) = true ->
   gl_transform_cull_mode s NGLI_CULL_MODE_FRONT_BIT = NGLI_CULL_MODE_BACK_BIT /\
   gl_transform_cull_mode s NGLI_CULL_MODE_BACK_BIT = NGLI_CULL_MODE_FRONT_BIT /\
   gl_transform_cull_mode s NGLI_CULL_MODE_NONE = NGLI_CULL_MODE_NONE /\
   gl_transform_projection_matrix mul s dst = mul projection_flip_matrix dst)
  /\
  (offscreen (config s) = false ->
   gl_transform_cull_mode s m = m /\
   gl_transform_projection_matrix mul s dst = dst /\
   gl_get_rendertarget_uvcoord_matrix s dst = uvcoord_flip_matrix)
  /\
  (forall x y z w,
     vec4_eq (mat4_apply projection_flip_matrix (x, y, z, w))
             (x, Qopp y, z, w))
  /\
  (forall u v z w,
     vec4_eq (mat4_apply uvcoord_flip_matrix (u, v, z, w))
             (u, Qminus w v, z, w))
  /\
  (forall s',
     offscreen (config s') = offscreen (config s) ->
     gl_transform_cull_mode s' m = gl_transform_cull_mode s m /\
     gl_transform_projection_matrix mul s' dst
     = gl_transform_projection_matrix mul s dst /\
     gl_get_rendertarget_uvcoord_matrix s' dst
     = gl_get_rendertarget_uvcoord_matrix s dst).
Proof.
  unfold gl_transform_cull_mode, gl_transform_projection_matrix,
    gl_get_rendertarget_uvcoord_matrix.
  repeat split.
  1-7: match goal with H : offscreen _ = _ |- _ => rewrite H end; reflexivity.
  1-8: cbn; ring.
  all: match goal with H : offscreen _ = _ |- _ => rewrite H end; reflexivity.
Qed.

Lemma gl_transforms_follow_offscreen_witness :
  gl_transform_cull_mode (gs demo_offscreen_gl) NGLI_CULL_MODE_FRONT_BIT
  = NGLI_CULL_MODE_BACK_BIT
  /\ gl_get_rendertarget_uvcoord_matrix (gs demo_onscreen_gl) NGLI_MAT4_IDENTITY
     = uvcoord_flip_matrix.
Proof.
  split.
  - apply (proj1 (gl_transforms_follow_offscreen mat4_product
                    (gs demo_offscreen_gl) NGLI_MAT4_IDENTITY
                    NGLI_CULL_MODE_NONE)).
    vm_compute. reflexivity.
  - apply (proj1 (proj2 (gl_transforms_follow_offscreen mat4_product
                           (gs demo_onscreen_gl) NGLI_MAT4_IDENTITY
                           NGLI_CULL_MODE_NONE))).
    vm_compute. reflexivity.
Defined.

(** C3.  [gl_resize] on a context that is offscreen and not external
    returns [NGL_ERROR_UNSUPPORTED]; [gl_set_capture_buffer] on an external
    or onscreen context returns [NGL_ERROR_UNSUPPORTED]; in both cases the
    GPU context is left as it was and no call reaches the platform or the
    driver (only the error is logged). *)
Theorem mode_exclusive_operations_unsupported
    (b : build) (d : driver) (st : glst) :
  (is_external (config (gs st)) = false ->
   offscreen (config (gs st)) = true ->
   forall w h vp, exists st',
     gl_resize d w h vp st = Some (NGL_ERROR_UNSUPPORTED, st') /\
     gs st' = gs st /\ w_calls (gw st') = w_calls (gw st))
  /\
  (is_external (config (gs st)) = true \/ offscreen (config (gs st)) = false ->
   forall buffer, exists st',
     gl_set_capture_buffer b d buffer st = Some (NGL_ERROR_UNSUPPORTED, st') /\
     gs st' = gs st /\ w_calls (gw st') = w_calls (gw st)).
Proof.
  split.
  - intros He Ho w h vp. unfold gl_resize.
    erewrite bind_eq by reflexivity. rewrite He, Ho. cbn [negb].
    erewrite bind_eq by reflexivity.
    eexists. split; [reflexivity|]. split; reflexivity.
  - intros H buffer. unfold gl_set_capture_buffer.
    erewrite bind_eq by reflexivity.
    destruct (is_external (config (gs st))) eqn:He.
    + eexists. split; [reflexivity|]. split; reflexivity.
    + destruct H as [H|H]; [discriminate|]. rewrite H. cbn [negb].
      eexists. split; [reflexivity|]. split; reflexivity.
Qed.

Lemma mode_exclusive_operations_unsupported_witness :
  (exists st',
     gl_resize demo_driver 800 600 None demo_offscreen_gl
     = Some (NGL_ERROR_UNSUPPORTED, st') /\
     gs st' = gs demo_offscreen_gl /\
     w_calls (gw st') = w_calls (gw demo_offscreen_gl))
  /\
  (exists st',
     gl_set_capture_buffer demo_build demo_driver (Some 7) demo_onscreen_gl
     = Some (NGL_ERROR_UNSUPPORTED, st') /\
     gs st' = gs demo_onscreen_gl /\
     w_calls (gw st') = w_calls (gw demo_onscreen_gl)).
Proof.
  split.
  - apply (proj1 (mode_exclusive_operations_unsupported demo_build demo_driver
                    demo_offscreen_gl)); vm_compute; reflexivity.
  - apply (proj2 (mode_exclusive_operations_unsupported demo_build demo_driver
                    demo_onscreen_gl)).
    right. vm_compute. reflexivity.
Defined.

(** C2.  After a successful [gl_init], in any mode, the context holds two
    default render targets with the same attachments and the same
    parameters up to the load operation, the first with [CLEAR] and the
    second with [LOAD], and both record the width and height of the
    configuration as [gl_init] left it; a successful [gl_resize] on such a
    context keeps that, for the configuration as the resize left it; and on
    such a context [gl_resize] always returns. *)
Theorem default_rendertargets_paired (b : build) (d : driver) :
  (forall st r st',
     gl_init b d st = Some (r, st') -> 0 <= r ->
     default_rts_paired (gs st'))
  /\
  (forall st w h vp r st',
     default_rts_paired (gs st) ->
     gl_resize d w h vp st = Some (r, st') -> 0 <= r ->
     default_rts_paired (gs st'))
  /\
  (forall st w h vp gl,
     default_rts_paired (gs st) -> glctx (gs st) = Some gl ->
     exists r st', gl_resize d w h vp st = Some (r, st')).
Proof.
  split; [|split].
  - intros st r st' H Hr. exact (gl_init_paired b d st r st' H Hr).
  - intros st w h vp r st' P H Hr. exact (gl_resize_paired d w h vp st r st' P H Hr).
  - intros st w h vp gl P Hg. exact (gl_resize_returns d w h vp st gl P Hg).
Qed.

Lemma default_rendertargets_paired_witness :
  default_rts_paired (gs demo_offscreen_gl)
  /\ exists st',
       gl_resize demo_driver 800 600 None demo_onscreen_gl = Some (0, st')
       /\ width (config (gs st')) = 784
       /\ default_rts_paired (gs st').
Proof.
  assert (I : forall st0 : glst,
             (exists st', gl_init demo_build demo_driver st0 = Some (0, st')) ->
             default_rts_paired (gs (state_after (gl_init demo_build demo_driver) st0))).
  { intros st0 (st' & E). unfold state_after. rewrite E.
    apply (proj1 (default_rendertargets_paired demo_build demo_driver) st0 0 st' E).
    lia. }
  split.
  - apply I. eexists. vm_compute. reflexivity.
  - assert (E : exists st',
               gl_resize demo_driver 800 600 None demo_onscreen_gl = Some (0, st')
               /\ width (config (gs st')) = 784).
    { eexists. split; [vm_compute; reflexivity|]. vm_compute. reflexivity. }
    destruct E as (st' & E & Hw). exists st'. split; [exact E|]. split; [exact Hw|].
    apply (proj1 (proj2 (default_rendertargets_paired demo_build demo_driver))
             demo_onscreen_gl 800 600 None 0 st'); [|exact E|lia].
    apply I. eexists. vm_compute. reflexivity.
Defined.

(** C7.  An offscreen configuration asking for a positive sample count, on
    a native context without the framebuffer-object feature: [gl_init]
    still returns [0] when the driver calls that follow succeed, the
    configured sample count becomes [0], no multisample texture is created
    and the only thing logged is the warning.  On any driver the render
    target initialisation behaves exactly as for a request of zero samples,
    apart from the warning. *)
Theorem offscreen_without_fbo_disables_msaa
    (b : build) (d : driver) (cfg : ngl_config) (w : world) (gl : glcontext) :
  is_external cfg = false -> offscreen cfg = true ->
  0 < width cfg -> 0 < height cfg -> 0 < samples cfg ->
  capture_buffer_type cfg = NGL_CAPTURE_BUFFER_TYPE_CPU ->
  drv_glcontext_new d (glcontext_params_of cfg) = Some gl ->
  gl_offscreen gl = true ->
  has_feature gl NGLI_FEATURE_GL_FRAMEBUFFER_OBJECT = false ->
  cooperative d gl ->
  (exists st',
     gl_init b d {| gs := gpu_ctx_gl_zero cfg; gw := w |} = Some (0, st') /\
     samples (config (gs st')) = 0 /\
     ms_color (gs st') = None /\
     w_log (gw st') = w_log w ++ [msaa_warning])
  /\
  (forall d' st,
     glctx (gs st) = Some gl -> 0 < samples (config (gs st)) ->
     offscreen_rendertarget_init b d' st
     = offscreen_rendertarget_init b d'
         {| gs := with_config (set_samples 0) (gs st);
            gw := world_log msaa_warning (gw st) |}).
Proof.
  intros Hext Hoff Hw Hh Hs Hcap Hnew Hgoff Hfbo C.
  split; [|intros d' st Hg Hp; eapply offscreen_init_clamps; eauto].
  unfold gl_init.
  erewrite bind_eq by reflexivity. cbn [gs config gpu_ctx_gl_zero].
  unfold gl_init_check. rewrite Hext, Hoff.
  replace (width cfg <=? 0) with false by (symmetry; apply Z.leb_gt; lia).
  replace (height cfg <=? 0) with false by (symmetry; apply Z.leb_gt; lia).
  cbn [orb].
  erewrite bind_eq by reflexivity. cbn [Z.ltb Z.compare].
  erewrite bind_eq by reflexivity.
  erewrite bind_eq by reflexivity.
  unfold glcontext_params_of in Hnew. rewrite Hext, Hoff in Hnew.
  rewrite Hnew, Hgoff.
  edestruct (offscreen_init_ok b d gl) as (s1 & E1 & Hc1 & Hm1 & Hg1 & Hl1);
    [exact C| | | | | |].
  6:{ rewrite (bind_eq _ _ _ _ _ E1). cbn [Z.ltb Z.compare].
      erewrite bind_eq
        by (unfold timer_init, the_gl, deref, bind; rewrite Hg1; reflexivity).
      cbn [Z.ltb Z.compare].
      erewrite bind_eq by reflexivity.
      erewrite bind_eq by reflexivity.
      match goal with |- context [viewport_valid ?v] =>
        destruct (viewport_valid v) end.
      all: erewrite bind_eq by reflexivity.
      all: erewrite bind_eq by reflexivity.
      all: eexists; (split; [reflexivity|]); cbn.
      all: rewrite ?Hc1, ?Hm1; cbn; auto. }
  all: cbn; auto.
Qed.

Lemma offscreen_without_fbo_disables_msaa_witness :
  exists st',
    gl_init demo_build demo_driver
      {| gs := gpu_ctx_gl_zero (demo_config true 4 NGL_BACKEND_OPENGL);
         gw := demo_world |} = Some (0, st') /\
    samples (config (gs st')) = 0 /\
    ms_color (gs st') = None /\
    w_log (gw st') = [msaa_warning].
Proof.
  refine (proj1 (offscreen_without_fbo_disables_msaa demo_build demo_driver
            (demo_config true 4 NGL_BACKEND_OPENGL) demo_world
            {| gl_features := [NGLI_FEATURE_GL_CLEAR_BUFFER];
               gl_offscreen := true; gl_width := 640; gl_height := 480;
               gl_samples := 4; gl_limits := demo_limits;
               gl_default_framebuffer := 0 |}
            _ _ _ _ _ _ _ _ _ _));
    try reflexivity.
  repeat split; intros; vm_compute; congruence.
Defined.

(* ================================================================== *)
(** * Dispatcher: lemmas *)
(* ================================================================== *)

Section GuardedOpsFacts.

Context {G : Type}.
Variable impls : api_id -> api_impl_t G.

Lemma run_op_unconfigured o st :
  configured (ctx st) = false ->
  run_op impls o st = Some (NGL_ERROR_INVALID_USAGE,
                      logged ERROR (guard_message o) st).
Proof.
  intros H. destruct o; cbn;
    unfold ngl_resize, ngl_set_capture_buffer, ngl_set_scene, ngl_draw,
      ngl_gl_wrap_framebuffer, bind, gets; rewrite H; reflexivity.
Qed.

Lemma run_ops_unconfigured os : forall st,
  configured (ctx st) = false ->
  exists st', run_ops impls os st
              = Some (repeat NGL_ERROR_INVALID_USAGE (List.length os), st') /\
              ctx st' = ctx st /\ nodes st' = nodes st /\
              w_calls (aw st') = w_calls (aw st).
Proof.
  induction os as [|o os IH]; intros st H.
  - exists st. cbn. auto.
  - cbn [run_ops]. rewrite (bind_eq _ _ _ _ _ (run_op_unconfigured o st H)).
    destruct (IH (logged ERROR (guard_message o) st) H)
      as (st' & E & H1 & H2 & H3).
    rewrite (bind_eq _ _ _ _ _ E). exists st'. cbn. auto.
Qed.

End GuardedOpsFacts.

Section SceneFacts.

Context {G : Type}.
Variable ops : gpu_ctx_ops G.
Variable e : env.

Lemma node_alive_spec ns n : node_alive ns n = true <-> (0 < refcount (ns n))%nat.
Proof.
  unfold node_alive. destruct (refcount (ns n)); cbn; split; intros; try lia; try discriminate; auto.
Qed.

Lemma node_update_same n f ns : node_update n f ns n = f (ns n).
Proof. unfold node_update. rewrite Nat.eqb_refl. reflexivity. Qed.

Lemma node_update_other n m f ns : m <> n -> node_update n f ns m = ns m.
Proof.
  intros H. unfold node_update. destruct (Nat.eqb_spec m n); [contradiction|reflexivity].
Qed.

Lemma node_op_ok n f (st : apist G) :
  node_alive (nodes st) n = true ->
  node_op n f st = Some (tt, {| ctx := ctx st; aw := aw st;
                                nodes := node_update n f (nodes st) |}).
Proof. intros H. unfold node_op, bind, gets. rewrite H. reflexivity. Qed.

Lemma node_alive_detached n m ns :
  node_alive (node_update n node_detached ns) m = node_alive ns m.
Proof.
  unfold node_alive, node_update. destruct (Nat.eqb m n); reflexivity.
Qed.

Lemma reset_scene_ok action (st : apist G) :
  (forall old, scene (ctx st) = Some old -> node_alive (nodes st) old = true) ->
  reset_scene action st
  = Some (tt, {| ctx := ctx_after_reset action (ctx st); aw := aw st;
                 nodes := nodes_after_reset action (scene (ctx st)) (nodes st) |}).
Proof.
  intros H. unfold reset_scene, ctx_after_reset, nodes_after_reset.
  erewrite bind_eq by reflexivity.
  erewrite bind_eq by reflexivity. cbn [ctx scene set_ctx_hud nodes aw].
  destruct (scene (ctx st)) as [old|] eqn:E.
  - specialize (H old eq_refl).
    unfold ngli_node_detach_ctx, ngl_node_unref.
    destruct action.
    + erewrite bind_eq.
      2:{ erewrite bind_eq by (apply node_op_ok; exact H). reflexivity. }
      reflexivity.
    + erewrite bind_eq.
      2:{ erewrite bind_eq by (apply node_op_ok; exact H).
          erewrite bind_eq
            by (apply node_op_ok; cbn [nodes]; fold node_detached;
                rewrite node_alive_detached; exact H).
          reflexivity. }
      reflexivity.
  - erewrite bind_eq by reflexivity. reflexivity.
Qed.

Lemma gpu_ctx_after_reset action (c : ngl_ctx G) :
  gpu_ctx (ctx_after_reset action c) = gpu_ctx c.
Proof. unfold ctx_after_reset. destruct (scene c), action; reflexivity. Qed.

Lemma ctx_config_after_reset action (c : ngl_ctx G) :
  ctx_config (ctx_after_reset action c) = ctx_config c.
Proof. unfold ctx_after_reset. destruct (scene c), action; reflexivity. Qed.

Lemma scene_after_reset action (c : ngl_ctx G) :
  scene (ctx_after_reset action c)
  = match action with
    | NGLI_ACTION_UNREF_SCENE => None
    | NGLI_ACTION_KEEP_SCENE => scene c
    end.
Proof. unfold ctx_after_reset. destruct (scene c) eqn:E, action; cbn; auto. Qed.

Lemma set_scene_attach_failure (st : apist G) (n : node_id) g g1 w1 :
  gpu_ctx (ctx st) = Some g ->
  ngli_gpu_ctx_wait_idle ops (g, aw st) = Some (tt, (g1, w1)) ->
  (forall old, scene (ctx st) = Some old -> node_alive (nodes st) old = true) ->
  node_alive (nodes st) n = true ->
  (scene (ctx st) = Some n -> (2 <= refcount (nodes st n))%nat) ->
  env_node_attach e n < 0 ->
  exists st',
    ngli_ctx_set_scene ops e (Some n) st = Some (env_node_attach e n, st') /\
    scene (ctx st') = None /\
    node_attached (nodes st' n) = false /\
    (forall old, scene (ctx st) = Some old ->
       node_attached (nodes st' old) = false /\
       refcount (nodes st' old) = pred (refcount (nodes st old))) /\
    (forall m, m <> n -> scene (ctx st) <> Some m -> nodes st' m = nodes st m).
Proof.
  intros Hg Hw Hold Hn Hsame Hfail.
  apply Z.ltb_lt in Hfail as Hfail'.
  unfold ngli_ctx_set_scene.
  erewrite bind_eq by (unfold with_gpu; rewrite Hg, Hw; reflexivity).
  erewrite bind_eq by (apply reset_scene_ok; exact Hold).
  cbn [ctx scene set_gpu_ctx nodes aw].
  erewrite bind_eq
    by (unfold deref; cbn [ctx]; rewrite gpu_ctx_after_reset; reflexivity).
  erewrite bind_eq by reflexivity.
  set (ns1 := nodes_after_reset NGLI_ACTION_UNREF_SCENE (scene (ctx st)) (nodes st)).
  assert (A1 : node_alive ns1 n = true).
  { subst ns1. unfold nodes_after_reset. destruct (scene (ctx st)) as [old|] eqn:E; [|exact Hn].
    apply node_alive_spec. apply node_alive_spec in Hn.
    destruct (Nat.eq_dec old n) as [->|Hne].
    - rewrite !node_update_same. cbn. specialize (Hsame eq_refl). lia.
    - rewrite !node_update_other by congruence. exact Hn. }
  erewrite bind_eq.
  2:{ unfold ngli_node_attach_ctx.
      erewrite bind_eq.
      2:{ erewrite bind_eq by (apply node_op_ok; exact A1). reflexivity. }
      rewrite Hfail'. unfold ngli_node_detach_ctx.
      erewrite bind_eq.
      2:{ apply node_op_ok. cbn [nodes]. unfold node_alive in *.
          rewrite node_update_same. exact A1. }
      reflexivity. }
  rewrite Hfail'.
  eexists. split; [reflexivity|]. cbn [ctx nodes].
  split.
  { cbn. destruct (scene (ctx st)) eqn:E; cbn; [reflexivity|exact E]. }
  split.
  { rewrite node_update_same. reflexivity. }
  split.
  - intros old E. subst ns1. rewrite E. unfold nodes_after_reset.
    destruct (Nat.eq_dec old n) as [->|Hne].
    + rewrite !node_update_same. cbn. auto.
    + rewrite !(node_update_other n old) by assumption.
      rewrite !node_update_same. cbn. auto.
  - intros m Hm Hsc. rewrite !node_update_other by assumption.
    subst ns1. unfold nodes_after_reset.
    destruct (scene (ctx st)) as [old|]; [|reflexivity].
    rewrite !node_update_other by congruence. reflexivity.
Qed.
Lemma ngli_ctx_reset_ok action (st : apist G) g g1 w1 :
  gpu_ctx (ctx st) = Some g ->
  ngli_gpu_ctx_wait_idle ops (g, aw st) = Some (tt, (g1, w1)) ->
  (forall old, scene (ctx st) = Some old -> node_alive (nodes st) old = true) ->
  ngli_ctx_reset ops action st
  = Some (tt,
          {| ctx := set_ctx_config ngl_config_zero
                      (set_gpu_ctx None
                         (set_pgcache false
                            (set_font_atlas None
                               (ctx_after_reset action
                                  (set_gpu_ctx (Some g1) (ctx st))))));
             aw := ngli_gpu_ctx_destroy ops g1 w1;
             nodes := nodes_after_reset action (scene (ctx st)) (nodes st) |}).
Proof.
  intros Hg Hw Hold. unfold ngli_ctx_reset.
  erewrite bind_eq by reflexivity. rewrite Hg. cbn [is_some].
  erewrite bind_eq by (unfold with_gpu; rewrite Hg, Hw; reflexivity).
  erewrite bind_eq by (apply reset_scene_ok; exact Hold).
  erewrite bind_eq by reflexivity.
  erewrite bind_eq by reflexivity.
  erewrite bind_eq.
  2:{ unfold ngli_gpu_ctx_freep. cbn [ctx set_pgcache set_font_atlas gpu_ctx].
      rewrite gpu_ctx_after_reset. cbn. reflexivity. }
  reflexivity.
Qed.

End SceneFacts.

Section ConfigureFacts.

Context {G : Type}.
Variable b : build.
Variable impls : api_id -> api_impl_t G.

Lemma config_rejection_negative config r :
  config_rejection b config = Some r -> r < 0.
Proof.
  unfold config_rejection. destruct config as [cfg|]; [|intros H; inversion H; reflexivity].
  destruct (_ && _); [intros H; inversion H; reflexivity|].
  destruct (platform (resolve_auto b cfg) <? 0) eqn:E;
    [intros H; inversion H; subst; apply Z.ltb_lt; exact E|].
  destruct (_ || _); [intros H; inversion H; reflexivity|].
  destruct (api_map _ _); [discriminate|intros H; inversion H; reflexivity].
Qed.

Lemma configure_rejected (st : apist G) i st1 config r :
  configured (ctx st) = true ->
  api_impl (ctx st) = Some i ->
  impl_reset (impls i) NGLI_ACTION_KEEP_SCENE st = Some (tt, st1) ->
  config_rejection b config = Some r ->
  exists st' c',
    ngl_configure b impls config st = Some ((r, c'), st') /\
    configured (ctx st') = false /\
    gpu_ctx (ctx st') = gpu_ctx (ctx st1) /\
    scene (ctx st') = scene (ctx st1) /\
    nodes st' = nodes st1 /\
    w_calls (aw st') = w_calls (aw st1).
Proof.
  intros Hc Hi Hr Hrej. unfold ngl_configure.
  erewrite bind_eq by reflexivity. rewrite Hc.
  erewrite bind_eq.
  2:{ erewrite bind_eq by (unfold the_impl, deref, bind; rewrite Hi; reflexivity).
      erewrite bind_eq by exact Hr. reflexivity. }
  unfold config_rejection in Hrej.
  destruct config as [cfg|].
  2:{ inversion Hrej; subst. eexists _, _. split; [reflexivity|]. cbn. auto 10. }
  destruct (_ && _).
  { inversion Hrej; subst. eexists _, _. split; [reflexivity|]. cbn. auto 10. }
  destruct (platform (resolve_auto b cfg) <? 0).
  { inversion Hrej; subst. eexists _, _. split; [reflexivity|]. cbn. auto 10. }
  destruct (_ || _).
  { inversion Hrej; subst. eexists _, _. split; [reflexivity|]. cbn. auto 10. }
  erewrite bind_eq by reflexivity.
  destruct (api_map _ _); [discriminate|].
  inversion Hrej; subst. eexists _, _. split; [reflexivity|]. cbn. auto 10.
Qed.

End ConfigureFacts.

(* ================================================================== *)
(** * Dispatcher: theorems *)
(* ================================================================== *)

(** C1.  Each of resize, set_capture_buffer, set_scene, draw and
    wrap_external_framebuffer, called on a context whose [configured] flag
    is unset, returns [NGL_ERROR_INVALID_USAGE]; the context, the node graph
    and the driver are left exactly as they were, and the only effect is
    the logged error. *)
Theorem unconfigured_operations_rejected {G : Type}
    (impls : api_id -> api_impl_t G) (o : guarded_op) (st : apist G) :
  configured (ctx st) = false ->
  exists st',
    run_op impls o st = Some (NGL_ERROR_INVALID_USAGE, st') /\
    ctx st' = ctx st /\ nodes st' = nodes st /\
    w_calls (aw st') = w_calls (aw st) /\
    w_log (aw st') = w_log (aw st) ++ [(ERROR, guard_message o)].
Proof.
  intros H. exists (logged ERROR (guard_message o) st).
  split; [apply run_op_unconfigured; exact H|]. cbn. auto.
Qed.

Lemma unconfigured_operations_rejected_witness :
  exists st',
    run_op demo_impls (Op_draw (0#1)%Q) demo_created
    = Some (NGL_ERROR_INVALID_USAGE, st') /\
    ctx st' = ctx demo_created /\ nodes st' = nodes demo_created /\
    w_calls (aw st') = w_calls (aw demo_created) /\
    w_log (aw st')
    = w_log (aw demo_created) ++ [(ERROR, guard_message (Op_draw (0#1)%Q))].
Proof.
  apply (unconfigured_operations_rejected demo_impls (Op_draw (0#1)%Q)
           demo_created).
  reflexivity.
Defined.

(** C4, as stated, fails: the previous scene is not kept.  The context
    shows scene 1 and holds the only reference to it; setting scene 2,
    whose attachment fails, returns the attach error and scene 1, alive
    before the call, is destroyed by it. *)
Lemma set_scene_failure_destroys_previous_scene :
  exists st',
    ngl_set_scene demo_impls (Some 2%nat) demo_onscreen_owned
    = Some (env_node_attach demo_env 2%nat, st') /\
    env_node_attach demo_env 2%nat < 0 /\
    configured (ctx demo_onscreen_owned) = true /\
    scene (ctx demo_onscreen_owned) = Some 1%nat /\
    node_alive (nodes demo_onscreen_owned) 1%nat = true /\
    node_alive (nodes st') 1%nat = false.
Proof.
  eexists. split; [vm_compute; reflexivity|].
  vm_compute. repeat split; reflexivity.
Qed.

(** C4, amended.  When attaching the new scene fails, [ngl_set_scene] on a
    configured context returns the attach error, the new scene is detached
    and the context's scene reference is [NULL], not the new scene; the
    previous scene has been detached and the context's reference to it
    released before the attachment was tried (its reference count is one
    less), and no other node is touched. *)
Theorem set_scene_attach_failure_releases_previous {G : Type}
    (ops : gpu_ctx_ops G) (e : env) (impls : api_id -> api_impl_t G)
    (st : apist G) (i : api_id) (n : node_id) (g g1 : G) (w1 : world) :
  configured (ctx st) = true ->
  api_impl (ctx st) = Some i ->
  impl_set_scene (impls i) = ngli_ctx_set_scene ops e ->
  gpu_ctx (ctx st) = Some g ->
  ngli_gpu_ctx_wait_idle ops (g, aw st) = Some (tt, (g1, w1)) ->
  (forall old, scene (ctx st) = Some old -> node_alive (nodes st) old = true) ->
  node_alive (nodes st) n = true ->
  (scene (ctx st) = Some n -> (2 <= refcount (nodes st n))%nat) ->
  env_node_attach e n < 0 ->
  exists st',
    ngl_set_scene impls (Some n) st = Some (env_node_attach e n, st') /\
    scene (ctx st') = None /\
    node_attached (nodes st' n) = false /\
    (forall old, scene (ctx st) = Some old ->
       node_attached (nodes st' old) = false /\
       refcount (nodes st' old) = pred (refcount (nodes st old))) /\
    (forall m, m <> n -> scene (ctx st) <> Some m -> nodes st' m = nodes st m).
Proof.
  intros Hc Hi Himpl Hg Hw Hold Hn Hsame Hfail.
  unfold ngl_set_scene.
  erewrite bind_eq by reflexivity. rewrite Hc. cbn [negb].
  erewrite bind_eq by (unfold the_impl, deref, bind; rewrite Hi; reflexivity).
  rewrite Himpl.
  eapply set_scene_attach_failure; eauto.
Qed.

Lemma set_scene_attach_failure_releases_previous_witness :
  exists st',
    ngl_set_scene demo_impls (Some 2%nat) demo_onscreen
    = Some (env_node_attach demo_env 2%nat, st') /\
    scene (ctx st') = None /\
    node_attached (nodes st' 2%nat) = false /\
    (forall old, scene (ctx demo_onscreen) = Some old ->
       node_attached (nodes st' old) = false /\
       refcount (nodes st' old) = pred (refcount (nodes demo_onscreen old))) /\
    (forall m, m <> 2%nat -> scene (ctx demo_onscreen) <> Some m ->
       nodes st' m = nodes demo_onscreen m).
Proof.
  assert (W : exists g g1 w1,
             gpu_ctx (ctx demo_onscreen) = Some g /\
             ngli_gpu_ctx_wait_idle demo_ops (g, aw demo_onscreen)
             = Some (tt, (g1, w1))).
  { eexists _, _, _. split; vm_compute; reflexivity. }
  destruct W as (g & g1 & w1 & Hg & Hw).
  apply (set_scene_attach_failure_releases_previous demo_ops demo_env
           demo_impls demo_onscreen api_gl 2%nat g g1 w1);
    try (vm_compute; reflexivity); try assumption.
  - intros old H. vm_compute in H. injection H as <-. vm_compute. reflexivity.
  - intros H. vm_compute in H. discriminate H.
Defined.

Section DemotionFacts.

Context {G : Type}.
Variable impls : api_id -> api_impl_t G.

Lemma configure_success_configured b cfg c' (st st' : apist G) :
  ngl_configure b impls cfg st = Some ((0, c'), st') ->
  configured (ctx st') = true.
Proof.
  unfold ngl_configure. intros H.
  apply bind_inv in H as (c & s1 & _ & H).
  apply bind_inv in H as ([] & s2 & _ & H).
  destruct cfg as [cfg|]; [|cbn in H; discriminate H].
  destruct (_ && _); [cbn in H; discriminate H|].
  remember (platform (resolve_auto b cfg)) as p eqn:Hp.
  destruct (p <? 0) eqn:Ep.
  { apply Z.ltb_lt in Ep. cbn in H. inversion H; subst. lia. }
  destruct (_ || _); [cbn in H; discriminate H|].
  apply bind_inv in H as ([] & s3 & _ & H).
  destruct (api_map _ _); [|cbn in H; discriminate H].
  apply bind_inv in H as (r & s4 & _ & H).
  destruct (r <? 0) eqn:Er.
  { cbn in H. injection H as Hr _ _. apply Z.ltb_lt in Er. lia. }
  cbn in H. injection H as _ <-. reflexivity.
Qed.

Lemma demoted_intro (st : apist G) :
  configured (ctx st) = false -> demoted impls st.
Proof.
  intros H. split; [exact H|]. split.
  - intros os. destruct (run_ops_unconfigured impls os st H) as (st' & E & Hc & _).
    exists st'. auto.
  - intros b cfg c' st'. apply configure_success_configured.
Qed.

Lemma set_capture_buffer_failure buffer r (st st' : apist G) :
  configured (ctx st) = true ->
  ngl_set_capture_buffer impls buffer st = Some (r, st') ->
  r < 0 ->
  configured (ctx st') = false.
Proof.
  intros Hc H Hr. unfold ngl_set_capture_buffer in H.
  apply bind_inv in H as (c & s1 & E & H). inversion E; subst; clear E.
  rewrite Hc in H. cbn [negb] in H.
  apply bind_inv in H as (i & s2 & _ & H).
  apply bind_inv in H as (r' & s3 & _ & H).
  destruct (r' <? 0) eqn:E.
  - cbn in H. inversion H; subst. reflexivity.
  - cbn in H. inversion H; subst. apply Z.ltb_ge in E. lia.
Qed.

Lemma wrap_framebuffer_failure i wrap fb r (st st' : apist G) :
  configured (ctx st) = true ->
  api_impl (ctx st) = Some i ->
  impl_gl_wrap_framebuffer (impls i) = Some wrap ->
  ngl_gl_wrap_framebuffer impls fb st = Some (r, st') ->
  r < 0 ->
  configured (ctx st') = false.
Proof.
  intros Hc Hi Hw H Hr. unfold ngl_gl_wrap_framebuffer in H.
  apply bind_inv in H as (c & s1 & E & H). inversion E; subst; clear E.
  rewrite Hc in H. cbn [negb] in H.
  apply bind_inv in H as (i' & s2 & E & H).
  unfold the_impl, deref, bind in E. rewrite Hi in E. inversion E; subst; clear E.
  rewrite Hw in H.
  apply bind_inv in H as (r' & s3 & _ & H).
  destruct (r' <? 0) eqn:E.
  - cbn in H. inversion H; subst. reflexivity.
  - cbn in H. inversion H; subst. lia.
Qed.

Lemma wrap_framebuffer_missing i fb (st : apist G) :
  configured (ctx st) = true ->
  api_impl (ctx st) = Some i ->
  impl_gl_wrap_framebuffer (impls i) = None ->
  ngl_gl_wrap_framebuffer impls fb st
  = Some (NGL_ERROR_UNSUPPORTED,
          logged ERROR "wrapping external OpenGL framebuffer is not supported by context" st).
Proof.
  intros Hc Hi Hw. unfold ngl_gl_wrap_framebuffer.
  erewrite bind_eq by reflexivity. rewrite Hc. cbn [negb].
  erewrite bind_eq by (unfold the_impl, deref, bind; rewrite Hi; reflexivity).
  rewrite Hw. reflexivity.
Qed.

End DemotionFacts.

(** C9, as stated, fails for [ngl_gl_wrap_framebuffer]: on a configured
    context whose backend has no framebuffer-wrapping entry the call fails
    with [NGL_ERROR_UNSUPPORTED], the context stays configured and the next
    draw is not answered with [NGL_ERROR_INVALID_USAGE]. *)
Lemma wrap_unsupported_keeps_configured :
  exists st' st'',
    configured (ctx demo_vulkan) = true /\
    ngl_gl_wrap_framebuffer demo_impls 7 demo_vulkan
    = Some (NGL_ERROR_UNSUPPORTED, st') /\
    NGL_ERROR_UNSUPPORTED < 0 /\
    configured (ctx st') = true /\
    ngl_draw demo_impls (0#1)%Q st' = Some (0, st'') /\
    0 <> NGL_ERROR_INVALID_USAGE.
Proof.
  eexists _, _. split; [vm_compute; reflexivity|].
  split; [vm_compute; reflexivity|].
  split; [reflexivity|].
  split; [vm_compute; reflexivity|].
  split; [vm_compute; reflexivity|discriminate].
Qed.

(** C9, amended.  On a configured context, a failing
    [ngl_set_capture_buffer], and a failing [ngl_gl_wrap_framebuffer] of a
    backend that has the framebuffer-wrapping entry, clear the [configured]
    flag: every following sequence of guarded operations is answered with
    [NGL_ERROR_INVALID_USAGE] until a configure succeeds.  When the backend
    has no framebuffer-wrapping entry, [ngl_gl_wrap_framebuffer] returns
    [NGL_ERROR_UNSUPPORTED] and only logs. *)
Theorem failed_capture_or_wrap_unconfigures {G : Type}
    (impls : api_id -> api_impl_t G) (st : apist G) (i : api_id) :
  configured (ctx st) = true ->
  api_impl (ctx st) = Some i ->
  (forall buffer r st',
      ngl_set_capture_buffer impls buffer st = Some (r, st') -> r < 0 ->
      demoted impls st') /\
  (forall wrap fb r st',
      impl_gl_wrap_framebuffer (impls i) = Some wrap ->
      ngl_gl_wrap_framebuffer impls fb st = Some (r, st') -> r < 0 ->
      demoted impls st') /\
  (impl_gl_wrap_framebuffer (impls i) = None ->
   forall fb,
     ngl_gl_wrap_framebuffer impls fb st
     = Some (NGL_ERROR_UNSUPPORTED,
             logged ERROR "wrapping external OpenGL framebuffer is not supported by context" st)).
Proof.
  intros Hc Hi. split; [|split].
  - intros buffer r st' E Hr. apply demoted_intro.
    apply (set_capture_buffer_failure impls buffer r st st'); assumption.
  - intros wrap fb r st' Hw E Hr. apply demoted_intro.
    apply (wrap_framebuffer_failure impls i wrap fb r st st'); assumption.
  - intros Hw fb. apply (wrap_framebuffer_missing impls i); assumption.
Qed.

Lemma failed_capture_or_wrap_unconfigures_witness :
  demoted demo_impls
    (state_after (ngl_set_capture_buffer demo_impls (Some 7)) demo_onscreen).
Proof.
  assert (E : exists st',
             ngl_set_capture_buffer demo_impls (Some 7) demo_onscreen
             = Some (NGL_ERROR_UNSUPPORTED, st')).
  { eexists. vm_compute. reflexivity. }
  destruct E as (st' & E). unfold state_after. rewrite E.
  refine (proj1 (failed_capture_or_wrap_unconfigures demo_impls demo_onscreen
                   api_gl _ _) (Some 7) NGL_ERROR_UNSUPPORTED st' E _).
  - vm_compute. reflexivity.
  - vm_compute. reflexivity.
  - reflexivity.
Defined.

(** C10.  [ngl_configure] on a configured context resets the backend and
    clears the [configured] flag before it looks at the new configuration:
    with a [NULL] or otherwise rejected configuration the call returns the
    (negative) error, and leaves the context unconfigured, its GPU context
    destroyed and freed, and the scene kept: still referenced by the
    context, detached, with its reference count unchanged. *)
Theorem configure_rejected_after_teardown {G : Type}
    (b : build) (ops : gpu_ctx_ops G) (impls : api_id -> api_impl_t G)
    (st : apist G) (i : api_id) (g g1 : G) (w1 : world)
    (config : option ngl_config) (r : Z) :
  configured (ctx st) = true ->
  api_impl (ctx st) = Some i ->
  impl_reset (impls i) = ngli_ctx_reset ops ->
  gpu_ctx (ctx st) = Some g ->
  ngli_gpu_ctx_wait_idle ops (g, aw st) = Some (tt, (g1, w1)) ->
  (forall old, scene (ctx st) = Some old -> node_alive (nodes st) old = true) ->
  config_rejection b config = Some r ->
  exists st' c',
    ngl_configure b impls config st = Some ((r, c'), st') /\
    r < 0 /\
    demoted impls st' /\
    gpu_ctx (ctx st') = None /\
    w_calls (aw st') = w_calls (ngli_gpu_ctx_destroy ops g1 w1) /\
    scene (ctx st') = scene (ctx st) /\
    (forall n, scene (ctx st) = Some n ->
       node_attached (nodes st' n) = false /\
       refcount (nodes st' n) = refcount (nodes st n)) /\
    (forall n, scene (ctx st) <> Some n -> nodes st' n = nodes st n).
Proof.
  intros Hc Hi Himpl Hg Hw Hold Hrej.
  pose proof (ngli_ctx_reset_ok ops NGLI_ACTION_KEEP_SCENE st g g1 w1 Hg Hw Hold)
    as Hreset.
  rewrite <- Himpl in Hreset.
  destruct (configure_rejected b impls st i _ config r Hc Hi Hreset Hrej)
    as (st' & c' & E & H1 & H2 & H3 & H4 & H5).
  exists st', c'. split; [exact E|].
  split; [eapply config_rejection_negative; eassumption|].
  split; [apply demoted_intro; exact H1|].
  split; [rewrite H2; reflexivity|].
  split; [rewrite H5; reflexivity|].
  split.
  { rewrite H3. cbn [ctx set_ctx_config set_gpu_ctx set_pgcache set_font_atlas scene].
    rewrite scene_after_reset. reflexivity. }
  rewrite H4. cbn [nodes]. split.
  - intros n Hn. rewrite Hn. cbn. rewrite node_update_same. cbn. auto.
  - intros n Hn. destruct (scene (ctx st)) as [m|]; [|reflexivity].
    cbn. apply node_update_other. congruence.
Qed.

Lemma configure_rejected_after_teardown_witness :
  exists st' c',
    ngl_configure demo_build demo_impls None demo_onscreen
    = Some ((NGL_ERROR_INVALID_ARG, c'), st') /\
    NGL_ERROR_INVALID_ARG < 0 /\
    demoted demo_impls st' /\
    gpu_ctx (ctx st') = None /\
    scene (ctx st') = Some 1%nat /\
    node_attached (nodes st' 1%nat) = false /\
    refcount (nodes st' 1%nat) = refcount (nodes demo_onscreen 1%nat).
Proof.
  assert (W : exists g g1 w1,
             gpu_ctx (ctx demo_onscreen) = Some g /\
             ngli_gpu_ctx_wait_idle demo_ops (g, aw demo_onscreen)
             = Some (tt, (g1, w1))).
  { eexists _, _, _. split; vm_compute; reflexivity. }
  destruct W as (g & g1 & w1 & Hg & Hw).
  assert (Hs : scene (ctx demo_onscreen) = Some 1%nat) by (vm_compute; reflexivity).
  destruct (configure_rejected_after_teardown demo_build demo_ops demo_impls
              demo_onscreen api_gl g g1 w1 None NGL_ERROR_INVALID_ARG)
    as (st' & c' & E & Hr & Hd & Hgpu & _ & Hsc & Hn & _);
    try (vm_compute; reflexivity); try assumption.
  - intros old H. rewrite Hs in H. injection H as <-. vm_compute. reflexivity.
  - exists st', c'. destruct (Hn 1%nat Hs) as [Ha Hrc].
    rewrite Hs in Hsc. auto 10.
Defined.

(* ================================================================== *)
(** * Backend probing: theorems *)
(* ================================================================== *)

Section ProbeProofs.
Context {G : Type}.
Variable b : build.
Variable ops : gpu_ctx_ops G.
Variable e : env.

Lemma firstn_array_set_lt {A} (l : list A) n x :
  firstn n (array_set l n x) = firstn n l.
Proof.
  revert n. induction l as [|a l IH]; intros [|n]; cbn; auto.
  rewrite IH. reflexivity.
Qed.

Lemma firstn_array_set_S {A} (l : list A) n x :
  (n < List.length l)%nat ->
  firstn (S n) (array_set l n x) = firstn n l ++ [x].
Proof.
  revert n. induction l as [|a l IH]; intros [|n] H; cbn in *; try lia; auto.
  rewrite <- IH by lia. reflexivity.
Qed.

Lemma array_set_length {A} (l : list A) n x :
  List.length (array_set l n x) = List.length l.
Proof. revert n. induction l as [|a l IH]; intros [|n]; cbn; auto. Qed.

Lemma backend_probe_id entry cfg mode w r x w' :
  backend_probe ops e entry cfg mode w = Some ((r, x), w') ->
  0 <= r ->
  be_id x = backend cfg /\
  is_some (fst (ngli_gpu_ctx_create ops cfg w)) = true.
Proof.
  unfold backend_probe. intros H Hr.
  destruct (ngli_gpu_ctx_create ops cfg w) as [[g|] w1].
  - destruct mode.
    + destruct (ngli_gpu_ctx_init ops (g, w1)) as [[r1 [g2 w2]]|]; [|discriminate].
      destruct (r1 <? 0).
      * inversion H; subst. cbn. auto.
      * unfold load_caps in H. destruct (env_memdup e); inversion H; subst; cbn; auto.
    + inversion H; subst. cbn. auto.
  - inversion H; subst. unfold NGL_ERROR_MEMORY in Hr. cbn in Hr. lia.
Qed.

Lemma backend_probe_light entry cfg w :
  exists r x w',
    backend_probe ops e entry cfg PROBE_MODE_NO_GRAPHICS w = Some ((r, x), w') /\
    (r <? 0) = negb (is_some (fst (ngli_gpu_ctx_create ops cfg w))) /\
    (0 <= r -> be_id x = backend cfg).
Proof.
  unfold backend_probe.
  destruct (ngli_gpu_ctx_create ops cfg w) as [[g|] w1]; cbn.
  - eexists _, _, _. split; [reflexivity|]. cbn. auto.
  - eexists _, _, _. split; [reflexivity|]. cbn. split; auto.
    unfold NGL_ERROR_MEMORY; cbn; lia.
Qed.

Lemma set_is_default_id v x : be_id (set_is_default v x) = be_id x.
Proof. reflexivity. Qed.

Lemma probe_loop_light (uc : ngl_config) (w0 : world) :
  create_stable ops ->
  forall ids backends nb w,
    (nb + List.length ids <= List.length backends)%nat ->
    exists backends' nb' w',
      probe_loop b ops e uc (probe_platform b uc) PROBE_MODE_NO_GRAPHICS
        ids backends nb w = Some ((backends', nb'), w') /\
      List.length backends' = List.length backends /\
      map be_id (firstn nb' backends')
      = map be_id (firstn nb backends)
        ++ filter (fun id => selected uc id && creatable b ops uc w0 id) ids.
Proof.
  intros St. induction ids as [|id ids IH]; intros arr nb w Hlen.
  - exists arr, nb, w. cbn. rewrite app_nil_r. auto.
  - cbn [probe_loop filter].
    rewrite <- negb_orb. fold (selected uc id).
    destruct (selected uc id); cbn [negb andb].
    + destruct (backend_probe_light (nth nb arr ngl_backend_zero)
                  (set_backend_platform id (probe_platform b uc) uc) w)
        as (r & x & w1 & Ep & Er & Eid).
      rewrite (bind_eq _ _ _ _ _ Ep). cbn [fst snd]. rewrite Er.
      unfold creatable at 1. rewrite (St _ w0 w).
      cbn in Hlen.
      destruct (is_some _) eqn:Es; cbn [negb].
      * destruct (IH (array_set arr nb (set_is_default (id =? DEFAULT_BACKEND b) x))
                     (S nb) w1) as (arr' & nb' & w' & El & Hl & Hm).
        { rewrite array_set_length. lia. }
        exists arr', nb', w'. split; [exact El|]. rewrite array_set_length in Hl.
        split; [exact Hl|]. rewrite Hm.
        rewrite firstn_array_set_S by lia. rewrite map_app. cbn [map].
        rewrite set_is_default_id, Eid, <- app_assoc; [reflexivity|].
        apply Z.ltb_ge. destruct (r <? 0); [discriminate|reflexivity].
      * destruct (IH (array_set arr nb x) nb w1) as (arr' & nb' & w' & El & Hl & Hm).
        { rewrite array_set_length. lia. }
        exists arr', nb', w'. split; [exact El|]. rewrite array_set_length in Hl.
        split; [exact Hl|]. rewrite Hm, firstn_array_set_lt. reflexivity.
    + cbn in Hlen. apply IH. lia.
Qed.

Lemma probe_loop_any (uc : ngl_config) (w0 : world) mode :
  create_stable ops ->
  forall ids backends nb w backends' nb' w',
    (nb + List.length ids <= List.length backends)%nat ->
    probe_loop b ops e uc (probe_platform b uc) mode ids backends nb w
    = Some ((backends', nb'), w') ->
    exists l,
      map be_id (firstn nb' backends') = map be_id (firstn nb backends) ++ l /\
      incl l (filter (fun id => selected uc id && creatable b ops uc w0 id) ids).
Proof.
  intros St. induction ids as [|id ids IH]; intros arr nb w arr' nb' w' Hlen H.
  - inversion H; subst. exists []. rewrite app_nil_r. split; [reflexivity|].
    apply incl_refl.
  - cbn [probe_loop filter] in *.
    rewrite <- negb_orb in H. fold (selected uc id) in H.
    cbn in Hlen.
    destruct (selected uc id); cbn [negb andb] in *.
    + apply bind_inv in H as ([r x] & w1 & Ep & H). cbn [fst snd] in H.
      destruct (r <? 0) eqn:Er.
      * apply IH in H as (l & Hm & Hi); [|rewrite array_set_length; lia].
        exists l. rewrite Hm, firstn_array_set_lt. split; [reflexivity|].
        destruct (creatable b ops uc w0 id); [apply incl_tl|]; exact Hi.
      * apply Z.ltb_ge in Er.
        apply backend_probe_id in Ep as [Eid Ec]; [|exact Er].
        apply IH in H as (l & Hm & Hi); [|rewrite array_set_length; lia].
        exists (id :: l). rewrite Hm.
        rewrite firstn_array_set_S by lia. rewrite map_app. cbn [map].
        rewrite set_is_default_id, Eid, <- app_assoc. split; [reflexivity|].
        unfold creatable at 1. rewrite (St _ w0 w), Ec.
        intros y [<-|Hy]; [left; reflexivity|right; apply Hi; exact Hy].
    + apply IH in H as (l & Hm & Hi); [|lia]. exists l. auto.
Qed.

Lemma filter_incl_self {A} (f : A -> bool) l : incl (filter f l) l.
Proof. intros x Hx. apply filter_In in Hx. tauto. Qed.

Lemma listed_probe_result r (arr : list ngl_backend) nb :
  listed {| pr_ret := r;
            pr_backends := match nb with O => None | S _ => Some arr end;
            pr_nb_backends := nb |} = firstn nb arr.
Proof. unfold listed. destruct nb; reflexivity. Qed.

Lemma backend_ids_NoDup : NoDup (backend_ids b).
Proof.
  unfold backend_ids.
  destruct (BACKEND_GL b), (BACKEND_GLES b), (BACKEND_VK b); cbn;
    repeat constructor; cbn; intuition discriminate.
Qed.

(** The result code and the world left by [backend_probe] do not depend on
    the entry it is given. *)
Lemma backend_probe_code entry id uc mode w r x w' :
  backend_probe ops e entry
    (set_backend_platform id (probe_platform b uc) uc) mode w
  = Some ((r, x), w') ->
  probe_of b ops e uc mode id w = Some (r, w').
Proof.
  unfold probe_of, backend_probe. intros H.
  destruct (ngli_gpu_ctx_create ops _ w) as [[g|] w1].
  - destruct mode.
    + destruct (ngli_gpu_ctx_init ops (g, w1)) as [[r1 [g2 w2]]|];
        [|discriminate].
      destruct (r1 <? 0).
      * inversion H; subst. reflexivity.
      * unfold load_caps in *. destruct (env_memdup e); inversion H; subst;
          reflexivity.
    + inversion H; subst. reflexivity.
  - inversion H; subst. reflexivity.
Qed.

(** The loop lists exactly the selected backends whose own probe succeeds,
    each probed in the world left by the probes before it. *)
Lemma probe_loop_exact (uc : ngl_config) mode :
  forall ids backends nb w backends' nb' w',
    (nb + List.length ids <= List.length backends)%nat ->
    probe_loop b ops e uc (probe_platform b uc) mode ids backends nb w
    = Some ((backends', nb'), w') ->
    map be_id (firstn nb' backends')
    = map be_id (firstn nb backends)
      ++ map fst (filter (probe_succeeds b ops e uc mode)
                    (probe_worlds b ops e uc mode ids w)).
Proof.
  induction ids as [|id ids IH]; intros arr nb w arr' nb' w' Hlen H.
  - inversion H; subst. cbn. rewrite app_nil_r. reflexivity.
  - cbn [probe_loop probe_worlds] in *.
    rewrite <- negb_orb in H. fold (selected uc id) in H.
    cbn in Hlen.
    destruct (selected uc id); cbn [negb andb] in *.
    + apply bind_inv in H as ([r x] & w1 & Ep & H). cbn [fst snd] in H.
      pose proof (backend_probe_code _ _ _ _ _ _ _ _ Ep) as Ec.
      cbn [filter]. unfold probe_succeeds at 1, world_after_probe.
      cbn [fst snd]. rewrite Ec.
      destruct (r <? 0) eqn:Er.
      * apply IH in H; [|rewrite array_set_length; lia].
        rewrite H, firstn_array_set_lt.
        apply Z.ltb_lt in Er. apply Z.leb_gt in Er. rewrite Er. reflexivity.
      * apply Z.ltb_ge in Er.
        apply backend_probe_id in Ep as [Eid _]; [|exact Er].
        apply IH in H; [|rewrite array_set_length; lia].
        rewrite H. rewrite firstn_array_set_S by lia. rewrite map_app.
        cbn [map]. rewrite set_is_default_id, Eid, <- app_assoc.
        apply Z.leb_le in Er. rewrite Er. reflexivity.
    + apply IH in H; [exact H|lia].
Qed.

Lemma probe_worlds_ids (uc : ngl_config) mode ids w :
  map fst (probe_worlds b ops e uc mode ids w) = filter (selected uc) ids.
Proof.
  revert w. induction ids as [|id ids IH]; intros w; cbn; [reflexivity|].
  destruct (selected uc id); cbn; rewrite IH; reflexivity.
Qed.

(** The lightweight loop always returns. *)
Lemma probe_loop_light_returns (uc : ngl_config) :
  forall ids backends nb w,
    exists backends' nb' w',
      probe_loop b ops e uc (probe_platform b uc) PROBE_MODE_NO_GRAPHICS
        ids backends nb w = Some ((backends', nb'), w').
Proof.
  induction ids as [|id ids IH]; intros arr nb w.
  - eexists _, _, _. reflexivity.
  - cbn [probe_loop].
    destruct (negb (backend uc =? NGL_BACKEND_AUTO)
              && negb (backend uc =? id)); [apply IH|].
    destruct (backend_probe_light (nth nb arr ngl_backend_zero)
                (set_backend_platform id (probe_platform b uc) uc) w)
      as (r & x & w1 & Ep & _).
    rewrite (bind_eq _ _ _ _ _ Ep). cbn [fst snd].
    destruct (r <? 0); apply IH.
Qed.

(** C8.  Every backend listed by the full probe [ngl_backends_probe] is one
    of the backends compiled into the build.  A backend whose probe fails
    is left out and the enumeration goes on: every selected backend of the
    build is probed, in the order of the table and in the world the probes
    before it have left, whether they succeeded or failed, and the probe
    lists exactly those whose own probe succeeded; the result code is 0
    whenever the result array could be allocated.  The lightweight probe
    [ngl_backends_get] with the same configuration always returns, again
    with result code 0 and listing exactly the selected backends whose own
    lightweight probe succeeds; when the creation of a GPU context does not
    depend on the state of the world, these are the selected backends whose
    GPU context can be created, which is the first step of the full probe,
    so that it lists every backend the full probe lists. *)
Theorem probe_full_within_light (user_config : option ngl_config) w res w' :
  ngl_backends_probe b ops e user_config w = Some (res, w') ->
  let uc := match user_config with
            | Some c => c
            | None => probe_default_config
            end in
  let probed := probe_worlds b ops e uc PROBE_MODE_FULL (backend_ids b) w in
  (forall x, In x (listed res) -> In (be_id x) (backend_ids b)) /\
  (env_calloc e = true -> pr_ret res = 0) /\
  map fst probed = filter (selected uc) (backend_ids b) /\
  (env_calloc e = true ->
   map be_id (listed res)
   = map fst (filter (probe_succeeds b ops e uc PROBE_MODE_FULL) probed)) /\
  (env_calloc e = true ->
   forall p, In p probed ->
     (In (fst p) (map be_id (listed res))
      <-> probe_succeeds b ops e uc PROBE_MODE_FULL p = true)) /\
  forall w2, exists res2 w2',
    ngl_backends_get b ops e user_config w2 = Some (res2, w2') /\
    (env_calloc e = true -> pr_ret res2 = 0) /\
    (env_calloc e = true ->
     map be_id (listed res2)
     = map fst (filter (probe_succeeds b ops e uc PROBE_MODE_NO_GRAPHICS)
                  (probe_worlds b ops e uc PROBE_MODE_NO_GRAPHICS
                     (backend_ids b) w2))) /\
    (create_stable ops ->
     incl (map be_id (listed res)) (map be_id (listed res2)) /\
     (env_calloc e = true ->
      map be_id (listed res2)
      = filter (fun id => selected uc id && creatable b ops uc w2 id)
          (backend_ids b))).
Proof.
  intros H uc probed.
  unfold ngl_backends_probe, ngl_backends_get, backends_probe in *.
  fold uc in H. fold uc. fold (probe_platform b uc) in H.
  fold (probe_platform b uc).
  assert (Hids : map fst probed = filter (selected uc) (backend_ids b))
    by apply probe_worlds_ids.
  destruct (env_calloc e) eqn:Ec; cbn [negb] in *.
  - apply bind_inv in H as ([arr nb] & w1 & Hl & H). inversion H; subst; clear H.
    cbn [fst snd] in *.
    assert (Hlen0 : (0 + List.length (backend_ids b)
                     <= List.length (repeat ngl_backend_zero
                                       (List.length (backend_ids b))))%nat)
      by (rewrite repeat_length; cbn; lia).
    pose proof (probe_loop_exact uc PROBE_MODE_FULL _ _ _ _ _ _ _ Hlen0 Hl)
      as Hx.
    cbn [firstn map app] in Hx. fold probed in Hx.
    rewrite listed_probe_result.
    assert (Hin : forall y, In y (map be_id (firstn nb arr)) ->
                            In y (backend_ids b)).
    { intros y Hy. rewrite Hx in Hy. apply in_map_iff in Hy as (p & <- & Hp).
      apply filter_In in Hp as [Hp _].
      apply (in_map fst) in Hp. rewrite Hids in Hp.
      apply filter_In in Hp. tauto. }
    split; [intros x Hxin; apply Hin, in_map, Hxin|].
    split; [reflexivity|]. split; [exact Hids|].
    split; [intros _; exact Hx|].
    split.
    { intros _ p Hp. rewrite Hx. split.
      - intros Hi. apply in_map_iff in Hi as (q & Hq & Hqin).
        apply filter_In in Hqin as [Hqin Hok].
        assert (q = p) as <-; [|exact Hok].
        assert (Hnd : NoDup (map fst probed)).
        { rewrite Hids. apply NoDup_filter, backend_ids_NoDup. }
        clear - Hnd Hq Hqin Hp. induction probed as [|a l IH]; [destruct Hp|].
        cbn in Hnd. inversion Hnd as [|? ? Hna Hnd']; subst.
        destruct Hp as [->|Hp], Hqin as [->|Hqin]; auto.
        + exfalso. apply Hna. rewrite <- Hq. apply in_map, Hqin.
        + exfalso. apply Hna. rewrite Hq. apply in_map, Hp.
      - intros Hok. apply in_map. apply filter_In. auto. }
    intros w2.
    pose proof (probe_loop_light_returns uc (backend_ids b)
                  (repeat ngl_backend_zero (List.length (backend_ids b)))
                  0%nat w2) as Hlight.
    destruct Hlight as (arr2 & nb2 & w2' & El).
    rewrite (bind_eq _ _ _ _ _ El). cbn [fst snd].
    eexists _, _. split; [reflexivity|]. rewrite listed_probe_result.
    split; [reflexivity|].
    split.
    { intros _.
      exact (probe_loop_exact uc PROBE_MODE_NO_GRAPHICS _ _ _ _ _ _ _
               Hlen0 El). }
    intros St.
    destruct (probe_loop_light uc w2 St (backend_ids b)
                (repeat ngl_backend_zero (List.length (backend_ids b))) 0%nat w2)
      as (arr2' & nb2' & w2'' & El' & _ & Hm2).
    { rewrite repeat_length. cbn. lia. }
    rewrite El in El'. inversion El'; subst arr2' nb2' w2''. clear El'.
    cbn [firstn map app] in Hm2.
    apply (probe_loop_any uc w _ St) in Hl as (l & Hm & Hi);
      [|rewrite repeat_length; cbn; lia].
    cbn [firstn map app] in Hm.
    rewrite Hm, Hm2. split; [|reflexivity].
    intros y Hy. apply Hi in Hy. apply filter_In in Hy as [Hy1 Hy2].
    apply filter_In. split; [exact Hy1|].
    unfold creatable in *. rewrite (St _ w2 w). exact Hy2.
  - inversion H; subst; clear H. cbn.
    split; [tauto|]. split; [discriminate|]. split; [exact Hids|].
    split; [discriminate|]. split; [discriminate|].
    intros w2. eexists _, _. split; [reflexivity|]. cbn.
    split; [discriminate|]. split; [discriminate|].
    intros _. split; [apply incl_refl|discriminate].
Qed.

End ProbeProofs.

Lemma probe_full_within_light_witness :
  exists res res2,
    map be_id (listed res) = [NGL_BACKEND_OPENGL; NGL_BACKEND_VULKAN] /\
    pr_ret res = 0 /\
    (forall x, In x (listed res) -> In (be_id x) (backend_ids demo_build_all)) /\
    (exists w2',
        ngl_backends_get demo_build_all demo_ops_no_gles demo_env None
          demo_world = Some (res2, w2')) /\
    pr_ret res2 = 0 /\
    map be_id (listed res2)
    = [NGL_BACKEND_OPENGL; NGL_BACKEND_OPENGLES; NGL_BACKEND_VULKAN] /\
    incl (map be_id (listed res)) (map be_id (listed res2)).
Proof.
  assert (E : exists res w',
             ngl_backends_probe demo_build_all demo_ops_no_gles demo_env None
               demo_world = Some (res, w')).
  { eexists _, _. vm_compute. reflexivity. }
  destruct E as (res & w' & E).
  assert (St : create_stable demo_ops_no_gles).
  { intros cfg w1 w2. reflexivity. }
  destruct (probe_full_within_light demo_build_all demo_ops_no_gles demo_env
              None demo_world res w' E)
    as (Hin & Hret & _ & Hexact & _ & Hlight).
  destruct (Hlight demo_world) as (res2 & w2' & E2 & Hret2 & _ & Hst).
  destruct (Hst St) as (Hincl & Hex).
  exists res, res2.
  split; [rewrite Hexact by reflexivity; vm_compute; reflexivity|].
  split; [apply Hret; reflexivity|].
  split; [exact Hin|].
  split; [exists w2'; exact E2|].
  split; [apply Hret2; reflexivity|].
  split; [rewrite Hex by reflexivity; vm_compute; reflexivity|exact Hincl].
Defined.

(* ================================================================== *)
(** * Command mailbox: theorems *)
(* ================================================================== *)

Lemma quiescent_inv c h r0 m : quiescent c h r0 m -> dispatch_inv c h r0 m.
Proof.
  intros (Hf & Hr & He & Hc & Hw).
  exists C_lock, Unpublished. unfold lock_of. cbn.
  destruct Hw as [[Hl [Hw|[Hw|Hw]]]|[Hl Hw]]; rewrite Hw, Hl; cbn; auto.
Qed.

Lemma dispatch_inv_forget c h r0 n m :
  dispatch_inv_rank c h r0 n m -> dispatch_inv c h r0 m.
Proof. intros (k & p & H1 & H2 & H3 & H4 & _). exists k, p. auto. Qed.

Lemma dispatch_inv_ranked c h r0 m :
  dispatch_inv c h r0 m ->
  exists n, (n <= 17)%nat /\ dispatch_inv_rank c h r0 n m.
Proof.
  intros (k & p & H1 & H2 & H3 & H4).
  exists (dispatch_rank p k (wkr m)). split.
  - unfold pcs_ok in H3. apply andb_prop in H3 as [_ H3].
    destruct p, k, (wkr m); cbn in H3; try discriminate H3; cbn; lia.
  - exists k, p. auto.
Qed.

Ltac inv_fin :=
  split; [reflexivity|];
  cbn;
  try match goal with E : _ = is_stop _ |- _ => rewrite <- E end;
  rewrite ?Z.eqb_refl; cbn;
  repeat split; (reflexivity || assumption || congruence).

Ltac inv_close :=
  cbn in *;
  first [ eexists _, Unpublished; inv_fin | eexists _, Pending; inv_fin
        | eexists _, Ran; inv_fin | eexists _, Cleared; inv_fin ].

Lemma dispatch_inv_step c h r0 l m m' :
  dispatch_inv c h r0 m -> mailbox_step l m = Some m' -> dispatch_inv c h r0 m'.
Proof.
  intros (k & p & Hc & Hd & Hok & Hl) Hs.
  destruct m as [lk f r cs w ex]. cbn in Hc, Hl, Hok. subst cs lk.
  destruct p; cbn in Hd; destruct Hd as (Hf & He & Hr); subst f ex r.
  all: unfold dispatch_inv, pcs_ok in *.
  all: remember (is_stop c) as stop eqn:Es.
  all: destruct k, w; cbn in Hok; try discriminate Hok.
  all: destruct l as [[|[|i]]|[[|[|j]]|]|[|[|i]]|]; cbn in Hs; try discriminate Hs.
  all: try rewrite <- Es in Hs.
  all: destruct stop; cbn in Hok; try discriminate Hok.
  all: try match goal with ns : bool |- _ =>
             destruct ns; cbn in Hok; try discriminate Hok end.
  all: try match type of Hok with (?r =? _) = true =>
             apply Z.eqb_eq in Hok; subst r end.
  all: try (injection Hs as <-).
  all: try solve [inv_close].
Qed.

Ltac rank_close :=
  cbn in *; eexists; split;
  [ first [ eexists _, Unpublished; inv_fin | eexists _, Pending; inv_fin
          | eexists _, Ran; inv_fin | eexists _, Cleared; inv_fin ]
  | cbn; lia ].

(** Every statement a thread executes brings the dispatch closer to its
    end. *)
Lemma dispatch_rank_step c h r0 n l m m' :
  dispatch_inv_rank c h r0 n m -> real_step l = true ->
  mailbox_step l m = Some m' ->
  exists n', dispatch_inv_rank c h r0 n' m' /\ (n' < n)%nat.
Proof.
  intros (k & p & Hc & Hd & Hok & Hl & Hn) Hreal Hs.
  destruct m as [lk f r cs w ex]. cbn in Hc, Hl, Hok, Hn. subst cs lk n.
  destruct p; cbn in Hd; destruct Hd as (Hf & He & Hr); subst f ex r.
  all: unfold dispatch_inv_rank, pcs_ok in *.
  all: remember (is_stop c) as stop eqn:Es.
  all: destruct k, w; cbn in Hok; try discriminate Hok.
  all: destruct l as [[|[|i]]|[[|[|j]]|]|[|[|i]]|]; cbn in Hreal;
    try discriminate Hreal; cbn in Hs; try discriminate Hs.
  all: try rewrite <- Es in Hs.
  all: destruct stop; cbn in Hok; try discriminate Hok.
  all: try match goal with ns : bool |- _ =>
             destruct ns; cbn in Hok; try discriminate Hok end.
  all: try match type of Hok with (?r =? _) = true =>
             apply Z.eqb_eq in Hok; subst r end.
  all: try (injection Hs as <-).
  all: try solve [rank_close].
Qed.

(** As long as the dispatch has not returned, one of the two threads can
    execute a statement: the hand-over never blocks both. *)
Lemma dispatch_progress c h r0 m :
  dispatch_inv c h r0 m -> returned m 0 = None ->
  exists l m', real_step l = true /\ mailbox_step l m = Some m'.
Proof.
  intros (k & p & Hc & Hd & Hok & Hl) Hret.
  destruct m as [lk f r cs w ex]. cbn in Hc, Hl, Hok. subst cs lk.
  unfold returned in Hret. cbn in Hret.
  destruct p; cbn in Hd; destruct Hd as (Hf & He & Hr); subst f ex r.
  all: unfold pcs_ok in Hok.
  all: destruct k, w; cbn in Hok; try discriminate Hok; try discriminate Hret.
  all: first
    [ exists (Run_ctl 0); eexists; split; [reflexivity|cbn; reflexivity]
    | exists (Run_wkr None); eexists; split; [reflexivity|cbn; reflexivity]
    | exists (Run_wkr (Some 0%nat)); eexists; split;
      [reflexivity|cbn; reflexivity] ].
Qed.

Lemma mailbox_run_app ls1 : forall ls2 m m1,
  mailbox_run ls1 m = Some m1 ->
  mailbox_run (ls1 ++ ls2) m = mailbox_run ls2 m1.
Proof.
  induction ls1 as [|l ls1 IH]; intros ls2 m m1 H; cbn in *.
  - inversion H; subst. reflexivity.
  - destruct (mailbox_step l m) as [m0|]; [|discriminate]. apply IH, H.
Qed.

Lemma dispatch_inv_run c h r0 ls : forall m m',
  dispatch_inv c h r0 m -> mailbox_run ls m = Some m' -> dispatch_inv c h r0 m'.
Proof.
  induction ls as [|l ls IH]; intros m m' Hi Hr; cbn in Hr.
  - inversion Hr; subst. exact Hi.
  - destruct (mailbox_step l m) as [m1|] eqn:E; [|discriminate].
    eapply IH; [|exact Hr]. eapply dispatch_inv_step; eauto.
Qed.

(** A run in which no wait returns spuriously is no longer than the bound
    of the state it starts from. *)
Lemma dispatch_rank_run c h r0 ls : forall n m m',
  dispatch_inv_rank c h r0 n m -> forallb real_step ls = true ->
  mailbox_run ls m = Some m' -> (List.length ls <= n)%nat.
Proof.
  induction ls as [|l ls IH]; intros n m m' Hi Hreal Hr; cbn in *.
  - lia.
  - apply andb_prop in Hreal as [Hl Hreal].
    destruct (mailbox_step l m) as [m1|] eqn:E; [|discriminate].
    destruct (dispatch_rank_step c h r0 n l m m1 Hi Hl E) as (n' & Hi' & Hlt).
    specialize (IH n' m1 m' Hi' Hreal Hr). lia.
Qed.

Lemma dispatch_inv_returned c h r0 m r :
  dispatch_inv c h r0 m -> returned m 0 = Some r ->
  r = cmd_run c /\ executed m = h ++ [c] /\ cmd_func m = None.
Proof.
  intros (k & p & Hc & Hd & Hok & Hl) Hr.
  unfold returned in Hr. rewrite Hc in Hr. cbn in Hr.
  destruct k; try discriminate Hr. injection Hr as ->.
  unfold pcs_ok in Hok.
  destruct p; cbn in Hok; rewrite ?andb_false_r in Hok; try discriminate Hok;
    try (destruct (wkr m); discriminate Hok).
  cbn in Hd. destruct Hd as (Hf & He & _). repeat split; auto.
  destruct (wkr m); try discriminate Hok;
    apply andb_prop in Hok as [_ Hok]; apply Z.eqb_eq in Hok; exact Hok.
Qed.

Lemma dispatch_inv_executed c h r0 m :
  dispatch_inv c h r0 m -> executed m = h \/ executed m = h ++ [c].
Proof.
  intros (k & p & Hc & Hd & _). destruct p; cbn in Hd; tauto.
Qed.

(** From every state of a dispatch the two threads reach the return by
    executing their statements, without any spurious wake-up. *)
Lemma dispatch_reaches_return c h r0 : forall n m,
  dispatch_inv_rank c h r0 n m ->
  exists ls m',
    forallb real_step ls = true /\ mailbox_run ls m = Some m' /\
    returned m' 0 = Some (cmd_run c).
Proof.
  induction n as [n IH] using lt_wf_ind. intros m Hi.
  destruct (returned m 0) as [r|] eqn:Hret.
  - exists [], m. split; [reflexivity|]. split; [reflexivity|].
    destruct (dispatch_inv_returned c h r0 m r
                (dispatch_inv_forget _ _ _ _ _ Hi) Hret) as (-> & _).
    exact Hret.
  - destruct (dispatch_progress c h r0 m (dispatch_inv_forget _ _ _ _ _ Hi) Hret)
      as (l & m1 & Hl & Hs).
    destruct (dispatch_rank_step c h r0 n l m m1 Hi Hl Hs) as (n' & Hi' & Hlt).
    destruct (IH n' Hlt m1 Hi') as (ls & m' & Hreal & Hrun & Hr).
    exists (l :: ls), m'. cbn. rewrite Hl, Hs. auto.
Qed.

Lemma dispatch_completes c h r0 m :
  quiescent c h r0 m ->
  exists ls m',
    forallb real_step ls = true /\
    mailbox_run ls m = Some m' /\ returned m' 0 = Some (cmd_run c) /\
    executed m' = h ++ [c] /\ lock m' = None /\ cmd_func m' = None /\
    wkr m' = (if is_stop c then W_done else W_wait).
Proof.
  intros (Hf & Hr & He & Hc & Hw).
  destruct m as [lk f r cs w ex]. cbn in *. subst.
  destruct Hw as [[-> [-> |[-> | ->]]]|[-> ->]].
  - exists (completing_schedule false). destruct c; cbn; eexists; repeat split.
  - exists (completing_schedule true). destruct c; cbn; eexists; repeat split.
  - exists (completing_schedule false). destruct c; cbn; eexists; repeat split.
  - exists (Run_wkr None :: completing_schedule true).
    destruct c; cbn; eexists; repeat split.
Qed.

(** C5, as stated, fails: with two threads dispatching concurrently, the
    second can take the lock while the first waits and before the worker
    has run the first command, and publishes over it.  Under this schedule
    the worker runs only the second command; the first caller is woken,
    finds the slot empty and returns the second command's result, 20, where
    its own command would have returned 10; its command is never executed,
    and the second caller is left waiting. *)
Lemma concurrent_dispatch_loses_command :
  exists m',
    mailbox_run overwriting_schedule
      (mailbox_init [cmd_user 1 10; cmd_user 2 20]) = Some m' /\
    returned m' 0 = Some 20 /\
    cmd_run (cmd_user 1 10) = 10 /\
    executed m' = [cmd_user 2 20] /\
    ~ In (cmd_user 1 10) (executed m') /\
    nth_error (ctls m') 1 = Some (C_wait, cmd_user 2 20).
Proof.
  eexists. split; [vm_compute; reflexivity|].
  cbn. repeat split.
  intros [H|[]]. discriminate H.
Qed.

(** C5, amended.  With one thread dispatching command [c] on a mailbox
    with no dispatch in progress, under every schedule, spurious wake-ups
    included: the worker executes nothing but [c], at most once; whenever
    the dispatch has returned, it returned the result of [c], [c] has been
    executed exactly once and the command slot is empty; as long as it has
    not returned, one of the two threads can execute a statement, so the
    hand-over never blocks both; every continuation in which no wait
    returns spuriously has at most 17 steps, and when it is carried on
    until no thread can execute a statement the dispatch has returned the
    result of [c]; and such a continuation that reaches the return exists.
    From the start there is one after which the lock is free. *)
Theorem single_dispatch_serialized (c : cmd) (h : list cmd) (r0 : Z)
    (m : mailbox) :
  quiescent c h r0 m ->
  (forall ls m', mailbox_run ls m = Some m' ->
     (executed m' = h \/ executed m' = h ++ [c]) /\
     (forall r, returned m' 0 = Some r ->
        r = cmd_run c /\ executed m' = h ++ [c] /\ cmd_func m' = None) /\
     (returned m' 0 = None ->
      exists l m'', real_step l = true /\ mailbox_step l m' = Some m'') /\
     (forall ls2 m2,
        forallb real_step ls2 = true -> mailbox_run ls2 m' = Some m2 ->
        (List.length ls2 <= 17)%nat /\
        ((forall l, real_step l = true -> mailbox_step l m2 = None) ->
         returned m2 0 = Some (cmd_run c) /\ executed m2 = h ++ [c])) /\
     (exists ls2 m2,
        forallb real_step ls2 = true /\ mailbox_run ls2 m' = Some m2 /\
        returned m2 0 = Some (cmd_run c) /\ executed m2 = h ++ [c] /\
        cmd_func m2 = None)) /\
  (exists ls m',
     forallb real_step ls = true /\
     mailbox_run ls m = Some m' /\
     returned m' 0 = Some (cmd_run c) /\
     executed m' = h ++ [c] /\ lock m' = None /\ cmd_func m' = None).
Proof.
  intros Hq. split.
  - intros ls m' Hr.
    pose proof (dispatch_inv_run c h r0 ls m m' (quiescent_inv c h r0 m Hq) Hr)
      as Hi.
    split; [apply (dispatch_inv_executed c h r0 m' Hi)|].
    split; [intros r; apply (dispatch_inv_returned c h r0 m' r Hi)|].
    split; [apply (dispatch_progress c h r0 m' Hi)|].
    destruct (dispatch_inv_ranked c h r0 m' Hi) as (n & Hn & Hin).
    split.
    + intros ls2 m2 Hreal Hr2.
      pose proof (dispatch_rank_run c h r0 ls2 n m' m2 Hin Hreal Hr2) as Hlen.
      split; [lia|]. intros Hstuck.
      pose proof (dispatch_inv_run c h r0 ls2 m' m2 Hi Hr2) as Hi2.
      destruct (returned m2 0) as [r|] eqn:Hret.
      * destruct (dispatch_inv_returned c h r0 m2 r Hi2 Hret) as (-> & He & _).
        auto.
      * destruct (dispatch_progress c h r0 m2 Hi2 Hret) as (l & m3 & Hl & Hs).
        rewrite (Hstuck l Hl) in Hs. discriminate Hs.
    + destruct (dispatch_reaches_return c h r0 n m' Hin)
        as (ls2 & m2 & Hreal & Hr2 & Hret).
      exists ls2, m2. split; [exact Hreal|]. split; [exact Hr2|].
      split; [exact Hret|].
      pose proof (dispatch_inv_run c h r0 ls2 m' m2 Hi Hr2) as Hi2.
      destruct (dispatch_inv_returned c h r0 m2 _ Hi2 Hret) as (_ & He & Hf).
      auto.
  - destruct (dispatch_completes c h r0 m Hq)
      as (ls & m' & Hreal & Hr & Hret & He & Hl & Hf & _).
    exists ls, m'. auto 10.
Qed.

(** The witness starts where a returned dispatch followed by a spurious
    wake-up of the worker leaves the mailbox: the worker is checking the
    slot and holds the lock. *)
Lemma single_dispatch_serialized_witness :
  exists ls m',
    forallb real_step ls = true /\
    mailbox_run ls
      {| lock := Some T_wkr; cmd_func := None; cmd_ret := 10;
         ctls := [(C_lock, cmd_user 2 20)]; wkr := W_check;
         executed := [cmd_user 1 10] |} = Some m' /\
    returned m' 0 = Some 20 /\
    executed m' = [cmd_user 1 10; cmd_user 2 20] /\ lock m' = None /\
    cmd_func m' = None.
Proof.
  apply (single_dispatch_serialized (cmd_user 2 20) [cmd_user 1 10] 10
           {| lock := Some T_wkr; cmd_func := None; cmd_ret := 10;
              ctls := [(C_lock, cmd_user 2 20)]; wkr := W_check;
              executed := [cmd_user 1 10] |}).
  unfold quiescent. cbn. auto 10.
Defined.

(* ================================================================== *)
(** * Build tables and capabilities: theorems *)
(* ================================================================== *)


Lemma api_map_in_backend_ids (b : build) (id : Z) :
  api_map b id <> None <-> In id (backend_ids b).
Proof.
  unfold api_map, backend_ids.
  destruct (Z.eqb_spec id NGL_BACKEND_OPENGL) as [->|H1];
    [|destruct (Z.eqb_spec id NGL_BACKEND_OPENGLES) as [->|H2];
      [|destruct (Z.eqb_spec id NGL_BACKEND_VULKAN) as [->|H3]]];
    destruct (BACKEND_GL b), (BACKEND_GLES b), (BACKEND_VK b); cbn;
    split; intros H; try congruence; try tauto;
    try (exfalso; apply H; reflexivity);
    repeat (destruct H as [H|H]; try discriminate H; try congruence);
    try contradiction.
Qed.

(** X1.  The two build tables agree: [api_map] has an implementation for a
    backend id exactly when [backend_ids], the table the probes iterate
    over, contains it; and [backend_ids] lists no backend twice. *)
Theorem api_map_agrees_with_backend_ids (b : build) :
  (forall id, api_map b id <> None <-> In id (backend_ids b)) /\
  NoDup (backend_ids b).
Proof.
  split; [intros id; apply api_map_in_backend_ids|apply backend_ids_NoDup].
Qed.

(** X2.  In [ngl_configure] the backend left in the caller's configuration
    after the automatic selection is never [NGL_BACKEND_AUTO]; once it has
    passed the range check it has a string id, so the lookup made for the
    message about a backend missing from the build cannot hit the
    assertion of [ngli_get_backend_string_id]. *)
Theorem configure_backend_named (b : build) (cfg : ngl_config) :
  0 <= backend (resolve_auto b cfg) < NGL_NB_BACKEND ->
  backend (resolve_auto b cfg) <> NGL_BACKEND_AUTO /\
  exists s, ngli_get_backend_string_id (backend (resolve_auto b cfg)) = Some s.
Proof.
  unfold resolve_auto. cbn [backend set_backend_platform].
  destruct (Z.eqb_spec (backend cfg) NGL_BACKEND_AUTO) as [E|E].
  - intros _. unfold DEFAULT_BACKEND.
    destruct (target b); (split; [discriminate|eexists; reflexivity]).
  - intros [H1 H2]. split; [exact E|].
    unfold NGL_BACKEND_AUTO, NGL_NB_BACKEND in *.
    assert (H : backend cfg = 1 \/ backend cfg = 2 \/ backend cfg = 3) by lia.
    destruct H as [-> | [-> | ->]]; eexists; reflexivity.
Qed.

Lemma configure_backend_named_witness :
  backend (resolve_auto demo_build (demo_config true 0 NGL_BACKEND_AUTO))
  <> NGL_BACKEND_AUTO /\
  exists s,
    ngli_get_backend_string_id
      (backend (resolve_auto demo_build (demo_config true 0 NGL_BACKEND_AUTO)))
    = Some s.
Proof.
  apply (configure_backend_named demo_build
           (demo_config true 0 NGL_BACKEND_AUTO)).
  vm_compute. split; [discriminate|reflexivity].
Defined.

Lemma caps_of_idents fs l : map cap_ident (caps_of fs l) = all_caps.
Proof.
  unfold caps_of.
  destruct (max_compute_work_group_count l) as [[cx cy] cz].
  destruct (max_compute_work_group_size l) as [[sx sy] sz].
  reflexivity.
Qed.

Lemma caps_of_string_ids fs l :
  map cap_string_id (caps_of fs l) = map get_cap_string_id all_caps.
Proof.
  unfold caps_of.
  destruct (max_compute_work_group_count l) as [[cx cy] cz].
  destruct (max_compute_work_group_size l) as [[sx sy] sz].
  reflexivity.
Qed.

Lemma cap_string_ids_NoDup : NoDup (map get_cap_string_id all_caps).
Proof.
  assert (E : nodup string_dec (map get_cap_string_id all_caps)
              = map get_cap_string_id all_caps) by (vm_compute; reflexivity).
  rewrite <- E. apply NoDup_nodup.
Qed.

(** X3.  [load_caps] always sets [nb_caps] to the number of capabilities,
    also when the copy of the array fails; when the copy succeeds the array
    holds one entry per capability, in the order of the enumeration, each
    with the string id of its capability, and no two entries share a string
    id; when it fails the result is [NGL_ERROR_MEMORY] and [caps] is
    [NULL].  The identity fields of the entry are not touched. *)
Theorem load_caps_lists_every_cap {G : Type}
    (ops : gpu_ctx_ops G) (e : env) (entry : ngl_backend) (g : G) :
  let r := load_caps ops e entry g in
  be_nb_caps (snd r) = List.length all_caps /\
  be_id (snd r) = be_id entry /\
  be_string_id (snd r) = be_string_id entry /\
  be_name (snd r) = be_name entry /\
  (if env_memdup e then
     fst r = 0 /\
     exists cs,
       be_caps (snd r) = Some cs /\
       map cap_ident cs = all_caps /\
       map cap_string_id cs = map get_cap_string_id (map cap_ident cs) /\
       NoDup (map cap_string_id cs)
   else fst r = NGL_ERROR_MEMORY /\ be_caps (snd r) = None).
Proof.
  unfold load_caps. cbn zeta.
  assert (L : List.length (caps_of (gpu_features ops g) (gpu_limits_of ops g))
              = List.length all_caps).
  { rewrite <- (caps_of_idents (gpu_features ops g) (gpu_limits_of ops g)).
    rewrite length_map. reflexivity. }
  destruct (env_memdup e); cbn [fst snd be_nb_caps be_id be_string_id be_name
                                  be_caps].
  - repeat split; auto. eexists. split; [reflexivity|].
    rewrite caps_of_idents, caps_of_string_ids.
    repeat split; auto. apply cap_string_ids_NoDup.
  - repeat split; auto.
Qed.

Lemma has_map_filter (gl : glcontext) (f : feature)
    (fm : list (feature * list gl_feature)) :
  has (map fst (filter (fun p => forallb (has_feature gl) (snd p)) fm)) f
  = existsb (fun p => feature_eqb f (fst p)
                      && forallb (has_feature gl) (snd p)) fm.
Proof.
  unfold has. induction fm as [|p fm IH]; [reflexivity|].
  cbn [filter existsb]. destruct (forallb (has_feature gl) (snd p)); cbn.
  - rewrite IH, andb_true_r. reflexivity.
  - rewrite IH, andb_false_r. reflexivity.
Qed.

Ltac feature_flag :=
  unfold gpu_ctx_info_features; rewrite has_map_filter;
  unfold feature_map; cbn;
  rewrite ?andb_true_r, ?orb_false_r; reflexivity.

(** X4.  For the OpenGL backend the capability flags reported by a probe
    follow the OpenGL features of the native context: [block] is set when
    uniform buffer objects or shader storage buffer objects are available,
    [instanced_draw] only when both instanced drawing and instanced arrays
    are, [depth_stencil_resolve] with framebuffer objects, and the others
    with the feature of the same name; the limits are copied from the
    native context. *)
Theorem gl_caps_follow_gl_features (gl : glcontext) :
  let cs := caps_of (gpu_ctx_info_features gl) (gl_limits gl) in
  cap_value_of cs NGL_CAP_BLOCK
  = Some (flag_of (has_feature gl NGLI_FEATURE_GL_UNIFORM_BUFFER_OBJECT
                   || has_feature gl NGLI_FEATURE_GL_SHADER_STORAGE_BUFFER_OBJECT)) /\
  cap_value_of cs NGL_CAP_COMPUTE
  = Some (flag_of (has_feature gl NGLI_FEATURE_GL_COMPUTE_SHADER_ALL)) /\
  cap_value_of cs NGL_CAP_DEPTH_STENCIL_RESOLVE
  = Some (flag_of (has_feature gl NGLI_FEATURE_GL_FRAMEBUFFER_OBJECT)) /\
  cap_value_of cs NGL_CAP_INSTANCED_DRAW
  = Some (flag_of (has_feature gl NGLI_FEATURE_GL_DRAW_INSTANCED
                   && has_feature gl NGLI_FEATURE_GL_INSTANCED_ARRAY)) /\
  cap_value_of cs NGL_CAP_NPOT_TEXTURE
  = Some (flag_of (has_feature gl NGLI_FEATURE_GL_TEXTURE_NPOT)) /\
  cap_value_of cs NGL_CAP_SHADER_TEXTURE_LOD
  = Some (flag_of (has_feature gl NGLI_FEATURE_GL_SHADER_TEXTURE_LOD)) /\
  cap_value_of cs NGL_CAP_TEXTURE_3D
  = Some (flag_of (has_feature gl NGLI_FEATURE_GL_TEXTURE_3D)) /\
  cap_value_of cs NGL_CAP_TEXTURE_CUBE
  = Some (flag_of (has_feature gl NGLI_FEATURE_GL_TEXTURE_CUBE_MAP)) /\
  cap_value_of cs NGL_CAP_UINT_UNIFORMS
  = Some (flag_of (has_feature gl NGLI_FEATURE_GL_UINT_UNIFORMS)) /\
  cap_value_of cs NGL_CAP_MAX_COLOR_ATTACHMENTS
  = Some (gl_max_color_attachments gl) /\
  cap_value_of cs NGL_CAP_MAX_SAMPLES = Some (max_samples (gl_limits gl)).
Proof.
  cbn zeta. unfold caps_of.
  destruct (max_compute_work_group_count (gl_limits gl)) as [[cx cy] cz].
  destruct (max_compute_work_group_size (gl_limits gl)) as [[sx sy] sz].
  assert (H1 : has (gpu_ctx_info_features gl) NGLI_FEATURE_UNIFORM_BUFFER
               = has_feature gl NGLI_FEATURE_GL_UNIFORM_BUFFER_OBJECT)
    by feature_flag.
  assert (H2 : has (gpu_ctx_info_features gl) NGLI_FEATURE_STORAGE_BUFFER
               = has_feature gl NGLI_FEATURE_GL_SHADER_STORAGE_BUFFER_OBJECT)
    by feature_flag.
  assert (H3 : has (gpu_ctx_info_features gl) NGLI_FEATURE_COMPUTE
               = has_feature gl NGLI_FEATURE_GL_COMPUTE_SHADER_ALL)
    by feature_flag.
  assert (H4 : has (gpu_ctx_info_features gl) NGLI_FEATURE_DEPTH_STENCIL_RESOLVE
               = has_feature gl NGLI_FEATURE_GL_FRAMEBUFFER_OBJECT)
    by feature_flag.
  assert (H5 : has (gpu_ctx_info_features gl) NGLI_FEATURE_INSTANCED_DRAW
               = has_feature gl NGLI_FEATURE_GL_DRAW_INSTANCED
                 && has_feature gl NGLI_FEATURE_GL_INSTANCED_ARRAY)
    by feature_flag.
  assert (H6 : has (gpu_ctx_info_features gl) NGLI_FEATURE_TEXTURE_NPOT
               = has_feature gl NGLI_FEATURE_GL_TEXTURE_NPOT)
    by feature_flag.
  assert (H7 : has (gpu_ctx_info_features gl) NGLI_FEATURE_SHADER_TEXTURE_LOD
               = has_feature gl NGLI_FEATURE_GL_SHADER_TEXTURE_LOD)
    by feature_flag.
  assert (H8 : has (gpu_ctx_info_features gl) NGLI_FEATURE_TEXTURE_3D
               = has_feature gl NGLI_FEATURE_GL_TEXTURE_3D)
    by feature_flag.
  assert (H9 : has (gpu_ctx_info_features gl) NGLI_FEATURE_TEXTURE_CUBE_MAP
               = has_feature gl NGLI_FEATURE_GL_TEXTURE_CUBE_MAP)
    by feature_flag.
  assert (H10 : has (gpu_ctx_info_features gl) NGLI_FEATURE_UINT_UNIFORMS
                = has_feature gl NGLI_FEATURE_GL_UINT_UNIFORMS)
    by feature_flag.
  rewrite H1, H2, H3, H4, H5, H6, H7, H8, H9, H10.
  unfold cap_value_of, flag_of, gl_max_color_attachments.
  repeat split; reflexivity.
Qed.

(* ================================================================== *)
(** * Scene replacement and configuration: lemmas *)
(* ================================================================== *)

Section CtxFacts.

Context {G : Type}.
Variable ops : gpu_ctx_ops G.
Variable e : env.

Lemma set_scene_hud_tail (new_scene : option node_id) (st : apist G) :
  ngli_ctx_set_scene ops e new_scene st
  = bind (with_gpu (ngli_gpu_ctx_wait_idle ops)) (fun _ =>
    bind (reset_scene NGLI_ACTION_UNREF_SCENE) (fun _ =>
    bind (deref (fun st => gpu_ctx (ctx st))) (fun g =>
    bind (on_ctx (set_rnode
            (Some (ngli_gpu_ctx_get_default_rendertarget_desc ops g)))) (fun _ =>
    bind (match new_scene with
          | Some n =>
              r <- ngli_node_attach_ctx e n ;;
              if r <? 0 then
                ngli_node_detach_ctx n ;;
                ret r
              else
                ngl_node_ref n ;;
                on_ctx (set_scene (Some n)) ;;
                ret 0
          | None => ret 0
          end) (fun r => if r <? 0 then ret r else hud_setup e))))) st.
Proof. reflexivity. Qed.

(** The state in which the new scene is attached. *)
Lemma set_scene_prefix (st : apist G) g g1 w1 :
  gpu_ctx (ctx st) = Some g ->
  ngli_gpu_ctx_wait_idle ops (g, aw st) = Some (tt, (g1, w1)) ->
  (forall old, scene (ctx st) = Some old -> node_alive (nodes st) old = true) ->
  forall (k : M (apist G) Z),
  bind (with_gpu (ngli_gpu_ctx_wait_idle ops)) (fun _ =>
    bind (reset_scene NGLI_ACTION_UNREF_SCENE) (fun _ =>
    bind (deref (fun st => gpu_ctx (ctx st))) (fun g =>
    bind (on_ctx (set_rnode
            (Some (ngli_gpu_ctx_get_default_rendertarget_desc ops g))))
         (fun _ => k)))) st
  = k {| ctx := set_rnode
                  (Some (ngli_gpu_ctx_get_default_rendertarget_desc ops g1))
                  (ctx_after_reset NGLI_ACTION_UNREF_SCENE
                     (set_gpu_ctx (Some g1) (ctx st)));
         aw := w1;
         nodes := nodes_after_reset NGLI_ACTION_UNREF_SCENE (scene (ctx st))
                    (nodes st) |}.
Proof.
  intros Hg Hw Hold k.
  erewrite bind_eq by (unfold with_gpu; rewrite Hg, Hw; reflexivity).
  erewrite bind_eq by (apply reset_scene_ok; exact Hold).
  cbn [ctx scene set_gpu_ctx nodes aw].
  erewrite bind_eq
    by (unfold deref; cbn [ctx]; rewrite gpu_ctx_after_reset; reflexivity).
  erewrite bind_eq by reflexivity.
  reflexivity.
Qed.

Lemma alive_after_release (st : apist G) n :
  node_alive (nodes st) n = true ->
  (scene (ctx st) = Some n -> (2 <= refcount (nodes st n))%nat) ->
  node_alive
    (nodes_after_reset NGLI_ACTION_UNREF_SCENE (scene (ctx st)) (nodes st)) n
  = true.
Proof.
  intros Hn Hsame. unfold nodes_after_reset.
  destruct (scene (ctx st)) as [old|] eqn:E; [|exact Hn].
  apply node_alive_spec. apply node_alive_spec in Hn.
  destruct (Nat.eq_dec old n) as [->|Hne].
  - rewrite !node_update_same. cbn. specialize (Hsame eq_refl). lia.
  - rewrite !node_update_other by congruence. exact Hn.
Qed.

Lemma attach_and_ref_ok (s : apist G) n :
  node_alive (nodes s) n = true ->
  0 <= env_node_attach e n ->
  forall (k : Z -> M (apist G) Z),
  bind (r <- ngli_node_attach_ctx e n ;;
        if r <? 0 then
          ngli_node_detach_ctx n ;;
          ret r
        else
          ngl_node_ref n ;;
          on_ctx (set_scene (Some n)) ;;
          ret 0) k s
  = k 0 {| ctx := set_scene (Some n) (ctx s); aw := aw s;
           nodes := node_update n node_referenced
                      (node_update n node_attached_to_ctx (nodes s)) |}.
Proof.
  intros Ha Hr k.
  apply Z.ltb_ge in Hr.
  erewrite bind_eq; [reflexivity|].
  unfold ngli_node_attach_ctx.
  erewrite bind_eq.
  2:{ erewrite bind_eq by (apply node_op_ok; exact Ha). reflexivity. }
  rewrite Hr. unfold ngl_node_ref.
  erewrite bind_eq.
  2:{ apply node_op_ok. cbn [nodes]. apply node_alive_spec.
      rewrite node_update_same. cbn. apply node_alive_spec in Ha. exact Ha. }
  erewrite bind_eq by reflexivity.
  reflexivity.
Qed.

Lemma hud_setup_off (s : apist G) :
  hud (ctx_config (ctx s)) = false -> hud_setup e s = Some (0, s).
Proof.
  intros H. unfold hud_setup. erewrite bind_eq by reflexivity.
  rewrite H. reflexivity.
Qed.

Lemma hud_setup_ok (s : apist G) :
  hud (ctx_config (ctx s)) = true ->
  env_hud_create e = true -> 0 <= env_hud_init e ->
  hud_setup e s
  = Some (0, {| ctx := set_ctx_hud (Some tt) (ctx s); aw := aw s;
                nodes := nodes s |}).
Proof.
  intros H Hc Hi. apply Z.ltb_ge in Hi. unfold hud_setup.
  erewrite bind_eq by reflexivity.
  rewrite H, Hc. erewrite bind_eq by reflexivity. rewrite Hi. reflexivity.
Qed.

Lemma hud_setup_fails (s : apist G) :
  hud (ctx_config (ctx s)) = true ->
  env_hud_create e = false \/ env_hud_init e < 0 ->
  (forall n, scene (ctx s) = Some n -> node_alive (nodes s) n = true) ->
  hud_setup e s
  = Some (if env_hud_create e then 0 else NGL_ERROR_MEMORY,
          {| ctx := ctx_after_reset NGLI_ACTION_UNREF_SCENE (ctx s);
             aw := aw s;
             nodes := nodes_after_reset NGLI_ACTION_UNREF_SCENE
                        (scene (ctx s)) (nodes s) |}).
Proof.
  intros H Hf Ha. unfold hud_setup.
  erewrite bind_eq by reflexivity. rewrite H.
  destruct (env_hud_create e) eqn:Hc.
  - destruct Hf as [Hf|Hf]; [discriminate Hf|].
    apply Z.ltb_lt in Hf.
    erewrite bind_eq by reflexivity. rewrite Hf.
    erewrite bind_eq.
    2:{ apply reset_scene_ok. exact Ha. }
    cbn [ctx aw nodes scene set_ctx_hud].
    unfold ctx_after_reset. cbn [scene set_ctx_hud].
    destruct (scene (ctx s)); reflexivity.
  - erewrite bind_eq by (apply reset_scene_ok; exact Ha). reflexivity.
Qed.

(** The context once the render node has been reset for GPU context [g1]. *)
Lemma set_scene_some_ok (st : apist G) n g g1 w1 :
  gpu_ctx (ctx st) = Some g ->
  ngli_gpu_ctx_wait_idle ops (g, aw st) = Some (tt, (g1, w1)) ->
  (forall old, scene (ctx st) = Some old -> node_alive (nodes st) old = true) ->
  node_alive (nodes st) n = true ->
  (scene (ctx st) = Some n -> (2 <= refcount (nodes st n))%nat) ->
  0 <= env_node_attach e n ->
  (hud (ctx_config (ctx st)) = true ->
   env_hud_create e = true /\ 0 <= env_hud_init e) ->
  ngli_ctx_set_scene ops e (Some n) st
  = Some (0,
          {| ctx :=
               (if hud (ctx_config (ctx st)) then set_ctx_hud (Some tt)
                else fun c => c)
                 (set_scene (Some n)
                    (set_rnode
                       (Some (ngli_gpu_ctx_get_default_rendertarget_desc ops g1))
                       (ctx_after_reset NGLI_ACTION_UNREF_SCENE
                          (set_gpu_ctx (Some g1) (ctx st)))));
             aw := w1;
             nodes := node_update n node_referenced
                        (node_update n node_attached_to_ctx
                           (nodes_after_reset NGLI_ACTION_UNREF_SCENE
                              (scene (ctx st)) (nodes st))) |}).
Proof.
  intros Hg Hw Hold Hn Hsame Hatt Hhud.
  rewrite set_scene_hud_tail.
  rewrite (set_scene_prefix st g g1 w1 Hg Hw Hold).
  rewrite attach_and_ref_ok;
    [|cbn [nodes]; apply alive_after_release; assumption|exact Hatt].
  cbn [Z.ltb Z.compare].
  assert (Hcfg : forall c : ngl_ctx G,
             ctx_config (set_scene (Some n)
               (set_rnode (Some (ngli_gpu_ctx_get_default_rendertarget_desc ops g1))
                  (ctx_after_reset NGLI_ACTION_UNREF_SCENE
                     (set_gpu_ctx (Some g1) c)))) = ctx_config c).
  { intros c. cbn [ctx_config set_scene set_rnode].
    rewrite ctx_config_after_reset. reflexivity. }
  destruct (hud (ctx_config (ctx st))) eqn:Eh.
  - destruct (Hhud eq_refl) as [Hc Hi].
    rewrite hud_setup_ok; [reflexivity| |exact Hc|exact Hi].
    cbn [ctx]. rewrite Hcfg. exact Eh.
  - rewrite hud_setup_off; [reflexivity|].
    cbn [ctx]. rewrite Hcfg. exact Eh.
Qed.

Lemma set_scene_none_ok (st : apist G) g g1 w1 :
  gpu_ctx (ctx st) = Some g ->
  ngli_gpu_ctx_wait_idle ops (g, aw st) = Some (tt, (g1, w1)) ->
  (forall old, scene (ctx st) = Some old -> node_alive (nodes st) old = true) ->
  (hud (ctx_config (ctx st)) = true ->
   env_hud_create e = true /\ 0 <= env_hud_init e) ->
  ngli_ctx_set_scene ops e None st
  = Some (0,
          {| ctx :=
               (if hud (ctx_config (ctx st)) then set_ctx_hud (Some tt)
                else fun c => c)
                 (set_rnode
                    (Some (ngli_gpu_ctx_get_default_rendertarget_desc ops g1))
                    (ctx_after_reset NGLI_ACTION_UNREF_SCENE
                       (set_gpu_ctx (Some g1) (ctx st))));
             aw := w1;
             nodes := nodes_after_reset NGLI_ACTION_UNREF_SCENE
                        (scene (ctx st)) (nodes st) |}).
Proof.
  intros Hg Hw Hold Hhud.
  rewrite set_scene_hud_tail.
  rewrite (set_scene_prefix st g g1 w1 Hg Hw Hold).
  erewrite bind_eq by reflexivity.
  cbn [Z.ltb Z.compare].
  assert (Hcfg : forall c : ngl_ctx G,
             ctx_config
               (set_rnode (Some (ngli_gpu_ctx_get_default_rendertarget_desc ops g1))
                  (ctx_after_reset NGLI_ACTION_UNREF_SCENE
                     (set_gpu_ctx (Some g1) c))) = ctx_config c).
  { intros c. cbn [ctx_config set_rnode].
    rewrite ctx_config_after_reset. reflexivity. }
  destruct (hud (ctx_config (ctx st))) eqn:Eh.
  - destruct (Hhud eq_refl) as [Hc Hi].
    rewrite hud_setup_ok; [reflexivity| |exact Hc|exact Hi].
    cbn [ctx]. rewrite Hcfg. exact Eh.
  - rewrite hud_setup_off; [reflexivity|].
    cbn [ctx]. rewrite Hcfg. exact Eh.
Qed.

(** Reading the context behind the optional HUD. *)
Lemma under_hud (v : bool) (c : ngl_ctx G) :
  gpu_ctx ((if v then set_ctx_hud (Some tt) else fun c => c) c) = gpu_ctx c /\
  ctx_config ((if v then set_ctx_hud (Some tt) else fun c => c) c)
  = ctx_config c /\
  scene ((if v then set_ctx_hud (Some tt) else fun c => c) c) = scene c /\
  pgcache ((if v then set_ctx_hud (Some tt) else fun c => c) c) = pgcache c /\
  projection_matrix_stack
    ((if v then set_ctx_hud (Some tt) else fun c => c) c)
  = projection_matrix_stack c /\
  rnode ((if v then set_ctx_hud (Some tt) else fun c => c) c) = rnode c /\
  configured ((if v then set_ctx_hud (Some tt) else fun c => c) c)
  = configured c.
Proof. destruct v; cbn; auto 10. Qed.

(** Reading the context behind the release of the scene. *)
Lemma under_reset action (c : ngl_ctx G) :
  pgcache (ctx_after_reset action c) = pgcache c /\
  projection_matrix_stack (ctx_after_reset action c)
  = projection_matrix_stack c /\
  configured (ctx_after_reset action c) = configured c /\
  ctx_hud (ctx_after_reset action c) = None /\
  rnode (ctx_after_reset action c) = None.
Proof. unfold ctx_after_reset. destruct (scene c), action; cbn; auto. Qed.

End CtxFacts.

Section SceneTheorems.

Context {G : Type}.
Variable ops : gpu_ctx_ops G.
Variable e : env.

(** The node graph once the new scene [n] is attached and referenced. *)
Lemma shown_nodes (st : apist G) n :
  let ns := node_update n node_referenced
              (node_update n node_attached_to_ctx
                 (nodes_after_reset NGLI_ACTION_UNREF_SCENE (scene (ctx st))
                    (nodes st))) in
  node_attached (ns n) = true /\
  (scene (ctx st) = Some n ->
   refcount (ns n) = S (pred (refcount (nodes st n)))) /\
  (scene (ctx st) <> Some n -> refcount (ns n) = S (refcount (nodes st n))) /\
  (forall old, scene (ctx st) = Some old -> old <> n ->
     node_attached (ns old) = false /\
     refcount (ns old) = pred (refcount (nodes st old))) /\
  (forall m, m <> n -> scene (ctx st) <> Some m -> ns m = nodes st m).
Proof.
  cbn zeta. unfold nodes_after_reset.
  split; [rewrite !node_update_same; reflexivity|].
  split.
  { intros E. rewrite E. rewrite !node_update_same. reflexivity. }
  split.
  { intros E. rewrite !node_update_same. cbn.
    destruct (scene (ctx st)) as [old|]; [|reflexivity].
    rewrite !node_update_other by congruence. reflexivity. }
  split.
  - intros old E Hne. rewrite E.
    rewrite !(node_update_other n old) by assumption.
    rewrite !node_update_same. cbn. auto.
  - intros m Hm Hs. rewrite !node_update_other by assumption.
    destruct (scene (ctx st)) as [old|]; [|reflexivity].
    rewrite !node_update_other by congruence. reflexivity.
Qed.

(** X5.  A successful [ngli_ctx_set_scene] with a scene [n] returns 0 and
    makes [n] the context's scene: [n] is attached and the context holds
    one more reference to it; the previous scene, if it is another node,
    has been detached and has lost the context's reference; no other node
    is touched; the render node is reset to the default render-target
    description of the GPU context, and the HUD exists exactly when the
    configuration asks for it. *)
Theorem set_scene_replaces_scene (st : apist G) (n : node_id) (g g1 : G)
    (w1 : world) :
  gpu_ctx (ctx st) = Some g ->
  ngli_gpu_ctx_wait_idle ops (g, aw st) = Some (tt, (g1, w1)) ->
  (forall old, scene (ctx st) = Some old -> node_alive (nodes st) old = true) ->
  node_alive (nodes st) n = true ->
  (scene (ctx st) = Some n -> (2 <= refcount (nodes st n))%nat) ->
  0 <= env_node_attach e n ->
  (hud (ctx_config (ctx st)) = true ->
   env_hud_create e = true /\ 0 <= env_hud_init e) ->
  exists st',
    ngli_ctx_set_scene ops e (Some n) st = Some (0, st') /\
    scene (ctx st') = Some n /\
    node_attached (nodes st' n) = true /\
    (scene (ctx st) = Some n -> refcount (nodes st' n) = refcount (nodes st n)) /\
    (scene (ctx st) <> Some n ->
     refcount (nodes st' n) = S (refcount (nodes st n))) /\
    (forall old, scene (ctx st) = Some old -> old <> n ->
       node_attached (nodes st' old) = false /\
       refcount (nodes st' old) = pred (refcount (nodes st old))) /\
    (forall m, m <> n -> scene (ctx st) <> Some m -> nodes st' m = nodes st m) /\
    ctx_hud (ctx st')
    = (if hud (ctx_config (ctx st)) then Some tt else None) /\
    rnode (ctx st')
    = Some (ngli_gpu_ctx_get_default_rendertarget_desc ops g1) /\
    gpu_ctx (ctx st') = Some g1 /\ aw st' = w1.
Proof.
  intros Hg Hw Hold Hn Hsame Hatt Hhud.
  rewrite set_scene_hud_tail.
  rewrite (set_scene_prefix ops st g g1 w1 Hg Hw Hold).
  rewrite attach_and_ref_ok;
    [|cbn [nodes]; apply alive_after_release; assumption|exact Hatt].
  cbn [Z.ltb Z.compare].
  destruct (shown_nodes st n) as (A1 & A2 & A3 & A4 & A5).
  assert (Hcfg : forall c : ngl_ctx G,
             ctx_config (set_scene (Some n)
               (set_rnode (Some (ngli_gpu_ctx_get_default_rendertarget_desc ops g1))
                  (ctx_after_reset NGLI_ACTION_UNREF_SCENE
                     (set_gpu_ctx (Some g1) c)))) = ctx_config c).
  { intros c. cbn [ctx_config set_scene set_rnode].
    rewrite ctx_config_after_reset. reflexivity. }
  assert (Hgpu : forall c : ngl_ctx G,
             gpu_ctx (set_scene (Some n)
               (set_rnode (Some (ngli_gpu_ctx_get_default_rendertarget_desc ops g1))
                  (ctx_after_reset NGLI_ACTION_UNREF_SCENE
                     (set_gpu_ctx (Some g1) c)))) = Some g1).
  { intros c. cbn [gpu_ctx set_scene set_rnode].
    rewrite gpu_ctx_after_reset. reflexivity. }
  assert (Hh : forall c : ngl_ctx G,
             ctx_hud (set_scene (Some n)
               (set_rnode (Some (ngli_gpu_ctx_get_default_rendertarget_desc ops g1))
                  (ctx_after_reset NGLI_ACTION_UNREF_SCENE
                     (set_gpu_ctx (Some g1) c)))) = None).
  { intros c. cbn [ctx_hud set_scene set_rnode]. unfold ctx_after_reset.
    destruct (scene (set_gpu_ctx (Some g1) c)); reflexivity. }
  destruct (hud (ctx_config (ctx st))) eqn:Eh.
  - destruct (Hhud eq_refl) as [Hc Hi].
    rewrite hud_setup_ok; [|cbn [ctx]; rewrite Hcfg; exact Eh|exact Hc|exact Hi].
    eexists. split; [reflexivity|]. cbn [ctx nodes aw].
    split; [reflexivity|]. split; [exact A1|].
    split; [intros E; rewrite (A2 E); apply Hsame in E; lia|].
    split; [exact A3|]. split; [exact A4|]. split; [exact A5|].
    split; [reflexivity|]. split; [reflexivity|].
    split; [|reflexivity].
    cbn [gpu_ctx set_ctx_hud]. apply Hgpu.
  - rewrite hud_setup_off; [|cbn [ctx]; rewrite Hcfg; exact Eh].
    eexists. split; [reflexivity|]. cbn [ctx nodes aw].
    split; [reflexivity|]. split; [exact A1|].
    split; [intros E; rewrite (A2 E); apply Hsame in E; lia|].
    split; [exact A3|]. split; [exact A4|]. split; [exact A5|].
    split; [apply Hh|]. split; [reflexivity|].
    split; [apply Hgpu|reflexivity].
Qed.

(** X6.  When the HUD is enabled and cannot be set up, [ngli_ctx_set_scene]
    releases the scene it has just attached: the context's scene is [NULL],
    the new scene is detached and the reference taken on it is dropped, and
    no HUD is left.  The result is [NGL_ERROR_MEMORY] when the HUD could not
    be created; when it was created and its initialisation failed the
    result is 0, the value of the outer [ret]. *)
Theorem set_scene_hud_failure (st : apist G) (n : node_id) (g g1 : G)
    (w1 : world) :
  gpu_ctx (ctx st) = Some g ->
  ngli_gpu_ctx_wait_idle ops (g, aw st) = Some (tt, (g1, w1)) ->
  (forall old, scene (ctx st) = Some old -> node_alive (nodes st) old = true) ->
  node_alive (nodes st) n = true ->
  (scene (ctx st) = Some n -> (2 <= refcount (nodes st n))%nat) ->
  0 <= env_node_attach e n ->
  hud (ctx_config (ctx st)) = true ->
  env_hud_create e = false \/ env_hud_init e < 0 ->
  exists st',
    ngli_ctx_set_scene ops e (Some n) st
    = Some (if env_hud_create e then 0 else NGL_ERROR_MEMORY, st') /\
    scene (ctx st') = None /\
    ctx_hud (ctx st') = None /\
    node_attached (nodes st' n) = false /\
    (scene (ctx st) <> Some n ->
     refcount (nodes st' n) = refcount (nodes st n)) /\
    (forall m, m <> n -> scene (ctx st) <> Some m -> nodes st' m = nodes st m).
Proof.
  intros Hg Hw Hold Hn Hsame Hatt Hhud Hfail.
  rewrite set_scene_hud_tail.
  rewrite (set_scene_prefix ops st g g1 w1 Hg Hw Hold).
  rewrite attach_and_ref_ok;
    [|cbn [nodes]; apply alive_after_release; assumption|exact Hatt].
  cbn [Z.ltb Z.compare].
  destruct (shown_nodes st n) as (A1 & A2 & A3 & A4 & A5).
  rewrite hud_setup_fails; [| |exact Hfail|].
  - eexists. split; [reflexivity|]. cbn [ctx nodes aw scene set_scene].
    set (ns2 := node_update n node_referenced _) in *.
    change (nodes_after_reset NGLI_ACTION_UNREF_SCENE (Some n) ns2)
      with (node_update n node_unreferenced (node_update n node_detached ns2)).
    split; [apply scene_after_reset|].
    split; [unfold ctx_after_reset; cbn; reflexivity|].
    split; [rewrite !node_update_same; reflexivity|].
    split.
    + intros E. rewrite !node_update_same. cbn [refcount node_unreferenced node_detached].
      rewrite (A3 E). reflexivity.
    + intros m Hm Hs. rewrite !(node_update_other n m) by assumption.
      apply A5; assumption.
  - cbn [ctx ctx_config set_scene set_rnode].
    rewrite ctx_config_after_reset. exact Hhud.
  - cbn [ctx scene set_scene nodes]. intros m E. inversion E; subst m.
    apply node_alive_spec. rewrite node_update_same. cbn. lia.
Qed.

End SceneTheorems.

Lemma set_scene_replaces_scene_witness :
  exists st',
    ngli_ctx_set_scene demo_ops demo_env (Some 1%nat) demo_configured
    = Some (0, st') /\
    scene (ctx st') = Some 1%nat /\
    node_attached (nodes st' 1%nat) = true /\
    refcount (nodes st' 1%nat) = S (refcount (nodes demo_configured 1%nat)).
Proof.
  assert (W : exists g g1 w1,
             gpu_ctx (ctx demo_configured) = Some g /\
             ngli_gpu_ctx_wait_idle demo_ops (g, aw demo_configured)
             = Some (tt, (g1, w1))).
  { eexists _, _, _. split; vm_compute; reflexivity. }
  destruct W as (g & g1 & w1 & Hg & Hw).
  destruct (set_scene_replaces_scene demo_ops demo_env demo_configured 1%nat
              g g1 w1 Hg Hw)
    as (st' & E & H1 & H2 & _ & H4 & _).
  - intros old H. vm_compute in H. discriminate H.
  - vm_compute. reflexivity.
  - intros H. vm_compute in H. discriminate H.
  - vm_compute. discriminate.
  - intros H. vm_compute in H. discriminate H.
  - exists st'. repeat split; auto. apply H4. vm_compute. discriminate.
Defined.

Lemma set_scene_hud_failure_witness :
  exists st',
    ngli_ctx_set_scene demo_ops demo_env_hud_fails (Some 1%nat) demo_hud
    = Some (0, st') /\
    scene (ctx st') = None /\
    ctx_hud (ctx st') = None /\
    node_attached (nodes st' 1%nat) = false /\
    refcount (nodes st' 1%nat) = refcount (nodes demo_hud 1%nat).
Proof.
  assert (W : exists g g1 w1,
             gpu_ctx (ctx demo_hud) = Some g /\
             ngli_gpu_ctx_wait_idle demo_ops (g, aw demo_hud)
             = Some (tt, (g1, w1))).
  { eexists _, _, _. split; vm_compute; reflexivity. }
  destruct W as (g & g1 & w1 & Hg & Hw).
  destruct (set_scene_hud_failure demo_ops demo_env_hud_fails demo_hud 1%nat
              g g1 w1 Hg Hw)
    as (st' & E & H1 & H2 & H3 & H4 & _).
  - intros old H. vm_compute in H. discriminate H.
  - vm_compute. reflexivity.
  - intros H. vm_compute in H. discriminate H.
  - vm_compute. discriminate.
  - vm_compute. reflexivity.
  - right. vm_compute. reflexivity.
  - exists st'. repeat split; auto. apply H4. vm_compute. discriminate.
Defined.

Section ConfigureCtxFacts.

Context {G : Type}.
Variable ops : gpu_ctx_ops G.
Variable e : env.





End ConfigureCtxFacts.

Section ConfigureCtxTheorems.

Context {G : Type}.
Variable ops : gpu_ctx_ops G.
Variable e : env.


(** X7.  A successful [ngli_ctx_configure] keeps the scene the context
    held: the scene is attached to the new GPU context and, the reference
    taken by [ngli_ctx_set_scene] being dropped again, its reference count
    is what it was; no other node is touched.  The context holds the GPU
    context created from the configuration, the configuration itself, an
    initialised program cache, and a projection stack made of the identity
    transformed by the backend. *)
Theorem configure_keeps_scene (cfg : ngl_config) (st : apist G)
    (g0 g1 g2 : G) (w0 w1 w2 : world) (r : Z) :
  0 <= env_config_copy e cfg ->
  ngli_gpu_ctx_create ops cfg (aw st) = (Some g0, w0) ->
  ngli_gpu_ctx_init ops (g0, w0) = Some (r, (g1, w1)) ->
  0 <= r ->
  0 <= env_pgcache_init e ->
  env_darray_push e = true ->
  ngli_gpu_ctx_wait_idle ops (g1, w1) = Some (tt, (g2, w2)) ->
  (forall n, scene (ctx st) = Some n ->
     node_alive (nodes st) n = true /\ 0 <= env_node_attach e n) ->
  (hud cfg = true -> env_hud_create e = true /\ 0 <= env_hud_init e) ->
  exists st',
    ngli_ctx_configure ops e cfg st = Some (0, st') /\
    gpu_ctx (ctx st') = Some g2 /\
    ctx_config (ctx st') = cfg /\
    scene (ctx st') = scene (ctx st) /\
    (forall n, scene (ctx st) = Some n ->
       node_attached (nodes st' n) = true /\
       refcount (nodes st' n) = refcount (nodes st n)) /\
    (forall m, scene (ctx st) <> Some m -> nodes st' m = nodes st m) /\
    projection_matrix_stack (ctx st')
    = [ngli_gpu_ctx_transform_projection_matrix ops g1 NGLI_MAT4_IDENTITY] /\
    pgcache (ctx st') = true /\
    aw st' = w2.
Proof.
  intros Hcp Hcr Hin Hr Hpg Hda Hw Hsc Hhud.
  apply Z.ltb_ge in Hcp, Hr, Hpg.
  unfold ngli_ctx_configure. rewrite Hcp.
  erewrite bind_eq by reflexivity.
  erewrite bind_eq by reflexivity.
  erewrite bind_eq by reflexivity.
  cbn [ctx aw nodes gpu_ctx set_gpu_ctx]. rewrite Hcr. cbn [fst snd is_some negb].
  erewrite bind_eq by (unfold with_gpu; cbn [ctx aw gpu_ctx set_gpu_ctx];
                       rewrite Hin; reflexivity).
  rewrite Hr, Hpg.
  erewrite bind_eq by reflexivity.
  erewrite bind_eq by reflexivity.
  cbn [ctx gpu_ctx set_gpu_ctx set_pgcache].
  erewrite bind_eq by reflexivity.
  rewrite Hda. cbn [negb].
  erewrite bind_eq by reflexivity.
  erewrite bind_eq by reflexivity.
  erewrite bind_eq by reflexivity.
  cbn [ctx aw nodes scene set_scene set_projection_matrix_stack set_pgcache
       set_gpu_ctx set_ctx_config].
  set (c5 := set_scene None _).
  assert (Hc5 : gpu_ctx c5 = Some g1 /\ scene c5 = None /\ ctx_config c5 = cfg
                /\ pgcache c5 = true
                /\ projection_matrix_stack c5
                   = [ngli_gpu_ctx_transform_projection_matrix ops g1
                        NGLI_MAT4_IDENTITY])
    by (subst c5; cbn; auto).
  destruct Hc5 as (Hc5g & Hc5s & Hc5c & Hc5p & Hc5m).
  set (s5 := {| ctx := c5; aw := w1; nodes := nodes st |}).
  assert (Hold5 : forall old, scene (ctx s5) = Some old ->
                              node_alive (nodes s5) old = true).
  { intros old E. unfold s5 in E. cbn [ctx] in E. rewrite Hc5s in E.
    discriminate E. }
  assert (Hhud5 : hud (ctx_config (ctx s5)) = true ->
                  env_hud_create e = true /\ 0 <= env_hud_init e).
  { unfold s5. cbn [ctx]. rewrite Hc5c. exact Hhud. }
  destruct (scene (ctx st)) as [n|] eqn:Esc.
  - destruct (Hsc n eq_refl) as [Hn Hatt].
    erewrite bind_eq.
    2:{ apply (set_scene_some_ok ops e s5 n g1 g2 w2); auto.
        unfold s5. cbn [ctx]. rewrite Hc5s. discriminate. }
    cbn [Z.ltb Z.compare].
    unfold ngl_node_unref.
    erewrite bind_eq.
    2:{ apply node_op_ok. cbn [nodes].
        apply node_alive_spec; rewrite node_update_same; cbn; lia. }
    eexists. split; [reflexivity|].
    cbn [ctx aw nodes]. unfold s5. cbn [ctx aw nodes].
    rewrite Hc5s. cbn [nodes_after_reset].
    destruct (under_hud (hud (ctx_config c5))
                (set_scene (Some n)
                   (set_rnode
                      (Some (ngli_gpu_ctx_get_default_rendertarget_desc ops g2))
                      (ctx_after_reset NGLI_ACTION_UNREF_SCENE
                         (set_gpu_ctx (Some g2) c5)))))
      as (U1 & U2 & U3 & U4 & U5 & _).
    rewrite U1, U2, U3, U4, U5.
    cbn [gpu_ctx ctx_config scene pgcache projection_matrix_stack set_scene
         set_rnode].
    destruct (under_reset NGLI_ACTION_UNREF_SCENE (set_gpu_ctx (Some g2) c5))
      as (R1 & R2 & _).
    rewrite gpu_ctx_after_reset, ctx_config_after_reset, R1, R2.
    cbn [gpu_ctx ctx_config pgcache projection_matrix_stack set_gpu_ctx].
    split; [reflexivity|]. split; [exact Hc5c|]. split; [reflexivity|].
    split.
    { intros m E. inversion E; subst m. rewrite !node_update_same. cbn. auto. }
    split.
    { intros m Hm. rewrite !node_update_other by congruence. reflexivity. }
    split; [exact Hc5m|]. split; [exact Hc5p|reflexivity].
  - erewrite bind_eq.
    2:{ apply (set_scene_none_ok ops e s5 g1 g2 w2); auto. }
    cbn [Z.ltb Z.compare].
    erewrite bind_eq by reflexivity.
    eexists. split; [reflexivity|].
    cbn [ctx aw nodes]. unfold s5. cbn [ctx aw nodes].
    rewrite Hc5s. cbn [nodes_after_reset].
    destruct (under_hud (hud (ctx_config c5))
                (set_rnode
                   (Some (ngli_gpu_ctx_get_default_rendertarget_desc ops g2))
                   (ctx_after_reset NGLI_ACTION_UNREF_SCENE
                      (set_gpu_ctx (Some g2) c5))))
      as (U1 & U2 & U3 & U4 & U5 & _).
    rewrite U1, U2, U3, U4, U5.
    cbn [gpu_ctx ctx_config scene pgcache projection_matrix_stack set_rnode].
    destruct (under_reset NGLI_ACTION_UNREF_SCENE (set_gpu_ctx (Some g2) c5))
      as (R1 & R2 & _).
    rewrite gpu_ctx_after_reset, ctx_config_after_reset, R1, R2,
      scene_after_reset.
    cbn [gpu_ctx ctx_config pgcache projection_matrix_stack set_gpu_ctx].
    split; [reflexivity|]. split; [exact Hc5c|]. split; [reflexivity|].
    split; [intros m E; discriminate E|].
    split; [reflexivity|].
    split; [exact Hc5m|]. split; [exact Hc5p|reflexivity].
Qed.

End ConfigureCtxTheorems.


Lemma configure_keeps_scene_witness :
  exists st',
    ngli_ctx_configure demo_ops demo_env
      (demo_config false 0 NGL_BACKEND_OPENGL) demo_unconfigured
    = Some (0, st') /\
    scene (ctx st') = Some 1%nat /\
    node_attached (nodes demo_unconfigured 1%nat) = false /\
    node_attached (nodes st' 1%nat) = true /\
    refcount (nodes st' 1%nat) = refcount (nodes demo_unconfigured 1%nat).
Proof.
  assert (W : exists g0 w0 g1 w1 g2 w2,
             ngli_gpu_ctx_create demo_ops
               (demo_config false 0 NGL_BACKEND_OPENGL) (aw demo_unconfigured)
             = (Some g0, w0) /\
             ngli_gpu_ctx_init demo_ops (g0, w0) = Some (0, (g1, w1)) /\
             ngli_gpu_ctx_wait_idle demo_ops (g1, w1) = Some (tt, (g2, w2))).
  { eexists _, _, _, _, _, _. split; [vm_compute; reflexivity|].
    split; vm_compute; reflexivity. }
  destruct W as (g0 & w0 & g1 & w1 & g2 & w2 & Hc & Hi & Hw).
  assert (Hs : scene (ctx demo_unconfigured) = Some 1%nat)
    by (vm_compute; reflexivity).
  destruct (configure_keeps_scene demo_ops demo_env
              (demo_config false 0 NGL_BACKEND_OPENGL) demo_unconfigured
              g0 g1 g2 w0 w1 w2 0)
    as (st' & E & _ & _ & H3 & H4 & _); auto.
  - vm_compute. discriminate.
  - lia.
  - vm_compute. discriminate.
  - intros n H. rewrite Hs in H. inversion H; subst n.
    split; vm_compute; [reflexivity|discriminate].
  - intros H. vm_compute in H. discriminate H.
  - exists st'. destruct (H4 1%nat Hs) as [A B].
    rewrite Hs in H3. repeat split; auto.
Defined.

Section ApiTheorems.

Context {G : Type}.
Variable b : build.
Variable impls : api_id -> api_impl_t G.

(** X9.  A call of [ngl_configure] that does not fail returns 0, leaves the
    context configured, and has resolved the automatic choices in the
    caller's configuration in place: the backend stored there is one of the
    backends of the build (the default backend if [NGL_BACKEND_AUTO] was
    asked, and then without backend configuration), and the platform is not
    negative (the default platform if [NGL_PLATFORM_AUTO] was asked). *)
Theorem configure_success_resolves_auto (cfg : ngl_config)
    (st st' : apist G) (r : Z) (c' : option ngl_config) :
  ngl_configure b impls (Some cfg) st = Some ((r, c'), st') ->
  0 <= r ->
  r = 0 /\
  c' = Some (resolve_auto b cfg) /\
  configured (ctx st') = true /\
  In (backend (resolve_auto b cfg)) (backend_ids b) /\
  0 <= platform (resolve_auto b cfg) /\
  (backend cfg = NGL_BACKEND_AUTO ->
   backend_config cfg = None /\
   backend (resolve_auto b cfg) = DEFAULT_BACKEND b) /\
  (platform cfg = NGL_PLATFORM_AUTO ->
   platform (resolve_auto b cfg) = get_default_platform b).
Proof.
  unfold ngl_configure. intros H Hr.
  apply bind_inv in H as (c & s1 & _ & H).
  apply bind_inv in H as ([] & s2 & _ & H).
  destruct ((backend cfg =? NGL_BACKEND_AUTO) && is_some (backend_config cfg))
    eqn:Eauto.
  { cbn in H. inversion H; subst. exfalso; vm_compute in Hr; apply Hr; reflexivity. }
  remember (platform (resolve_auto b cfg)) as p eqn:Hp.
  destruct (p <? 0) eqn:Ep.
  { apply Z.ltb_lt in Ep. cbn in H. inversion H; subst. lia. }
  apply Z.ltb_ge in Ep.
  destruct (_ || _); [cbn in H; inversion H; subst; exfalso; vm_compute in Hr; apply Hr; reflexivity|].
  apply bind_inv in H as ([] & s3 & _ & H).
  destruct (api_map b (backend (resolve_auto b cfg))) as [i|] eqn:Emap;
    [|cbn in H; inversion H; subst; exfalso; vm_compute in Hr; apply Hr; reflexivity].
  apply bind_inv in H as (r1 & s4 & _ & H).
  destruct (r1 <? 0) eqn:Er.
  { apply Z.ltb_lt in Er. cbn in H. inversion H; subst. lia. }
  cbn in H. inversion H; subst r c' st'; clear H.
  split; [reflexivity|]. split; [reflexivity|]. split; [reflexivity|].
  split.
  { apply api_map_in_backend_ids. rewrite Emap. discriminate. }
  split; [exact Ep|]. split.
  - intros Hb. unfold resolve_auto. cbn [backend set_backend_platform].
    rewrite Hb in *. cbn [Z.eqb andb] in Eauto.
    split; [|reflexivity].
    destruct (backend_config cfg); [discriminate Eauto|reflexivity].
  - intros Hpl. rewrite Hp. unfold resolve_auto.
    cbn [platform set_backend_platform].
    rewrite Hpl. reflexivity.
Qed.

Variable ops : gpu_ctx_ops G.

(** X10.  [ngl_freep] does nothing to an unconfigured context; on a
    configured one it resets the backend with the scene released: the
    context is left unconfigured, without GPU context and without scene,
    the scene it held has been detached and has lost the context's
    reference, and no other node is touched. *)
Theorem freep_releases_scene (st : apist G) :
  (configured (ctx st) = false -> ngl_freep impls st = Some (tt, st)) /\
  (forall i g g1 w1,
     configured (ctx st) = true ->
     api_impl (ctx st) = Some i ->
     impl_reset (impls i) = ngli_ctx_reset ops ->
     gpu_ctx (ctx st) = Some g ->
     ngli_gpu_ctx_wait_idle ops (g, aw st) = Some (tt, (g1, w1)) ->
     (forall n, scene (ctx st) = Some n -> node_alive (nodes st) n = true) ->
     exists st',
       ngl_freep impls st = Some (tt, st') /\
       configured (ctx st') = false /\
       gpu_ctx (ctx st') = None /\
       scene (ctx st') = None /\
       aw st' = ngli_gpu_ctx_destroy ops g1 w1 /\
       (forall n, scene (ctx st) = Some n ->
          node_attached (nodes st' n) = false /\
          refcount (nodes st' n) = pred (refcount (nodes st n))) /\
       (forall m, scene (ctx st) <> Some m -> nodes st' m = nodes st m)).
Proof.
  split.
  - intros Hc. unfold ngl_freep. erewrite bind_eq by reflexivity.
    rewrite Hc. reflexivity.
  - intros i g g1 w1 Hc Hi Himpl Hg Hw Ha. unfold ngl_freep.
    erewrite bind_eq by reflexivity. rewrite Hc.
    erewrite bind_eq
      by (unfold the_impl, deref, bind; rewrite Hi; reflexivity).
    rewrite Himpl.
    erewrite bind_eq by (apply (ngli_ctx_reset_ok ops _ st g g1 w1); assumption).
    eexists. split; [reflexivity|]. cbn [ctx aw nodes].
    split; [reflexivity|]. split; [reflexivity|].
    split.
    { cbn [scene set_configured set_ctx_config set_gpu_ctx set_pgcache
           set_font_atlas]. apply scene_after_reset. }
    split; [reflexivity|]. split.
    + intros n E. rewrite E. cbn [nodes_after_reset].
      rewrite !node_update_same. cbn. auto.
    + intros m Hm. unfold nodes_after_reset.
      destruct (scene (ctx st)) as [n|]; [|reflexivity].
      rewrite !node_update_other by congruence. reflexivity.
Qed.

End ApiTheorems.

Lemma configure_success_resolves_auto_witness :
  exists st',
    ngl_configure demo_build demo_impls
      (Some (demo_config true 0 NGL_BACKEND_AUTO)) demo_created
    = Some ((0, Some (resolve_auto demo_build
                        (demo_config true 0 NGL_BACKEND_AUTO))), st') /\
    configured (ctx st') = true /\
    backend (resolve_auto demo_build (demo_config true 0 NGL_BACKEND_AUTO))
    = NGL_BACKEND_OPENGL /\
    platform (resolve_auto demo_build (demo_config true 0 NGL_BACKEND_AUTO))
    = NGL_PLATFORM_XLIB.
Proof.
  assert (E : exists r c' st',
             ngl_configure demo_build demo_impls
               (Some (demo_config true 0 NGL_BACKEND_AUTO)) demo_created
             = Some ((r, c'), st') /\ r = 0).
  { eexists _, _, _. split; vm_compute; reflexivity. }
  destruct E as (r & c' & st' & E & Hr).
  destruct (configure_success_resolves_auto demo_build demo_impls
              (demo_config true 0 NGL_BACKEND_AUTO) demo_created st' r c' E)
    as (H1 & H2 & H3 & _ & _ & H6 & H7); [lia|].
  subst r c'. exists st'. split; [exact E|]. split; [exact H3|].
  split; [apply H6; reflexivity|apply H7; reflexivity].
Defined.

Lemma freep_releases_scene_witness :
  exists st',
    ngl_freep demo_impls demo_onscreen = Some (tt, st') /\
    configured (ctx st') = false /\
    gpu_ctx (ctx st') = None /\
    scene (ctx st') = None /\
    node_attached (nodes st' 1%nat) = false /\
    refcount (nodes st' 1%nat) = pred (refcount (nodes demo_onscreen 1%nat)).
Proof.
  assert (W : exists g g1 w1,
             gpu_ctx (ctx demo_onscreen) = Some g /\
             ngli_gpu_ctx_wait_idle demo_ops (g, aw demo_onscreen)
             = Some (tt, (g1, w1))).
  { eexists _, _, _. split; vm_compute; reflexivity. }
  destruct W as (g & g1 & w1 & Hg & Hw).
  assert (Hs : scene (ctx demo_onscreen) = Some 1%nat)
    by (vm_compute; reflexivity).
  destruct (proj2 (freep_releases_scene demo_impls demo_ops demo_onscreen)
              api_gl g g1 w1)
    as (st' & E & H1 & H2 & H3 & _ & H5 & _); auto.
  - intros n H. rewrite Hs in H. inversion H; subst n. vm_compute. reflexivity.
  - exists st'. destruct (H5 1%nat Hs). repeat split; auto.
Defined.

(* ================================================================== *)
(** * Backend probing: the listed entries *)
(* ================================================================== *)

Lemma Forall_array_set {A} (P : A -> Prop) (l : list A) n x :
  Forall P l -> P x -> Forall P (array_set l n x).
Proof.
  intros H Hx. revert n. induction H as [|a l Ha Hl IH]; intros [|n]; cbn;
    constructor; auto.
Qed.

Lemma Forall_nth_default {A} (P : A -> Prop) (l : list A) n d :
  Forall P l -> P d -> P (nth n l d).
Proof.
  intros H Hd. revert n. induction H as [|a l Ha Hl IH]; intros [|n]; cbn; auto.
Qed.

Lemma one_default (D : Z) (l : list ngl_backend) :
  NoDup (map be_id l) ->
  Forall (fun x => be_is_default x = (be_id x =? D)) l ->
  (List.length (filter be_is_default l) <= 1)%nat.
Proof.
  induction l as [|x l IH]; intros Hn Hf; [cbn; lia|].
  inversion Hn as [|? ? Hx Hn']; subst. inversion Hf as [|? ? Hd Hf']; subst.
  cbn [filter]. destruct (be_is_default x) eqn:E.
  - assert (Hl : filter be_is_default l = []).
    { clear IH Hn Hf Hn'. induction l as [|y l IHl]; [reflexivity|].
      inversion Hf' as [|? ? Hy Hf'']; subst. cbn [filter].
      destruct (be_is_default y) eqn:Ey.
      - exfalso. apply Hx. cbn [map]. left.
        symmetry in Hd, Hy. apply Z.eqb_eq in Hd, Hy. congruence.
      - apply IHl; [|exact Hf''].
        intros Hin. apply Hx. cbn [map]. right. exact Hin. }
    rewrite Hl. cbn. lia.
  - apply IH; assumption.
Qed.

Section ProbeEntries.

Context {G : Type}.
Variable b : build.
Variable ops : gpu_ctx_ops G.
Variable e : env.

Lemma backend_probe_entry entry cfg mode w r x w' :
  backend_probe ops e entry cfg mode w = Some ((r, x), w') ->
  (0 <= r ->
   be_id x = backend cfg /\
   is_some (be_string_id x) = true /\ is_some (be_name x) = true /\
   be_is_default x = be_is_default entry /\
   match mode with
   | PROBE_MODE_FULL =>
       exists cs, be_caps x = Some cs /\ be_nb_caps x = List.length cs /\
                  map cap_ident cs = all_caps
   | PROBE_MODE_NO_GRAPHICS =>
       be_caps x = be_caps entry /\ be_nb_caps x = be_nb_caps entry
   end) /\
  (mode = PROBE_MODE_NO_GRAPHICS ->
   be_caps x = be_caps entry /\ be_nb_caps x = be_nb_caps entry).
Proof.
  unfold backend_probe. intros H.
  destruct (ngli_gpu_ctx_create ops cfg w) as [[g|] w1].
  - destruct mode.
    + destruct (ngli_gpu_ctx_init ops (g, w1)) as [[r1 [g2 w2]]|]; [|discriminate].
      destruct (r1 <? 0) eqn:Er.
      * inversion H; subst. split; [|discriminate].
        intros Hr. apply Z.ltb_lt in Er. lia.
      * unfold load_caps in H. destruct (env_memdup e).
        -- inversion H; subst. split; [|discriminate]. intros _. cbn.
           repeat split; auto. eexists. split; [reflexivity|].
           split; [reflexivity|]. apply caps_of_idents.
        -- inversion H; subst. split; [|discriminate]. intros Hr.
           exfalso. vm_compute in Hr. apply Hr. reflexivity.
    + inversion H; subst. cbn. auto 10.
  - inversion H; subst. split; [|auto]. intros Hr.
    exfalso. vm_compute in Hr. apply Hr. reflexivity.
Qed.

Lemma probe_loop_entries (uc : ngl_config) (pf : Z) (mode : probe_mode) :
  forall ids arr nb w arr' nb' w',
    (nb + List.length ids <= List.length arr)%nat ->
    probe_loop b ops e uc pf mode ids arr nb w = Some ((arr', nb'), w') ->
    Forall (probe_entry_ok b mode) (firstn nb arr) ->
    (mode = PROBE_MODE_NO_GRAPHICS -> Forall capless arr) ->
    NoDup (map be_id (firstn nb arr) ++ ids) ->
    (forall x, In x (firstn nb arr) ->
       backend uc = NGL_BACKEND_AUTO \/ be_id x = backend uc) ->
    Forall (probe_entry_ok b mode) (firstn nb' arr') /\
    NoDup (map be_id (firstn nb' arr')) /\
    (forall x, In x (firstn nb' arr') ->
       backend uc = NGL_BACKEND_AUTO \/ be_id x = backend uc) /\
    (nb' <= List.length arr')%nat /\
    (nb' <= nb + List.length ids)%nat.
Proof.
  induction ids as [|id ids IH]; intros arr nb w arr' nb' w' Hlen H Hok Hcl Hnd Hsel.
  - inversion H; subst. rewrite app_nil_r in Hnd. cbn in Hlen.
    repeat split; auto; cbn; lia.
  - cbn [probe_loop] in H. cbn [List.length] in Hlen.
    assert (Hnd' : NoDup (map be_id (firstn nb arr) ++ ids)).
    { eapply NoDup_remove_1. exact Hnd. }
    destruct (negb (backend uc =? NGL_BACKEND_AUTO)
              && negb (backend uc =? id)) eqn:Esel.
    + apply IH in H; auto; [|lia].
      destruct H as (A & B & C & D & E).
      split; [exact A|]. split; [exact B|]. split; [exact C|].
      split; [exact D|]. cbn [List.length]. lia.
    + apply bind_inv in H as ([r x] & w1 & Ep & H). cbn [fst snd] in H.
      apply backend_probe_entry in Ep as [Epos Eng].
      destruct (r <? 0) eqn:Er.
      * apply IH in H; try (rewrite array_set_length; lia).
        -- destruct H as (A & B & C & D & E).
           split; [exact A|]. split; [exact B|]. split; [exact C|].
           split; [exact D|]. cbn [List.length]. lia.
        -- rewrite firstn_array_set_lt. exact Hok.
        -- intros Hm. apply Forall_array_set; [auto|].
           destruct (Eng Hm) as [E1 E2].
           pose proof (Forall_nth_default capless arr nb ngl_backend_zero
                         (Hcl Hm) (conj eq_refl eq_refl)) as [N1 N2].
           split; congruence.
        -- rewrite firstn_array_set_lt. exact Hnd'.
        -- rewrite firstn_array_set_lt. exact Hsel.
      * apply Z.ltb_ge in Er.
        destruct (Epos Er) as (Eid & Es & En & Ed & Ecaps).
        assert (Hx : probe_entry_ok b mode
                       (set_is_default (id =? DEFAULT_BACKEND b) x)).
        { unfold probe_entry_ok. cbn [be_is_default be_id be_string_id be_name
                                        be_caps be_nb_caps set_is_default].
          rewrite Eid. cbn [backend set_backend_platform].
          repeat split; auto.
          destruct mode; [exact Ecaps|].
          destruct Ecaps as [E1 E2].
          pose proof (Forall_nth_default capless arr nb ngl_backend_zero
                        (Hcl eq_refl) (conj eq_refl eq_refl)) as [N1 N2].
          split; congruence. }
        apply IH in H; try (rewrite array_set_length; lia).
        -- destruct H as (A & B & C & D & E).
           split; [exact A|]. split; [exact B|]. split; [exact C|].
           split; [exact D|]. cbn [List.length]. lia.
        -- rewrite firstn_array_set_S by lia.
           apply Forall_app. split; [exact Hok|]. constructor; [exact Hx|constructor].
        -- intros Hm. apply Forall_array_set; [auto|].
           destruct Hx as (_ & _ & _ & Hc). rewrite Hm in Hc. exact Hc.
        -- rewrite firstn_array_set_S by lia. rewrite map_app. cbn [map].
           cbn [be_id set_is_default]. rewrite Eid.
           cbn [backend set_backend_platform].
           rewrite <- app_assoc. cbn [app].
           apply (NoDup_Add (Add_app id (map be_id (firstn nb arr)) ids)).
           split; [exact Hnd'|eapply NoDup_remove_2; exact Hnd].
        -- rewrite firstn_array_set_S by lia. intros y Hy.
           apply in_app_or in Hy as [Hy|[Hy|[]]]; [auto|].
           subst y. cbn [be_id set_is_default]. rewrite Eid.
           cbn [backend set_backend_platform].
           apply andb_false_iff in Esel as [Esel|Esel];
             apply negb_false_iff in Esel; apply Z.eqb_eq in Esel; auto.
Qed.

(** X11.  What a caller can rely on in the result of a probe, full or
    lightweight.  Every listed entry has its names set and is flagged
    default exactly when it is the default backend of the build; after a
    full probe it carries the complete capability array, after a
    lightweight one none.  No backend is listed twice, so at most one entry
    is flagged default; when the caller asked for one backend, nothing else
    is listed.  The count never exceeds the number of backends of the
    build, and the array pointer is [NULL] exactly when the count is zero.
    The result code is 0, unless the array could not be allocated. *)
Theorem probe_entries_well_formed (mode : probe_mode)
    (user_config : option ngl_config) (w w' : world) (res : probe_result) :
  backends_probe b ops e user_config mode w = Some (res, w') ->
  let uc := match user_config with
            | Some c => c
            | None => probe_default_config
            end in
  Forall (probe_entry_ok b mode) (listed res) /\
  NoDup (map be_id (listed res)) /\
  (List.length (filter be_is_default (listed res)) <= 1)%nat /\
  (backend uc <> NGL_BACKEND_AUTO ->
   forall x, In x (listed res) -> be_id x = backend uc) /\
  List.length (listed res) = pr_nb_backends res /\
  (pr_nb_backends res <= List.length (backend_ids b))%nat /\
  (pr_backends res = None <-> pr_nb_backends res = 0%nat) /\
  pr_ret res = (if env_calloc e then 0 else NGL_ERROR_MEMORY).
Proof.
  intros H uc. unfold backends_probe in H. fold uc in H.
  destruct (env_calloc e); cbn [negb] in H.
  2:{ inversion H; subst. cbn.
      split; [constructor|]. split; [constructor|]. split; [lia|].
      split; [intros _ x []|]. split; [reflexivity|]. split; [lia|].
      split; [split; reflexivity|reflexivity]. }
  apply bind_inv in H as ([arr nb] & w1 & Hl & H).
  inversion H; subst res w1; clear H. cbn [fst snd] in *.
  apply probe_loop_entries in Hl.
  - destruct Hl as (A & B & C & D & E).
    cbn [Nat.add] in E.
    rewrite listed_probe_result.
    split; [exact A|]. split; [exact B|].
    split.
    { apply (one_default (DEFAULT_BACKEND b)); [exact B|].
      eapply Forall_impl; [|exact A]. intros x Hx. apply Hx. }
    split.
    { intros Hb x Hx. destruct (C x Hx) as [Hc|Hc]; [contradiction|exact Hc]. }
    cbn [pr_nb_backends pr_backends pr_ret].
    split; [apply firstn_length_le; exact D|].
    split; [exact E|].
    split; [|reflexivity].
    destruct nb; split; intros; congruence.
  - rewrite repeat_length. cbn. lia.
  - constructor.
  - intros _. apply Forall_forall. intros x Hx.
    apply repeat_spec in Hx. subst x. split; reflexivity.
  - cbn [firstn map app]. apply backend_ids_NoDup.
  - intros x [].
Qed.

End ProbeEntries.

Lemma probe_entries_well_formed_witness :
  exists res w',
    ngl_backends_probe demo_build demo_ops demo_env None demo_world
    = Some (res, w') /\
    map be_id (listed res) = [NGL_BACKEND_OPENGL; NGL_BACKEND_VULKAN] /\
    Forall (probe_entry_ok demo_build PROBE_MODE_FULL) (listed res) /\
    (List.length (filter be_is_default (listed res)) <= 1)%nat.
Proof.
  assert (E : exists res w',
             backends_probe demo_build demo_ops demo_env None PROBE_MODE_FULL
               demo_world = Some (res, w') /\
             map be_id (listed res) = [NGL_BACKEND_OPENGL; NGL_BACKEND_VULKAN]).
  { eexists _, _. split; vm_compute; reflexivity. }
  destruct E as (res & w' & E & Hl).
  destruct (probe_entries_well_formed demo_build demo_ops demo_env
              PROBE_MODE_FULL None demo_world w' res E)
    as (A & _ & C & _).
  exists res, w'. auto.
Defined.

(* ================================================================== *)
(** * OpenGL backend: initialisation and external framebuffers *)
(* ================================================================== *)

(** X12.  [gl_init] validates the configuration before it touches the
    platform: an external or offscreen configuration without positive
    dimensions, and an external or onscreen configuration with a capture
    buffer, are answered with [NGL_ERROR_INVALID_ARG], the GPU context is
    left as it was and the only effect is one logged error.  When the
    configuration is valid and the platform cannot create the native
    context, the result is [NGL_ERROR_MEMORY] and the request to the
    platform is the only call made. *)
Theorem gl_init_rejects_invalid_config (b : build) (d : driver) (st : glst) :
  (gl_config_invalid (config (gs st)) = true ->
   exists msg,
     gl_init b d st
     = Some (NGL_ERROR_INVALID_ARG,
             {| gs := gs st; gw := world_log (ERROR, msg) (gw st) |})) /\
  (gl_config_invalid (config (gs st)) = false ->
   drv_glcontext_new d (glcontext_params_of (config (gs st))) = None ->
   gl_init b d st
   = Some (NGL_ERROR_MEMORY,
           {| gs := set_glctx None (gs st);
              gw := world_call
                      (CallGlcontextNew (glcontext_params_of (config (gs st))))
                      (gw st) |})).
Proof.
  destruct st as [s w]. cbn [gs gw].
  unfold gl_config_invalid, gl_init, gl_init_check, glcontext_params_of.
  split.
  - intros H. unfold bind, gets, LOG, on_gw, modify, ret. cbn [gs gw].
    destruct (is_external (config s)).
    + destruct ((width (config s) <=? 0) || (height (config s) <=? 0)).
      * eexists. reflexivity.
      * cbn [orb] in H. rewrite H. eexists. reflexivity.
    + destruct (offscreen (config s)).
      * rewrite H. eexists. reflexivity.
      * rewrite H. eexists. reflexivity.
  - intros H Hnew. unfold bind, gets, LOG, on_gw, on_gs, call, modify, ret.
    cbn [gs gw].
    destruct (is_external (config s)).
    + apply orb_false_iff in H as [H1 H2]. rewrite H1, H2. cbn.
      rewrite Hnew. reflexivity.
    + destruct (offscreen (config s)).
      * rewrite H. cbn. rewrite Hnew. reflexivity.
      * rewrite H. cbn. rewrite Hnew. reflexivity.
Qed.

Lemma gl_init_rejects_invalid_config_witness :
  exists msg,
    gl_init demo_build demo_driver
      {| gs := gpu_ctx_gl_zero
                 (set_width_height 0 480 (demo_config true 0 NGL_BACKEND_OPENGL));
         gw := demo_world |}
    = Some (NGL_ERROR_INVALID_ARG,
            {| gs := gpu_ctx_gl_zero
                       (set_width_height 0 480
                          (demo_config true 0 NGL_BACKEND_OPENGL));
               gw := world_log (ERROR, msg) demo_world |}).
Proof.
  apply (proj1 (gl_init_rejects_invalid_config demo_build demo_driver
                  {| gs := gpu_ctx_gl_zero
                             (set_width_height 0 480
                                (demo_config true 0 NGL_BACKEND_OPENGL));
                     gw := demo_world |})).
  reflexivity.
Defined.

Section WrapFacts.

Variable d : driver.

Lemma check_components_outcome fbo cs (st : glst) :
  exists msg,
    check_components d fbo cs st
    = Some (if forallb (fun c : string * string * GLenum * nat =>
                          negb (drv_attachment_type d fbo (snd (fst c)) =? 0)
                          && negb (drv_attachment_size d fbo (snd (fst c))
                                     (snd c) =? 0)) cs
            then (0, st)
            else (NGL_ERROR_GRAPHICS_UNSUPPORTED,
                  {| gs := gs st; gw := world_log (ERROR, msg) (gw st) |})).
Proof.
  induction cs as [|[[[bn cn] att] prop] cs IH].
  - exists ""%string. reflexivity.
  - cbn [check_components forallb fst snd].
    destruct (drv_attachment_type d fbo att =? 0).
    + eexists. reflexivity.
    + destruct (drv_attachment_size d fbo att prop =? 0).
      * eexists. reflexivity.
      * cbn [negb andb]. exact IH.
Qed.

End WrapFacts.

(** X13.  [ngli_gpu_ctx_gl_wrap_framebuffer] refuses a framebuffer without
    touching the context: on a context that is not external the result is
    [NGL_ERROR_UNSUPPORTED]; on an external context with framebuffer
    objects, a framebuffer that lacks one of the six checked components
    (red, green, blue, alpha, depth, stencil) gives
    [NGL_ERROR_GRAPHICS_UNSUPPORTED].  In both cases the render targets and
    the configuration are the ones from before the call, no resource is
    created or destroyed, and one error is logged. *)
Theorem wrap_framebuffer_rejected_keeps_state (d : driver) (fbo : Z)
    (st : glst) :
  (is_external (config (gs st)) = false ->
   exists msg,
     ngli_gpu_ctx_gl_wrap_framebuffer d fbo st
     = Some (NGL_ERROR_UNSUPPORTED,
             {| gs := gs st; gw := world_log (ERROR, msg) (gw st) |})) /\
  (forall gl,
     is_external (config (gs st)) = true ->
     glctx (gs st) = Some gl ->
     has_feature gl NGLI_FEATURE_GL_FRAMEBUFFER_OBJECT = true ->
     fb_checks_pass d (backend (config (gs st)) =? NGL_BACKEND_OPENGLES) fbo
     = false ->
     exists msg,
       ngli_gpu_ctx_gl_wrap_framebuffer d fbo st
       = Some (NGL_ERROR_GRAPHICS_UNSUPPORTED,
               {| gs := gs st; gw := world_log (ERROR, msg) (gw st) |})).
Proof.
  unfold ngli_gpu_ctx_gl_wrap_framebuffer. split.
  - intros H. erewrite bind_eq by reflexivity. rewrite H. cbn [negb].
    eexists. reflexivity.
  - intros gl H Hg Hf Hc. erewrite bind_eq by reflexivity.
    rewrite H. cbn [negb].
    erewrite bind_eq by (unfold the_gl, deref; rewrite Hg; reflexivity).
    rewrite Hf.
    destruct (check_components_outcome d fbo
                (fb_components (backend (config (gs st)) =? NGL_BACKEND_OPENGLES)
                   fbo) st) as (msg & E).
    unfold fb_checks_pass in Hc. rewrite Hc in E.
    rewrite (bind_eq _ _ _ _ _ E). exists msg. reflexivity.
Qed.

(** ** Frame lemmas for one part of the GPU context *)

Lemma keeps_field_of_gs {X A} (f : gpu_ctx_gl -> X) (m : M glst A) :
  keeps_gs m -> keeps_field f m.
Proof. intros H st a st' E. rewrite (H _ _ _ E). reflexivity. Qed.

Lemma keeps_field_bind {X A B} (f : gpu_ctx_gl -> X) (m : M glst A)
    (k : A -> M glst B) :
  keeps_field f m -> (forall a, keeps_field f (k a)) ->
  keeps_field f (bind m k).
Proof.
  intros Hm Hk st b0 st' H. apply bind_inv in H as (a & s1 & H1 & H2).
  rewrite (Hk _ _ _ _ H2). eauto.
Qed.

Lemma keeps_field_on_gs {X} (f : gpu_ctx_gl -> X) g :
  (forall s, f (g s) = f s) -> keeps_field f (on_gs g).
Proof. intros Hf st a st' H. inversion H; subst. cbn. apply Hf. Qed.

Lemma keeps_gs_check_components d fbo cs : keeps_gs (check_components d fbo cs).
Proof.
  induction cs as [|[[[bn cn] att] prop] cs IH]; cbn [check_components].
  - apply keeps_gs_ret.
  - destruct (_ =? 0); [keeps|]. destruct (_ =? 0); [keeps|]. exact IH.
Qed.

Ltac frame :=
  repeat first
    [ apply keeps_field_of_gs;
      solve [ keeps | apply keeps_gs_alloc | apply keeps_gs_rt_init
            | apply keeps_gs_rt_wrap | apply keeps_gs_rt_free
            | apply keeps_gs_create_fbo | apply keeps_gs_check_components ]
    | apply keeps_field_on_gs; intros ?; reflexivity
    | apply keeps_field_bind; [|intros ?]
    | match goal with
      | |- keeps_field _ (if ?c then _ else _) => destruct c
      | |- keeps_field _ (match ?x with _ => _ end) => destruct x
      end ].

Lemma keeps_field_rendertarget_freep {X} (f : gpu_ctx_gl -> X) field setter :
  (forall s, f (setter None s) = f s) ->
  keeps_field f (rendertarget_freep field setter).
Proof.
  intros Hs. unfold rendertarget_freep. frame.
  apply keeps_field_on_gs. exact Hs.
Qed.

Lemma keeps_field_texture_freep {X} (f : gpu_ctx_gl -> X) field setter :
  (forall s, f (setter None s) = f s) ->
  keeps_field f (texture_freep field setter).
Proof.
  intros Hs. unfold texture_freep. frame.
  apply keeps_field_on_gs. exact Hs.
Qed.

Lemma keeps_field_create_rendertarget {X} (f : gpu_ctx_gl -> X) d c rc ds lop
    setter :
  (forall r s, f (setter r s) = f s) ->
  keeps_field f (create_rendertarget d c rc ds lop setter).
Proof.
  intros Hs st r st' H.
  apply create_rendertarget_spec in H as [[_ E]|[_ (rt & E & _)]];
    rewrite E; auto.
Qed.

Lemma keeps_field_create_default_rendertargets {X} (f : gpu_ctx_gl -> X) d c rc
    ds :
  (forall r s, f (set_default_rt r s) = f s) ->
  (forall r s, f (set_default_rt_load r s) = f s) ->
  keeps_field f (create_default_rendertargets d c rc ds).
Proof.
  intros H1 H2. unfold create_default_rendertargets.
  apply keeps_field_bind; [apply keeps_field_create_rendertarget; exact H1|].
  intros r1. destruct (r1 <? 0); [frame|].
  apply keeps_field_bind; [apply keeps_field_create_rendertarget; exact H2|].
  intros r2. frame.
Qed.

Lemma keeps_field_create_texture {X} (f : gpu_ctx_gl -> X) d fm n setter :
  (forall r s, f (setter r s) = f s) ->
  keeps_field f (create_texture d fm n setter).
Proof.
  intros Hs. unfold create_texture. frame.
  apply keeps_field_on_gs. intros s. apply Hs.
Qed.

(** ** Wrapping render targets *)

Lemma rt_wrap_identity s p id st r rt st' :
  ngli_rendertarget_gl_wrap s p id st = Some ((r, rt), st') ->
  r = 0 /\ rt_wrapped rt = true /\ rt_id rt = id.
Proof.
  unfold ngli_rendertarget_gl_wrap. intros H.
  apply bind_inv in H as (gl & s1 & _ & H).
  destruct (rp_nb_colors p) as [|[|n]]; try discriminate.
  destruct (rp_colors p) as [|c0 cs]; try discriminate.
  destruct (_ || _); try discriminate.
  inversion H; subst. repeat split.
Qed.

(** [create_rendertarget] without a color texture either fails on the
    allocation or stores a render target that wraps the framebuffer named
    by the configuration at the time of the call. *)
Lemma create_rendertarget_wraps d rc ds lop setter st r st' :
  create_rendertarget d None rc ds lop setter st = Some (r, st') ->
  (r = NGL_ERROR_MEMORY /\ gs st' = gs st) \/
  (r = 0 /\ exists rt gl,
      glctx (gs st) = Some gl /\
      gs st' = setter (Some rt) (gs st) /\
      rt_wrapped rt = true /\
      rt_id rt = wrapped_fbo_id (config (gs st)) gl /\
      rt_width rt = width (config (gs st)) /\
      rt_height rt = height (config (gs st))).
Proof.
  unfold create_rendertarget. intros H.
  apply bind_inv in H as (cfg & s1 & H1 & H). inversion H1; subst; clear H1.
  apply bind_inv in H as (o & s2 & H1 & H).
  assert (E2 : gs s2 = gs s1).
  { unfold ngli_rendertarget_gl_create in H1.
    apply bind_inv in H1 as (? & ? & Ha & H1). inversion H1; subst.
    eapply keeps_gs_alloc; eauto. }
  destruct o as [rt0|].
  2:{ inversion H; subst. left. split; [reflexivity|assumption]. }
  cbn [is_some] in H.
  apply bind_inv in H as ([r1 rt1] & s3 & H1' & H).
  apply bind_inv in H1' as (gl & s4 & Hg & H1').
  unfold the_gl, deref in Hg.
  destruct (glctx (gs s2)) as [gl'|] eqn:Eg; [|discriminate].
  inversion Hg; subst gl' s4; clear Hg.
  pose proof (keeps_gs_rt_wrap _ _ _ _ _ _ H1') as E3.
  pose proof (rt_wrap_records _ _ _ _ _ _ _ H1') as (_ & Rw & Rh).
  apply rt_wrap_identity in H1' as (-> & Hw & Hid).
  cbn [fst snd] in H. cbn in H.
  inversion H; subst. right. split; [reflexivity|].
  exists rt1, gl. cbn. rewrite E3, E2. rewrite E2 in Eg.
  repeat split; auto.
Qed.

(** X14.  A successful [ngli_gpu_ctx_gl_wrap_framebuffer] on an external
    context records the new framebuffer in the configuration and replaces
    both default render targets by wrapping ones.  The render targets are
    created before the configuration is updated, so they wrap the
    framebuffer the configuration named before the call, not the one passed
    in: the new framebuffer is used by render targets created later. *)
Theorem wrap_framebuffer_success_state (d : driver) (fbo : Z) (st st' : glst)
    (r : Z) :
  ngli_gpu_ctx_gl_wrap_framebuffer d fbo st = Some (r, st') -> 0 <= r ->
  exists g gl rt rtl,
    backend_config (config (gs st)) = Some g /\ external g = true /\
    glctx (gs st) = Some gl /\
    r = 0 /\
    backend_config (config (gs st'))
    = Some {| external := true; external_framebuffer := fbo |} /\
    glctx (gs st') = Some gl /\
    default_rt (gs st') = Some rt /\ default_rt_load (gs st') = Some rtl /\
    rt_wrapped rt = true /\ rt_wrapped rtl = true /\
    rt_id rt = external_framebuffer g /\
    rt_id rtl = external_framebuffer g /\
    (has_feature gl NGLI_FEATURE_GL_FRAMEBUFFER_OBJECT = true ->
     fb_checks_pass d (backend (config (gs st)) =? NGL_BACKEND_OPENGLES) fbo
     = true).
Proof.
  unfold ngli_gpu_ctx_gl_wrap_framebuffer. intros H Hr.
  apply bind_inv in H as (cfg & s1 & H1 & H). inversion H1; subst; clear H1.
  destruct (is_external (config (gs s1))) eqn:Eext; cbn [negb] in H.
  2:{ apply bind_inv in H as (? & ? & _ & H). inversion H; subst.
      unfold NGL_ERROR_UNSUPPORTED in Hr; cbn in Hr; lia. }
  unfold is_external in Eext.
  destruct (backend_config (config (gs s1))) as [g|] eqn:Eg; [|discriminate].
  apply bind_inv in H as (gl & s2 & Hgl & H).
  unfold the_gl, deref in Hgl.
  destruct (glctx (gs s1)) as [gl'|] eqn:Egl; [|discriminate].
  inversion Hgl; subst gl' s2; clear Hgl.
  apply bind_inv in H as (r1 & s3 & Hchk & H).
  destruct (r1 <? 0) eqn:E1.
  { inversion H; subst. apply Z.ltb_lt in E1. lia. }
  assert (Es3 : gs s3 = gs s1).
  { destruct (has_feature gl NGLI_FEATURE_GL_FRAMEBUFFER_OBJECT).
    - eapply keeps_gs_check_components; eauto.
    - inversion Hchk; reflexivity. }
  assert (Hpass : has_feature gl NGLI_FEATURE_GL_FRAMEBUFFER_OBJECT = true ->
                  fb_checks_pass d (backend (config (gs s1)) =? NGL_BACKEND_OPENGLES)
                    fbo = true).
  { intros Hf. rewrite Hf in Hchk.
    destruct (check_components_outcome d fbo
                (fb_components (backend (config (gs s1)) =? NGL_BACKEND_OPENGLES)
                   fbo) s1) as (msg & E).
    unfold fb_checks_pass.
    destruct (forallb _ _); [reflexivity|].
    rewrite E in Hchk. inversion Hchk; subst.
    apply Z.ltb_ge in E1. unfold NGL_ERROR_GRAPHICS_UNSUPPORTED in E1.
    cbn in E1. lia. }
  apply bind_inv in H as (? & s4 & Hf1 & H).
  apply bind_inv in H as (? & s5 & Hf2 & H).
  assert (Es5 : (config (gs s5), glctx (gs s5)) = (config (gs s1), glctx (gs s1))).
  { rewrite <- Es3.
    rewrite (keeps_field_rendertarget_freep
               (fun s => (config s, glctx s)) default_rt_load
               set_default_rt_load (fun _ => eq_refl) _ _ _ Hf2).
    apply (keeps_field_rendertarget_freep
             (fun s => (config s, glctx s)) default_rt set_default_rt
             (fun _ => eq_refl) _ _ _ Hf1). }
  inversion Es5 as [[Ec5 Eg5]].
  apply bind_inv in H as (r2 & s6 & Hc & H).
  destruct (r2 <? 0) eqn:E2.
  { inversion H; subst. apply Z.ltb_lt in E2. lia. }
  unfold create_default_rendertargets in Hc.
  apply bind_inv in Hc as (ra & sa & Ha & Hc).
  apply create_rendertarget_wraps in Ha
    as [[-> _]|(-> & rt & gla & Hgla & Ega & Hwa & Hida & _)].
  { cbn in Hc. inversion Hc; subst. discriminate. }
  cbn in Hc.
  apply bind_inv in Hc as (rb & sb & Hb & Hc).
  apply create_rendertarget_wraps in Hb
    as [[-> _]|(-> & rtl & glb & Hglb & Egb & Hwb & Hidb & _)].
  { cbn in Hc. inversion Hc; subst. discriminate. }
  cbn in Hc. inversion Hc; subst r2 s6; clear Hc.
  apply bind_inv in H as (? & s7 & Hs & H). inversion Hs; subst.
  inversion H; subst. cbn [gs].
  rewrite Egb, Ega in *. cbn in Hglb, Hidb.
  rewrite Eg5 in Hgla, Hglb. rewrite Egl in Hgla, Hglb.
  inversion Hgla; subst gla. inversion Hglb; subst glb.
  rewrite Ec5 in Hida, Hidb.
  unfold wrapped_fbo_id in Hida, Hidb. rewrite Eg, Eext in Hida, Hidb.
  exists g, gl, rt, rtl. cbn. rewrite Ec5, Eg, Eext, Eg5.
  repeat split; auto.
Qed.

(** X15.  After a successful [gl_resize] the scissor covers the whole
    surface and the viewport is the requested one when its width and height
    are positive, the whole surface otherwise.  On an external context the
    surface has the requested dimensions, the native context is not
    resized and the render targets keep their framebuffer; on an onscreen
    context the native context is resized, the surface has the dimensions
    the native context reports afterwards (not the requested ones) and both
    default render targets are re-pointed at its default framebuffer. *)
Theorem gl_resize_surface_state (d : driver) (w h : Z) (vp : option (list Z))
    (st st' : glst) (r : Z) :
  gl_resize d w h vp st = Some (r, st') -> 0 <= r ->
  r = 0 /\
  gpu_scissor (gs st')
  = [0; 0; width (config (gs st')); height (config (gs st'))] /\
  gpu_viewport (gs st') = effective_viewport vp (config (gs st')) /\
  exists rt0 rtl0 rt rtl,
    default_rt (gs st) = Some rt0 /\ default_rt_load (gs st) = Some rtl0 /\
    default_rt (gs st') = Some rt /\ default_rt_load (gs st') = Some rtl /\
    if is_external (config (gs st)) then
      width (config (gs st')) = w /\ height (config (gs st')) = h /\
      glctx (gs st') = glctx (gs st) /\
      w_calls (gw st') = w_calls (gw st) /\
      rt_id rt = rt_id rt0 /\ rt_id rtl = rt_id rtl0
    else
      exists gl,
        glctx (gs st) = Some gl /\
        offscreen (config (gs st)) = false /\
        0 <= fst (drv_glcontext_resize d gl w h) /\
        glctx (gs st') = Some (snd (drv_glcontext_resize d gl w h)) /\
        w_calls (gw st') = w_calls (gw st) ++ [CallGlcontextResize w h] /\
        width (config (gs st'))
        = gl_width (snd (drv_glcontext_resize d gl w h)) /\
        height (config (gs st'))
        = gl_height (snd (drv_glcontext_resize d gl w h)) /\
        rt_id rt
        = gl_default_framebuffer (snd (drv_glcontext_resize d gl w h)) /\
        rt_id rtl
        = gl_default_framebuffer (snd (drv_glcontext_resize d gl w h)).
Proof.
  destruct st as [s w0]. cbn [gs gw].
  unfold gl_resize, gl_set_viewport, gl_set_scissor, effective_viewport.
  unfold bind, gets, the_gl, deref, on_gs, on_gw, modify, LOG, call, ret.
  cbn [gs gw].
  destruct (is_external (config s)) eqn:Eext; cbn.
  - destruct (default_rt s) as [rt0|]; [|discriminate]. cbn.
    destruct (default_rt_load s) as [rtl0|]; [|discriminate]. cbn.
    intros H Hr.
    destruct vp as [v|]; [destruct (viewport_valid v) eqn:Ev|];
      inversion H; subst r st'; cbn;
      (split; [reflexivity|]); (split; [reflexivity|]);
      (split; [reflexivity|]);
      eexists rt0, rtl0, _, _;
      (split; [reflexivity|]); (split; [reflexivity|]);
      (split; [reflexivity|]); (split; [reflexivity|]);
      repeat split; reflexivity.
  - destruct (offscreen (config s)) eqn:Eoff; cbn.
    { intros H Hr. inversion H; subst. exfalso.
      unfold NGL_ERROR_UNSUPPORTED in Hr. cbn in Hr. lia. }
    destruct (glctx s) as [gl|] eqn:Eg; [|discriminate]. cbn.
    destruct (drv_glcontext_resize d gl w h) as [rr gl2] eqn:Er. cbn.
    destruct (rr <? 0) eqn:Err; cbn.
    { rewrite Err. intros H Hr. inversion H; subst. apply Z.ltb_lt in Err. lia. }
    destruct (default_rt s) as [rt0|]; [|discriminate]. cbn.
    destruct (default_rt_load s) as [rtl0|]; [|discriminate]. cbn.
    intros H Hr. apply Z.ltb_ge in Err.
    destruct vp as [v|]; [destruct (viewport_valid v) eqn:Ev|];
      inversion H; subst r st'; cbn;
      (split; [reflexivity|]); (split; [reflexivity|]);
      (split; [reflexivity|]);
      eexists rt0, rtl0, _, _;
      (split; [reflexivity|]); (split; [reflexivity|]);
      (split; [reflexivity|]); (split; [reflexivity|]);
      exists gl; rewrite Er; cbn [fst snd]; repeat split; auto.
Qed.

Section FieldFrames.

Context {X : Type} (f : gpu_ctx_gl -> X).
Variable b : build.
Variable d : driver.

Hypothesis f_default_rt : forall r s, f (set_default_rt r s) = f s.
Hypothesis f_default_rt_load : forall r s, f (set_default_rt_load r s) = f s.
Hypothesis f_color : forall t s, f (set_color t s) = f s.
Hypothesis f_ms_color : forall t s, f (set_ms_color t s) = f s.
Hypothesis f_depth_stencil : forall t s, f (set_depth_stencil t s) = f s.
Hypothesis f_cvbuffer : forall p s, f (set_capture_cvbuffer p s) = f s.
Hypothesis f_cvtexture : forall p s, f (set_capture_cvtexture p s) = f s.
Hypothesis f_capture_func : forall c s, f (set_capture_func c s) = f s.
Hypothesis f_timer : forall t s, f (set_timer t s) = f s.
Hypothesis f_samples : forall s, f (with_config (set_samples 0) s) = f s.
Hypothesis f_framebuffer :
  forall fbo s,
    f (with_config
         (fun c => set_backend_config
                     (match backend_config c with
                      | Some g => Some {| external := external g;
                                          external_framebuffer := fbo |}
                      | None => None
                      end) c) s) = f s.

Lemma kf_create_default_rendertargets c rc ds :
  keeps_field f (create_default_rendertargets d c rc ds).
Proof. apply keeps_field_create_default_rendertargets; assumption. Qed.

Lemma kf_wrap_capture buf :
  keeps_field f (wrap_capture_cvpixelbuffer b d buf).
Proof.
  unfold wrap_capture_cvpixelbuffer. frame.
  - apply keeps_field_on_gs. intros s. apply f_color.
  - apply keeps_field_on_gs. intros s. apply f_cvtexture.
Qed.

Lemma kf_corevideo_color buffer :
  keeps_field f (corevideo_color b d buffer).
Proof.
  unfold corevideo_color. destruct buffer as [buf|].
  - apply keeps_field_bind; [|intros ?; apply kf_wrap_capture].
    apply keeps_field_on_gs. intros s. apply f_cvbuffer.
  - apply keeps_field_create_texture. exact f_color.
Qed.

Lemma kf_offscreen_init :
  keeps_field f (offscreen_rendertarget_init b d).
Proof.
  unfold offscreen_rendertarget_init, the_gl.
  apply keeps_field_bind; [frame|intros gl].
  apply keeps_field_bind; [frame|intros cfg0].
  apply keeps_field_bind.
  { destruct (_ && _); [|frame].
    apply keeps_field_bind; [frame|intros ?].
    apply keeps_field_on_gs. exact f_samples. }
  intros _. apply keeps_field_bind; [frame|intros cfg].
  apply keeps_field_bind.
  { destruct (capture_buffer_type cfg); [|destruct (target_apple b)|].
    - apply keeps_field_create_texture. exact f_color.
    - apply kf_corevideo_color.
    - frame.
    - frame. }
  intros r1. destruct (r1 <? 0); [frame|].
  apply keeps_field_bind.
  { destruct (samples cfg =? 0); [frame|].
    apply keeps_field_create_texture. exact f_ms_color. }
  intros r2. destruct (r2 <? 0); [frame|].
  apply keeps_field_bind;
    [apply keeps_field_create_texture; exact f_depth_stencil|].
  intros r3. destruct (r3 <? 0); [frame|].
  apply keeps_field_bind; [frame|intros s].
  apply keeps_field_bind; [apply kf_create_default_rendertargets|].
  intros r4. destruct (r4 <? 0); [frame|].
  apply keeps_field_bind; [|intros ?; frame].
  apply keeps_field_on_gs. intros s0. apply f_capture_func.
Qed.

Lemma kf_wrap_framebuffer fbo :
  keeps_field f (ngli_gpu_ctx_gl_wrap_framebuffer d fbo).
Proof.
  unfold ngli_gpu_ctx_gl_wrap_framebuffer, the_gl.
  apply keeps_field_bind; [frame|intros cfg].
  destruct (negb (is_external cfg)); [frame|].
  apply keeps_field_bind; [frame|intros gl].
  apply keeps_field_bind; [frame|intros r1].
  destruct (r1 <? 0); [frame|].
  apply keeps_field_bind;
    [apply keeps_field_rendertarget_freep; intros; apply f_default_rt|].
  intros _.
  apply keeps_field_bind;
    [apply keeps_field_rendertarget_freep; intros; apply f_default_rt_load|].
  intros _.
  apply keeps_field_bind; [apply kf_create_default_rendertargets|].
  intros r2. destruct (r2 <? 0); [frame|].
  apply keeps_field_bind; [|intros ?; frame].
  apply keeps_field_on_gs. intros s. apply f_framebuffer.
Qed.

Lemma kf_timer_init : keeps_field f timer_init.
Proof.
  unfold timer_init, the_gl.
  apply keeps_field_bind; [frame|intros gl].
  apply keeps_field_bind; [|intros ?; frame].
  apply keeps_field_on_gs. intros s. apply f_timer.
Qed.

End FieldFrames.

Section InitFacts.

Variable b : build.
Variable d : driver.

Lemma surface_kept_create_default_rendertargets c rc ds :
  keeps_field surface_of (create_default_rendertargets d c rc ds).
Proof. apply kf_create_default_rendertargets; intros; reflexivity. Qed.

Lemma surface_kept_offscreen_init :
  keeps_field surface_of (offscreen_rendertarget_init b d).
Proof. apply kf_offscreen_init; intros; reflexivity. Qed.

Lemma surface_kept_wrap_framebuffer fbo :
  keeps_field surface_of (ngli_gpu_ctx_gl_wrap_framebuffer d fbo).
Proof. apply kf_wrap_framebuffer; intros; reflexivity. Qed.

Lemma surface_kept_timer_init : keeps_field surface_of (timer_init).
Proof. apply kf_timer_init; intros; reflexivity. Qed.

End InitFacts.

(** The surface state a successful [gl_init] leaves. *)
Lemma gl_init_surface (b : build) (d : driver) (st st' : glst)
    (r : Z) :
  gl_init b d st = Some (r, st') -> 0 <= r ->
  exists gl,
    drv_glcontext_new d (glcontext_params_of (config (gs st))) = Some gl /\
    gl_config_invalid (config (gs st)) = false /\
    r = 0 /\
    glctx (gs st') = Some gl /\
    default_rt_desc (gs st') = default_desc_of gl /\
    gpu_scissor (gs st')
    = [0; 0; width (config (gs st')); height (config (gs st'))] /\
    gpu_viewport (gs st')
    = effective_viewport (Some (viewport (config (gs st)))) (config (gs st')) /\
    (if is_external (config (gs st)) || gl_offscreen gl
     then width (config (gs st')) = width (config (gs st)) /\
          height (config (gs st')) = height (config (gs st))
     else width (config (gs st')) = gl_width gl /\
          height (config (gs st')) = gl_height gl).
Proof.
  unfold gl_init. intros H Hr.
  apply bind_inv in H as (cfg & s1 & H1 & H). inversion H1; subst; clear H1.
  apply bind_inv in H as (r0 & s2 & Hchk & H).
  assert (Hv : (r0 <? 0) = false ->
               gl_config_invalid (config (gs s1)) = false /\ s2 = s1).
  { intros E. unfold gl_init_check in Hchk. unfold gl_config_invalid.
    destruct (is_external (config (gs s1))).
    - destruct (_ || _).
      + apply bind_inv in Hchk as (? & ? & _ & Hc). inversion Hc; subst.
        discriminate.
      + destruct (is_some _).
        * apply bind_inv in Hchk as (? & ? & _ & Hc). inversion Hc; subst.
          discriminate.
        * inversion Hchk; subst. auto.
    - destruct (offscreen (config (gs s1))).
      + destruct (_ || _).
        * apply bind_inv in Hchk as (? & ? & _ & Hc). inversion Hc; subst.
          discriminate.
        * inversion Hchk; subst. auto.
      + destruct (is_some _).
        * apply bind_inv in Hchk as (? & ? & _ & Hc). inversion Hc; subst.
          discriminate.
        * inversion Hchk; subst. auto. }
  destruct (r0 <? 0) eqn:E0.
  { inversion H; subst. apply Z.ltb_lt in E0. lia. }
  destruct (Hv eq_refl) as [Hvalid ->]. clear Hv Hchk.
  apply bind_inv in H as (? & s3 & Hc1 & H). inversion Hc1; subst; clear Hc1.
  apply bind_inv in H as (? & s4 & Hc2 & H). inversion Hc2; subst; clear Hc2.
  fold (glcontext_params_of (config (gs s1))) in H.
  destruct (drv_glcontext_new d (glcontext_params_of (config (gs s1))))
    as [gl|] eqn:Enew.
  2:{ inversion H; subst. unfold NGL_ERROR_MEMORY in Hr. cbn in Hr. lia. }
  exists gl. split; [reflexivity|]. split; [exact Hvalid|].
  apply bind_inv in H as (r1 & s5 & Hmode & H).
  destruct (r1 <? 0) eqn:E1.
  { inversion H; subst. apply Z.ltb_lt in E1. lia. }
  apply bind_inv in H as (r2 & s6 & Htimer & H).
  destruct (r2 <? 0) eqn:E2.
  { inversion H; subst. apply Z.ltb_lt in E2. lia. }
  apply surface_kept_timer_init in Htimer.
  apply bind_inv in H as (? & s7 & Hd & H). inversion Hd; subst; clear Hd.
  apply bind_inv in H as (cfg7 & s8 & Hg & H). inversion Hg; subst; clear Hg.
  cbn [gs config set_default_rt_desc] in H.
  apply bind_inv in H as (? & s9 & Hvp & H).
  apply bind_inv in H as (? & s10 & Hsc & H). inversion Hsc; subst; clear Hsc.
  inversion H; subst; clear H.
  set (s0 := {| gs := set_glctx (Some gl) (gs s1);
                gw := world_call
                        (CallGlcontextNew (glcontext_params_of (config (gs s1))))
                        (gw s1) |}) in *.
  assert (Hs5 : glctx (gs s5) = Some gl /\
                viewport (config (gs s5)) = viewport (config (gs s1)) /\
                (if is_external (config (gs s1)) || gl_offscreen gl
                 then width (config (gs s5)) = width (config (gs s1)) /\
                      height (config (gs s5)) = height (config (gs s1))
                 else width (config (gs s5)) = gl_width gl /\
                      height (config (gs s5)) = gl_height gl)).
  { destruct (is_external (config (gs s1))); cbn [orb].
    - apply surface_kept_wrap_framebuffer in Hmode.
      unfold surface_of in Hmode. inversion Hmode as [[Ha Hb Hc Hd]].
      auto.
    - destruct (gl_offscreen gl).
      + apply surface_kept_offscreen_init in Hmode.
        unfold surface_of in Hmode. inversion Hmode as [[Ha Hb Hc Hd]].
        auto.
      + apply bind_inv in Hmode as (? & sa & Hw & Hmode).
        inversion Hw; subst; clear Hw.
        apply surface_kept_create_default_rendertargets in Hmode.
        unfold surface_of in Hmode. inversion Hmode as [[Ha Hb Hc Hd]].
        auto. }
  destruct Hs5 as (Hgl5 & Hvp5 & Hdim5).
  unfold surface_of in Htimer. inversion Htimer as [[Ha Hb Hc Hd]].
  assert (Hs9 : gs s9 = set_gpu_viewport
                          (effective_viewport (Some (viewport (config (gs s1))))
                             (config (gs s6)))
                          (set_default_rt_desc (default_desc_of gl) (gs s6))).
  { unfold effective_viewport. rewrite <- Hvp5, <- Hd.
    destruct (viewport_valid (viewport (config (gs s6))));
      inversion Hvp; subst; reflexivity. }
  cbn [gs]. rewrite Hs9. cbn.
  rewrite Ha, Hb, Hc.
  repeat split; auto.
Qed.

(** X16.  After a successful [gl_init] the context holds the native context
    the platform created for the configuration, the render target
    description carries that context's sample count (resolving when it is
    above one), the scissor covers the whole surface and the viewport is
    the configured one when its width and height are positive, the whole
    surface otherwise.  On an onscreen context the configured dimensions
    are replaced by those of the native context; on an offscreen or
    external context they are kept. *)
Theorem gl_init_surface_state (b : build) (d : driver) (st st' : glst)
    (r : Z) :
  gl_init b d st = Some (r, st') -> 0 <= r ->
  exists gl,
    drv_glcontext_new d (glcontext_params_of (config (gs st))) = Some gl /\
    gl_config_invalid (config (gs st)) = false /\
    r = 0 /\
    glctx (gs st') = Some gl /\
    default_rt_desc (gs st') = default_desc_of gl /\
    gpu_scissor (gs st')
    = [0; 0; width (config (gs st')); height (config (gs st'))] /\
    gpu_viewport (gs st')
    = effective_viewport (Some (viewport (config (gs st)))) (config (gs st')) /\
    (if is_external (config (gs st)) || gl_offscreen gl
     then width (config (gs st')) = width (config (gs st)) /\
          height (config (gs st')) = height (config (gs st))
     else width (config (gs st')) = gl_width gl /\
          height (config (gs st')) = gl_height gl).
Proof. apply gl_init_surface. Qed.

(* ================================================================== *)
(** * OpenGL render targets: framebuffer creation *)
(* ================================================================== *)






Lemma wrap_framebuffer_rejected_keeps_state_witness :
  (exists msg,
     ngli_gpu_ctx_gl_wrap_framebuffer demo_driver 3 demo_onscreen_gl
     = Some (NGL_ERROR_UNSUPPORTED,
             {| gs := gs demo_onscreen_gl;
                gw := world_log (ERROR, msg) (gw demo_onscreen_gl) |})) /\
  (exists msg,
     ngli_gpu_ctx_gl_wrap_framebuffer demo_driver_fbo 9 demo_external_gl
     = Some (NGL_ERROR_GRAPHICS_UNSUPPORTED,
             {| gs := gs demo_external_gl;
                gw := world_log (ERROR, msg) (gw demo_external_gl) |})).
Proof.
  split.
  - apply (proj1 (wrap_framebuffer_rejected_keeps_state demo_driver 3
                    demo_onscreen_gl)).
    reflexivity.
  - eapply (proj2 (wrap_framebuffer_rejected_keeps_state demo_driver_fbo 9
                     demo_external_gl)); reflexivity.
Defined.

Lemma wrap_framebuffer_success_state_witness :
  exists st' rt,
    ngli_gpu_ctx_gl_wrap_framebuffer demo_driver_fbo 8 demo_external_gl
    = Some (0, st') /\
    backend_config (config (gs st'))
    = Some {| external := true; external_framebuffer := 8 |} /\
    default_rt (gs st') = Some rt /\ rt_id rt = 7.
Proof.
  assert (E : exists st',
             ngli_gpu_ctx_gl_wrap_framebuffer demo_driver_fbo 8
               demo_external_gl = Some (0, st'))
    by (eexists; vm_compute; reflexivity).
  destruct E as (st' & E).
  destruct (wrap_framebuffer_success_state demo_driver_fbo 8 demo_external_gl
              st' 0 E ltac:(lia))
    as (g & gl & rt & rtl & Hg & _ & _ & _ & Hc & _ & Hrt & _ & _ & _ & Hid & _).
  exists st', rt. split; [exact E|]. split; [exact Hc|]. split; [exact Hrt|].
  rewrite Hid. vm_compute in Hg. inversion Hg. reflexivity.
Defined.

Lemma gl_resize_surface_state_witness :
  exists st',
    gl_resize demo_driver 1024 768 None demo_onscreen_gl = Some (0, st') /\
    width (config (gs st')) = 1008 /\
    gpu_viewport (gs st') = [0; 0; 1008; 768] /\
    gpu_scissor (gs st') = [0; 0; 1008; 768].
Proof.
  assert (E : exists st',
             gl_resize demo_driver 1024 768 None demo_onscreen_gl
             = Some (0, st'))
    by (eexists; vm_compute; reflexivity).
  destruct E as (st' & E).
  destruct (gl_resize_surface_state demo_driver 1024 768 None demo_onscreen_gl
              st' 0 E ltac:(lia))
    as (_ & Hs & Hv & rt0 & rtl0 & rt & rtl & _ & _ & _ & _ & Hm).
  change (is_external (config (gs demo_onscreen_gl))) with false in Hm.
  destruct Hm as (gl & Hgl & _ & _ & _ & _ & Hw & Hh & _).
  vm_compute in Hgl. inversion Hgl; subst gl. clear Hgl.
  assert (Hw' : width (config (gs st')) = 1008) by (rewrite Hw; reflexivity).
  assert (Hh' : height (config (gs st')) = 768) by (rewrite Hh; reflexivity).
  exists st'. split; [exact E|]. split; [exact Hw'|].
  rewrite Hv, Hs. unfold effective_viewport. rewrite Hw', Hh'. auto.
Defined.

Lemma gl_init_surface_state_witness :
  exists st',
    gl_init demo_build demo_driver
      {| gs := gpu_ctx_gl_zero (demo_config false 0 NGL_BACKEND_OPENGL);
         gw := demo_world |} = Some (0, st') /\
    gpu_scissor (gs st') = [0; 0; 640; 480] /\
    gpu_viewport (gs st') = [0; 0; 640; 480].
Proof.
  assert (E : exists st',
             gl_init demo_build demo_driver
               {| gs := gpu_ctx_gl_zero (demo_config false 0 NGL_BACKEND_OPENGL);
                  gw := demo_world |} = Some (0, st'))
    by (eexists; vm_compute; reflexivity).
  destruct E as (st' & E).
  destruct (gl_init_surface_state demo_build demo_driver _ st' 0 E ltac:(lia))
    as (gl & Hgl & _ & _ & _ & _ & Hs & Hv & Hd).
  vm_compute in Hgl. inversion Hgl; subst gl. clear Hgl.
  change (width (config (gs st')) = 640 /\ height (config (gs st')) = 480)
    in Hd.
  destruct Hd as [Hw Hh].
  exists st'. split; [exact E|].
  rewrite Hv, Hs. unfold effective_viewport. rewrite Hw, Hh. cbn. auto.
Defined.


(** X17.  On an offscreen context of the OpenGL backend that captures to
    CPU memory, [ngli_ctx_set_capture_buffer] always succeeds: the buffer
    is recorded in the configuration of the context and in that of the GPU
    context, and nothing else changes: no render target is rebuilt, no
    native call is made and nothing is logged. *)
Theorem set_capture_buffer_cpu_records_buffer (b : build) (d : driver)
    (mat4_mul : mat4 -> mat4 -> mat4) (buffer : option ptr)
    (st : apist gpu_ctx_gl) (g : gpu_ctx_gl) :
  gpu_ctx (ctx st) = Some g ->
  is_external (config g) = false ->
  offscreen (config g) = true ->
  capture_buffer_type (config g) <> NGL_CAPTURE_BUFFER_TYPE_COREVIDEO ->
  ngli_ctx_set_capture_buffer (gl_ops b d mat4_mul) buffer st
  = Some (0, {| ctx := set_ctx_config
                         (set_capture_buffer buffer (ctx_config (ctx st)))
                         (set_gpu_ctx
                            (Some (with_config (set_capture_buffer buffer) g))
                            (ctx st));
                aw := aw st; nodes := nodes st |}).
Proof.
  intros Hg He Ho Ht.
  unfold ngli_ctx_set_capture_buffer, with_gpu, gl_ops, run_gl,
    gl_set_capture_buffer.
  cbn [ngli_gpu_ctx_set_capture_buffer].
  unfold bind, gets, on_gs, on_ctx, modify, ret. cbn. rewrite Hg. cbn.
  rewrite He, Ho. cbn.
  destruct (capture_buffer_type (config g)); [|congruence|]; cbn;
    destruct (aw st); reflexivity.
Qed.

Lemma set_capture_buffer_cpu_records_buffer_witness :
  exists st' g',
    ngli_ctx_set_capture_buffer demo_ops (Some 5) demo_offscreen
    = Some (0, st') /\
    capture_buffer (ctx_config (ctx st')) = Some 5 /\
    gpu_ctx (ctx st') = Some g' /\ capture_buffer (config g') = Some 5.
Proof.
  assert (G : exists g, gpu_ctx (ctx demo_offscreen) = Some g /\
                        is_external (config g) = false /\
                        offscreen (config g) = true /\
                        capture_buffer_type (config g)
                        = NGL_CAPTURE_BUFFER_TYPE_CPU)
    by (eexists; vm_compute; repeat split).
  destruct G as (g & Hg & He & Ho & Ht).
  eexists _, _. split.
  - apply (set_capture_buffer_cpu_records_buffer demo_build demo_driver
             mat4_product (Some 5) demo_offscreen g Hg He Ho).
    rewrite Ht. discriminate.
  - cbn. auto.
Defined.

(* ================================================================== *)
(** * OpenGL backend: tear-down *)
(* ================================================================== *)

Lemma world_calls_nil w : world_calls [] w = w.
Proof. destruct w. unfold world_calls. cbn. rewrite app_nil_r. reflexivity. Qed.

Lemma world_calls_app cs1 cs2 w :
  world_calls cs2 (world_calls cs1 w) = world_calls (cs1 ++ cs2) w.
Proof. unfold world_calls. cbn. rewrite app_assoc. reflexivity. Qed.

Ltac eta_field := intros [] E; cbn in *; rewrite E; reflexivity.

Lemma rendertarget_freep_run field setter s w :
  (forall s, field s = None -> setter None s = s) ->
  rendertarget_freep field setter {| gs := s; gw := w |}
  = Some (tt, {| gs := setter None s;
                 gw := world_calls (rt_free_calls (field s)) w |}).
Proof.
  intros Heta. unfold rendertarget_freep, rendertarget_gl_free, rt_free_calls.
  unfold bind, gets, call, on_gs, on_gw, modify, ret. cbn.
  destruct (field s) as [r|] eqn:E.
  - destruct (rt_wrapped r); cbn.
    + rewrite world_calls_nil. reflexivity.
    + unfold world_calls, world_call. cbn. rewrite <- app_assoc. reflexivity.
  - rewrite world_calls_nil, (Heta _ E). reflexivity.
Qed.

Lemma texture_freep_run field setter s w :
  (forall s, field s = None -> setter None s = s) ->
  texture_freep field setter {| gs := s; gw := w |}
  = Some (tt, {| gs := setter None s;
                 gw := world_calls (texture_free_calls (field s)) w |}).
Proof.
  intros Heta. unfold texture_freep, texture_free_calls.
  unfold bind, gets, call, on_gs, on_gw, modify, ret. cbn.
  destruct (field s) as [r|] eqn:E.
  - reflexivity.
  - rewrite world_calls_nil, (Heta _ E). reflexivity.
Qed.

Lemma cf_release_run field setter s w :
  (forall s, field s = None -> setter None s = s) ->
  cf_release field setter {| gs := s; gw := w |}
  = Some (tt, {| gs := setter None s;
                 gw := world_calls (cf_release_calls (field s)) w |}).
Proof.
  intros Heta. unfold cf_release, cf_release_calls.
  unfold bind, gets, call, on_gs, on_gw, modify, ret. cbn.
  destruct (field s) as [r|] eqn:E.
  - reflexivity.
  - rewrite world_calls_nil, (Heta _ E). reflexivity.
Qed.


Lemma reset_capture_cvpixelbuffer_run s w :
  reset_capture_cvpixelbuffer {| gs := s; gw := w |}
  = Some (tt, {| gs := set_capture_cvtexture None (set_capture_cvbuffer None s);
                 gw := world_calls
                         (cf_release_calls (capture_cvbuffer s)
                          ++ cf_release_calls (capture_cvtexture s)) w |}).
Proof.
  unfold reset_capture_cvpixelbuffer.
  rewrite (bind_eq _ _ _ _ _
             (cf_release_run capture_cvbuffer set_capture_cvbuffer s w
                ltac:(eta_field))).
  rewrite (cf_release_run capture_cvtexture set_capture_cvtexture _ _
             ltac:(eta_field)).
  rewrite world_calls_app. reflexivity.
Qed.

(** [rendertarget_reset] always returns: it frees what the context holds
    and clears every field, in this order. *)
Lemma rendertarget_reset_run b s w :
  rendertarget_reset b {| gs := s; gw := w |}
  = Some (tt, {| gs := rendertargets_released b s;
                 gw := world_calls (rendertarget_reset_calls b s) w |}).
Proof.
  unfold rendertarget_reset, rendertargets_released, rendertarget_reset_calls,
    reset_capture_cvpixelbuffer.
  rewrite (bind_eq _ _ _ _ _ (rendertarget_freep_run default_rt set_default_rt
                                s w ltac:(eta_field))).
  rewrite (bind_eq _ _ _ _ _ (rendertarget_freep_run default_rt_load
                                set_default_rt_load _ _ ltac:(eta_field))).
  rewrite (bind_eq _ _ _ _ _ (texture_freep_run color set_color _ _
                                ltac:(eta_field))).
  rewrite (bind_eq _ _ _ _ _ (texture_freep_run ms_color set_ms_color _ _
                                ltac:(eta_field))).
  rewrite (bind_eq _ _ _ _ _ (texture_freep_run depth_stencil set_depth_stencil
                                _ _ ltac:(eta_field))).
  rewrite !world_calls_app. cbn [default_rt_load set_default_rt color
    set_default_rt_load ms_color set_color depth_stencil set_ms_color].
  destruct (target_apple b).
  - rewrite (bind_eq _ _ _ _ _ (reset_capture_cvpixelbuffer_run _ _)).
    rewrite !world_calls_app. cbn. rewrite <- !app_assoc. reflexivity.
  - cbn. rewrite app_nil_r. reflexivity.
Qed.

Lemma in_texture_free_calls c o :
  In c (texture_free_calls o) <->
  exists t, o = Some t /\ c = CallTextureFree (tex_id t).
Proof.
  destruct o as [t|]; cbn; split.
  - intros [<-|[]]. eauto.
  - intros (t' & E & ->). inversion E; auto.
  - intros [].
  - intros (t' & E & _). discriminate.
Qed.

Lemma in_rt_free_calls c o :
  In c (rt_free_calls o) <->
  exists rt, o = Some rt /\ rt_wrapped rt = false /\
             (c = CallDeleteFramebuffer (rt_id rt) \/
              c = CallDeleteFramebuffer (rt_resolve_id rt)).
Proof.
  destruct o as [rt|]; cbn; [destruct (rt_wrapped rt) eqn:E|]; cbn; split.
  - intros [].
  - intros (rt' & E' & Hw & _). inversion E'; subst. congruence.
  - intros [<-|[<-|[]]]; exists rt; auto.
  - intros (rt' & E' & _ & [->| ->]); inversion E'; auto.
  - intros [].
  - intros (rt' & E' & _). discriminate.
Qed.

Lemma in_cf_release_calls c o :
  In c (cf_release_calls o) <-> exists p, o = Some p /\ c = CallCvRelease p.
Proof.
  destruct o as [p|]; cbn; split.
  - intros [<-|[]]. eauto.
  - intros (p' & E & ->). inversion E; auto.
  - intros [].
  - intros (p' & E & _). discriminate.
Qed.

(** What [rendertarget_reset] calls: the deletion of the framebuffers of
    the render targets that own theirs, the release of the textures, and,
    on Apple targets, of the CoreVideo objects. *)
Lemma in_rendertarget_reset_calls b s c :
  In c (rendertarget_reset_calls b s) <->
  (exists rt, In (Some rt) (held_rendertargets s) /\ rt_wrapped rt = false /\
              (c = CallDeleteFramebuffer (rt_id rt) \/
               c = CallDeleteFramebuffer (rt_resolve_id rt))) \/
  (exists t, In (Some t) (held_textures s) /\ c = CallTextureFree (tex_id t)) \/
  (target_apple b = true /\
   exists p, (capture_cvbuffer s = Some p \/ capture_cvtexture s = Some p) /\
             c = CallCvRelease p).
Proof.
  unfold rendertarget_reset_calls, held_rendertargets, held_textures.
  rewrite !in_app_iff, !in_rt_free_calls, !in_texture_free_calls.
  cbn [In]. split.
  - intros [(rt & E & H)|[(rt & E & H)|[(t & E & H)|[(t & E & H)|[(t & E & H)|H]]]]].
    + left. exists rt. rewrite E. auto.
    + left. exists rt. rewrite E. auto.
    + right. left. exists t. rewrite E. auto.
    + right. left. exists t. rewrite E. auto.
    + right. left. exists t. rewrite E. auto.
    + right. right. destruct (target_apple b); [|destruct H].
      split; [reflexivity|].
      rewrite in_app_iff, !in_cf_release_calls in H.
      destruct H as [(p & E & ->)|(p & E & ->)]; exists p; auto.
  - intros [(rt & [E|[E|[]]] & H)|[(t & [E|[E|[E|[]]]] & H)|(Ha & p & E & ->)]].
    + left. exists rt. auto.
    + right. left. exists rt. auto.
    + right. right. left. exists t. auto.
    + right. right. right. left. exists t. auto.
    + right. right. right. right. left. exists t. auto.
    + right. right. right. right. right. rewrite Ha.
      rewrite in_app_iff, !in_cf_release_calls.
      destruct E as [E|E]; [left|right]; exists p; auto.
Qed.

Lemma timer_reset_run s w :
  timer_reset {| gs := s; gw := w |}
  = Some (tt, {| gs := s; gw := world_calls (timer_reset_calls (timer s)) w |}).
Proof.
  unfold timer_reset, timer_reset_calls, bind, gets, call, on_gw, modify, ret.
  cbn. destruct (timer s); [reflexivity|].
  rewrite world_calls_nil. reflexivity.
Qed.

Lemma glctx_rendertargets_released b s :
  glctx (rendertargets_released b s) = glctx s.
Proof. unfold rendertargets_released. destruct (target_apple b); reflexivity. Qed.

(** [gl_destroy] in closed form: it always returns, having made the calls
    of [timer_reset], [rendertarget_reset] and the release of the native
    context, in this order. *)
Lemma gl_destroy_run b s w :
  gl_destroy b {| gs := s; gw := w |}
  = Some (tt, {| gs := set_glctx None (rendertargets_released b s);
                 gw := world_calls
                         ((timer_reset_calls (timer s)
                           ++ rendertarget_reset_calls b s)
                          ++ glcontext_free_calls (glctx s)) w |}).
Proof.
  unfold gl_destroy.
  rewrite (bind_eq _ _ _ _ _ (timer_reset_run s w)).
  rewrite (bind_eq _ _ _ _ _ (rendertarget_reset_run b _ _)).
  rewrite world_calls_app.
  erewrite bind_eq by reflexivity. cbn [gs].
  pose proof (glctx_rendertargets_released b s) as Eg. rewrite Eg.
  destruct (glctx s) as [gl|] eqn:Egl.
  - unfold bind, call, on_gw, on_gs, modify, ret. cbn.
    unfold world_calls, world_call. cbn. rewrite <- app_assoc. reflexivity.
  - unfold ret. cbn. rewrite app_nil_r.
    assert (Eta : set_glctx None (rendertargets_released b s)
                  = rendertargets_released b s).
    { revert Eg. generalize (rendertargets_released b s).
      intros [] E; cbn in *. rewrite E. reflexivity. }
    rewrite Eta. reflexivity.
Qed.

(** X18.  [gl_destroy] always returns, whatever the context holds (it is
    also the clean-up of a context whose initialisation failed).
    Afterwards the context holds no native context, render target or
    texture; every texture it held has been freed; a framebuffer is deleted
    only for a render target that owns it, so a wrapped (external or
    default) framebuffer is never deleted; the native context is freed
    last, once, and only if there was one; nothing is logged. *)
Theorem gl_destroy_releases_everything (b : build) (st : glst) :
  exists st' cs,
    gl_destroy b st = Some (tt, st') /\
    w_calls (gw st') = w_calls (gw st) ++ cs /\
    w_log (gw st') = w_log (gw st) /\
    config (gs st') = config (gs st) /\
    glctx (gs st') = None /\
    held_rendertargets (gs st') = [None; None] /\
    held_textures (gs st') = [None; None; None] /\
    capture_func (gs st') = None /\
    (forall t, In (Some t) (held_textures (gs st)) ->
               In (CallTextureFree (tex_id t)) cs) /\
    (forall rt, In (Some rt) (held_rendertargets (gs st)) ->
                rt_wrapped rt = false ->
                In (CallDeleteFramebuffer (rt_id rt)) cs /\
                In (CallDeleteFramebuffer (rt_resolve_id rt)) cs) /\
    (forall id, In (CallDeleteFramebuffer id) cs ->
                exists rt, In (Some rt) (held_rendertargets (gs st)) /\
                           rt_wrapped rt = false /\
                           (id = rt_id rt \/ id = rt_resolve_id rt)) /\
    (match glctx (gs st) with
     | Some _ => exists cs0, cs = cs0 ++ [CallGlcontextFree] /\
                             ~ In CallGlcontextFree cs0
     | None => ~ In CallGlcontextFree cs
     end).
Proof.
  destruct st as [s w]. cbn [gs gw].
  set (cs1 := timer_reset_calls (timer s) ++ rendertarget_reset_calls b s).
  assert (Hcs1 : ~ In CallGlcontextFree cs1).
  { unfold cs1. rewrite in_app_iff, in_rendertarget_reset_calls.
    intros [H|[(rt & _ & _ & [H|H])|[(t & _ & H)|(_ & p & _ & H)]]];
      try discriminate.
    unfold timer_reset_calls in H. destruct (timer s); [|destruct H].
    destruct H as [H|[]]. discriminate. }
  assert (Hdel : forall id, In (CallDeleteFramebuffer id) cs1 ->
            exists rt, In (Some rt) (held_rendertargets s) /\
                       rt_wrapped rt = false /\
                       (id = rt_id rt \/ id = rt_resolve_id rt)).
  { intros id. unfold cs1. rewrite in_app_iff, in_rendertarget_reset_calls.
    intros [H|[(rt & Hin & Hw & H)|[(t & _ & H)|(_ & p & _ & H)]]];
      try discriminate.
    - unfold timer_reset_calls in H. destruct (timer s); [|destruct H].
      destruct H as [H|[]]. discriminate.
    - exists rt. split; [exact Hin|]. split; [exact Hw|].
      destruct H as [H|H]; inversion H; auto. }
  assert (Htex : forall t, In (Some t) (held_textures s) ->
                           In (CallTextureFree (tex_id t)) cs1).
  { intros t Hin. unfold cs1. rewrite in_app_iff, in_rendertarget_reset_calls.
    right. right. left. exists t. auto. }
  assert (Hrt : forall rt, In (Some rt) (held_rendertargets s) ->
                  rt_wrapped rt = false ->
                  In (CallDeleteFramebuffer (rt_id rt)) cs1 /\
                  In (CallDeleteFramebuffer (rt_resolve_id rt)) cs1).
  { intros rt Hin Hw. unfold cs1.
    rewrite !in_app_iff, !in_rendertarget_reset_calls.
    split; right; left; exists rt; auto. }
  pose proof (gl_destroy_run b s w) as Hrun. fold cs1 in Hrun.
  eexists _, (cs1 ++ glcontext_free_calls (glctx s)).
  split; [exact Hrun|]. cbn [gs gw world_calls w_calls w_log].
  split; [reflexivity|]. split; [reflexivity|].
  split; [unfold rendertargets_released; destruct (target_apple b); reflexivity|].
  split; [reflexivity|].
  split; [unfold rendertargets_released; destruct (target_apple b); reflexivity|].
  split; [unfold rendertargets_released; destruct (target_apple b); reflexivity|].
  split; [reflexivity|].
  split; [intros t Hin; apply in_app_iff; left; auto|].
  split; [intros rt Hin Hw; rewrite !in_app_iff;
          destruct (Hrt rt Hin Hw); auto|].
  split.
  - intros id Hin. apply in_app_iff in Hin as [Hin|Hin]; [auto|].
    destruct (glctx s); cbn in Hin; [destruct Hin as [Hin|[]]; discriminate|].
    destruct Hin.
  - destruct (glctx s); cbn.
    + exists cs1. auto.
    + rewrite app_nil_r. exact Hcs1.
Qed.

(* ================================================================== *)
(** * OpenGL backend: texture accounting *)
(* ================================================================== *)

Lemma textures_outstanding_app id cs1 cs2 :
  textures_outstanding id (cs1 ++ cs2)
  = textures_outstanding id cs1 + textures_outstanding id cs2.
Proof.
  unfold textures_outstanding. rewrite !filter_app, !length_app. lia.
Qed.

Lemma kt_ret {A} (a : A) : keeps_textures (ret a).
Proof. intros st a' st' H. inversion H. auto. Qed.

Lemma kt_bind {A B} (m : M glst A) (k : A -> M glst B) :
  keeps_textures m -> (forall a, keeps_textures (k a)) ->
  keeps_textures (bind m k).
Proof.
  intros Hm Hk st b0 st' H. apply bind_inv in H as (a & s1 & H1 & H2).
  destruct (Hm _ _ _ H1) as [E1 F1]. destruct (Hk _ _ _ _ H2) as [E2 F2].
  split; [congruence|]. intros id. rewrite F2. apply F1.
Qed.

Lemma kt_gets {A} (f : glst -> A) : keeps_textures (gets f).
Proof. intros st a st' H. inversion H. auto. Qed.

Lemma kt_deref {A} (f : glst -> option A) : keeps_textures (deref f).
Proof.
  intros st a st' H. unfold deref in H. destruct (f st); inversion H. auto.
Qed.

Lemma kt_crash {A} : keeps_textures (@crash glst A).
Proof. intros st a st' H. discriminate. Qed.

Lemma kt_LOG l m : keeps_textures (LOG l m).
Proof. intros st a st' H. inversion H. auto. Qed.

Lemma kt_bump : keeps_textures (on_gw world_bump).
Proof. intros st a st' H. inversion H. auto. Qed.

Lemma kt_call c :
  (forall id, texture_created id c = false) /\
  (forall id, texture_freed id c = false) ->
  keeps_textures (call c).
Proof.
  intros [Hc Hf] st a st' H. inversion H; subst. cbn.
  split; [reflexivity|]. intros id.
  rewrite textures_outstanding_app. unfold textures_outstanding at 2.
  cbn. rewrite Hc, Hf. cbn. lia.
Qed.

Lemma kt_on_gs f :
  (forall s, held_textures (f s) = held_textures s) ->
  keeps_textures (on_gs f).
Proof. intros Hf st a st' H. inversion H; subst. cbn. auto. Qed.

Create HintDb textures.

#[export] Hint Resolve kt_ret kt_LOG kt_gets kt_deref kt_crash kt_bump : textures.
#[export] Hint Extern 1 (keeps_textures (call _)) =>
  apply kt_call; split; intros ?; reflexivity : textures.
#[export] Hint Extern 1 (keeps_textures (on_gs _)) =>
  apply kt_on_gs; intros ?; reflexivity : textures.

Ltac ktex :=
  repeat first
    [ solve [auto 2 with textures nocore]
    | match goal with
      | |- keeps_textures (bind _ _) => apply kt_bind; [|intros ?]
      | |- keeps_textures (if ?c then _ else _) => destruct c
      | |- keeps_textures (match ?x with _ => _ end) => destruct x
      end ].

Lemma kt_alloc d : keeps_textures (alloc d).
Proof. unfold alloc. ktex. Qed.

Lemma kt_create_fbo d p r o : keeps_textures (create_fbo d p r o).
Proof. unfold create_fbo, gen_framebuffer, the_gl. ktex. Qed.

#[export] Hint Resolve kt_alloc kt_create_fbo : textures.

Lemma kt_rt_init d s p : keeps_textures (ngli_rendertarget_gl_init d s p).
Proof.
  unfold ngli_rendertarget_gl_init, rendertarget_gl_init_strategies, the_gl.
  ktex.
Qed.

Lemma kt_rt_wrap s p id : keeps_textures (ngli_rendertarget_gl_wrap s p id).
Proof. unfold ngli_rendertarget_gl_wrap, the_gl. ktex. Qed.

Lemma kt_rt_free r : keeps_textures (rendertarget_gl_free r).
Proof. unfold rendertarget_gl_free. ktex. Qed.

#[export] Hint Resolve kt_rt_init kt_rt_wrap kt_rt_free : textures.

Lemma kt_rendertarget_freep field setter :
  (forall s, held_textures (setter None s) = held_textures s) ->
  keeps_textures (rendertarget_freep field setter).
Proof.
  intros Hs. unfold rendertarget_freep.
  ktex. apply kt_on_gs. exact Hs.
Qed.

Lemma kt_create_rendertarget d c rc ds lop setter :
  (forall r s, held_textures (setter r s) = held_textures s) ->
  keeps_textures (create_rendertarget d c rc ds lop setter).
Proof.
  intros Hs. unfold create_rendertarget, ngli_rendertarget_gl_create, the_gl.
  ktex. all: apply kt_on_gs; intros s; apply Hs.
Qed.

#[export] Hint Extern 1 (keeps_textures (rendertarget_freep _ _)) =>
  apply kt_rendertarget_freep; intros; reflexivity : textures.
#[export] Hint Extern 1 (keeps_textures (create_rendertarget _ _ _ _ _ _)) =>
  apply kt_create_rendertarget; intros; reflexivity : textures.

Lemma kt_create_default_rendertargets d c rc ds :
  keeps_textures (create_default_rendertargets d c rc ds).
Proof. unfold create_default_rendertargets. ktex. Qed.

Lemma kt_check_components d fbo cs : keeps_textures (check_components d fbo cs).
Proof.
  induction cs as [|[[[bn cn] att] prop] cs IH]; cbn [check_components].
  - apply kt_ret.
  - destruct (_ =? 0); [ktex|]. destruct (_ =? 0); [ktex|]. exact IH.
Qed.

#[export] Hint Resolve kt_create_default_rendertargets kt_check_components
  : textures.

Lemma kt_wrap_framebuffer d fbo :
  keeps_textures (ngli_gpu_ctx_gl_wrap_framebuffer d fbo).
Proof. unfold ngli_gpu_ctx_gl_wrap_framebuffer, the_gl. ktex. Qed.

Lemma kt_timer_init : keeps_textures timer_init.
Proof. unfold timer_init, the_gl. ktex. Qed.

Lemma kt_cf_release field setter :
  (forall s, held_textures (setter None s) = held_textures s) ->
  keeps_textures (cf_release field setter).
Proof.
  intros Hs. unfold cf_release. ktex. apply kt_on_gs. exact Hs.
Qed.

#[export] Hint Extern 1 (keeps_textures (cf_release _ _)) =>
  apply kt_cf_release; intros; reflexivity : textures.

Lemma kt_reset_capture_cvpixelbuffer :
  keeps_textures reset_capture_cvpixelbuffer.
Proof. unfold reset_capture_cvpixelbuffer. ktex. Qed.

Lemma kt_gl_resize d w h vp : keeps_textures (gl_resize d w h vp).
Proof.
  unfold gl_resize, the_gl, gl_set_viewport, gl_set_scissor. ktex.
Qed.

#[export] Hint Resolve kt_wrap_framebuffer kt_timer_init
  kt_reset_capture_cvpixelbuffer : textures.

(** A step that keeps the textures keeps the balance. *)
Lemma balanced_kept {A} (m : M glst A) st a st' :
  keeps_textures m -> m st = Some (a, st') ->
  textures_balanced st -> textures_balanced st'.
Proof.
  intros K H B id. destruct (K _ _ _ H) as [E F]. rewrite E, F. apply B.
Qed.

Lemma outstanding_created_freed id i p cs :
  textures_outstanding id ((cs ++ [CallTextureInit i p]) ++ [CallTextureFree i])
  = textures_outstanding id cs.
Proof.
  rewrite !textures_outstanding_app. unfold textures_outstanding at 2 3.
  cbn. destruct (Nat.eqb i id); cbn; lia.
Qed.

Lemma texture_step_create_texture d fm n setter :
  texture_step setter (create_texture d fm n setter).
Proof.
  intros [s w] r st' H. unfold create_texture, alloc in H.
  unfold bind, gets, call, on_gw, on_gs, modify, ret in H. cbn in H.
  destruct (drv_alloc d (w_next w)).
  - destruct (drv_texture_init d _ <? 0) eqn:E; cbn in H;
      inversion H; subst; clear H; cbn.
    + left. apply Z.ltb_lt in E. split; [exact E|]. split; [reflexivity|].
      intros id. apply outstanding_created_freed.
    + right. split; [reflexivity|]. eexists. split; [reflexivity|].
      intros id. rewrite textures_outstanding_app.
      unfold textures_outstanding at 2. cbn.
      destruct (Nat.eqb (w_next w) id); cbn; lia.
  - inversion H; subst. left. cbn. repeat split.
Qed.

Lemma texture_step_wrap_capture b d buf :
  texture_step set_color (wrap_capture_cvpixelbuffer b d buf).
Proof.
  intros [s w] r st' H. unfold wrap_capture_cvpixelbuffer, alloc in H.
  unfold bind, gets, call, LOG, on_gw, on_gs, modify, ret in H. cbn in H.
  destruct (drv_cv_create_texture d buf) as [cv|]; cbn in H.
  - destruct (drv_alloc d (w_next w)); cbn in H.
    + destruct (drv_texture_wrap d _ <? 0) eqn:E; cbn in H;
        inversion H; subst; clear H; cbn.
      * left. apply Z.ltb_lt in E. split; [exact E|]. split; [reflexivity|].
        intros id. rewrite !textures_outstanding_app.
        unfold textures_outstanding at 2 3 4 5. cbn.
        destruct (Nat.eqb (w_next w) id); cbn; lia.
      * right. split; [reflexivity|]. eexists. split; [reflexivity|].
        intros id. rewrite !textures_outstanding_app.
        unfold textures_outstanding at 2 3. cbn.
        destruct (Nat.eqb (w_next w) id); cbn; lia.
    + inversion H; subst. left. cbn. split; [reflexivity|].
      split; [reflexivity|]. intros id. rewrite !textures_outstanding_app.
      unfold textures_outstanding at 2 3. cbn. lia.
  - inversion H; subst. left. cbn. split; [reflexivity|].
    split; [reflexivity|]. intros id. rewrite !textures_outstanding_app.
    unfold textures_outstanding at 2. cbn. lia.
Qed.

Lemma texture_step_corevideo_color b d buffer :
  texture_step set_color (corevideo_color b d buffer).
Proof.
  unfold corevideo_color. destruct buffer as [buf|].
  - intros st r st' H. apply bind_inv in H as (? & s1 & H1 & H).
    inversion H1; subst; clear H1.
    apply texture_step_wrap_capture in H. exact H.
  - apply texture_step_create_texture.
Qed.

(** The balance after a texture step into an empty field. *)
Lemma balanced_after_step setter m st r st' ts ts' :
  texture_step setter m -> m st = Some (r, st') ->
  textures_balanced st ->
  held_textures (gs st) = ts ->
  (forall t, held_textures (setter (Some t) (gs st)) = ts' t) ->
  (forall t id, textures_held id (ts' t)
                = textures_held id ts + (if Nat.eqb (tex_id t) id then 1 else 0)) ->
  textures_balanced st' /\
  ((r < 0 /\ held_textures (gs st') = ts) \/
   (r = 0 /\ exists t, held_textures (gs st') = ts' t)).
Proof.
  intros Hs H B Hts Hts' Hcount.
  destruct (Hs _ _ _ H) as [(Hr & E & F)|(Hr & t & E & F)].
  - split; [|left; split; congruence].
    intros id. rewrite E, F. apply B.
  - split; [|right; split; [exact Hr|exists t; rewrite E; apply Hts']].
    intros id. rewrite E, F, Hts', Hcount, <- Hts. rewrite B. reflexivity.
Qed.

Lemma held_count_slot id (a b c : option texture) (t : texture) :
  (textures_held id [Some t; b; c]
   = textures_held id [None; b; c] + (if Nat.eqb (tex_id t) id then 1 else 0)) /\
  (textures_held id [a; Some t; c]
   = textures_held id [a; None; c] + (if Nat.eqb (tex_id t) id then 1 else 0)) /\
  (textures_held id [a; b; Some t]
   = textures_held id [a; b; None] + (if Nat.eqb (tex_id t) id then 1 else 0)).
Proof.
  unfold textures_held. cbn.
  destruct (Nat.eqb (tex_id t) id), (holds_texture id a),
    (holds_texture id b), (holds_texture id c); cbn; repeat split; lia.
Qed.

Lemma held_fields s a b c :
  held_textures s = [a; b; c] ->
  color s = a /\ ms_color s = b /\ depth_stencil s = c.
Proof. unfold held_textures. intros H. inversion H. auto. Qed.

(** A step that returns early on a negative result, with the balance kept
    either way. *)
Ltac early_return H E :=
  match type of H with
  | (if ?r <? 0 then _ else _) _ = _ =>
      destruct (r <? 0) eqn:E;
      [inversion H; subst; clear H; assumption|]
  end.

Section TextureBalance.

Variable b : build.
Variable d : driver.

(** [offscreen_rendertarget_init] on a context that holds no texture keeps
    the balance, whether it succeeds or fails on the way. *)
Lemma offscreen_init_balanced st r st' :
  held_textures (gs st) = [None; None; None] ->
  textures_balanced st ->
  offscreen_rendertarget_init b d st = Some (r, st') ->
  textures_balanced st'.
Proof.
  intros Hh B H. unfold offscreen_rendertarget_init in H.
  apply bind_inv in H as (gl & s1 & H1 & H).
  assert (s1 = st) as ->.
  { unfold the_gl, deref in H1. destruct (glctx (gs st)); inversion H1; auto. }
  clear H1.
  apply bind_inv in H as (cfg0 & s1 & H1 & H). inversion H1; subst; clear H1.
  apply bind_inv in H as (? & s2 & H1 & H).
  assert (K2 : keeps_textures
                 (if negb (has_feature gl NGLI_FEATURE_GL_FRAMEBUFFER_OBJECT)
                     && (samples (config (gs s1)) >? 0)
                  then LOG WARNING "context does not support the framebuffer object feature, multisample anti-aliasing will be disabled" ;;
                       on_gs (with_config (set_samples 0))
                  else ret tt)) by ktex.
  pose proof (balanced_kept _ _ _ _ K2 H1 B) as B2.
  destruct (K2 _ _ _ H1) as [Hh2 _]. rewrite Hh in Hh2. clear K2 H1 B.
  apply bind_inv in H as (cfg & s3 & H1 & H). inversion H1; subst; clear H1.
  (* the color texture *)
  apply bind_inv in H as (r1 & s4 & Hc & H).
  assert (C : textures_balanced s4 /\
              (r1 < 0 \/ exists t, held_textures (gs s4) = [Some t; None; None])).
  { assert (Hstep : forall m, texture_step set_color m ->
                      m s3 = Some (r1, s4) ->
                      textures_balanced s4 /\
                      (r1 < 0 \/
                       exists t, held_textures (gs s4) = [Some t; None; None])).
    { intros m Hm Hrun.
      destruct (balanced_after_step set_color m s3 r1 s4 [None; None; None]
                  (fun t => [Some t; None; None]) Hm Hrun B2 Hh2) as [B4 O].
      - intros t. apply held_fields in Hh2 as (_ & Em & Ed).
        unfold held_textures. cbn. rewrite Em, Ed. reflexivity.
      - intros t id. apply (held_count_slot id None None None t).
      - split; [exact B4|]. destruct O as [[O _]|[_ O]]; auto. }
    assert (Hfail : forall msg,
               (LOG ERROR msg ;; ret NGL_ERROR_UNSUPPORTED) s3 = Some (r1, s4) ->
               textures_balanced s4 /\
               (r1 < 0 \/
                exists t, held_textures (gs s4) = [Some t; None; None])).
    { intros msg Hrun. split.
      - eapply balanced_kept; [|exact Hrun|exact B2]. ktex.
      - apply bind_inv in Hrun as (? & ? & _ & Hrun). inversion Hrun; subst.
        left. reflexivity. }
    destruct (capture_buffer_type (config (gs s3))).
    - eapply Hstep; [apply texture_step_create_texture|exact Hc].
    - destruct (target_apple b).
      + eapply Hstep; [apply texture_step_corevideo_color|exact Hc].
      + eapply Hfail; exact Hc.
    - eapply Hfail; exact Hc. }
  destruct C as [B4 O4].
  destruct (r1 <? 0) eqn:E1; [inversion H; subst; assumption|].
  destruct O4 as [O4|(t1 & Hh4)]; [apply Z.ltb_ge in E1; lia|].
  (* the multisample texture *)
  apply bind_inv in H as (r2 & s5 & Hm & H).
  assert (M5 : textures_balanced s5 /\
               (r2 < 0 \/ exists ms, held_textures (gs s5) = [Some t1; ms; None])).
  { destruct (samples (config (gs s3)) =? 0).
    - inversion Hm; subst. split; [exact B4|]. right. eauto.
    - destruct (balanced_after_step set_ms_color _ s4 r2 s5
                  [Some t1; None; None] (fun t => [Some t1; Some t; None])
                  (texture_step_create_texture _ _ _ _) Hm B4 Hh4) as [B5 O].
      + intros t. apply held_fields in Hh4 as (Ec & _ & Ed).
        unfold held_textures. cbn. rewrite Ec, Ed. reflexivity.
      + intros t id. apply (held_count_slot id (Some t1) None None t).
      + split; [exact B5|]. destruct O as [[O _]|[_ (t & O)]]; eauto. }
  destruct M5 as [B5 O5].
  destruct (r2 <? 0) eqn:E2; [inversion H; subst; assumption|].
  destruct O5 as [O5|(ms & Hh5)]; [apply Z.ltb_ge in E2; lia|].
  (* the depth-stencil texture *)
  apply bind_inv in H as (r3 & s6 & Hd & H).
  destruct (balanced_after_step set_depth_stencil _ s5 r3 s6
              [Some t1; ms; None] (fun t => [Some t1; ms; Some t])
              (texture_step_create_texture _ _ _ _) Hd B5 Hh5) as [B6 _].
  { intros t. apply held_fields in Hh5 as (Ec & Em & _).
    unfold held_textures. cbn. rewrite Ec, Em. reflexivity. }
  { intros t id. apply (held_count_slot id (Some t1) ms None t). }
  destruct (r3 <? 0) eqn:E3; [inversion H; subst; assumption|].
  (* the render targets *)
  apply bind_inv in H as (sx & s7 & H1 & H). inversion H1; subst; clear H1.
  apply bind_inv in H as (r4 & s8 & Hr & H).
  pose proof (balanced_kept _ _ _ _
                (kt_create_default_rendertargets _ _ _ _) Hr B6) as B8.
  destruct (r4 <? 0) eqn:E4; [inversion H; subst; assumption|].
  eapply balanced_kept; [|exact H|exact B8]. ktex.
Qed.

End TextureBalance.

Lemma outstanding_rt_free_calls id o :
  textures_outstanding id (rt_free_calls o) = 0.
Proof. destruct o as [r|]; cbn; [destruct (rt_wrapped r)|]; reflexivity. Qed.

Lemma outstanding_texture_free_calls id o :
  textures_outstanding id (texture_free_calls o)
  = - (if holds_texture id o then 1 else 0).
Proof.
  destruct o as [t|]; unfold textures_outstanding; cbn; [|reflexivity].
  destruct (Nat.eqb (tex_id t) id); reflexivity.
Qed.

Lemma outstanding_cf_release_calls id o :
  textures_outstanding id (cf_release_calls o) = 0.
Proof. destruct o; reflexivity. Qed.

Lemma textures_held_three id a b c :
  textures_held id [a; b; c]
  = (if holds_texture id a then 1 else 0)
    + (if holds_texture id b then 1 else 0)
    + (if holds_texture id c then 1 else 0).
Proof.
  unfold textures_held. cbn.
  destruct (holds_texture id a), (holds_texture id b), (holds_texture id c);
    reflexivity.
Qed.

Lemma outstanding_rendertarget_reset_calls b s id :
  textures_outstanding id (rendertarget_reset_calls b s)
  = - textures_held id (held_textures s).
Proof.
  unfold rendertarget_reset_calls, held_textures.
  rewrite !textures_outstanding_app, !outstanding_rt_free_calls,
    !outstanding_texture_free_calls, textures_held_three.
  destruct (target_apple b).
  - rewrite textures_outstanding_app, !outstanding_cf_release_calls. lia.
  - change (textures_outstanding id []) with 0. lia.
Qed.

(** After [gl_destroy] on a balanced context no texture is outstanding. *)
Lemma gl_destroy_frees_textures b st :
  textures_balanced st ->
  exists st', gl_destroy b st = Some (tt, st') /\
              forall id, textures_outstanding id (w_calls (gw st')) = 0.
Proof.
  intros B. destruct st as [s w]. eexists. split; [apply gl_destroy_run|].
  intros id. cbn [gw world_calls w_calls].
  rewrite !textures_outstanding_app, outstanding_rendertarget_reset_calls.
  specialize (B id). cbn [gs gw] in B. rewrite B.
  assert (textures_outstanding id (timer_reset_calls (timer s)) = 0)
    by (destruct (timer s); reflexivity).
  assert (textures_outstanding id (glcontext_free_calls (glctx s)) = 0)
    by (destruct (glctx s); reflexivity).
  lia.
Qed.

Section InitBalance.

Variable b : build.
Variable d : driver.

Lemma kt_gl_init_check cfg : keeps_textures (gl_init_check cfg).
Proof. unfold gl_init_check. ktex. Qed.

(** [gl_init] on a context that holds no texture keeps the balance,
    whether it succeeds or fails. *)
Lemma gl_init_balanced st r st' :
  held_textures (gs st) = [None; None; None] ->
  textures_balanced st ->
  gl_init b d st = Some (r, st') ->
  textures_balanced st'.
Proof.
  intros Hh B H. unfold gl_init in H.
  apply bind_inv in H as (cfg & s1 & H1 & H). inversion H1; subst; clear H1.
  apply bind_inv in H as (r0 & s2 & Hchk & H).
  pose proof (balanced_kept _ _ _ _ (kt_gl_init_check _) Hchk B) as B2.
  destruct (kt_gl_init_check _ _ _ _ Hchk) as [Hh2 _]. rewrite Hh in Hh2.
  destruct (r0 <? 0) eqn:E0; [inversion H; subst; assumption|].
  apply bind_inv in H as (? & s3 & Hc1 & H).
  assert (K3 : keeps_textures
                 (call (CallGlcontextNew
                          {| gp_platform := platform (config (gs s1));
                             gp_backend := backend (config (gs s1));
                             gp_external := is_external (config (gs s1));
                             gp_display := display (config (gs s1));
                             gp_window := window (config (gs s1));
                             gp_swap_interval := swap_interval (config (gs s1));
                             gp_offscreen := offscreen (config (gs s1));
                             gp_width := width (config (gs s1));
                             gp_height := height (config (gs s1));
                             gp_samples := samples (config (gs s1)) |})))
    by ktex.
  pose proof (balanced_kept _ _ _ _ K3 Hc1 B2) as B3.
  destruct (K3 _ _ _ Hc1) as [Hh3 _]. rewrite Hh2 in Hh3. clear K3 Hc1.
  apply bind_inv in H as (? & s4 & Hc2 & H).
  assert (B4 : textures_balanced s4 /\
               held_textures (gs s4) = [None; None; None]).
  { inversion Hc2; subst. split; [|exact Hh3].
    intros id. cbn. apply B3. }
  destruct B4 as [B4 Hh4]. clear Hc2.
  destruct (drv_glcontext_new d _) as [gl|]; [|inversion H; subst; assumption].
  apply bind_inv in H as (r1 & s5 & Hmode & H).
  assert (B5 : textures_balanced s5).
  { destruct (is_external (config (gs s1))).
    - eapply balanced_kept; [apply kt_wrap_framebuffer|exact Hmode|exact B4].
    - destruct (gl_offscreen gl).
      + eapply offscreen_init_balanced; eassumption.
      + eapply balanced_kept; [|exact Hmode|exact B4].
        unfold onscreen_rendertarget_init. ktex. }
  destruct (r1 <? 0) eqn:E1; [inversion H; subst; assumption|].
  apply bind_inv in H as (r2 & s6 & Htimer & H).
  pose proof (balanced_kept _ _ _ _ kt_timer_init Htimer B5) as B6.
  destruct (r2 <? 0) eqn:E2; [inversion H; subst; assumption|].
  eapply balanced_kept; [|exact H|exact B6].
  unfold gl_set_viewport, gl_set_scissor. ktex.
Qed.

(** Releasing the color texture keeps the balance and empties the
    field. *)
Lemma texture_freep_color_balanced st st' :
  textures_balanced st ->
  texture_freep color set_color st = Some (tt, st') ->
  textures_balanced st' /\ color (gs st') = None /\
  ms_color (gs st') = ms_color (gs st) /\
  depth_stencil (gs st') = depth_stencil (gs st).
Proof.
  intros B H. destruct st as [s w].
  rewrite (texture_freep_run color set_color s w) in H
    by (intros [] E; cbn in *; rewrite E; reflexivity).
  inversion H; subst; clear H. cbn. split; [|auto].
  intros id. specialize (B id). cbn in *.
  rewrite textures_outstanding_app, outstanding_texture_free_calls, B.
  unfold held_textures. cbn. rewrite !textures_held_three. cbn. lia.
Qed.

Lemma update_capture_cvpixelbuffer_balanced buffer st r st' :
  textures_balanced st ->
  update_capture_cvpixelbuffer b d buffer st = Some (r, st') ->
  textures_balanced st'.
Proof.
  intros B H. unfold update_capture_cvpixelbuffer in H.
  apply bind_inv in H as (? & s1 & H1 & H).
  eapply balanced_kept in B; [|clear B|exact H1]; [|ktex]. clear H1.
  apply bind_inv in H as (? & s2 & H1 & H).
  eapply balanced_kept in B; [|clear B|exact H1]; [|ktex]. clear H1.
  apply bind_inv in H as ([] & s3 & H1 & H).
  apply texture_freep_color_balanced in H1 as (B3 & Ec & _); [|exact B].
  clear B.
  apply bind_inv in H as (? & s4 & H1 & H).
  pose proof (balanced_kept _ _ _ _ kt_reset_capture_cvpixelbuffer H1 B3) as B4.
  destruct (kt_reset_capture_cvpixelbuffer _ _ _ H1) as [Hh4 _].
  clear H1 B3.
  apply bind_inv in H as (r1 & s5 & Hc & H).
  destruct (balanced_after_step set_color _ s4 r1 s5
              [None; ms_color (gs s3); depth_stencil (gs s3)]
              (fun t => [Some t; ms_color (gs s3); depth_stencil (gs s3)])
              (texture_step_corevideo_color b d buffer) Hc B4) as [B5 _].
  { rewrite Hh4. unfold held_textures. rewrite Ec. reflexivity. }
  { intros t. unfold held_textures in *. cbn. inversion Hh4. reflexivity. }
  { intros t id. apply (held_count_slot id None _ _ t). }
  destruct (r1 <? 0) eqn:E1; [inversion H; subst; assumption|].
  apply bind_inv in H as (? & s6 & H1 & H). inversion H1; subst; clear H1.
  apply bind_inv in H as (r2 & s7 & Hr & H).
  pose proof (balanced_kept _ _ _ _
                (kt_create_default_rendertargets _ _ _ _) Hr B5) as B7.
  destruct (r2 <? 0) eqn:E2; [inversion H; subst; assumption|].
  apply bind_inv in H as ([] & s8 & H1 & H).
  apply texture_freep_color_balanced in H1 as (B8 & _); [|exact B7].
  inversion H; subst. exact B8.
Qed.

Lemma gl_set_capture_buffer_balanced buffer st r st' :
  textures_balanced st ->
  gl_set_capture_buffer b d buffer st = Some (r, st') ->
  textures_balanced st'.
Proof.
  intros B H. unfold gl_set_capture_buffer in H.
  apply bind_inv in H as (cfg & s1 & H1 & H). inversion H1; subst; clear H1.
  destruct (is_external (config (gs s1))).
  { eapply balanced_kept; [|exact H|exact B]. ktex. }
  destruct (negb (offscreen (config (gs s1)))).
  { eapply balanced_kept; [|exact H|exact B]. ktex. }
  apply bind_inv in H as (r1 & s2 & Hu & H).
  assert (B2 : textures_balanced s2).
  { destruct (capture_buffer_type (config (gs s1)));
      try (inversion Hu; subst; exact B).
    destruct (target_apple b); [|inversion Hu; subst; exact B].
    eapply update_capture_cvpixelbuffer_balanced; eassumption. }
  destruct (r1 <? 0) eqn:E1; [inversion H; subst; assumption|].
  eapply balanced_kept; [|exact H|exact B2]. ktex.
Qed.

End InitBalance.

(** X20.  [gl_init] followed by [gl_destroy] leaks no texture, whether
    [gl_init] succeeds or fails on the way: starting from a context that
    holds no texture, after [gl_init] the textures created and not freed
    are exactly those the context holds, [gl_destroy] then always returns,
    and afterwards every texture that was created has been freed as many
    times as it was created. *)
Theorem gl_init_then_destroy_frees_textures (b : build) (d : driver)
    (st st1 : glst) (r : Z) :
  held_textures (gs st) = [None; None; None] ->
  (forall id, textures_outstanding id (w_calls (gw st)) = 0) ->
  gl_init b d st = Some (r, st1) ->
  textures_balanced st1 /\
  exists st2,
    gl_destroy b st1 = Some (tt, st2) /\
    forall id, textures_outstanding id (w_calls (gw st2)) = 0.
Proof.
  intros Hh H0 H.
  assert (B : textures_balanced st).
  { intros id. rewrite H0, Hh. reflexivity. }
  pose proof (gl_init_balanced b d st r st1 Hh B H) as B1.
  split; [exact B1|]. apply gl_destroy_frees_textures. exact B1.
Qed.

Lemma gl_init_then_destroy_frees_textures_witness :
  exists st1,
    gl_init demo_build demo_driver_fbo demo_fresh_offscreen_gl
    = Some (-1, st1) /\
    textures_balanced st1 /\
    exists st2,
      gl_destroy demo_build st1 = Some (tt, st2) /\
      forall id, textures_outstanding id (w_calls (gw st2)) = 0.
Proof.
  assert (E : exists st1,
             gl_init demo_build demo_driver_fbo demo_fresh_offscreen_gl
             = Some (-1, st1))
    by (eexists; vm_compute; reflexivity).
  destruct E as (st1 & E). exists st1. split; [exact E|].
  apply (gl_init_then_destroy_frees_textures demo_build demo_driver_fbo
           demo_fresh_offscreen_gl st1 (-1)).
  - reflexivity.
  - intros id. reflexivity.
  - exact E.
Defined.

(** X21.  Resizing, changing the capture buffer (including the CoreVideo
    path, which replaces the color texture) and wrapping an external
    framebuffer keep the texture accounting balanced, on success and on
    failure: after each of them the textures created and not freed are
    exactly those the context holds. *)
Theorem backend_operations_keep_textures_balanced (b : build) (d : driver)
    (st : glst) :
  textures_balanced st ->
  (forall w h vp r st',
     gl_resize d w h vp st = Some (r, st') -> textures_balanced st') /\
  (forall buffer r st',
     gl_set_capture_buffer b d buffer st = Some (r, st') ->
     textures_balanced st') /\
  (forall fbo r st',
     ngli_gpu_ctx_gl_wrap_framebuffer d fbo st = Some (r, st') ->
     textures_balanced st').
Proof.
  intros B. split; [|split].
  - intros w h vp r st' H.
    eapply balanced_kept; [apply kt_gl_resize|exact H|exact B].
  - intros buffer r st' H.
    eapply gl_set_capture_buffer_balanced; eassumption.
  - intros fbo r st' H.
    eapply balanced_kept; [apply kt_wrap_framebuffer|exact H|exact B].
Qed.

Lemma backend_operations_keep_textures_balanced_witness :
  textures_balanced demo_offscreen_gl /\
  exists st',
    gl_set_capture_buffer demo_build demo_driver (Some 5) demo_offscreen_gl
    = Some (0, st') /\
    textures_balanced st'.
Proof.
  assert (B : textures_balanced demo_offscreen_gl).
  { intros id.
    do 4 (destruct id as [|id]; [vm_compute; reflexivity|]).
    vm_compute. reflexivity. }
  split; [exact B|].
  assert (E : exists st',
             gl_set_capture_buffer demo_build demo_driver (Some 5)
               demo_offscreen_gl = Some (0, st'))
    by (eexists; vm_compute; reflexivity).
  destruct E as (st' & E). exists st'. split; [exact E|].
  exact (proj1 (proj2 (backend_operations_keep_textures_balanced
                         demo_build demo_driver demo_offscreen_gl B))
           (Some 5) 0 st' E).
Defined.

(* ================================================================== *)
(** * Command mailbox: hand-over, chaining and shutdown *)
(* ================================================================== *)

(** What the invariant says once the dispatch has returned. *)
Lemma dispatch_inv_at_return c h r0 m r :
  dispatch_inv c h r0 m -> returned m 0 = Some r ->
  ctls m = [(C_done r, c)] /\ phase_data c h r0 Cleared m /\
  wkr_in_loop (wkr m) = negb (is_stop c) /\
  (wkr m = W_check \/ wkr m = W_wait \/ wkr m = W_wake \/
   wkr m = W_unlock \/ wkr m = W_done) /\
  lock m = (if wkr_holds (wkr m) then Some T_wkr else None).
Proof.
  intros (k & p & Hc & Hd & Hok & Hl) Hr.
  unfold returned in Hr. rewrite Hc in Hr. cbn in Hr.
  destruct k; try discriminate Hr. injection Hr as ->.
  unfold pcs_ok in Hok.
  destruct p; cbn in Hok; rewrite ?andb_false_r in Hok; try discriminate Hok;
    try (destruct (wkr m); discriminate Hok).
  split; [exact Hc|]. split; [exact Hd|].
  unfold lock_of in Hl. cbn in Hl.
  destruct (wkr m); cbn in *; try discriminate Hok;
    apply andb_prop in Hok as [Hs _];
    (split; [destruct (is_stop c); cbn in *; congruence|]);
    (split; [tauto|exact Hl]).
Qed.

(** X22.  While one thread dispatches command [c] on a mailbox at rest,
    under every schedule: the controller and the worker are never both
    inside the critical section, and the lock is held exactly by the one
    that is; the worker leaves its loop only after it has executed
    [cmd_stop]; and when the dispatch has returned, the worker has left its
    loop if [c] is [cmd_stop] (so it takes no further command and can
    always run to its end), and is still serving otherwise. *)
Theorem dispatch_stop_handshake (c : cmd) (h : list cmd) (r0 : Z)
    (m : mailbox) :
  quiescent c h r0 m ->
  forall ls m',
    mailbox_run ls m = Some m' ->
    (exists k,
       ctls m' = [(k, c)] /\
       ctl_holds k && wkr_holds (wkr m') = false /\
       lock m' = (if ctl_holds k then Some (T_ctl 0)
                  else if wkr_holds (wkr m') then Some T_wkr else None)) /\
    (wkr_in_loop (wkr m') = false ->
     is_stop c = true /\ executed m' = h ++ [c]) /\
    (forall r, returned m' 0 = Some r ->
       wkr_in_loop (wkr m') = negb (is_stop c) /\
       (is_stop c = true ->
        exists ls' m'',
          mailbox_run ls' m' = Some m'' /\ wkr m'' = W_done /\
          lock m'' = None /\ executed m'' = h ++ [c])).
Proof.
  intros Hq ls m' Hr.
  pose proof (dispatch_inv_run c h r0 ls m m' (quiescent_inv c h r0 m Hq) Hr)
    as Hi.
  split; [|split].
  - destruct Hi as (k & p & Hc & Hd & Hok & Hl).
    exists k. split; [exact Hc|]. split; [|exact Hl].
    unfold pcs_ok in Hok. apply andb_prop in Hok as [Hok _].
    apply negb_true_iff in Hok. exact Hok.
  - intros Hw. destruct Hi as (k & p & Hc & Hd & Hok & Hl).
    unfold pcs_ok in Hok. apply andb_prop in Hok as [_ Hok].
    destruct p, k, (wkr m'); cbn in Hw; try discriminate Hw;
      try discriminate Hok; cbn in Hd; destruct Hd as (_ & He & _);
      (split; [|exact He]);
      destruct (is_stop c); cbn in Hok; try discriminate Hok; reflexivity.
  - intros r Hret.
    destruct (dispatch_inv_at_return c h r0 m' r Hi Hret)
      as (Hc & Hd & Hloop & Hw & Hl).
    split; [exact Hloop|]. intros Es. rewrite Es in Hloop.
    destruct Hd as (_ & He & _).
    destruct m' as [lk f rr cs w ex]. cbn in *. subst.
    destruct w; cbn in Hloop; try discriminate Hloop.
    + exists [Run_wkr None]. eexists. cbn. repeat split.
    + exists []. eexists. cbn. repeat split.
Qed.

Lemma dispatch_stop_handshake_witness :
  exists ls m',
    mailbox_run ls (mailbox_init [cmd_stop]) = Some m' /\
    returned m' 0 = Some 0 /\ wkr_in_loop (wkr m') = false.
Proof.
  assert (E : exists m',
             mailbox_run (completing_schedule false) (mailbox_init [cmd_stop])
             = Some m' /\ returned m' 0 = Some 0)
    by (eexists; vm_compute; split; reflexivity).
  destruct E as (m' & E & Hret).
  exists (completing_schedule false), m'. split; [exact E|].
  split; [exact Hret|].
  assert (Q : quiescent cmd_stop [] 0 (mailbox_init [cmd_stop]))
    by (unfold quiescent; cbn; repeat split; auto).
  destruct (dispatch_stop_handshake cmd_stop [] 0 (mailbox_init [cmd_stop]) Q
              (completing_schedule false) m' E) as (_ & _ & H).
  apply (H 0 Hret).
Defined.

(** A second call after a user command has returned starts from a state
    that satisfies the invariant of a fresh dispatch. *)
Lemma redispatch_inv c1 c2 h r0 m r :
  dispatch_inv c1 h r0 m -> is_stop c1 = false ->
  returned m 0 = Some r ->
  dispatch_inv c2 (h ++ [c1]) (cmd_run c1) (redispatch c2 m) /\
  (wkr m = W_check \/ wkr m = W_wait \/ wkr m = W_wake).
Proof.
  intros Hi Hs Hret.
  destruct (dispatch_inv_at_return c1 h r0 m r Hi Hret)
    as (Hc & (Hf & He & Hr) & Hloop & Hw & Hl).
  rewrite Hs in Hloop. cbn in Hloop.
  assert (Hw' : wkr m = W_check \/ wkr m = W_wait \/ wkr m = W_wake).
  { destruct Hw as [Hw|[Hw|[Hw|[Hw|Hw]]]]; rewrite Hw in Hloop;
      try discriminate Hloop; auto. }
  split; [|exact Hw'].
  exists C_lock, Unpublished. unfold redispatch, lock_of. cbn.
  split; [reflexivity|]. split; [auto|]. rewrite Hl.
  destruct Hw' as [Hw'|[Hw'|Hw']]; rewrite Hw'; cbn; auto.
Qed.

(** X23.  Dispatches of one controlling thread chain: after a dispatch of
    a user command [c1] has returned, under whatever schedule, the mailbox
    is again one with no dispatch in progress, so a second call, with
    [c2], starts like the first.  It executes nothing but [c2], after [c1]
    and at most once; when it has returned it returned the result of [c2]
    and [c2] has been executed; as long as it has not returned one of the
    two threads can execute a statement; and it returns under a schedule
    without spurious wake-up. *)
Theorem consecutive_dispatches_in_order (c1 c2 : cmd) (h : list cmd) (r0 : Z)
    (m m1 : mailbox) (ls1 : list sched) (r1 : Z) :
  quiescent c1 h r0 m -> is_stop c1 = false ->
  mailbox_run ls1 m = Some m1 -> returned m1 0 = Some r1 ->
  quiescent c2 (h ++ [c1]) (cmd_run c1) (redispatch c2 m1) /\
  (forall ls2 m2,
     mailbox_run ls2 (redispatch c2 m1) = Some m2 ->
     (executed m2 = h ++ [c1] \/ executed m2 = h ++ [c1; c2]) /\
     (forall r, returned m2 0 = Some r ->
        r = cmd_run c2 /\ executed m2 = h ++ [c1; c2] /\ cmd_func m2 = None) /\
     (returned m2 0 = None ->
      exists l m3, real_step l = true /\ mailbox_step l m2 = Some m3)) /\
  (exists ls2 m2,
     forallb real_step ls2 = true /\
     mailbox_run ls2 (redispatch c2 m1) = Some m2 /\
     returned m2 0 = Some (cmd_run c2) /\
     executed m2 = h ++ [c1; c2]).
Proof.
  intros Hq Hs Hr1 Hret1.
  pose proof (dispatch_inv_run c1 h r0 ls1 m m1 (quiescent_inv c1 h r0 m Hq) Hr1)
    as Hi1.
  destruct (redispatch_inv c1 c2 h r0 m1 r1 Hi1 Hs Hret1) as [Hi2 Hw].
  assert (Eapp : (h ++ [c1]) ++ [c2] = h ++ [c1; c2])
    by (rewrite <- app_assoc; reflexivity).
  assert (Hq2 : quiescent c2 (h ++ [c1]) (cmd_run c1) (redispatch c2 m1)).
  { destruct (dispatch_inv_at_return c1 h r0 m1 r1 Hi1 Hret1)
      as (Hc & (Hf & He & Hr) & _ & _ & Hl).
    unfold quiescent, redispatch. cbn.
    split; [exact Hf|]. split; [exact Hr|]. split; [exact He|].
    split; [reflexivity|]. rewrite Hl.
    destruct Hw as [Hw|[Hw|Hw]]; rewrite Hw; cbn; auto. }
  split; [exact Hq2|]. split.
  - intros ls2 m2 Hr2.
    pose proof (dispatch_inv_run c2 (h ++ [c1]) (cmd_run c1) ls2 _ m2 Hi2 Hr2)
      as Hi.
    rewrite <- Eapp. split.
    + apply (dispatch_inv_executed c2 (h ++ [c1]) (cmd_run c1) m2 Hi).
    + split.
      * intros r.
        apply (dispatch_inv_returned c2 (h ++ [c1]) (cmd_run c1) m2 r Hi).
      * apply (dispatch_progress c2 (h ++ [c1]) (cmd_run c1) m2 Hi).
  - destruct (dispatch_completes c2 (h ++ [c1]) (cmd_run c1) _ Hq2)
      as (ls2 & m2 & Hreal & Hr2 & Hret2 & He2 & _).
    exists ls2, m2. rewrite <- Eapp. auto.
Qed.

Lemma consecutive_dispatches_in_order_witness :
  exists m1 ls2 m2,
    mailbox_run (completing_schedule false) (mailbox_init [cmd_user 1 10])
    = Some m1 /\
    mailbox_run ls2 (redispatch (cmd_user 2 20) m1) = Some m2 /\
    returned m2 0 = Some 20 /\
    executed m2 = [cmd_user 1 10; cmd_user 2 20].
Proof.
  assert (E : exists m1,
             mailbox_run (completing_schedule false)
               (mailbox_init [cmd_user 1 10]) = Some m1 /\
             returned m1 0 = Some 10)
    by (eexists; vm_compute; split; reflexivity).
  destruct E as (m1 & E & Hret).
  assert (Q : quiescent (cmd_user 1 10) [] 0 (mailbox_init [cmd_user 1 10]))
    by (unfold quiescent; cbn; repeat split; auto).
  destruct (consecutive_dispatches_in_order (cmd_user 1 10) (cmd_user 2 20) [] 0
              (mailbox_init [cmd_user 1 10]) m1 (completing_schedule false) 10
              Q eq_refl E Hret) as (_ & _ & ls2 & m2 & _ & H2 & Hr2 & He2).
  exists m1, ls2, m2. auto.
Defined.

Lemma stopped_inv_step c h l m m' :
  stopped_inv c h m -> mailbox_step l m = Some m' -> stopped_inv c h m'.
Proof.
  intros (k & Hc & Hw & He & Hk) Hs.
  destruct m as [lk f r cs w ex]. cbn in Hc, Hw, He, Hk. subst cs ex.
  unfold stopped_inv.
  destruct w; cbn in Hw; try discriminate Hw.
  all: destruct k; try contradiction.
  all: destruct l as [[|[|i]]|[[|[|j]]|]|[|[|i]]|]; cbn in Hs;
    try discriminate Hs.
  all: try (destruct lk; cbn in Hs; try discriminate Hs).
  all: try (cbn in Hk; subst f; cbn in Hs).
  all: try (injection Hs as <-).
  all: try solve [eexists; cbn; repeat split; reflexivity].
Qed.

Lemma stopped_inv_run c h ls : forall m m',
  stopped_inv c h m -> mailbox_run ls m = Some m' -> stopped_inv c h m'.
Proof.
  induction ls as [|l ls IH]; intros m m' Hi Hr; cbn in Hr.
  - inversion Hr; subst. exact Hi.
  - destruct (mailbox_step l m) as [m1|] eqn:E; [|discriminate].
    eapply IH; [|exact Hr]. eapply stopped_inv_step; eauto.
Qed.

(** X24.  Once a dispatch of [cmd_stop] has returned, the worker serves no
    further command: a later dispatch on the same context never returns,
    under any schedule, and its command is never executed. *)
Theorem dispatch_after_stop_never_returns (c2 : cmd) (h : list cmd) (r0 : Z)
    (m m1 : mailbox) (ls1 : list sched) (r1 : Z) :
  quiescent cmd_stop h r0 m ->
  mailbox_run ls1 m = Some m1 -> returned m1 0 = Some r1 ->
  forall ls2 m2,
    mailbox_run ls2 (redispatch c2 m1) = Some m2 ->
    returned m2 0 = None /\ executed m2 = h ++ [cmd_stop] /\
    wkr_in_loop (wkr m2) = false.
Proof.
  intros Hq Hr1 Hret1 ls2 m2 Hr2.
  pose proof (dispatch_inv_run cmd_stop h r0 ls1 m m1
                (quiescent_inv cmd_stop h r0 m Hq) Hr1) as Hi1.
  destruct (dispatch_inv_at_return cmd_stop h r0 m1 r1 Hi1 Hret1)
    as (Hc & (Hf & He & Hr) & Hloop & _).
  assert (S1 : stopped_inv c2 (h ++ [cmd_stop]) (redispatch c2 m1)).
  { exists C_lock. unfold redispatch. cbn. auto. }
  destruct (stopped_inv_run c2 _ ls2 _ m2 S1 Hr2) as (k & Hc2 & Hw2 & He2 & Hk).
  split; [|auto].
  unfold returned. rewrite Hc2. cbn. destruct k; try reflexivity.
  contradiction.
Qed.

Lemma dispatch_after_stop_never_returns_witness :
  exists m1 m2,
    mailbox_run (completing_schedule false) (mailbox_init [cmd_stop]) = Some m1 /\
    mailbox_run [Run_ctl 0; Run_ctl 0; Run_ctl 0; Run_ctl 0;
                 Spurious_ctl 0; Run_ctl 0; Run_ctl 0]%nat
      (redispatch (cmd_user 1 10) m1) = Some m2 /\
    returned m2 0 = None /\ executed m2 = [cmd_stop].
Proof.
  assert (E : exists m1,
             mailbox_run (completing_schedule false) (mailbox_init [cmd_stop])
             = Some m1 /\ returned m1 0 = Some 0)
    by (eexists; vm_compute; split; reflexivity).
  destruct E as (m1 & E & Hret).
  assert (Q : quiescent cmd_stop [] 0 (mailbox_init [cmd_stop]))
    by (unfold quiescent; cbn; repeat split; auto).
  assert (E2 : exists m2,
             mailbox_run [Run_ctl 0; Run_ctl 0; Run_ctl 0; Run_ctl 0;
                          Spurious_ctl 0; Run_ctl 0; Run_ctl 0]%nat
               (redispatch (cmd_user 1 10) m1) = Some m2).
  { pose proof E as E'. vm_compute in E'. inversion E'; subst m1.
    eexists. vm_compute. reflexivity. }
  destruct E2 as (m2 & E2).
  destruct (dispatch_after_stop_never_returns (cmd_user 1 10) [] 0
              (mailbox_init [cmd_stop]) m1 (completing_schedule false) 0
              Q E Hret _ m2 E2) as (H1 & H2 & _).
  exists m1, m2. auto.
Defined.

(* ================================================================== *)
(** * Android bindings: theorems *)
(* ================================================================== *)

Lemma first_vm_cons a l :
  first_vm (a :: l) = if a =? 0 then first_vm l else a.
Proof. unfold first_vm. cbn. destruct (a =? 0); reflexivity. Qed.

(** One call of [ngl_jni_set_java_vm] on Android: the virtual machine is
    stored only if none was; the call succeeds when the machine stored
    afterwards is the one passed. *)
Lemma ngl_jni_set_java_vm_call b vm s :
  target_android b = true ->
  exists s',
    ngl_jni_set_java_vm b vm s
    = Some (if vm =? first_vm [java_vm s; vm] then 0 else -1, s') /\
    java_vm s' = first_vm [java_vm s; vm] /\
    android_application_context s' = android_application_context s /\
    global_refs s' = global_refs s /\
    (vm = first_vm [java_vm s; vm] -> jni_log s' = jni_log s).
Proof.
  intros Hb. unfold ngl_jni_set_java_vm. rewrite Hb.
  unfold bind, gets, modify, jni_LOG, ret. rewrite !first_vm_cons.
  unfold first_vm. cbn [filter hd].
  destruct (java_vm s =? 0) eqn:E0.
  - destruct (vm =? 0) eqn:Ev.
    + apply Z.eqb_eq in Ev. subst vm. cbn.
      eexists. split; [reflexivity|]. cbn. auto.
    + rewrite Z.eqb_refl. eexists. split; [reflexivity|]. cbn. auto.
  - rewrite (Z.eqb_sym vm). destruct (java_vm s =? vm) eqn:Ev; cbn.
    + eexists. split; [reflexivity|]. auto.
    + eexists. split; [reflexivity|]. cbn. repeat split; auto.
      intros ->. rewrite Z.eqb_refl in Ev. discriminate.
Qed.

(** X25.  The Java virtual machine is set once.  On an Android build,
    after any history of calls to [ngl_jni_set_java_vm] the machine
    returned by [ngl_jni_get_java_vm] is the first one that was not [NULL]
    (counting the one already stored); each call returns [0] when the
    machine stored after it is the one it passed and [-1] otherwise, and
    never touches the application context.  On any other build every call
    returns [NGL_ERROR_UNSUPPORTED], nothing is stored and the getter
    returns [NULL]. *)
Theorem jni_java_vm_set_once (b : build) (vms : list ptr) (s : jni_state) :
  if target_android b then
    exists rs s',
      set_java_vms b vms s = Some (rs, s') /\
      ngl_jni_get_java_vm b s' = Some (first_vm (java_vm s :: vms), s') /\
      List.length rs = List.length vms /\
      (forall i vm r,
         nth_error vms i = Some vm -> nth_error rs i = Some r ->
         r = if vm =? first_vm (java_vm s :: firstn (S i) vms) then 0 else -1) /\
      android_application_context s' = android_application_context s /\
      global_refs s' = global_refs s
  else
    set_java_vms b vms s
    = Some (repeat NGL_ERROR_UNSUPPORTED (List.length vms), s) /\
    ngl_jni_get_java_vm b s = Some (0, s).
Proof.
  destruct (target_android b) eqn:Hb.
  - revert s. induction vms as [|vm vms IH]; intros s.
    + exists [], s. split; [reflexivity|]. split.
      { unfold ngl_jni_get_java_vm, gets. rewrite Hb, first_vm_cons.
        unfold first_vm. cbn.
        destruct (java_vm s =? 0) eqn:E; [apply Z.eqb_eq in E; rewrite E|];
          reflexivity. }
      split; [reflexivity|].
      split; [intros [|i] vm r H; discriminate H|]. auto.
    + destruct (ngl_jni_set_java_vm_call b vm s Hb)
        as (s1 & E1 & Hv1 & Hc1 & Hr1 & _).
      destruct (IH s1) as (rs & s' & E & Hget & Hlen & Hnth & Hc & Hr).
      eexists (_ :: rs), s'. cbn [set_java_vms].
      rewrite (bind_eq _ _ _ _ _ E1), (bind_eq _ _ _ _ _ E).
      split; [reflexivity|].
      assert (Hfirst : forall l, first_vm (java_vm s1 :: l)
                                 = first_vm (java_vm s :: vm :: l)).
      { intros l.
        rewrite (first_vm_cons (java_vm s1)), (first_vm_cons (java_vm s)),
          (first_vm_cons vm), Hv1.
        rewrite (first_vm_cons (java_vm s)), (first_vm_cons vm).
        change (first_vm []) with 0.
        destruct (java_vm s =? 0) eqn:E0; destruct (vm =? 0) eqn:Ev;
          rewrite ?E0, ?Ev; reflexivity. }
      split; [rewrite Hget, Hfirst; reflexivity|].
      split; [cbn; congruence|].
      split; [|split; congruence].
      intros [|i] vm' r Hvm Hres; cbn in Hvm, Hres.
      * inversion Hvm; inversion Hres; subst. reflexivity.
      * rewrite (Hnth i vm' r Hvm Hres), Hfirst. reflexivity.
  - split.
    + induction vms as [|vm vms IH]; [reflexivity|].
      cbn [set_java_vms]. unfold ngl_jni_set_java_vm at 1. rewrite Hb.
      erewrite bind_eq by reflexivity. rewrite (bind_eq _ _ _ _ _ IH).
      reflexivity.
    + unfold ngl_jni_get_java_vm. rewrite Hb. reflexivity.
Qed.

(** One call of [ngl_android_set_application_context] on Android. *)
Lemma set_application_context_call b o c s :
  target_android b = true -> one_context_ref s ->
  exists s',
    ngl_android_set_application_context b o c s
    = Some (if jni_get_env o then 0 else NGL_ERROR_EXTERNAL, s') /\
    one_context_ref s' /\ java_vm s' = java_vm s /\
    jni_log s' = jni_log s /\
    if jni_get_env o then
      jni_next s' = (if c =? 0 then jni_next s else S (jni_next s)) /\
      android_application_context s'
      = (if c =? 0 then 0 else jni_new_global_ref o c (jni_next s))
    else s' = s.
Proof.
  intros Hb Hinv. unfold ngl_android_set_application_context. rewrite Hb.
  destruct (jni_get_env o); cbn [negb].
  2:{ exists s. repeat split; auto. }
  unfold one_context_ref in Hinv.
  unfold bind, gets, modify, ret, DeleteGlobalRef, NewGlobalRef,
    set_application_context, one_context_ref.
  cbn.
  destruct (android_application_context s =? 0) eqn:E0; cbn.
  - pose proof (proj1 (Z.eqb_eq _ _) E0) as E0'.
    destruct (c =? 0) eqn:Ec; cbn.
    + eexists. split; [reflexivity|]. cbn. rewrite E0. auto.
    + eexists. split; [reflexivity|]. cbn. rewrite Hinv.
      destruct (jni_new_global_ref o c (jni_next s) =? 0); cbn; auto.
  - rewrite Hinv. cbn. rewrite Z.eqb_refl.
    destruct (c =? 0) eqn:Ec; cbn.
    + eexists. split; [reflexivity|]. cbn. auto.
    + eexists. split; [reflexivity|]. cbn.
      destruct (jni_new_global_ref o c (jni_next s) =? 0); cbn; auto.
Qed.

(** X26.  The application context holds at most one JNI global reference.
    On an Android build, starting from a state in which the only global
    reference alive is the stored context, after any history of calls to
    [ngl_android_set_application_context] the same holds: every reference
    created for an earlier context has been deleted, and a [NULL] context
    (or a failed [NewGlobalRef]) leaves none.  Every call returns [0] and
    the last call decides the stored context; without a JNI environment
    every call returns [NGL_ERROR_EXTERNAL] and changes nothing.  The Java
    virtual machine is never touched. *)
Theorem android_application_context_single_ref (b : build) (o : jni_oracle)
    (cs : list ptr) (s : jni_state) :
  target_android b = true -> one_context_ref s ->
  exists rs s',
    set_application_contexts b o cs s = Some (rs, s') /\
    one_context_ref s' /\ java_vm s' = java_vm s /\
    ngl_android_get_application_context b s'
    = Some (android_application_context s', s') /\
    if jni_get_env o then
      rs = repeat 0 (List.length cs) /\
      (cs <> [] ->
       android_application_context s'
       = if last cs 0 =? 0 then 0
         else jni_new_global_ref o (last cs 0) (pred (jni_next s')))
    else
      rs = repeat NGL_ERROR_EXTERNAL (List.length cs) /\ s' = s.
Proof.
  intros Hb. revert s. induction cs as [|c cs IH]; intros s Hinv.
  - exists [], s. cbn. unfold ngl_android_get_application_context.
    rewrite Hb. repeat split; auto.
    destruct (jni_get_env o); split; auto. intros H. contradiction.
  - destruct (set_application_context_call b o c s Hb Hinv)
      as (s1 & E1 & Hinv1 & Hv1 & _ & H1).
    destruct (IH s1 Hinv1) as (rs & s' & E & Hinv' & Hv' & Hget & H').
    eexists (_ :: rs), s'. cbn [set_application_contexts].
    rewrite (bind_eq _ _ _ _ _ E1), (bind_eq _ _ _ _ _ E).
    split; [reflexivity|]. split; [exact Hinv'|].
    split; [congruence|]. split; [exact Hget|].
    destruct (jni_get_env o).
    + destruct H' as [-> Hlast]. destruct H1 as [Hn1 Hc1].
      split; [reflexivity|]. intros _.
      destruct cs as [|c' cs'].
      * cbn in E. inversion E; subst s'. cbn [last].
        rewrite Hc1. destruct (c =? 0); [reflexivity|].
        rewrite Hn1. reflexivity.
      * change (last (c :: c' :: cs') 0) with (last (c' :: cs') 0).
        apply Hlast. discriminate.
    + destruct H' as [-> ->]. split; [reflexivity|exact H1].
Qed.

Lemma android_application_context_single_ref_witness :
  exists s',
    set_application_contexts android_build demo_jni [7; 8] jni_initial
    = Some ([0; 0], s') /\
    android_application_context s' = 101 /\ global_refs s' = [101].
Proof.
  destruct (android_application_context_single_ref android_build demo_jni
              [7; 8] jni_initial eq_refl eq_refl)
    as (rs & s' & E & Hinv & _ & _ & Hrs & Hlast).
  assert (E' : exists s'', set_application_contexts android_build demo_jni
                             [7; 8] jni_initial = Some ([0; 0], s'') /\
                           android_application_context s'' = 101)
    by (eexists; vm_compute; split; reflexivity).
  destruct E' as (s'' & E' & Hc).
  rewrite E' in E. inversion E; subst rs s''.
  exists s'. split; [exact E'|]. split; [exact Hc|].
  unfold one_context_ref in Hinv. rewrite Hc in Hinv. exact Hinv.
Defined.

(* ================================================================== *)
(** * Drawing: theorems *)
(* ================================================================== *)

(** ** How the default render targets are set up *)

Lemma rt_init_setup d s p st r rt st' :
  ngli_rendertarget_gl_init d s p st = Some ((r, rt), st') -> 0 <= r ->
  rt_params rt = Some p /\ rt_wrapped rt = false /\
  rt_clear rt <> None /\ rt_invalidate rt <> None /\ rt_resolve rt <> None /\
  rt_clear_flags rt
  = (let flags := colors_clear_flags (visited_colors p) (rt_clear_flags s) in
     if is_some (att_attachment (rp_depth_stencil p))
        && clears (att_load_op (rp_depth_stencil p))
     then Z.lor flags (Z.lor GL_DEPTH_BUFFER_BIT GL_STENCIL_BUFFER_BIT)
     else flags).
Proof.
  unfold ngli_rendertarget_gl_init. intros H Hr.
  assert (Hneg : ~ 0 <= NGL_ERROR_GRAPHICS_UNSUPPORTED)
    by (unfold NGL_ERROR_GRAPHICS_UNSUPPORTED; cbn; lia).
  apply bind_inv in H as (gl & s1 & _ & H).
  destruct (require_resolve_fbo p && negb (has_feature gl NGLI_FEATURE_GL_FRAMEBUFFER_OBJECT)).
  - apply bind_inv in H as (? & ? & _ & H). inversion H; subst. contradiction.
  - apply bind_inv in H as (r1 & s2 & _ & H).
    destruct (fst r1 <? 0) eqn:E1.
    + inversion H; subst. apply Z.ltb_lt in E1. lia.
    + apply bind_inv in H as (r2 & s3 & _ & H).
      destruct (fst r2 <? 0) eqn:E2.
      * inversion H; subst. apply Z.ltb_lt in E2. lia.
      * unfold rendertarget_gl_init_strategies in H.
        destruct (has_feature gl NGLI_FEATURE_GL_DRAW_BUFFERS && (Z.of_nat (rp_nb_colors p) >? gl_max_draw_buffers gl)).
        -- apply bind_inv in H as (? & ? & _ & H). inversion H; subst.
           contradiction.
        -- inversion H; subst. cbn. repeat split; discriminate.
Qed.

Lemma rt_wrap_setup s p id st r rt st' :
  ngli_rendertarget_gl_wrap s p id st = Some ((r, rt), st') ->
  exists c0,
    hd_error (rp_colors p) = Some c0 /\
    rt_params rt = Some p /\ rt_wrapped rt = true /\
    rt_clear rt <> None /\ rt_invalidate rt <> None /\ rt_resolve rt <> None /\
    rt_clear_flags rt
    = (let flags := rt_clear_flags s in
       let flags := if clears (att_load_op c0)
                    then Z.lor flags GL_COLOR_BUFFER_BIT else flags in
       if clears (att_load_op (rp_depth_stencil p))
       then Z.lor flags (Z.lor GL_DEPTH_BUFFER_BIT GL_STENCIL_BUFFER_BIT)
       else flags).
Proof.
  unfold ngli_rendertarget_gl_wrap. intros H.
  apply bind_inv in H as (gl & s1 & _ & H).
  destruct (rp_nb_colors p) as [|[|n]]; try discriminate.
  destruct (rp_colors p) as [|c0 cs]; try discriminate.
  destruct (_ || _); try discriminate.
  inversion H; subst. exists c0. cbn. repeat split; discriminate.
Qed.

Section DrawSetup.

Variable b : build.
Variable d : driver.

Lemma create_rendertarget_setup c rc ds lop setter st r st' :
  create_rendertarget d c rc ds lop setter st = Some (r, st') -> 0 <= r ->
  (is_some c = true -> is_some ds = true) ->
  exists rt,
    gs st' = setter (Some rt) (gs st) /\
    default_clear_setup lop (clear_color (config (gs st))) rt.
Proof.
  unfold create_rendertarget. intros H Hr Hds.
  apply bind_inv in H as (cfg & s1 & H1 & H). inversion H1; subst; clear H1.
  apply bind_inv in H as (o & s2 & H1 & H).
  assert (E2 : gs s2 = gs s1).
  { unfold ngli_rendertarget_gl_create in H1.
    apply bind_inv in H1 as (? & ? & Ha & H1). inversion H1; subst.
    eapply keeps_gs_alloc; eauto. }
  assert (Ho : o = None \/ o = Some rendertarget_zero).
  { unfold ngli_rendertarget_gl_create in H1.
    apply bind_inv in H1 as ([?|] & ? & _ & H1); inversion H1; auto. }
  destruct Ho as [-> | ->].
  { inversion H; subst. unfold NGL_ERROR_MEMORY in Hr. cbn in Hr. lia. }
  apply bind_inv in H as ([r1 rt1] & s3 & H1' & H).
  cbn [fst snd] in H.
  destruct (r1 <? 0) eqn:Er.
  { apply bind_inv in H as (? & s5 & Hf & H). inversion H; subst.
    apply Z.ltb_lt in Er. lia. }
  apply Z.ltb_ge in Er.
  apply bind_inv in H as (? & s5 & Hf & H). inversion H; subst.
  inversion Hf; subst. clear H Hf. cbn [gs].
  assert (Hall : Z.lor (Z.lor 0 GL_COLOR_BUFFER_BIT)
                   (Z.lor GL_DEPTH_BUFFER_BIT GL_STENCIL_BUFFER_BIT)
                 = all_buffer_bits) by reflexivity.
  destruct (is_some c) eqn:Ec.
  - pose proof (keeps_gs_rt_init _ _ _ _ _ _ H1') as E3.
    apply rt_init_setup in H1' as (Hp & Hw & Hcl & Hin & Hre & Hfl);
      [|exact Er].
    exists rt1. split; [rewrite E3, E2; reflexivity|].
    exists (config (gs s1)), c, rc, ds.
    split; [exact Hp|]. split; [reflexivity|].
    split; [exact Hcl|]. split; [exact Hin|]. split; [exact Hre|].
    rewrite (Hds eq_refl). split; [reflexivity|].
    rewrite Hfl. cbn. rewrite (Hds eq_refl). cbn.
    destruct lop; cbn; try exact Hall; reflexivity.
  - apply bind_inv in H1' as (gl & s4 & Hg & H1').
    assert (E4 : gs s4 = gs s2)
      by (unfold the_gl in Hg; eapply keeps_gs_deref; eauto).
    pose proof (keeps_gs_rt_wrap _ _ _ _ _ _ H1') as E3.
    apply rt_wrap_setup in H1'
      as (c0 & Hc0 & Hp & Hw & Hcl & Hin & Hre & Hfl).
    cbn in Hc0. inversion Hc0; subst c0. clear Hc0.
    exists rt1. split; [rewrite E3, E4, E2; reflexivity|].
    exists (config (gs s1)), c, rc, ds.
    split; [exact Hp|]. split; [reflexivity|].
    split; [exact Hcl|]. split; [exact Hin|]. split; [exact Hre|].
    rewrite Hw. split; [apply orb_true_r|].
    rewrite Hfl. cbn.
    destruct lop; cbn; try exact Hall; reflexivity.
Qed.

Lemma create_default_rendertargets_setup c rc ds st r st' :
  create_default_rendertargets d c rc ds st = Some (r, st') -> 0 <= r ->
  (is_some c = true -> is_some ds = true) ->
  exists rt rtl,
    gs st' = set_default_rt_load (Some rtl) (set_default_rt (Some rt) (gs st)) /\
    default_clear_setup NGLI_LOAD_OP_CLEAR (clear_color (config (gs st))) rt /\
    default_clear_setup NGLI_LOAD_OP_LOAD (clear_color (config (gs st))) rtl.
Proof.
  unfold create_default_rendertargets. intros H Hr Hds.
  apply bind_inv in H as (r1 & s1 & H1 & H).
  destruct (r1 <? 0) eqn:E1.
  { inversion H; subst. apply Z.ltb_lt in E1. lia. }
  apply Z.ltb_ge in E1.
  apply create_rendertarget_setup in H1 as (rt & Eg1 & S1); [|exact E1|exact Hds].
  apply bind_inv in H as (r2 & s2 & H2 & H).
  destruct (r2 <? 0) eqn:E2.
  { inversion H; subst. apply Z.ltb_lt in E2. lia. }
  apply Z.ltb_ge in E2.
  apply create_rendertarget_setup in H2 as (rtl & Eg2 & S2); [|exact E2|exact Hds].
  inversion H; subst. clear H.
  exists rt, rtl. rewrite Eg2, Eg1. rewrite Eg1 in S2. cbn in S2. auto.
Qed.

End DrawSetup.

Section DrawInit.

Variable b : build.
Variable d : driver.

Lemma wrap_framebuffer_setup fbo st r st' :
  ngli_gpu_ctx_gl_wrap_framebuffer d fbo st = Some (r, st') -> 0 <= r ->
  exists rt rtl,
    default_rts_of (gs st') = (Some rt, Some rtl) /\
    default_clear_setup NGLI_LOAD_OP_CLEAR (cc_of (gs st)) rt /\
    default_clear_setup NGLI_LOAD_OP_LOAD (cc_of (gs st)) rtl.
Proof.
  unfold ngli_gpu_ctx_gl_wrap_framebuffer. intros H Hr.
  apply bind_inv in H as (cfg & s1 & H1 & H). inversion H1; subst; clear H1.
  destruct (negb (is_external (config (gs s1)))).
  { apply bind_inv in H as (? & ? & _ & H). inversion H; subst.
    unfold NGL_ERROR_UNSUPPORTED in Hr; cbn in Hr; lia. }
  apply bind_inv in H as (gl & s2 & Hgl & H).
  assert (s2 = s1) as ->.
  { unfold the_gl, deref in Hgl. destruct (glctx (gs s1)); inversion Hgl; auto. }
  apply bind_inv in H as (r1 & s3 & Hchk & H).
  destruct (r1 <? 0) eqn:E1.
  { inversion H; subst. apply Z.ltb_lt in E1. lia. }
  assert (Es3 : gs s3 = gs s1).
  { destruct (has_feature gl NGLI_FEATURE_GL_FRAMEBUFFER_OBJECT).
    - eapply keeps_gs_check_components; eauto.
    - inversion Hchk; reflexivity. }
  apply bind_inv in H as (? & s4 & Hf1 & H).
  apply bind_inv in H as (? & s5 & Hf2 & H).
  assert (Es5 : cc_of (gs s5) = cc_of (gs s1)).
  { rewrite <- Es3.
    rewrite (keeps_field_rendertarget_freep cc_of default_rt_load
               set_default_rt_load (fun _ => eq_refl) _ _ _ Hf2).
    apply (keeps_field_rendertarget_freep cc_of default_rt set_default_rt
             (fun _ => eq_refl) _ _ _ Hf1). }
  apply bind_inv in H as (r2 & s6 & Hc & H).
  destruct (r2 <? 0) eqn:E2.
  { inversion H; subst. apply Z.ltb_lt in E2. lia. }
  apply Z.ltb_ge in E2.
  apply create_default_rendertargets_setup in Hc
    as (rt & rtl & Eg & S1 & S2); [|exact E2|discriminate].
  apply bind_inv in H as (? & s7 & Hs & H). inversion Hs; subst.
  inversion H; subst. exists rt, rtl. cbn [gs]. rewrite Eg.
  fold (cc_of (gs s5)) in S1, S2. rewrite Es5 in S1, S2.
  split; [reflexivity|auto].
Qed.

Lemma offscreen_init_setup st r st' :
  offscreen_rendertarget_init b d st = Some (r, st') -> 0 <= r ->
  exists rt rtl,
    default_rts_of (gs st') = (Some rt, Some rtl) /\
    default_clear_setup NGLI_LOAD_OP_CLEAR (cc_of (gs st)) rt /\
    default_clear_setup NGLI_LOAD_OP_LOAD (cc_of (gs st)) rtl.
Proof.
  intros H Hr. unfold offscreen_rendertarget_init in H.
  apply bind_inv in H as (gl & s1 & H1 & H).
  assert (s1 = st) as ->.
  { unfold the_gl, deref in H1. destruct (glctx (gs st)); inversion H1; auto. }
  clear H1.
  apply bind_inv in H as (cfg0 & s1 & H1 & H). inversion H1; subst; clear H1.
  apply bind_inv in H as (? & s2 & H1 & H).
  assert (C2 : cc_of (gs s2) = cc_of (gs s1)).
  { destruct (_ && _).
    - apply bind_inv in H1 as (? & ? & Ha & H1).
      inversion Ha; subst. inversion H1; subst. reflexivity.
    - inversion H1; subst. reflexivity. }
  clear H1.
  apply bind_inv in H as (cfg & s3 & H1 & H). inversion H1; subst; clear H1.
  apply bind_inv in H as (r1 & s4 & Hc & H).
  assert (C4 : cc_of (gs s4) = cc_of (gs s3)).
  { revert Hc. apply (keeps_field_bind cc_of (ret tt) (fun _ => _)
                        (keeps_field_of_gs _ _ (keeps_gs_ret tt))).
    intros _.
    destruct (capture_buffer_type (config (gs s3)));
      [|destruct (target_apple b)|].
    - apply keeps_field_create_texture. reflexivity.
    - apply kf_corevideo_color; reflexivity.
    - frame.
    - frame. }
  clear Hc.
  destruct (r1 <? 0) eqn:E1; [inversion H; subst; apply Z.ltb_lt in E1; lia|].
  apply bind_inv in H as (r2 & s5 & Hm & H).
  assert (C5 : cc_of (gs s5) = cc_of (gs s4)).
  { destruct (samples (config (gs s3)) =? 0).
    - inversion Hm; subst. reflexivity.
    - apply (keeps_field_create_texture cc_of) in Hm; [exact Hm|reflexivity]. }
  clear Hm.
  destruct (r2 <? 0) eqn:E2; [inversion H; subst; apply Z.ltb_lt in E2; lia|].
  apply bind_inv in H as (r3 & s6 & Hd & H).
  pose proof (keeps_field_create_texture cc_of _ _ _ set_depth_stencil
                (fun _ _ => eq_refl) _ _ _ Hd) as C6.
  destruct (r3 <? 0) eqn:E3; [inversion H; subst; apply Z.ltb_lt in E3; lia|].
  apply Z.ltb_ge in E3.
  assert (D6 : is_some (depth_stencil (gs s6)) = true).
  { destruct (texture_step_create_texture _ _ _ _ _ _ _ Hd)
      as [(Hn & _)|(_ & t & Hh & _)]; [lia|].
    unfold held_textures in Hh. inversion Hh as [[Ha Hb Hc]].
    rewrite Hc. reflexivity. }
  apply bind_inv in H as (sx & s7 & H1 & H). inversion H1; subst; clear H1.
  apply bind_inv in H as (r4 & s8 & Hrt & H).
  destruct (r4 <? 0) eqn:E4; [inversion H; subst; apply Z.ltb_lt in E4; lia|].
  apply Z.ltb_ge in E4.
  apply create_default_rendertargets_setup in Hrt
    as (rt & rtl & Eg & S1 & S2); [|exact E4|intros _; exact D6].
  apply bind_inv in H as (? & s9 & Hs & H). inversion Hs; subst.
  inversion H; subst. exists rt, rtl. cbn [gs]. rewrite Eg.
  fold (cc_of (gs s7)) in S1, S2.
  rewrite C6, C5, C4, C2 in S1, S2.
  split; [reflexivity|auto].
Qed.

(** After a successful [gl_init] both default render targets are set up
    with the clear color of the configuration, one clearing and one
    loading. *)
Lemma gl_init_setup st r st' :
  gl_init b d st = Some (r, st') -> 0 <= r ->
  exists rt rtl,
    default_rts_of (gs st') = (Some rt, Some rtl) /\
    default_clear_setup NGLI_LOAD_OP_CLEAR (cc_of (gs st)) rt /\
    default_clear_setup NGLI_LOAD_OP_LOAD (cc_of (gs st)) rtl.
Proof.
  unfold gl_init. intros H Hr.
  apply bind_inv in H as (cfg & s1 & H1 & H). inversion H1; subst; clear H1.
  apply bind_inv in H as (r0 & s2 & Hchk & H).
  destruct (r0 <? 0) eqn:E0.
  { inversion H; subst. apply Z.ltb_lt in E0. lia. }
  assert (C2 : cc_of (gs s2) = cc_of (gs s1)).
  { revert Hchk. apply (keeps_field_of_gs cc_of).
    unfold gl_init_check. keeps. }
  clear Hchk.
  apply bind_inv in H as (? & s3 & Hc1 & H). inversion Hc1; subst; clear Hc1.
  apply bind_inv in H as (? & s4 & Hc2 & H). inversion Hc2; subst; clear Hc2.
  destruct (drv_glcontext_new d _) as [gl|].
  2:{ inversion H; subst. unfold NGL_ERROR_MEMORY in Hr. cbn in Hr. lia. }
  apply bind_inv in H as (r1 & s5 & Hmode & H).
  destruct (r1 <? 0) eqn:E1.
  { inversion H; subst. apply Z.ltb_lt in E1. lia. }
  apply Z.ltb_ge in E1.
  assert (S5 : exists rt rtl,
            default_rts_of (gs s5) = (Some rt, Some rtl) /\
            default_clear_setup NGLI_LOAD_OP_CLEAR (cc_of (gs s1)) rt /\
            default_clear_setup NGLI_LOAD_OP_LOAD (cc_of (gs s1)) rtl).
  { rewrite <- C2.
    destruct (is_external (config (gs s1))).
    - apply wrap_framebuffer_setup in Hmode; [exact Hmode|exact E1].
    - destruct (gl_offscreen gl).
      + apply offscreen_init_setup in Hmode; [exact Hmode|exact E1].
      + apply bind_inv in Hmode as (? & sa & Hw & Hmode).
        inversion Hw; subst; clear Hw.
        apply create_default_rendertargets_setup in Hmode
          as (rt & rtl & Eg & S1 & S2); [|exact E1|discriminate].
        exists rt, rtl. rewrite Eg. auto. }
  destruct S5 as (rt & rtl & Hrts & S1 & S2).
  exists rt, rtl. split; [|auto]. rewrite <- Hrts.
  apply bind_inv in H as (r2 & s6 & Htimer & H).
  apply (kf_timer_init default_rts_of (fun _ _ => eq_refl)) in Htimer.
  rewrite <- Htimer.
  destruct (r2 <? 0) eqn:E2.
  { inversion H; subst. apply Z.ltb_lt in E2. lia. }
  revert H. apply (keeps_field_bind default_rts_of); [frame|intros ?].
  unfold gl_set_viewport, gl_set_scissor. frame.
Qed.

End DrawInit.

(** ** Render passes *)

Lemma emit_run cs s gl :
  glctx (dr_gs s) = Some gl ->
  emit cs s = Some (tt, {| dr_gs := dr_gs s; dr_glstate := dr_glstate s;
                           current_rt := current_rt s;
                           gl_cmds := gl_cmds s ++ cs |}).
Proof.
  intros Hg. destruct cs as [|c cs]; cbn [emit].
  - destruct s. unfold ret. cbn. rewrite app_nil_r. reflexivity.
  - unfold bind, deref, modify. rewrite Hg. reflexivity.
Qed.

Lemma clear_cmds_of_setup lop cc rt :
  default_clear_setup lop cc rt ->
  exists cs,
    clear_cmds rt = Some cs /\
    (lop = NGLI_LOAD_OP_LOAD -> clears_nothing cs) /\
    (lop = NGLI_LOAD_OP_CLEAR -> clears_everything cc cs).
Proof.
  intros (cfg & c & rc & ds & Hp & Hcc & Hcl & _ & _ & Hds & Hfl).
  unfold clear_cmds. rewrite Hp.
  destruct (rt_clear rt) as [[|]|]; [| |contradiction].
  - unfold clear_buffers_cmds.
    cbn [visited_colors default_rendertarget_params rp_nb_colors rp_colors
         firstn clear_colors_cmds att_load_op att_clear_value
         rp_depth_stencil att_attachment].
    rewrite Hds. eexists. split; [reflexivity|]. rewrite Hcc. split.
    + intros ->. cbn. constructor.
    + intros ->. left. reflexivity.
  - cbn. rewrite Hfl, Hcc. eexists. split; [reflexivity|]. split.
    + intros ->. cbn. repeat constructor.
    + intros ->. right. reflexivity.
Qed.

(** [ngli_rendertarget_gl_begin_pass] in closed form. *)
Lemma begin_pass_run rt ds gl cs :
  glctx (dr_gs ds) = Some gl -> clear_cmds rt = Some cs ->
  ngli_rendertarget_gl_begin_pass rt ds
  = Some (tt, {| dr_gs := dr_gs ds; dr_glstate := default_glstate;
                 current_rt := current_rt ds;
                 gl_cmds := gl_cmds ds
                            ++ reset_write_masks_cmds (dr_glstate ds)
                            ++ GlBindFramebuffer GL_FRAMEBUFFER (rt_id rt)
                               :: cs |}).
Proof.
  intros Hg Hcl. unfold ngli_rendertarget_gl_begin_pass. rewrite Hcl.
  erewrite bind_eq by reflexivity.
  erewrite bind_eq by (apply (emit_run _ _ gl); exact Hg).
  erewrite bind_eq by reflexivity.
  erewrite bind_eq by (apply (emit_run _ _ gl); exact Hg).
  rewrite (emit_run _ _ gl) by exact Hg. cbn.
  rewrite <- !app_assoc. reflexivity.
Qed.

(** [gl_begin_render_pass] in closed form. *)
Lemma gl_begin_render_pass_run rt ds gl cs :
  glctx (dr_gs ds) = Some gl -> current_rt ds = None ->
  clear_cmds rt = Some cs ->
  gl_begin_render_pass rt ds
  = Some (tt, {| dr_gs := dr_gs ds; dr_glstate := default_glstate;
                 current_rt := Some rt;
                 gl_cmds := gl_cmds ds
                            ++ reset_write_masks_cmds (dr_glstate ds)
                            ++ GlBindFramebuffer GL_FRAMEBUFFER (rt_id rt)
                               :: cs |}).
Proof.
  intros Hg Hc Hcl. unfold gl_begin_render_pass.
  erewrite bind_eq by reflexivity. rewrite Hc.
  rewrite (bind_eq _ _ _ _ _ (begin_pass_run rt ds gl cs Hg Hcl)).
  reflexivity.
Qed.

(** X27.  After a successful [gl_init], beginning a render pass on the
    loading default render target clears nothing: whichever clearing
    strategy the native context selected, no buffer is cleared (with the
    legacy strategy [glClear] is called with an empty mask), so what was
    drawn before is kept.  Beginning a pass on the clearing default render
    target clears color, depth and stencil, the color to the clear color of
    the configuration.  Both bind the framebuffer of the render target
    before. *)
Theorem load_pass_preserves_contents (b : build) (d : driver) (st st' : glst)
    (r : Z) (ds : drawst) :
  gl_init b d st = Some (r, st') -> 0 <= r ->
  dr_gs ds = gs st' -> current_rt ds = None ->
  exists rt rtl,
    default_rt (gs st') = Some rt /\ default_rt_load (gs st') = Some rtl /\
    (exists ds1 cs,
       gl_begin_render_pass rtl ds = Some (tt, ds1) /\
       gl_cmds ds1
       = gl_cmds ds ++ reset_write_masks_cmds (dr_glstate ds)
         ++ GlBindFramebuffer GL_FRAMEBUFFER (rt_id rtl) :: cs /\
       clears_nothing cs) /\
    (exists ds1 cs,
       gl_begin_render_pass rt ds = Some (tt, ds1) /\
       gl_cmds ds1
       = gl_cmds ds ++ reset_write_masks_cmds (dr_glstate ds)
         ++ GlBindFramebuffer GL_FRAMEBUFFER (rt_id rt) :: cs /\
       clears_everything (clear_color (config (gs st))) cs).
Proof.
  intros H Hr Hgs Hcur.
  destruct (gl_init_surface b d st st' r H Hr) as (gl & _ & _ & _ & Hgl & _).
  destruct (gl_init_setup b d st r st' H Hr) as (rt & rtl & Hrts & S1 & S2).
  unfold default_rts_of in Hrts. inversion Hrts as [[Hrt Hrtl]].
  rewrite <- Hgs in Hgl.
  exists rt, rtl. split; [exact Hrt|]. split; [exact Hrtl|].
  destruct (clear_cmds_of_setup _ _ _ S1) as (cs1 & Hc1 & _ & Hall).
  destruct (clear_cmds_of_setup _ _ _ S2) as (cs2 & Hc2 & Hnone & _).
  split.
  - eexists _, cs2.
    split; [apply (gl_begin_render_pass_run rtl ds gl cs2 Hgl Hcur Hc2)|].
    split; [reflexivity|]. apply Hnone. reflexivity.
  - eexists _, cs1.
    split; [apply (gl_begin_render_pass_run rt ds gl cs1 Hgl Hcur Hc1)|].
    split; [reflexivity|]. apply Hall. reflexivity.
Qed.

(** [ngli_rendertarget_gl_end_pass] in closed form, while the render
    target [cur] is current. *)
Lemma end_pass_run b rt ds gl cur rcs ics :
  glctx (dr_gs ds) = Some gl -> current_rt ds = Some cur ->
  resolve_cmds b rt = Some rcs -> invalidate_cmds rt = Some ics ->
  ngli_rendertarget_gl_end_pass b rt ds
  = Some (tt, {| dr_gs := dr_gs ds;
                 dr_glstate := scissor_off (dr_glstate ds);
                 current_rt := Some cur;
                 gl_cmds :=
                   gl_cmds ds
                   ++ (if scissor_test (dr_glstate ds)
                       then [GlDisableScissorTest] else [])
                   ++ (if rt_resolve_id rt =? 0 then []
                       else [GlBindFramebuffer GL_READ_FRAMEBUFFER (rt_id rt);
                             GlBindFramebuffer GL_DRAW_FRAMEBUFFER
                               (rt_resolve_id rt)]
                            ++ rcs
                            ++ [GlBindFramebuffer GL_FRAMEBUFFER (rt_id cur)])
                   ++ ics |}).
Proof.
  intros Hg Hc Hr Hi. unfold ngli_rendertarget_gl_end_pass.
  rewrite Hr, Hi.
  destruct ds as [s g c cmds]. cbn in Hg, Hc. subst c.
  unfold bind, gets. cbn [dr_glstate].
  assert (Escissor :
    (if scissor_test g
     then bind (emit [GlDisableScissorTest])
            (fun _ => set_glstate (scissor_off g))
     else ret tt)
      {| dr_gs := s; dr_glstate := g; current_rt := Some cur;
         gl_cmds := cmds |}
    = Some (tt, {| dr_gs := s; dr_glstate := scissor_off g;
                   current_rt := Some cur;
                   gl_cmds := cmds ++ (if scissor_test g
                                       then [GlDisableScissorTest]
                                       else []) |})).
  { destruct g as [cm dm sm sc]. destruct sc; cbn.
    - unfold bind, deref, modify, set_glstate. cbn. rewrite Hg. reflexivity.
    - unfold ret, scissor_off. cbn. rewrite app_nil_r. reflexivity. }
  unfold bind in Escissor. rewrite Escissor. clear Escissor.
  destruct (rt_resolve_id rt =? 0); cbn [negb].
  - unfold ret. rewrite (emit_run _ _ gl) by exact Hg. cbn.
    rewrite <- !app_assoc. reflexivity.
  - rewrite (emit_run _ _ gl) by exact Hg. cbn [dr_gs dr_glstate current_rt gl_cmds].
    rewrite (emit_run _ _ gl) by exact Hg. cbn [dr_gs dr_glstate current_rt gl_cmds].
    rewrite (emit_run _ _ gl) by exact Hg. cbn [dr_gs dr_glstate current_rt gl_cmds].
    rewrite (emit_run _ _ gl) by exact Hg. cbn [dr_gs dr_glstate current_rt gl_cmds].
    rewrite <- !app_assoc. reflexivity.
Qed.

(** X28.  Render passes do not nest and leave the cached GL state at its
    defaults.  On a context with a native context and a render target whose
    strategies are set: [gl_end_render_pass] without an open pass and
    [gl_begin_render_pass] with one fail their assertion.  Otherwise
    beginning a pass makes the render target current, resets the cached
    write masks and scissor test to their defaults, issuing a command only
    for what the cache says differs, then binds the framebuffer and runs
    the clearing strategy.  Ending the pass then closes it; when the render
    target has a resolve framebuffer the resolve is made from the
    framebuffer into the resolve framebuffer and the framebuffer of the
    render target itself is bound again before the invalidation.  A pass
    begun after that issues no state command. *)
Theorem render_pass_protocol (b : build) (rt : rendertarget) (ds : drawst)
    (gl : glcontext) (ccs rcs ics : list gl_cmd) :
  glctx (dr_gs ds) = Some gl ->
  clear_cmds rt = Some ccs -> resolve_cmds b rt = Some rcs ->
  invalidate_cmds rt = Some ics ->
  (current_rt ds <> None -> gl_begin_render_pass rt ds = None) /\
  (current_rt ds = None ->
   gl_end_render_pass b ds = None /\
   exists ds1 ds2 ds3,
     gl_begin_render_pass rt ds = Some (tt, ds1) /\
     current_rt ds1 = Some rt /\ dr_glstate ds1 = default_glstate /\
     gl_cmds ds1
     = gl_cmds ds ++ reset_write_masks_cmds (dr_glstate ds)
       ++ GlBindFramebuffer GL_FRAMEBUFFER (rt_id rt) :: ccs /\
     reset_write_masks_cmds default_glstate = [] /\
     gl_end_render_pass b ds1 = Some (tt, ds2) /\
     current_rt ds2 = None /\ dr_glstate ds2 = default_glstate /\
     dr_gs ds2 = dr_gs ds /\
     gl_cmds ds2
     = gl_cmds ds1
       ++ (if rt_resolve_id rt =? 0 then []
           else [GlBindFramebuffer GL_READ_FRAMEBUFFER (rt_id rt);
                 GlBindFramebuffer GL_DRAW_FRAMEBUFFER (rt_resolve_id rt)]
                ++ rcs ++ [GlBindFramebuffer GL_FRAMEBUFFER (rt_id rt)])
       ++ ics /\
     gl_begin_render_pass rt ds2 = Some (tt, ds3) /\
     gl_cmds ds3
     = gl_cmds ds2 ++ GlBindFramebuffer GL_FRAMEBUFFER (rt_id rt) :: ccs).
Proof.
  intros Hg Hc Hr Hi. split.
  - intros Hcur. unfold gl_begin_render_pass, bind, gets.
    destruct (current_rt ds); [reflexivity|contradiction].
  - intros Hcur. split.
    { unfold gl_end_render_pass, bind, gets. rewrite Hcur. reflexivity. }
    pose proof (gl_begin_render_pass_run rt ds gl ccs Hg Hcur Hc) as E1.
    set (ds1 := {| dr_gs := dr_gs ds; dr_glstate := default_glstate;
                   current_rt := Some rt;
                   gl_cmds := gl_cmds ds
                              ++ reset_write_masks_cmds (dr_glstate ds)
                              ++ GlBindFramebuffer GL_FRAMEBUFFER (rt_id rt)
                                 :: ccs |}) in *.
    assert (E2 : exists ds2,
              gl_end_render_pass b ds1 = Some (tt, ds2) /\
              current_rt ds2 = None /\ dr_glstate ds2 = default_glstate /\
              dr_gs ds2 = dr_gs ds /\
              gl_cmds ds2
              = gl_cmds ds1
                ++ (if rt_resolve_id rt =? 0 then []
                    else [GlBindFramebuffer GL_READ_FRAMEBUFFER (rt_id rt);
                          GlBindFramebuffer GL_DRAW_FRAMEBUFFER
                            (rt_resolve_id rt)]
                         ++ rcs
                         ++ [GlBindFramebuffer GL_FRAMEBUFFER (rt_id rt)])
                ++ ics).
    { unfold gl_end_render_pass. erewrite bind_eq by reflexivity.
      cbn [current_rt ds1].
      rewrite (bind_eq _ _ _ _ _
                 (end_pass_run b rt ds1 gl rt rcs ics Hg eq_refl Hr Hi)).
      eexists. split; [reflexivity|]. cbn. repeat split. }
    destruct E2 as (ds2 & E2 & Hcur2 & Hst2 & Hgs2 & Hcmds2).
    assert (Hg2 : glctx (dr_gs ds2) = Some gl) by (rewrite Hgs2; exact Hg).
    pose proof (gl_begin_render_pass_run rt ds2 gl ccs Hg2 Hcur2 Hc) as E3.
    rewrite Hst2 in E3. cbn [reset_write_masks_cmds default_glstate
      color_write_mask depth_write_mask stencil_write_mask scissor_test
      Z.eqb app] in E3.
    eexists ds1, ds2, _.
    split; [exact E1|]. split; [reflexivity|]. split; [reflexivity|].
    split; [reflexivity|]. split; [reflexivity|].
    split; [exact E2|]. split; [exact Hcur2|]. split; [exact Hst2|].
    split; [exact Hgs2|]. split; [exact Hcmds2|].
    split; [exact E3|]. reflexivity.
Qed.

Lemma load_pass_preserves_contents_witness :
  exists rtl ds1 cs,
    default_rt_load (gs demo_offscreen_gl) = Some rtl /\
    gl_begin_render_pass rtl demo_draw = Some (tt, ds1) /\
    gl_cmds ds1
    = gl_cmds demo_draw ++ reset_write_masks_cmds (dr_glstate demo_draw)
      ++ GlBindFramebuffer GL_FRAMEBUFFER (rt_id rtl) :: cs /\
    clears_nothing cs.
Proof.
  assert (E : gl_init demo_build demo_driver demo_fresh_offscreen_gl
              = Some (0, demo_offscreen_gl)) by (vm_compute; reflexivity).
  assert (G : dr_gs demo_draw = gs demo_offscreen_gl) by reflexivity.
  assert (C : current_rt demo_draw = None) by reflexivity.
  destruct (load_pass_preserves_contents demo_build demo_driver
              demo_fresh_offscreen_gl demo_offscreen_gl 0 demo_draw E
              ltac:(lia) G C)
    as (rt & rtl & _ & Hrtl & (ds1 & cs & H1 & H2 & H3) & _).
  exists rtl, ds1, cs.
  split; [exact Hrtl|]. split; [exact H1|]. split; [exact H2|exact H3].
Defined.

Lemma render_pass_protocol_witness :
  exists ds1 ds2,
    gl_begin_render_pass demo_rt demo_draw = Some (tt, ds1) /\
    current_rt ds1 = Some demo_rt /\
    gl_end_render_pass demo_build ds1 = Some (tt, ds2) /\
    current_rt ds2 = None /\
    gl_end_render_pass demo_build ds2 = None.
Proof.
  assert (G : exists gl, glctx (dr_gs demo_draw) = Some gl)
    by (eexists; vm_compute; reflexivity).
  assert (C : exists ccs, clear_cmds demo_rt = Some ccs)
    by (eexists; vm_compute; reflexivity).
  assert (R : exists rcs, resolve_cmds demo_build demo_rt = Some rcs)
    by (eexists; vm_compute; reflexivity).
  assert (I : exists ics, invalidate_cmds demo_rt = Some ics)
    by (eexists; vm_compute; reflexivity).
  destruct G as (gl & G), C as (ccs & C), R as (rcs & R), I as (ics & I).
  destruct (render_pass_protocol demo_build demo_rt demo_draw gl ccs rcs ics
              G C R I) as (_ & H).
  destruct (H eq_refl)
    as (_ & ds1 & ds2 & ds3 & E1 & C1 & _ & _ & _ & E2 & C2 & _ & G2 & _).
  exists ds1, ds2. split; [exact E1|]. split; [exact C1|].
  split; [exact E2|]. split; [exact C2|].
  unfold gl_end_render_pass, bind, gets. rewrite C2. reflexivity.
Defined.

(** ** Draw timing and presentation *)

Lemma timer_cmd_run c ds gl t :
  glctx (dr_gs ds) = Some gl -> timer (dr_gs ds) = Some t ->
  timer_cmd c ds
  = Some (tt, {| dr_gs := dr_gs ds; dr_glstate := dr_glstate ds;
                 current_rt := current_rt ds;
                 gl_cmds := gl_cmds ds
                            ++ match t with
                               | timer_noop => []
                               | _ => [c t]
                               end |}).
Proof.
  intros Hg Ht. unfold timer_cmd. erewrite bind_eq by reflexivity.
  rewrite Ht. destruct t.
  - apply (emit_run _ _ gl Hg).
  - apply (emit_run _ _ gl Hg).
  - apply (emit_run [] _ gl Hg).
Qed.

Lemma timer_result_run o q ds gl t :
  glctx (dr_gs ds) = Some gl -> timer (dr_gs ds) = Some t ->
  timer_result o q ds
  = Some (match t with timer_noop => 0 | _ => query_result o q end,
          {| dr_gs := dr_gs ds; dr_glstate := dr_glstate ds;
             current_rt := current_rt ds;
             gl_cmds := gl_cmds ds
                        ++ match t with
                           | timer_noop => []
                           | _ => [GlGetQueryObject t q]
                           end |}).
Proof.
  intros Hg Ht. unfold timer_result. erewrite bind_eq by reflexivity.
  rewrite Ht. destruct t.
  - rewrite (bind_eq _ _ _ _ _ (emit_run _ _ gl Hg)). reflexivity.
  - rewrite (bind_eq _ _ _ _ _ (emit_run _ _ gl Hg)). reflexivity.
  - unfold ret. destruct ds. cbn. rewrite app_nil_r. reflexivity.
Qed.

Lemma to_int64_small z : 0 <= z < 2 ^ 63 -> to_int64 z = z.
Proof.
  intros H. unfold to_int64. rewrite Z.mod_small by lia.
  destruct (z <? 2 ^ 63) eqn:E; [reflexivity|].
  apply Z.ltb_ge in E. lia.
Qed.

(** X29.  The draw time exists only with the HUD.  Without it
    [gl_begin_draw] starts no timer and [gl_query_draw_time] returns
    [NGL_ERROR_INVALID_USAGE], stores nothing and issues no command.  With
    it, on a build that is not macOS, [gl_begin_draw] records a timestamp
    in query 0 and [gl_query_draw_time] one in query 1, reads both and
    stores their difference, which is the elapsed time whenever the two
    timestamps are in order and below [2^63]; through the no-op timer
    functions (no timer support) no command is issued and the time stored
    is 0. *)
Theorem draw_time_needs_hud (b : build) (o : draw_oracle) (ds : drawst)
    (gl : glcontext) (t : timer_funcs) :
  glctx (dr_gs ds) = Some gl -> timer (dr_gs ds) = Some t ->
  is_darwin b = false ->
  (hud (config (dr_gs ds)) = false ->
   gl_begin_draw b ds = Some (0, ds) /\
   gl_query_draw_time b o ds = Some ((NGL_ERROR_INVALID_USAGE, None), ds)) /\
  (hud (config (dr_gs ds)) = true ->
   exists ds1 ds2,
     gl_begin_draw b ds = Some (0, ds1) /\
     gl_query_draw_time b o ds1
     = Some ((0, Some (match t with
                       | timer_noop => 0
                       | _ => to_int64 (query_result o 1 - query_result o 0)
                       end)), ds2) /\
     gl_cmds ds1 = gl_cmds ds ++ match t with
                                 | timer_noop => []
                                 | _ => [GlQueryCounter t 0]
                                 end /\
     gl_cmds ds2 = gl_cmds ds1 ++ match t with
                                  | timer_noop => []
                                  | _ => [GlQueryCounter t 1;
                                          GlGetQueryObject t 0;
                                          GlGetQueryObject t 1]
                                  end /\
     (0 <= query_result o 0 <= query_result o 1 ->
      query_result o 1 < 2 ^ 63 ->
      to_int64 (query_result o 1 - query_result o 0)
      = query_result o 1 - query_result o 0)).
Proof.
  intros Hg Ht Hd. split.
  - intros Hh. unfold gl_begin_draw, gl_query_draw_time.
    unfold bind, gets, ret. rewrite Hh. auto.
  - intros Hh. unfold gl_begin_draw, gl_query_draw_time.
    erewrite bind_eq by reflexivity. rewrite Hh, Hd.
    rewrite (bind_eq _ _ _ _ _ (timer_cmd_run _ ds gl t Hg Ht)).
    eexists _, _. split; [reflexivity|].
    erewrite bind_eq by reflexivity. cbn [dr_gs]. rewrite Hh. cbn [negb].
    erewrite bind_eq by (apply (timer_cmd_run _ _ gl t); assumption).
    erewrite bind_eq by (apply (timer_result_run _ _ _ gl t); assumption).
    erewrite bind_eq by (apply (timer_result_run _ _ _ gl t); assumption).
    unfold ret.
    match goal with
    | |- Some (_, Some ?a, _) = _ /\ _ =>
        assert (Hv : a = match t with
                         | timer_noop => 0
                         | _ => to_int64 (query_result o 1 - query_result o 0)
                         end) by (destruct t; reflexivity);
        rewrite Hv
    end.
    split; [reflexivity|].
    cbn [gl_cmds]. split; [reflexivity|]. split.
    + destruct t; cbn; rewrite <- ?app_assoc; reflexivity.
    + intros H1 H2. apply to_int64_small. lia.
Qed.

Lemma draw_time_needs_hud_witness :
  exists ds1 ds2,
    gl_begin_draw demo_build demo_draw_hud = Some (0, ds1) /\
    gl_query_draw_time demo_build demo_draw_oracle ds1
    = Some ((0, Some 500), ds2).
Proof.
  assert (G : exists gl, glctx (dr_gs demo_draw_hud) = Some gl)
    by (eexists; vm_compute; reflexivity).
  destruct G as (gl & G).
  destruct (draw_time_needs_hud demo_build demo_draw_oracle demo_draw_hud gl
              timer_core G eq_refl eq_refl) as (_ & H).
  destruct (H eq_refl) as (ds1 & ds2 & E1 & E2 & _).
  exists ds1, ds2. split; [exact E1|exact E2].
Defined.

(** ** End of a frame *)

Lemma bind_ret_l {S A B} (a : A) (k : A -> M S B) s : bind (ret a) k s = k a s.
Proof. reflexivity. Qed.

Lemma gl_end_draw_run o t ds gl :
  glctx (dr_gs ds) = Some gl ->
  gl_end_draw o t ds
  = Some (check_gl_error o,
          {| dr_gs := dr_gs ds; dr_glstate := dr_glstate ds;
             current_rt := current_rt ds;
             gl_cmds :=
               gl_cmds ds
               ++ (match capture_func (dr_gs ds),
                         capture_buffer (config (dr_gs ds)) with
                   | Some f, Some _ => [Capture f]
                   | _, _ => []
                   end)
               ++ [GlCheckError]
               ++ (if presents (config (dr_gs ds)) then
                     (if set_surface_pts (config (dr_gs ds))
                      then [SetSurfacePts t] else [])
                     ++ [SwapBuffers]
                   else []) |}).
Proof.
  intros Hg. unfold gl_end_draw, presents.
  erewrite bind_eq by reflexivity.
  assert (E1 : forall B cs (k : unit -> M drawst B),
             bind (emit cs) k ds
             = k tt {| dr_gs := dr_gs ds; dr_glstate := dr_glstate ds;
                       current_rt := current_rt ds;
                       gl_cmds := gl_cmds ds ++ cs |}).
  { intros B cs k. rewrite (bind_eq _ _ _ _ _ (emit_run cs ds gl Hg)).
    reflexivity. }
  replace (match capture_func (dr_gs ds), capture_buffer (config (dr_gs ds)) with
           | Some f, Some _ => emit [Capture f]
           | _, _ => ret tt
           end)
    with (emit (match capture_func (dr_gs ds),
                      capture_buffer (config (dr_gs ds)) with
                | Some f, Some _ => [Capture f]
                | _, _ => []
                end))
    by (destruct (capture_func (dr_gs ds)), (capture_buffer (config (dr_gs ds)));
        reflexivity).
  rewrite E1. cbv beta.
  erewrite bind_eq by (apply (emit_run _ _ gl); exact Hg).
  cbn [dr_gs dr_glstate current_rt gl_cmds].
  destruct (negb (is_external (config (dr_gs ds)))
            && negb (offscreen (config (dr_gs ds)))).
  - destruct (set_surface_pts (config (dr_gs ds))).
    + erewrite bind_eq
        by (erewrite bind_eq by (apply (emit_run _ _ gl); exact Hg);
            apply (emit_run _ _ gl); exact Hg).
      unfold ret. cbn [dr_gs dr_glstate current_rt gl_cmds].
      rewrite <- !app_assoc. reflexivity.
    + erewrite bind_eq
        by (rewrite bind_ret_l; apply (emit_run _ _ gl); exact Hg).
      unfold ret. cbn [dr_gs dr_glstate current_rt gl_cmds].
      rewrite <- !app_assoc. reflexivity.
  - rewrite bind_ret_l. unfold ret. rewrite <- !app_assoc. reflexivity.
Qed.

(** X30.  At the end of a frame [gl_end_draw] captures, checks, then
    presents.  On a context with a native context it always returns, with
    the result of the error check, and changes nothing but the commands
    issued: the capture function runs exactly when the context has one and
    the configuration a capture buffer, before the error check; after the
    check the buffers are swapped exactly when the context draws on a
    surface of the platform, so an offscreen or external context never
    swaps, and the presentation time is set, just before the swap, exactly
    when the configuration asks for it.  A failed error check does not
    prevent the presentation. *)
Theorem end_draw_presents_onscreen_only (o : draw_oracle) (t : Q)
    (ds : drawst) (gl : glcontext) :
  glctx (dr_gs ds) = Some gl ->
  exists ds' pre post,
    gl_end_draw o t ds = Some (check_gl_error o, ds') /\
    dr_gs ds' = dr_gs ds /\ dr_glstate ds' = dr_glstate ds /\
    current_rt ds' = current_rt ds /\
    gl_cmds ds' = gl_cmds ds ++ pre ++ GlCheckError :: post /\
    pre = match capture_func (dr_gs ds),
                capture_buffer (config (dr_gs ds)) with
          | Some f, Some _ => [Capture f]
          | _, _ => []
          end /\
    forallb is_present post = true /\
    (In SwapBuffers post <-> presents (config (dr_gs ds)) = true) /\
    (forall t', In (SetSurfacePts t') post <->
       t' = t /\ presents (config (dr_gs ds)) = true /\
       set_surface_pts (config (dr_gs ds)) = true) /\
    (post <> [] -> last post GlCheckError = SwapBuffers).
Proof.
  intros Hg. rewrite (gl_end_draw_run o t ds gl Hg).
  eexists _, _, _. split; [reflexivity|]. cbn [dr_gs dr_glstate current_rt gl_cmds].
  split; [reflexivity|]. split; [reflexivity|]. split; [reflexivity|].
  split; [reflexivity|]. split; [reflexivity|].
  destruct (presents (config (dr_gs ds)));
    destruct (set_surface_pts (config (dr_gs ds))); cbn.
  all: split; [reflexivity|].
  all: split; [intuition (try discriminate; auto)|].
  all: split; [|intuition (try discriminate; try congruence; auto)].
  all: intros t'; split;
    [ intros H; intuition (try discriminate; try congruence; auto)
    | intros (-> & H1 & H2); try discriminate H1; try discriminate H2; auto ].
Qed.

Lemma end_draw_presents_onscreen_only_witness :
  exists ds',
    gl_end_draw demo_draw_oracle 0%Q demo_draw_hud = Some (0, ds') /\
    gl_cmds ds' = [GlCheckError; SwapBuffers].
Proof.
  assert (G : exists gl, glctx (dr_gs demo_draw_hud) = Some gl)
    by (eexists; vm_compute; reflexivity).
  destruct G as (gl & G).
  destruct (end_draw_presents_onscreen_only demo_draw_oracle 0%Q
              demo_draw_hud gl G)
    as (ds' & pre & post & E & _ & _ & _ & Hc & _).
  assert (E' : exists s, gl_end_draw demo_draw_oracle 0%Q demo_draw_hud
                         = Some (0, s) /\
                         gl_cmds s = [GlCheckError; SwapBuffers])
    by (eexists; vm_compute; split; reflexivity).
  destruct E' as (s & E' & Hs).
  rewrite E' in E. inversion E; subst ds'.
  exists s. split; [exact E'|exact Hs].
Defined.
